(* ===== verification/_CoqProject ===== *)
-Q . S2P
Prelude.v
Protocol.v
Sockets.v
SocketsTheorems.v
MdMcast.v
MdStream.v
SnapshotClient.v
MdTheorems.v
Clearing.v
ClearingTheorems.v
OrderLadder.v
LadderSpec.v
LadderRep.v
LadderMatch.v
LadderRefine.v
LadderProps.v
LadderReplay.v
LadderTheorems.v
Broker.v
BrokerRefine.v
BrokerTheorems.v
BrokerAnswers.v
Validator.v
ClientHandler.v
HandlerInv.v
HandlerTheorems.v
HandlerResponses.v
Exchange.v
StreamParser.v
StreamTheorems.v
BotBook.v
BotBookTheorems.v
SnapshotWriter.v
SnapshotTheorems.v
MdSnapshots.v
MdSnapshotsTheorems.v
MdClient.v
MdClientTheorems.v
BboPrinter.v
BboPrinterTheorems.v
WebData.v
WebJson.v
WebDataTheorems.v
MdRecovery.v
WebProgram.v
Viewers.v
ViewersTheorems.v
PcapPrinter.v
PcapPrinterTheorems.v
MarketFeed.v
ExchangeFeed.v
Settlement.v
BotFeed.v
OeClient.v
OeClientTheorems.v
Strategy.v
FairValue.v
StackManager.v
OrderJournal.v
StackTheorems.v
MarketMaker.v
MarketMakerTheorems.v
Takers.v
TakerTheorems.v
BotPrograms.v
BotTypes.v
ClientTypes.v
ProgramMakers.v
BotProgramsTheorems.v
Server.v
ServerTheorems.v
MatchingEngine.v
MatchingEngineTheorems.v
EngineAnswers.v
