(* ===== verification/Prelude.v ===== *)
(** * NDFEX, the Notre Dame fake exchange: a verification library

    ** The program

    NDFEX is a small electronic exchange.  Traders connect by TCP to the order
    entry side, which cuts the byte stream into requests
    ([order_entry/oe_stream_parser.H]), checks sessions and orders
    ([oe_client_handler.cpp], [oe_validator.cpp]) and passes requests over a
    queue to the matching engine's thread.  There [me_broker.H] runs each request
    on the order ladder of its symbol ([order_ladder.H]) and turns the ladder's
    callbacks into responses on the queue back, market data packets
    ([md_mcast.cpp]) and clearing datagrams ([clearing_mcast.cpp]).  The snapshot
    process reads the market data feed ([market_data/snapshot_client.cpp]), keeps
    the open orders and multicasts snapshots of them
    ([market_data/snapshot_writer.cpp]).  Bots join the feed through a snapshot
    and keep order books ([bots/md_client.cpp], [bots/order_book.cpp]); the web
    page follows the clearing feed ([web_data/clearing_client.cpp], [web_data.cpp]).  The bots trade
    through their order entry client ([bots/oe_client.cpp]) as their strategies
    decide: market makers that quote around a fair value and takers; each bot
    program runs several strategies over one connection.

    ** The files and the code they model

    - [Prelude]: machine integers ([u8] .. [s32], the places where C++ wraps are
      written out), the state and exception monad [M] with its rules, Hoare style
      lemmas ([wp], [keeps]), [double]s whose values are whole numbers ([to_double])
      and [nanotime()] of [utils.cpp], which computes in them ([clock_nanotime]), the
      clock and network parameters ([World]).
    - [Protocol]: [md_protocol.H], [oe_protocol.H], [clearing_protocol.H] and
      the queue structs: records with byte codecs and their laws ([CodecOk]).
    - [MdMcast] ([matching_engine/md_mcast.cpp]), [MdStream] (the frames on the
      wire), [SnapshotClient] ([market_data/snapshot_client.cpp]), [MdTheorems].
    - [Clearing] ([clearing_mcast.cpp], [web_data/clearing_client.cpp]),
      [ClearingTheorems].
    - [OrderLadder] ([matching_engine/order_ladder.H]): nodes on a heap, pool,
      intrusive lists, level maps and id map, every subscriber call.  [LadderSpec]
      is the abstract price-time book, [LadderRep] the representation relation,
      [LadderMatch] and [LadderRefine] the runs of the operations, [LadderProps]
      sequences of operations, [LadderReplay] the ladder under any subscriber,
      [LadderTheorems] the properties.
    - [Broker] ([matching_engine/me_broker.H]), [BrokerRefine] (a turn against the
      callbacks of the ladders), [BrokerTheorems], [BrokerAnswers] (what a turn
      answers and which orders it knows, whatever ids the requests carry).
    - [Validator] ([oe_validator.cpp], and the symbols listed by
      [matching_engine.cpp]), [ClientHandler] ([oe_client_handler.cpp]),
      [HandlerInv] (its invariant), [HandlerTheorems], [HandlerResponses].
    - [Exchange] ([matching_engine.cpp]): the order entry thread and the matching
      thread as a step relation over the two queues, with the history of the
      requests served; the condition under which two orders carry one id.
    - [StreamParser] ([oe_stream_parser.H]) against the interface
      [RequestHandler], of which the client handler is the instance;
      [StreamTheorems].  [Server] ([oe_server.cpp]): the epoll loop around parser
      and handler, with the kernel's table of open descriptors; [ServerTheorems].
    - [BotBook] ([bots/order_book.cpp]), [BotBookTheorems].
    - [SnapshotWriter] ([market_data/snapshot_writer.cpp]), [SnapshotTheorems].
    - [MdClient] ([bots/md_client.cpp]), [MdClientTheorems] (the feed),
      [MdRecovery] (joining it).
    - [MarketFeed], [ExchangeFeed], [BotFeed]: the pieces put together: the
      ladders of all symbols, the engine's feed, and the books of a bot that
      follows it.  [Settlement]: the trades of the books, followed through the
      responses and the clearing feed.
    - [OeClient] ([bots/oe_client.cpp]), [OeClientTheorems].
    - [Strategy]: the state the strategies of one program share, against the
      interfaces [OrderEntry] and [MarketView]; [OrderJournal] records what a
      strategy asks for and replays it ([QuietEntry] is the interface the
      strategies' theorems need, which [OeClient] meets).
    - [FairValue] ([bots/fair_value.H] and its two implementations),
      [StackManager] ([stack_manager.cpp], [fair_value_stack_mm.cpp]),
      [StackTheorems], [MarketMaker] ([fair_value_mm.cpp]),
      [MarketMakerTheorems], [Takers] ([imbalance_taker.cpp],
      [random_taker.cpp], [pressure_taker.cpp], [resting_orders.cpp]),
      [TakerTheorems].
    - The programs.  [MatchingEngine] ([matching_engine.cpp]): the users file, the
      two threads and the [running] flag; [MatchingEngineTheorems],
      [EngineAnswers].  [MdSnapshots] ([md_snapshots.cpp]) with its two threads;
      [MdSnapshotsTheorems].  [BotPrograms] ([bot_runner.cpp],
      [stable_bot_runner.cpp], [smarter_bots.cpp], [reject_bot.cpp]): the strategies
      of each over shared clients, which they poll through the interface [Polled];
      [ProgramMakers] (the makers the programs configure meet the conditions of the
      makers' theorems); [BotTypes] (the strategies against the types of the code, for any client
      that is a [TypedEntry] and any market that is a [TypedView]), [ClientTypes]
      (the clients are), [BotProgramsTheorems].
    - [BboPrinter] ([viewer/bbo_printer.cpp]), [BboPrinterTheorems], [PcapPrinter]
      ([viewer/pcap_printer.cpp]), [PcapPrinterTheorems]; [WebData]
      ([web_data/web_data.cpp]), [WebDataTheorems], [WebJson] (a JSON reader for
      the page's text), [WebProgram] (its connections and main loop); [Viewers]
      ([bots/print_snapshots.cpp], [viewer/md_viewer.cpp]), [ViewersTheorems].
    - [Sockets]: the constructors that open sockets, in all components, with the
      programs that are little else ([mcast_listener.cpp], the start of
      [print_snapshots.cpp]); [SocketsTheorems].

    A C++ class [C] is the Module [C] (or its methods at the top of its file); its
    fields are the record [C.t], a method is a definition of its name in [M t]: it
    takes the object's state and returns a result or the exception thrown, with
    the state at that moment.  What C++ leaves undefined (a null or dangling
    pointer, a read past a buffer) is the exception [undefined_behaviour].

    ** What the theorems show

    - The ladder's pointer structure refines the abstract book: same outcomes,
      same callbacks, never a dangling pointer; matching is by price and time and
      conserves quantity; with valid sides the book is never crossed; what
      modify really does to a partially filled order.
    - The broker serves every request the handler can emit, turns every callback
      into its messages, and throws only when the network refuses a packet.  In every
      interleaving of the two threads the broker serves and answers its whole
      queue, with one more exception: the ids of orders are the values of
      [nanotime()], a clock that may read the same twice and is rounded to a
      [double], and a second order with the id of the first ends the matching
      thread ([tied_ids_stop_engine]).  The theorems about the whole exchange say
      "unless two orders were given one id"; none assumes that the clock's readings
      differ.  (That trades are settled needs more, ids that differ in their low 32
      bits, which is a condition of its theorem.)
    - The client handler's tables stay consistent, its requests are ones the
      engine can serve, its decisions and responses are as documented: a response
      goes out whole, or its socket refuses it and the session is closed.
    - The stream parser reassembles requests from any fragmentation; the server
      hands the requests of all connections of a batch of events to the handler,
      beginnings of requests kept for later, and no session outlives its connection.
    - The market data publisher's packets are whole numbered frames and a reader
      gets back what was published; the snapshot writer holds exactly the open
      orders of the feed and publishes them; a bot that joins through a snapshot
      and follows the feed has exactly the market's open orders.  A client reads an
      order it has just freed ([bots/order_book.cpp], line 141): what it finds there
      is a parameter, and only the totals of the prices depend on it.  Theorems
      about these totals say so in a last clause: they hold if the memory still
      reads the same, and if no total exceeds 32 bits.
    - Clearing adds up: positions, volumes and profits are the sums of the fills,
      modulo 2^32, and sum to zero over the clients.
    - From the ladders to the bots: in any run of the exchange in which no order
      traded in part is modified in place, the feed shows exactly the ladders, and so
      do the books of the bots that read it.  Every
      trade the books' specification matches is a fill reported to the owner of
      the resting order and to the sender of the request, and clearing counts it
      for the same two.
    - A bot's requests reach the exchange as they were made, as far as its socket
      takes them: a request taken in part is never completed, and those behind it
      are out of step.  Its positions are the sums of its fills.
    - The strategies know the orders they have open: their lists are what their
      requests leave open, at the prices their fair value gives; the market maker's
      bid is below its ask, and so are the stacks' when there is a positive bid to
      stack; the random walk stays in its range.
    - The exchange's program refines the step relation of handler and broker,
      from the bytes on the sockets, under any schedule of its threads; only a
      refused packet or two orders with one id stop the matching thread; otherwise
      every request that waits is answered by its next turn.  The snapshot program's
      snapshots are each of the orders some part of the feed left open.
    - The programs of the bots number their orders without gap or repetition and
      ask only for what the fields of the messages can carry; as far as the socket
      takes it, it arrives as they asked.
    - The two capture printers and the market data client agree on every feed
      without gaps; the web page shows what was cleared, and creates no profit, up to
      the rounding of doubles; its text is JSON, and every open browser that can be written to gets it.
    - Every constructor that opens sockets configures all of them or stops at the
      first call that fails, with its message.
    - The behaviours that are not as meant are theorems too (a gap that stops a
      client for ever, a torn snapshot, colliding order ids, a loop that does not
      end, negative prices refused): each is proved of the definitions.

    ** Bounds and fuel

    Loops that are not structural take fuel and throw [out_of_fuel] without it.
    [match_] takes the number of resting orders plus one, the parsers of packets
    the number of bytes plus one: each round consumes an order, or at least one
    byte; the refinement and feed theorems show the result is never
    [out_of_fuel].  A message of declared length zero really loops
    ([zero_length_never_ends]).  [hw_fuel], [fw_fuel], [cw_fuel] and [sv_fuel] bound how long
    an unready socket, a missing snapshot and a missing login response are waited
    for and how often one event's connection is read: the code waits for
    ever, and the theorems name the bound as a hypothesis or allow [out_of_fuel]
    as an outcome.

    ** Parameters

    The clock, the answers of [send], [sendto], [recvfrom] and [setsockopt], the
    order in which an unordered map is walked, [std::sort] (a sorted permutation)
    and what the memory of an erased object reads as are fields of the classes
    [World], [BrokerWorld], [HandlerWorld], [SnapshotWorld], [FeedWorld],
    [ParserWorld], [ServerWorld], [ClientWorld], [BotWorld], [WalkWorld],
    [PageWorld] and [Kernel],
    indexed by the number of the call.  Witnesses instantiate them.

    ** Not modelled

    Logging, signal handling and argument parsing; most destructors;
    the capacity of the queues; memory exhaustion.  Of the programs: the reading of
    arguments, the affinity of threads, the text of logs and of printed lines beyond
    the values in them.  The libraries of the web server and of the terminal: which
    handlers the first calls is a sequence of events, what the second is asked to
    draw is a value.  How a stream formats a [double] is a field of [PageWorld].
    [trading_system.cpp] and [clearing_data.cpp] are not in the build and do not
    compile. *)
From stdpp Require Export base gmap list strings pretty sorting.
From Stdlib Require Export ZArith Lia.
From Stdlib Require Import Init.Byte.

#[global] Open Scope Z_scope.

(** ** Strings *)

Lemma append_cons c a b : String.String c a +:+ b = String.String c (a +:+ b).
Proof. done. Qed.
Lemma string_app_assoc (a b c : String.string) : (a +:+ b) +:+ c = a +:+ (b +:+ c).
Proof. induction a as [|x a IH]; [done|]. by rewrite !append_cons, IH. Qed.
Lemma string_app_nil_r (a : String.string) : a +:+ String.EmptyString = a.
Proof. induction a as [|x a IH]; [done|]. by rewrite append_cons, IH. Qed.
Lemma string_length_app (a b : String.string) : String.length (a +:+ b) = (String.length a + String.length b)%nat.
Proof. induction a as [|x a IH]; [done|]. rewrite append_cons. simpl. by rewrite IH. Qed.

(** ** Machine integers

    An integer of C++ is a [Z]; every place where the code narrows, wraps or
    reinterprets it applies one of the functions below. *)

Definition u8 (z : Z) : Z := z mod 2 ^ 8.
Definition u16 (z : Z) : Z := z mod 2 ^ 16.
Definition u32 (z : Z) : Z := z mod 2 ^ 32.
Definition u64 (z : Z) : Z := z mod 2 ^ 64.
Definition s32 (z : Z) : Z := (z + 2 ^ 31) mod 2 ^ 32 - 2 ^ 31.

Definition is_u8 (z : Z) : Prop := 0 <= z < 2 ^ 8.
Definition is_u16 (z : Z) : Prop := 0 <= z < 2 ^ 16.
Definition is_u32 (z : Z) : Prop := 0 <= z < 2 ^ 32.
Definition is_u64 (z : Z) : Prop := 0 <= z < 2 ^ 64.
Definition is_s32 (z : Z) : Prop := - 2 ^ 31 <= z < 2 ^ 31.

#[global] Instance is_u8_dec z : Decision (is_u8 z) := and_dec _ _.
#[global] Instance is_u16_dec z : Decision (is_u16 z) := and_dec _ _.
#[global] Instance is_u32_dec z : Decision (is_u32 z) := and_dec _ _.
#[global] Instance is_u64_dec z : Decision (is_u64 z) := and_dec _ _.
#[global] Instance is_s32_dec z : Decision (is_s32 z) := and_dec _ _.

(** [words] brings the width functions and ranges down to [lia]'s language. *)
Ltac words :=
  unfold u8, u16, u32, u64, s32, is_u8, is_u16, is_u32, is_u64, is_s32 in *;
  rewrite ?Z.pow_pos_fold in *; Z.div_mod_to_equations; lia.

Lemma u8_range z : is_u8 (u8 z).
Proof. words. Qed.

Lemma u16_range z : is_u16 (u16 z).
Proof. words. Qed.

Lemma u32_range z : is_u32 (u32 z).
Proof. words. Qed.

Lemma u64_range z : is_u64 (u64 z).
Proof. words. Qed.

Lemma s32_range z : is_s32 (s32 z).
Proof. words. Qed.

Lemma u8_id z : is_u8 z → u8 z = z.
Proof. intros. by apply Z.mod_small. Qed.

Lemma u16_id z : is_u16 z → u16 z = z.
Proof. intros. by apply Z.mod_small. Qed.

Lemma u32_id z : is_u32 z → u32 z = z.
Proof. intros. by apply Z.mod_small. Qed.

Lemma u64_id z : is_u64 z → u64 z = z.
Proof. intros. by apply Z.mod_small. Qed.

Lemma s32_id z : is_s32 z → s32 z = z.
Proof. words. Qed.

Lemma s32_add z w : s32 (s32 z + w) = s32 (z + w).
Proof. words. Qed.

(** A price crosses the queues as a [uint32_t] and comes back as an
    [int32_t]: nothing is lost. *)
Lemma s32_u32 z : s32 (u32 z) = s32 z.
Proof. words. Qed.

Lemma u32_s32 z : u32 (s32 z) = u32 z.
Proof. words. Qed.

Lemma u32_u32 z : u32 (u32 z) = u32 z.
Proof. words. Qed.

Lemma u32_add_l a b : u32 (u32 a + b) = u32 (a + b).
Proof. unfold u32. by rewrite Z.add_mod_idemp_l. Qed.

Lemma u32_add_r a b : u32 (a + u32 b) = u32 (a + b).
Proof. unfold u32. by rewrite Z.add_mod_idemp_r. Qed.

Lemma u32_sub_l a b : u32 (u32 a - b) = u32 (a - b).
Proof. unfold u32. by rewrite Zminus_mod_idemp_l. Qed.

Create HintDb words.
Create Rewrite HintDb words.
#[export] Hint Resolve u8_range u16_range u32_range u64_range s32_range : words.
#[export] Hint Rewrite s32_u32 u32_s32 u32_u32 u32_add_l u32_add_r u32_sub_l : words.

(** ** Doubles

    A [double] whose value is an integer is that integer; operations round to 53
    significant bits, ties to even. *)

Definition round53 (z : Z) : Z :=
  if z <? 2^53 then z else
  let e := Z.log2 z - 52 in
  let q := z / 2^e in
  let r := z mod 2^e in
  let half := 2^(e - 1) in
  (if (half <? r) || (r =? half) && Z.odd q then q + 1 else q) * 2^e.

Definition to_double (z : Z) : Z := if z <? 0 then - round53 (- z) else round53 z.

(** The error is at most half a unit in the last place. *)
Lemma round53_error z : 0 ≤ z → 2^53 * Z.abs (round53 z - z) ≤ z.
Proof.
  intros Hz. unfold round53. destruct (Z.ltb_spec z (2^53)) as [|Hbig]; [lia|].
  assert (53 ≤ Z.log2 z) as Hl by (apply Z.log2_le_pow2; lia).
  set (e := Z.log2 z - 52). assert (1 ≤ e) as He by (unfold e; lia).
  assert (2^53 * 2^(e - 1) ≤ z) as Hle.
  { rewrite <- Z.pow_add_r by lia. replace (53 + (e - 1)) with (Z.log2 z) by (unfold e; lia). apply Z.log2_spec. lia. }
  assert (2^e = 2 * 2^(e - 1)) as E2 by (rewrite <- Z.pow_succ_r by lia; f_equal; lia).
  set (half := 2^(e - 1)) in *. assert (0 < half) as Hh by (apply Z.pow_pos_nonneg; lia).
  cbv zeta. rewrite E2. pose proof (Z.div_mod z (2 * half) ltac:(lia)) as Hd.
  pose proof (Z.mod_pos_bound z (2 * half) ltac:(lia)) as Hm.
  set (q := z / (2 * half)) in *. set (r := z mod (2 * half)) in *.
  assert (Z.abs ((if (half <? r) || (r =? half) && Z.odd q then q + 1 else q) * (2 * half) - z) ≤ half) as H.
  { destruct (Z.ltb_spec half r); simpl; [lia|]. destruct (Z.eqb_spec r half); simpl; [|lia]. destruct (Z.odd q); lia. }
  nia.
Qed.

Lemma to_double_error z : 2^53 * Z.abs (to_double z - z) ≤ Z.abs z.
Proof.
  unfold to_double. destruct (Z.ltb_spec z 0); [pose proof (round53_error (- z) ltac:(lia))|pose proof (round53_error z ltac:(lia))]; lia.
Qed.

Lemma to_double_id z : Z.abs z < 2^53 → to_double z = z.
Proof. intros H. pose proof (to_double_error z). lia. Qed.

(** ** The clock

    [nanotime()] of [matching_engine/utils.cpp] for a monotonic clock that reads
    [t] nanoseconds: the seconds times [1e9] plus the nanoseconds are added as
    doubles, so the result is exact only below 2^53, 104 days after the machine
    was started. *)
Definition clock_nanotime (t : Z) : Z :=
  let tv_sec := t / 1000000000 in
  let tv_nsec := t mod 1000000000 in
  u64 (to_double (to_double (to_double tv_sec * 1000000000) + tv_nsec)).

Lemma clock_nanotime_range t : is_u64 (clock_nanotime t).
Proof. apply u64_range. Qed.

Lemma clock_nanotime_id t : 0 ≤ t < 2^53 → clock_nanotime t = t.
Proof.
  intros Ht. pose proof (Z.div_mod t 1000000000 ltac:(lia)) as Hd. pose proof (Z.mod_pos_bound t 1000000000 ltac:(lia)) as Hm.
  unfold clock_nanotime. rewrite (to_double_id (t / _)), (to_double_id (_ * _)), (to_double_id (_ + _)) by lia. rewrite u64_id; [lia|]. unfold is_u64. lia.
Qed.

#[export] Hint Resolve clock_nanotime_range : words.

(** ** Bytes and little-endian integers

    A packed struct is copied to and from a buffer byte by byte ([memcpy],
    [reinterpret_cast]); x86 is little endian. *)

Definition byte_of_Z (z : Z) : byte :=
  match Byte.of_N (Z.to_N (u8 z)) with Some b => b | None => x00 end.
Definition Z_of_byte (b : byte) : Z := Z.of_N (Byte.to_N b).

#[global] Instance byte_eq_decision : EqDecision byte := Byte.byte_eq_dec.

Fixpoint le_split (n : nat) (z : Z) : list byte :=
  match n with
  | O => []
  | S n' => byte_of_Z z :: le_split n' (z / 2 ^ 8)
  end.

Fixpoint le_combine (bs : list byte) : Z :=
  match bs with
  | [] => 0
  | b :: bs' => Z_of_byte b + 2 ^ 8 * le_combine bs'
  end.

Lemma Z_of_byte_range b : is_u8 (Z_of_byte b).
Proof.
  unfold is_u8, Z_of_byte. pose proof (Byte.to_N_bounded b). lia.
Qed.

Lemma Z_of_byte_of_Z z : Z_of_byte (byte_of_Z z) = u8 z.
Proof.
  unfold byte_of_Z, Z_of_byte. pose proof (u8_range z) as [Hlo Hhi].
  destruct (Byte.of_N (Z.to_N (u8 z))) as [b|] eqn:E.
  - apply Byte.to_of_N in E. lia.
  - apply Byte.of_N_None_iff in E. lia.
Qed.

Lemma byte_of_Z_of_byte b : byte_of_Z (Z_of_byte b) = b.
Proof.
  unfold byte_of_Z. rewrite u8_id by apply Z_of_byte_range.
  unfold Z_of_byte. by rewrite N2Z.id, Byte.of_to_N.
Qed.

Lemma byte_of_Z_u8 z : byte_of_Z (u8 z) = byte_of_Z z.
Proof. unfold byte_of_Z. by rewrite (u8_id (u8 z)) by apply u8_range. Qed.

Lemma length_le_split n z : length (le_split n z) = n.
Proof. revert z; induction n as [|n IH]; intros z; simpl; [done|]. by rewrite IH. Qed.

Lemma le_combine_split n z : le_combine (le_split n z) = z mod 2 ^ (8 * Z.of_nat n).
Proof.
  revert z; induction n as [|n IH]; intros z; cbn [le_split le_combine].
  { by rewrite Z.mod_1_r. }
  rewrite IH, Z_of_byte_of_Z.
  replace (8 * Z.of_nat (S n)) with (8 + 8 * Z.of_nat n) by lia.
  rewrite Z.pow_add_r by lia. unfold u8.
  rewrite (Z.rem_mul_r z (2 ^ 8)) by lia. lia.
Qed.

Lemma le_combine_bound bs : 0 <= le_combine bs < 2 ^ (8 * Z.of_nat (length bs)).
Proof.
  induction bs as [|b bs IH]; cbn [le_combine length]; [lia|].
  pose proof (Z_of_byte_range b) as Hb. unfold is_u8 in Hb.
  replace (8 * Z.of_nat (S (length bs))) with (8 + 8 * Z.of_nat (length bs)) by lia.
  rewrite Z.pow_add_r by lia. lia.
Qed.

Lemma le_split_combine bs : le_split (length bs) (le_combine bs) = bs.
Proof.
  induction bs as [|b bs IH]; cbn [le_combine length le_split]; [done|].
  pose proof (Z_of_byte_range b) as Hb. unfold is_u8 in Hb. f_equal.
  - rewrite <- byte_of_Z_u8. unfold u8.
    rewrite Z.mul_comm, Z.mod_add by lia. rewrite Z.mod_small by lia.
    apply byte_of_Z_of_byte.
  - rewrite Z.mul_comm, Z.div_add by lia. by rewrite Z.div_small by lia.
Qed.

(** ** Exceptions, outcomes and the state monad of the code

    A C++ function of the exchange either returns or throws; what it has
    changed before it throws stays changed.  [undefined_behaviour] marks the
    places where the language promises nothing (a null or dangling pointer),
    [out_of_fuel] a loop that was cut short: theorems show that neither is
    reached. *)

Inductive exn :=
  | runtime_error (what : string)
  | undefined_behaviour (what : string)
  | out_of_fuel.

Inductive outcome (A : Type) :=
  | Ret (a : A)
  | Throw (e : exn).
Arguments Ret {A} a.
Arguments Throw {A} e.

#[global] Instance exn_eq_dec : EqDecision exn.
Proof. solve_decision. Defined.

#[global] Instance outcome_eq_dec {A} `{EqDecision A} : EqDecision (outcome A).
Proof. solve_decision. Defined.

Definition M (St A : Type) : Type := St → outcome A * St.

#[global] Instance M_ret {St} : MRet (M St) := λ A a s, (Ret a, s).
#[global] Instance M_bind {St} : MBind (M St) := λ A B k m s,
  match m s with
  | (Ret a, s') => k a s'
  | (Throw e, s') => (Throw e, s')
  end.

Section monad.
Context {St : Type}.

Definition throw {A} (e : exn) : M St A := λ s, (Throw e, s).
Definition gets {A} (f : St → A) : M St A := λ s, (Ret (f s), s).
Definition modify (f : St → St) : M St unit := λ s, (Ret tt, f s).
Definition when (b : bool) (m : M St unit) : M St unit := if b then m else mret tt.

Lemma bind_ret {A B} (m : M St A) (k : A → M St B) s a s' :
  m s = (Ret a, s') → mbind k m s = k a s'.
Proof. intros H. unfold mbind, M_bind. by rewrite H. Qed.

Lemma bind_throw {A B} (m : M St A) (k : A → M St B) s e s' :
  m s = (Throw e, s') → mbind k m s = (Throw e, s').
Proof. intros H. unfold mbind, M_bind. by rewrite H. Qed.

Lemma bind_assoc {A B C} (m : M St A) (k : A → M St B) (k' : B → M St C) s :
  mbind k' (mbind k m) s = mbind (λ a, mbind k' (k a)) m s.
Proof. unfold mbind, M_bind. by destruct (m s) as [[a|e] s']. Qed.

Lemma bind_inv {A B} (m : M St A) (k : A → M St B) s b s' :
  mbind k m s = (Ret b, s') →
  ∃ a s1, m s = (Ret a, s1) ∧ k a s1 = (Ret b, s').
Proof.
  unfold mbind, M_bind. destruct (m s) as [[a|e] s1]; [eauto|discriminate].
Qed.
End monad.

(** A program on a part of the state. *)
Definition zoom {St T A} (get : St → T) (put : T → St → St) (m : M T A) : M St A :=
  λ s, let '(r, t) := m (get s) in (r, put t s).

(** A loop over a list, for its effects: [for (auto& x : xs) f(x)]. *)
Fixpoint for_each {St A} (xs : list A) (f : A → M St unit) : M St unit :=
  match xs with
  | [] => mret tt
  | x :: xs => f x;; for_each xs f
  end.

Lemma for_each_app {St A} (f : A → M St unit) xs ys s :
  for_each (xs ++ ys) f s = (for_each xs f;; for_each ys f) s.
Proof.
  revert s. induction xs as [|x xs IH]; intros s; simpl; [done|].
  unfold mbind, M_bind in *. destruct (f x s) as [[[]|e] s']; [|done]. by rewrite IH.
Qed.

Lemma for_each_one {St A} (f : A → M St unit) x s : for_each [x] f s = f x s.
Proof. simpl. unfold mbind, M_bind. by destruct (f x s) as [[[]|e] s']. Qed.

(** What holds after a run: [Q] when it returns, [E] when it throws. *)
Section wp.
Context {St : Type} (E : St → Prop).

Definition wp {A} (m : M St A) (Q : A → St → Prop) (s : St) : Prop :=
  match m s with
  | (Ret a, s') => Q a s'
  | (Throw _, s') => E s'
  end.

Lemma wp_bind {A B} (m : M St A) (k : A → M St B) Q s :
  wp m (λ a, wp (k a) Q) s → wp (mbind k m) Q s.
Proof. unfold wp, mbind, M_bind. by destruct (m s) as [[a|e] s']. Qed.

Lemma wp_gets {A B} (f : St → A) (k : A → M St B) Q s : wp (k (f s)) Q s → wp (mbind k (gets f)) Q s.
Proof. done. Qed.

Lemma wp_modify {B} (f : St → St) (k : unit → M St B) Q s : wp (k tt) Q (f s) → wp (mbind k (modify f)) Q s.
Proof. done. Qed.

Lemma wp_mono {A} (m : M St A) (Q Q' : A → St → Prop) s :
  wp m Q s → (∀ a s', Q a s' → Q' a s') → wp m Q' s.
Proof. unfold wp. destruct (m s) as [[a|e] s']; auto. Qed.

(** A relation between the states before and after that every run of [m]
    respects, composed along a program. *)
Definition keeps (I : St → Prop) (R : St → St → Prop) {A} (m : M St A) : Prop :=
  ∀ s, I s → wp m (λ _ s', I s' ∧ R s s') s.

Context (I : St → Prop) (R : St → St → Prop) `{!PreOrder R}.

Lemma keeps_bind {A B} (m : M St A) (k : A → M St B) :
  keeps I R m → (∀ a, keeps I R (k a)) → keeps I R (mbind k m).
Proof.
  intros Hm Hk s Hs. apply wp_bind. eapply wp_mono; [by apply Hm|]. intros a s1 [H1 HR]. simpl.
  eapply wp_mono; [by apply Hk|]. intros b s2 [H2 HR2]. split; [done|]. by etrans.
Qed.

Lemma keeps_ret {A} (a : A) : keeps I R (mret a).
Proof. intros s Hs. by split. Qed.

Lemma keeps_gets {A} (f : St → A) : keeps I R (gets f).
Proof. intros s Hs. by split. Qed.

Lemma keeps_modify (f : St → St) : (∀ s, I s → I (f s) ∧ R s (f s)) → keeps I R (modify f).
Proof. intros Hf s Hs. by apply Hf. Qed.

Lemma keeps_throw {A} e : (∀ s, I s → E s) → keeps I R (throw e : M St A).
Proof. intros He s Hs. by apply He. Qed.

Lemma keeps_when b (m : M St unit) : keeps I R m → keeps I R (when b m).
Proof. intros Hm. destruct b; [done|apply keeps_ret]. Qed.

Lemma keeps_for_each {A} (f : A → M St unit) xs :
  (∀ x, x ∈ xs → keeps I R (f x)) → keeps I R (for_each xs f).
Proof.
  intros Hf. induction xs as [|x xs IH]; simpl; [apply keeps_ret|].
  apply keeps_bind; [by apply Hf; constructor|intros _; apply IH; intros y Hy; by apply Hf; constructor].
Qed.
End wp.

(** ** What the operating system answers

    The readings of [nanotime] and the results of [sendto] are not the
    program's: the n-th reading a component makes, and the result of its n-th
    send of a packet, are parameters. *)
Class World := {
  nanotime_at : nat → Z;
  sendto_rc : nat → list byte → Z;
}.

(** A clock that counts and a network that takes every packet, for examples. *)
Definition calm_world : World := {| nanotime_at := Z.of_nat; sendto_rc := λ _ b, Z.of_nat (length b) |}.

(** [mstep] runs one step of a monadic program whose head is known. *)
Ltac mstep := erewrite bind_ret; [|solve [reflexivity | eassumption]]; cbn beta.
Ltac msteps := repeat mstep.

(** A decidable fact about concrete data, by evaluation. *)
Ltac by_decide := refine (bool_decide_unpack _ _); vm_compute; exact I.

Create HintDb ndfex.
Create Rewrite HintDb ndfex.

(** Membership in a list given by its first elements or by concatenation. *)
Ltac list_in := rewrite ?elem_of_app, ?elem_of_cons; eauto.

Lemma filter_true {A} (P : A → Prop) `{!∀ x, Decision (P x)} (l : list A) : (∀ x, x ∈ l → P x) → filter P l = l.
Proof.
  induction l as [|x l IH]; intros Hl; [done|]. rewrite filter_cons_True by (apply Hl; constructor). f_equal. apply IH.
  intros y Hy. apply Hl. by constructor.
Qed.

Lemma filter_false {A} (P : A → Prop) `{!∀ x, Decision (P x)} (l : list A) : (∀ x, x ∈ l → ¬ P x) → filter P l = [].
Proof.
  induction l as [|x l IH]; intros Hl; [done|]. rewrite filter_cons_False by (apply Hl; constructor). apply IH.
  intros y Hy. apply Hl. by constructor.
Qed.

(** ** Finite maps *)

Lemma alter_Some {A} (f : A → A) (m : gmap Z A) i x :
  m !! i = Some x → alter f i m = <[i := f x]> m.
Proof.
  intros H. apply map_eq. intros j. destruct (decide (i = j)) as [<-|].
  - by rewrite lookup_insert_eq, lookup_alter_eq, H.
  - by rewrite lookup_insert_ne, lookup_alter_ne.
Qed.

Lemma alter_is_Some {A} (f : A → A) (m : gmap Z A) i j : is_Some (alter f i m !! j) ↔ is_Some (m !! j).
Proof. apply lookup_alter_is_Some. Qed.
#[export] Hint Rewrite @alter_is_Some : ndfex.
