(* ===== verification/Protocol.v ===== *)
(** * Wire protocols: [market_data/md_protocol.H], [order_entry/oe_protocol.H]
    and [matching_engine/clearing_protocol.H]

    Every packed struct is a record with a [codec]: its [sizeof], the bytes a
    [memcpy] of it produces and the record a [reinterpret_cast] of those bytes
    reads.  The three laws of [CodecOk] are proved once for the combinators and
    discharged for each struct by instance search. *)
From Stdlib Require Import Init.Byte Strings.String.
From S2P Require Import Prelude.

(** ** Codecs for packed structs *)

Record codec (A : Type) := Codec {
  c_size : nat;
  c_enc : A → list byte;
  c_dec : list byte → A;
  c_ok : A → Prop;
}.
Arguments Codec {A}.
Arguments c_size {A}.
Arguments c_enc {A}.
Arguments c_dec {A}.
Arguments c_ok {A}.

Class CodecOk {A} (c : codec A) : Prop := {
  enc_length : ∀ a, c_ok c a → length (c_enc c a) = c_size c;
  dec_enc : ∀ a rest, c_ok c a → c_dec c (c_enc c a ++ rest) = a;
  enc_dec : ∀ bs, (c_size c ≤ length bs)%nat → c_enc c (c_dec c bs) = take (c_size c) bs;
  dec_ok : ∀ bs, (c_size c ≤ length bs)%nat → c_ok c (c_dec c bs);
}.

Definition c_uint (n : nat) : codec Z := {|
  c_size := n;
  c_enc := le_split n;
  c_dec := λ bs, le_combine (take n bs);
  c_ok := λ z, 0 <= z < 2 ^ (8 * Z.of_nat n);
|}.

Definition c_s32 : codec Z := {|
  c_size := 4;
  c_enc := λ z, le_split 4 (u32 z);
  c_dec := λ bs, s32 (le_combine (take 4 bs));
  c_ok := is_s32;
|}.

Definition c_bytes (n : nat) : codec (list byte) := {|
  c_size := n;
  c_enc := λ bs, bs;
  c_dec := take n;
  c_ok := λ bs, length bs = n;
|}.

Definition c_pair {A B} (ca : codec A) (cb : codec B) : codec (A * B) := {|
  c_size := c_size ca + c_size cb;
  c_enc := λ ab, c_enc ca ab.1 ++ c_enc cb ab.2;
  c_dec := λ bs, (c_dec ca bs, c_dec cb (drop (c_size ca) bs));
  c_ok := λ ab, c_ok ca ab.1 ∧ c_ok cb ab.2;
|}.

Definition c_iso {A B} (f : A → B) (g : B → A) (c : codec A) : codec B := {|
  c_size := c_size c;
  c_enc := λ b, c_enc c (g b);
  c_dec := λ bs, f (c_dec c bs);
  c_ok := λ b, c_ok c (g b);
|}.

Abbreviation U8 := (c_uint 1).
Abbreviation U16 := (c_uint 2).
Abbreviation U32 := (c_uint 4).
Abbreviation U64 := (c_uint 8).
Abbreviation S32 := c_s32.
Infix "⊗" := c_pair (at level 48, left associativity).

#[global] Instance c_uint_ok n : CodecOk (c_uint n).
Proof.
  split; simpl.
  - intros. apply length_le_split.
  - intros z rest Hz. rewrite take_app_length' by by rewrite length_le_split.
    rewrite le_combine_split. by apply Z.mod_small.
  - intros bs Hn. rewrite <- (length_take_le bs n) at 1 by lia. apply le_split_combine.
  - intros bs Hn. pose proof (le_combine_bound (take n bs)) as H.
    by rewrite length_take_le in H by lia.
Qed.

#[global] Instance c_s32_ok : CodecOk c_s32.
Proof.
  split; cbn [c_size c_enc c_dec c_ok c_s32].
  - intros. apply length_le_split.
  - intros z rest Hz. rewrite take_app_length' by by rewrite length_le_split.
    rewrite le_combine_split. change (2 ^ (8 * Z.of_nat 4)) with (2 ^ 32).
    fold (u32 (u32 z)). autorewrite with words. by apply s32_id.
  - intros bs Hn. pose proof (le_combine_bound (take 4 bs)) as H.
    rewrite length_take_le in H by lia. autorewrite with words.
    rewrite u32_id by (unfold is_u32; lia).
    rewrite <- (length_take_le bs 4) at 1 by lia. apply le_split_combine.
  - intros. apply s32_range.
Qed.

#[global] Instance c_bytes_ok n : CodecOk (c_bytes n).
Proof.
  split; simpl; [done| |done|].
  - intros bs rest Hn. by rewrite take_app_length'.
  - intros. by apply length_take_le.
Qed.

#[global] Instance c_pair_ok {A B} (ca : codec A) (cb : codec B) :
  CodecOk ca → CodecOk cb → CodecOk (c_pair ca cb).
Proof.
  intros Ha Hb. split; simpl.
  - intros [a b] [H1 H2]; simpl in *. by rewrite length_app, !enc_length.
  - intros [a b] rest [H1 H2]; simpl in *. rewrite <- app_assoc. f_equal.
    + by apply dec_enc.
    + rewrite drop_app_length' by by rewrite enc_length. by apply dec_enc.
  - intros bs Hn. rewrite !enc_dec by (rewrite ?length_drop; lia).
    by rewrite take_take_drop.
  - intros bs Hn. split; apply dec_ok; rewrite ?length_drop; lia.
Qed.

(** The bijection of [c_iso] is a pair of inverse functions; for a struct it
    is the record constructor and its projections. *)
Class Iso {A B} (f : A → B) (g : B → A) : Prop := { iso_gf : ∀ a, g (f a) = a; iso_fg : ∀ b, f (g b) = b }.

#[global] Instance c_iso_ok {A B} (f : A → B) (g : B → A) (c : codec A) :
  Iso f g → CodecOk c → CodecOk (c_iso f g c).
Proof.
  intros Hi Hc. split; simpl.
  - intros. by apply enc_length.
  - intros b rest Hb. rewrite dec_enc by done. apply iso_fg.
  - intros. rewrite iso_gf. by apply enc_dec.
  - intros. rewrite iso_gf. by apply dec_ok.
Qed.

Ltac solve_iso := split; [intros; repeat match goal with p : _ * _ |- _ => destruct p end; reflexivity | by intros []].

(** The two directions every reader and writer of a buffer relies on. *)
Section codec_laws.
Context {A : Type} (c : codec A) `{!CodecOk c}.

Lemma enc_inj a b : c_ok c a → c_ok c b → c_enc c a = c_enc c b → a = b.
Proof.
  intros Ha Hb E. rewrite <- (dec_enc (c:=c) a []), <- (dec_enc (c:=c) b []) by done. by rewrite E.
Qed.

Lemma dec_app bs rest : (c_size c ≤ length bs)%nat → c_dec c (bs ++ rest) = c_dec c bs.
Proof.
  intros Hn. rewrite <- (take_drop (c_size c) bs), <- (enc_dec (c:=c) bs) by done.
  rewrite <- app_assoc, !dec_enc by by apply dec_ok. done.
Qed.
End codec_laws.

(** ** Market data: namespace [ndfex::md] *)
Module md.

Definition go_irish : string := "GOIRISH!".
Definition MAGIC_NUMBER : Z := le_combine (list_byte_of_string go_irish).
Definition snapshot : string := "SNAPSHOT".
Definition SNAPSHOT_MAGIC_NUMBER : Z := le_combine (list_byte_of_string snapshot).

(** An [enum class : uint8_t] read from the wire may hold any byte, so the
    enumerations are bytes with named values. *)
Module MSG_TYPE.
Definition HEARTBEAT := 0.
Definition NEW_ORDER := 1.
Definition DELETE_ORDER := 2.
Definition MODIFY_ORDER := 3.
Definition TRADE := 4.
Definition TRADE_SUMMARY := 5.
Definition SNAPSHOT_INFO := 6.
End MSG_TYPE.

Module SIDE.
Definition BUY := 1.
Definition SELL := 2.
End SIDE.

Record md_header := {
  magic_number : Z;
  length : Z;
  seq_num : Z;
  timestamp : Z;
  msg_type : Z;
}.

Definition c_md_header : codec md_header :=
  c_iso (λ '(a, b, c, d, e), Build_md_header a b c d e)
    (λ h, (magic_number h, length h, seq_num h, timestamp h, msg_type h))
    (U64 ⊗ U16 ⊗ U32 ⊗ U64 ⊗ U8).

Record new_order := {
  no_header : md_header;
  no_order_id : Z;
  no_symbol : Z;
  no_side : Z;
  no_quantity : Z;
  no_price : Z;
  no_flags : Z;
}.

Definition c_new_order : codec new_order :=
  c_iso (λ '(h, a, b, c, d, e, f), Build_new_order h a b c d e f)
    (λ m, (no_header m, no_order_id m, no_symbol m, no_side m, no_quantity m, no_price m, no_flags m))
    (c_md_header ⊗ U64 ⊗ U32 ⊗ U8 ⊗ U32 ⊗ S32 ⊗ U8).

Record delete_order := {
  do_header : md_header;
  do_order_id : Z;
}.

Definition c_delete_order : codec delete_order :=
  c_iso (λ '(h, a), Build_delete_order h a) (λ m, (do_header m, do_order_id m))
    (c_md_header ⊗ U64).

Record modify_order := {
  mo_header : md_header;
  mo_order_id : Z;
  mo_side : Z;
  mo_quantity : Z;
  mo_price : Z;
}.

Definition c_modify_order : codec modify_order :=
  c_iso (λ '(h, a, b, c, d), Build_modify_order h a b c d)
    (λ m, (mo_header m, mo_order_id m, mo_side m, mo_quantity m, mo_price m))
    (c_md_header ⊗ U64 ⊗ U8 ⊗ U32 ⊗ S32).

Record trade := {
  tr_header : md_header;
  tr_order_id : Z;
  tr_quantity : Z;
  tr_price : Z;
}.

Definition c_trade : codec trade :=
  c_iso (λ '(h, a, b, c), Build_trade h a b c)
    (λ m, (tr_header m, tr_order_id m, tr_quantity m, tr_price m))
    (c_md_header ⊗ U64 ⊗ U32 ⊗ S32).

Record trade_summary := {
  ts_header : md_header;
  ts_symbol : Z;
  ts_aggressor_side : Z;
  ts_total_quantity : Z;
  ts_last_price : Z;
}.

Definition c_trade_summary : codec trade_summary :=
  c_iso (λ '(h, a, b, c, d), Build_trade_summary h a b c d)
    (λ m, (ts_header m, ts_symbol m, ts_aggressor_side m, ts_total_quantity m, ts_last_price m))
    (c_md_header ⊗ U32 ⊗ U8 ⊗ U32 ⊗ S32).

Record snapshot_info := {
  si_header : md_header;
  si_symbol : Z;
  si_bid_count : Z;
  si_ask_count : Z;
  si_last_md_seq_num : Z;
}.

Definition c_snapshot_info : codec snapshot_info :=
  c_iso (λ '(h, a, b, c, d), Build_snapshot_info h a b c d)
    (λ m, (si_header m, si_symbol m, si_bid_count m, si_ask_count m, si_last_md_seq_num m))
    (c_md_header ⊗ U32 ⊗ U32 ⊗ U32 ⊗ U32).

Definition MAX_MSG_SIZE : nat :=
  c_size c_new_order `max` (c_size c_delete_order `max` (c_size c_modify_order `max`
    (c_size c_trade `max` (c_size c_trade_summary `max` c_size c_snapshot_info)))).

#[global] Instance md_header_ok : CodecOk c_md_header.
Proof. apply c_iso_ok; [solve_iso | apply _]. Qed.
#[global] Instance new_order_ok : CodecOk c_new_order.
Proof. apply c_iso_ok; [solve_iso | apply _]. Qed.
#[global] Instance delete_order_ok : CodecOk c_delete_order.
Proof. apply c_iso_ok; [solve_iso | apply _]. Qed.
#[global] Instance modify_order_ok : CodecOk c_modify_order.
Proof. apply c_iso_ok; [solve_iso | apply _]. Qed.
#[global] Instance trade_ok : CodecOk c_trade.
Proof. apply c_iso_ok; [solve_iso | apply _]. Qed.
#[global] Instance trade_summary_ok : CodecOk c_trade_summary.
Proof. apply c_iso_ok; [solve_iso | apply _]. Qed.
#[global] Instance snapshot_info_ok : CodecOk c_snapshot_info.
Proof. apply c_iso_ok; [solve_iso | apply _]. Qed.

(** The sizes the readers compare buffer lengths with. *)
Example md_sizes :
  (c_size c_md_header, c_size c_new_order, c_size c_delete_order, c_size c_modify_order,
   c_size c_trade, c_size c_trade_summary, c_size c_snapshot_info, MAX_MSG_SIZE)
  = (23, 45, 31, 40, 39, 36, 39, 45)%nat.
Proof. reflexivity. Qed.
End md.

(** ** Clearing: namespace [ndfex::clearing] *)
Module clearing.

Definition MAGIC_NUMBER : Z := 0x12345678.

Module MSG_TYPE.
Definition HEARTBEAT := 0.
Definition FILL := 1.
End MSG_TYPE.

Record clearing_header := {
  magic_number : Z;
  length : Z;
  seq_num : Z;
  msg_type : Z;
}.

Definition c_clearing_header : codec clearing_header :=
  c_iso (λ '(a, b, c, d), Build_clearing_header a b c d)
    (λ h, (magic_number h, length h, seq_num h, msg_type h))
    (U64 ⊗ U16 ⊗ U32 ⊗ U8).

Record fill := {
  f_header : clearing_header;
  f_client_id : Z;
  f_symbol : Z;
  f_quantity : Z;
  f_price : Z;
  f_side : Z;
}.

Definition c_fill : codec fill :=
  c_iso (λ '(h, a, b, c, d, e), Build_fill h a b c d e)
    (λ m, (f_header m, f_client_id m, f_symbol m, f_quantity m, f_price m, f_side m))
    (c_clearing_header ⊗ U32 ⊗ U32 ⊗ U32 ⊗ S32 ⊗ U8).

#[global] Instance clearing_header_ok : CodecOk c_clearing_header.
Proof. apply c_iso_ok; [solve_iso | apply _]. Qed.
#[global] Instance fill_ok : CodecOk c_fill.
Proof. apply c_iso_ok; [solve_iso | apply _]. Qed.
End clearing.

(** ** Order entry: namespace [ndfex::oe] *)
Module oe.

Definition OE_PROTOCOL_VERSION := 1.

Module MSG_TYPE.
Definition NEW_ORDER := 1.
Definition DELETE_ORDER := 2.
Definition MODIFY_ORDER := 3.
Definition LOGIN := 99.
Definition LOGIN_RESPONSE := 100.
Definition ACK := 101.
Definition REJECT := 102.
Definition FILL := 103.
Definition CLOSE := 104.
Definition ERROR := 105.
End MSG_TYPE.

Module REJECT_REASON.
Definition NONE := 0.
Definition UNKNOWN_SYMBOL := 1.
Definition INVALID_ORDER := 2.
Definition DUPLICATE_ORDER_ID := 3.
Definition UKNOWN_ORDER_ID := 4.
Definition INVALID_PRICE := 5.
Definition INVALID_QUANTITY := 6.
Definition INVALID_SIDE := 7.
Definition UNKNOWN_SESSION_ID := 8.
Definition DUPLICATE_LOGIN := 9.
End REJECT_REASON.

Module LOGIN_STATUS.
Definition SUCCESS := 0.
Definition INVALID_USERNAME := 5.
Definition INVALID_PASSWORD := 6.
Definition INVALID_SESSION := 7.
Definition SESSION_ALREADY_ACTIVE := 8.
Definition DUPLICATE_LOGIN := 9.
Definition INVALID_CLIENT_ID := 10.
End LOGIN_STATUS.

Module ORDER_FLAGS.
Definition NONE := 0.
Definition IOC := 1.
End ORDER_FLAGS.

Module FILL_FLAGS.
Definition NONE := 0.
Definition PARTIAL_FILL := 1.
Definition CLOSED := 2.
End FILL_FLAGS.

Record oe_request_header := {
  rq_length : Z;
  rq_msg_type : Z;
  rq_version : Z;
  rq_seq_num : Z;
  rq_client_id : Z;
  rq_session_id : Z;
}.

Definition c_oe_request_header : codec oe_request_header :=
  c_iso (λ '(a, b, c, d, e, f), Build_oe_request_header a b c d e f)
    (λ h, (rq_length h, rq_msg_type h, rq_version h, rq_seq_num h, rq_client_id h, rq_session_id h))
    (U16 ⊗ U8 ⊗ U8 ⊗ U32 ⊗ U32 ⊗ U64).

Record oe_response_header := {
  rs_length : Z;
  rs_msg_type : Z;
  rs_version : Z;
  rs_seq_num : Z;
  rs_last_seq_num : Z;
  rs_client_id : Z;
}.

Definition c_oe_response_header : codec oe_response_header :=
  c_iso (λ '(a, b, c, d, e, f), Build_oe_response_header a b c d e f)
    (λ h, (rs_length h, rs_msg_type h, rs_version h, rs_seq_num h, rs_last_seq_num h, rs_client_id h))
    (U16 ⊗ U8 ⊗ U8 ⊗ U32 ⊗ U32 ⊗ U32).

Record login := {
  lg_header : oe_request_header;
  lg_username : list byte;
  lg_password : list byte;
}.

Definition c_login : codec login :=
  c_iso (λ '(h, a, b), Build_login h a b) (λ m, (lg_header m, lg_username m, lg_password m))
    (c_oe_request_header ⊗ c_bytes 16 ⊗ c_bytes 16).

Record login_response := {
  lr_header : oe_response_header;
  lr_session_id : Z;
  lr_status : Z;
}.

Definition c_login_response : codec login_response :=
  c_iso (λ '(h, a, b), Build_login_response h a b)
    (λ m, (lr_header m, lr_session_id m, lr_status m))
    (c_oe_response_header ⊗ U64 ⊗ U8).

Record new_order := {
  no_header : oe_request_header;
  no_order_id : Z;
  no_symbol : Z;
  no_side : Z;
  no_quantity : Z;
  no_price : Z;
  no_flags : Z;
}.

Definition c_new_order : codec new_order :=
  c_iso (λ '(h, a, b, c, d, e, f), Build_new_order h a b c d e f)
    (λ m, (no_header m, no_order_id m, no_symbol m, no_side m, no_quantity m, no_price m, no_flags m))
    (c_oe_request_header ⊗ U64 ⊗ U32 ⊗ U8 ⊗ U32 ⊗ S32 ⊗ U8).

Record delete_order := {
  do_header : oe_request_header;
  do_order_id : Z;
}.

Definition c_delete_order : codec delete_order :=
  c_iso (λ '(h, a), Build_delete_order h a) (λ m, (do_header m, do_order_id m))
    (c_oe_request_header ⊗ U64).

Record modify_order := {
  mo_header : oe_request_header;
  mo_order_id : Z;
  mo_side : Z;
  mo_quantity : Z;
  mo_price : Z;
}.

Definition c_modify_order : codec modify_order :=
  c_iso (λ '(h, a, b, c, d), Build_modify_order h a b c d)
    (λ m, (mo_header m, mo_order_id m, mo_side m, mo_quantity m, mo_price m))
    (c_oe_request_header ⊗ U64 ⊗ U8 ⊗ U32 ⊗ S32).

Record order_ack := {
  ak_header : oe_response_header;
  ak_order_id : Z;
  ak_exch_order_id : Z;
  ak_quantity : Z;
  ak_price : Z;
}.

Definition c_order_ack : codec order_ack :=
  c_iso (λ '(h, a, b, c, d), Build_order_ack h a b c d)
    (λ m, (ak_header m, ak_order_id m, ak_exch_order_id m, ak_quantity m, ak_price m))
    (c_oe_response_header ⊗ U64 ⊗ U64 ⊗ U32 ⊗ S32).

Record order_reject := {
  rj_header : oe_response_header;
  rj_order_id : Z;
  rj_reject_reason : Z;
}.

Definition c_order_reject : codec order_reject :=
  c_iso (λ '(h, a, b), Build_order_reject h a b)
    (λ m, (rj_header m, rj_order_id m, rj_reject_reason m))
    (c_oe_response_header ⊗ U64 ⊗ U8).

Record order_fill := {
  fl_header : oe_response_header;
  fl_order_id : Z;
  fl_quantity : Z;
  fl_price : Z;
  fl_flags : Z;
}.

Definition c_order_fill : codec order_fill :=
  c_iso (λ '(h, a, b, c, d), Build_order_fill h a b c d)
    (λ m, (fl_header m, fl_order_id m, fl_quantity m, fl_price m, fl_flags m))
    (c_oe_response_header ⊗ U64 ⊗ U32 ⊗ S32 ⊗ U8).

Record order_closed := {
  cl_header : oe_response_header;
  cl_order_id : Z;
}.

Definition c_order_closed : codec order_closed :=
  c_iso (λ '(h, a), Build_order_closed h a) (λ m, (cl_header m, cl_order_id m))
    (c_oe_response_header ⊗ U64).

Record error_message := {
  er_header : oe_response_header;
  er_error_code : Z;
  er_error_message_length : Z;
  er_error_message : list byte;
}.

Definition c_error_message : codec error_message :=
  c_iso (λ '(h, a, b, c), Build_error_message h a b c)
    (λ m, (er_header m, er_error_code m, er_error_message_length m, er_error_message m))
    (c_oe_response_header ⊗ U8 ⊗ U16 ⊗ c_bytes 32).

Definition MAX_OE_MESSAGE_SIZE : nat :=
  c_size c_login `max` (c_size c_new_order `max` (c_size c_delete_order `max`
    (c_size c_modify_order `max` (c_size c_order_ack `max` (c_size c_order_reject `max`
    (c_size c_order_fill `max` (c_size c_order_closed `max` c_size c_error_message))))))).

#[global] Instance oe_request_header_ok : CodecOk c_oe_request_header.
Proof. apply c_iso_ok; [solve_iso | apply _]. Qed.
#[global] Instance oe_response_header_ok : CodecOk c_oe_response_header.
Proof. apply c_iso_ok; [solve_iso | apply _]. Qed.
#[global] Instance login_ok : CodecOk c_login.
Proof. apply c_iso_ok; [solve_iso | apply _]. Qed.
#[global] Instance login_response_ok : CodecOk c_login_response.
Proof. apply c_iso_ok; [solve_iso | apply _]. Qed.
#[global] Instance oe_new_order_ok : CodecOk c_new_order.
Proof. apply c_iso_ok; [solve_iso | apply _]. Qed.
#[global] Instance oe_delete_order_ok : CodecOk c_delete_order.
Proof. apply c_iso_ok; [solve_iso | apply _]. Qed.
#[global] Instance oe_modify_order_ok : CodecOk c_modify_order.
Proof. apply c_iso_ok; [solve_iso | apply _]. Qed.
#[global] Instance order_ack_ok : CodecOk c_order_ack.
Proof. apply c_iso_ok; [solve_iso | apply _]. Qed.
#[global] Instance order_reject_ok : CodecOk c_order_reject.
Proof. apply c_iso_ok; [solve_iso | apply _]. Qed.
#[global] Instance order_fill_ok : CodecOk c_order_fill.
Proof. apply c_iso_ok; [solve_iso | apply _]. Qed.
#[global] Instance order_closed_ok : CodecOk c_order_closed.
Proof. apply c_iso_ok; [solve_iso | apply _]. Qed.
#[global] Instance error_message_ok : CodecOk c_error_message.
Proof. apply c_iso_ok; [solve_iso | apply _]. Qed.

Example oe_sizes :
  (c_size c_oe_request_header, c_size c_oe_response_header, c_size c_login,
   c_size c_login_response, c_size c_new_order, c_size c_delete_order,
   c_size c_modify_order, c_size c_order_ack, c_size c_order_reject,
   c_size c_order_fill, c_size c_order_closed, c_size c_error_message, MAX_OE_MESSAGE_SIZE)
  = (20, 16, 52, 25, 42, 28, 37, 40, 25, 33, 24, 51, 52)%nat.
Proof. reflexivity. Qed.

(** [matching_engine/spsc_oe_queue.H]: what the two queues between the
    client handler and the broker carry.  The constructor takes the price as
    an [int32_t] and stores it in a [uint32_t]. *)
Record oe_payload := {
  msg_type : Z;
  exch_order_id : Z;
  symbol : Z;
  client_seq : Z;
  client_id : Z;
  side : Z;
  quantity : Z;
  price : Z;
  flags : Z;
}.

Definition mk_oe_payload (msg_type order_id symbol client_seq client_id side quantity price flags : Z) : oe_payload := {|
  msg_type := msg_type; exch_order_id := order_id; symbol := symbol;
  client_seq := client_seq; client_id := client_id; side := side;
  quantity := quantity; price := u32 price; flags := flags;
|}.
End oe.

(** ** [matching_engine/symbol_definition.H] *)
Record symbol_definition := {
  sym_symbol : Z;
  sym_tick_size : Z;
  sym_min_lot_size : Z;
  sym_max_lot_size : Z;
  sym_max_price : Z;
  sym_min_price : Z;
}.
