(* ===== verification/Sockets.v ===== *)
(** * How the components open their sockets

    The constructors of the publishers, readers and the server ask the operating
    system for sockets and configure them call by call; each failure is an
    exception of its own.  The calls and their answers are the state. *)
From Stdlib Require Import Strings.String.
From S2P Require Import Prelude.

(** Addresses are what [inet_addr] gets; [None] is [INADDR_ANY]. *)
Inductive syscall :=
  | Socket (stream nonblock : bool)
  | GetFlags (fd : Z)
  | SetFlags (fd flags : Z)
  | ReusePort (fd : Z)
  | ReuseAddr (fd : Z)
  | ReceiveBuffer (fd size : Z)
  | Bind (fd : Z) (ip : option string) (port : Z)
  | AddMembership (fd : Z) (group iface : string)
  | MulticastIf (fd : Z) (iface : string)
  | MulticastLoop (fd : Z)
  | Listen (fd backlog : Z)
  | EpollCreate
  | EpollAdd (epfd fd events : Z)
  | Read (fd size : Z)
  | Close (fd : Z).

#[global] Instance syscall_eq_dec : EqDecision syscall.
Proof. solve_decision. Defined.

(** The calls so far with their answers. *)
Abbreviation history := (list (syscall * Z)).

(** The answer to a call, and [strerror(errno)] after one. *)
Class Kernel := {
  k_answer : history → syscall → Z;
  k_strerror : history → string;
}.

Definition O_NONBLOCK : Z := 2048.
Definition EPOLLIN : Z := 1.
Definition EPOLLRDHUP : Z := 8192.
Definition EPOLLET : Z := 2147483648.

Section calls.
Context `{K : Kernel}.
Abbreviation KM := (M history).

Definition call (c : syscall) : KM Z := λ h, let a := k_answer h c in (Ret a, h ++ [(c, a)]).

(** [if (call < 0) throw], [if (call == -1) throw] *)
Definition negative (r : Z) : bool := r <? 0.
Definition minus_one (r : Z) : bool := r =? -1.

Definition need (failed : Z → bool) (c : syscall) (what : history → string) : KM Z :=
  r ← call c;
  h ← gets id;
  if failed r then throw (runtime_error (what h)) else mret r.

Definition plain (text : string) : history → string := λ _, text.
Definition explained (text : string) : history → string := λ h, text +:+ k_strerror h.

(** ** Senders *)

(** [MarketDataPublisher::MarketDataPublisher]; [ClearingPublisher]'s does the
    same. *)
Definition open_publisher (iface : string) : KM Z :=
  fd ← need negative (Socket false false) (explained "Failed to create multicast socket ");
  _ ← need negative (MulticastIf fd iface) (explained "Failed to bind to multicast address ");
  flags ← need minus_one (GetFlags fd) (explained "Failed to get socket flags ");
  _ ← need minus_one (SetFlags fd (Z.lor flags O_NONBLOCK)) (explained "Failed to set socket non-blocking ");
  _ ← need negative (MulticastLoop fd) (plain "Failed to enable multicast loopback");
  mret fd.

Definition open_clearing_publisher (iface : string) : KM Z := open_publisher iface.

Definition open_snapshot_writer (iface : string) : KM Z :=
  fd ← need negative (Socket false false) (plain "Failed to create socket");
  _ ← need negative (MulticastIf fd iface) (plain "Failed to bind to multicast address");
  flags ← need minus_one (GetFlags fd) (plain "Failed to get socket flags");
  _ ← need minus_one (SetFlags fd (Z.lor flags O_NONBLOCK)) (plain "Failed to set socket to non-blocking");
  mret fd.

(** ** Readers *)

(** The first four calls are common to all. *)
Definition open_reader : KM Z :=
  fd ← need negative (Socket false false) (plain "Failed to create socket");
  flags ← need minus_one (GetFlags fd) (plain "Failed to get socket flags");
  _ ← need minus_one (SetFlags fd (Z.lor flags O_NONBLOCK)) (plain "Failed to set socket to non-blocking");
  _ ← need negative (ReusePort fd) (plain "Failed to set SO_REUSEPORT");
  mret fd.

Definition join_group (fd : Z) (ip : option string) (port : Z) (group iface : string) : KM Z :=
  _ ← need negative (Bind fd ip port) (plain "Failed to bind socket");
  _ ← need negative (AddMembership fd group iface) (plain "Failed to join multicast group");
  mret fd.

(** It binds to any address, the other readers to the group's. *)
Definition open_snapshot_client (ip : string) (port : Z) (bind_ip : string) : KM Z :=
  fd ← open_reader;
  join_group fd None port ip bind_ip.

(** [create_mcast_socket] of [md_client.cpp] *)
Definition create_mcast_socket (ip : string) (port : Z) (bind_ip : string) : KM Z :=
  fd ← open_reader;
  join_group fd (Some ip) port ip bind_ip.

Definition open_md_client (live_ip : string) (live_port : Z) (snapshot_ip : string) (snapshot_port : Z) (bind_ip : string) : KM (Z * Z) :=
  live_fd ← create_mcast_socket live_ip live_port bind_ip;
  snapshot_fd ← create_mcast_socket snapshot_ip snapshot_port bind_ip;
  mret (live_fd, snapshot_fd).

Definition close_md_client (fds : Z * Z) : KM unit :=
  _ ← call (Close fds.1);
  _ ← call (Close fds.2);
  mret tt.

(** [create_mcast_socket] of [clearing_client.cpp] *)
Definition open_clearing_client (ip : string) (port : Z) (bind_ip : string) : KM Z :=
  fd ← open_reader;
  _ ← need negative (ReceiveBuffer fd (16 * 1024 * 1024)) (plain "Failed to set receive buffer size");
  join_group fd (Some ip) port ip bind_ip.

(** ** The programs that only listen *)

(** [main] of [print_snapshots.cpp] up to its loop, which goes on with the
    descriptor.  A failed call's text goes to [std::cerr] and [main] returns 1. *)
Definition open_snapshot_printer (ip : string) (port : Z) (local_ip : string) : KM Z :=
  fd ← need negative (Socket false false) (explained "Failed to create socket: ");
  flags ← need minus_one (GetFlags fd) (explained "Failed to get socket flags: ");
  _ ← need minus_one (SetFlags fd (Z.lor flags O_NONBLOCK)) (explained "Failed to set socket to non-blocking: ");
  _ ← need negative (ReusePort fd) (explained "Failed to set SO_REUSEPORT: ");
  _ ← need negative (Bind fd (Some ip) port) (explained "Failed to bind socket: ");
  _ ← need negative (AddMembership fd ip local_ip) (explained "Failed to join multicast group: ");
  mret fd.

(** [main] of [mcast_listener.cpp]: [INADDR_ANY] is 0.0.0.0; it reads nothing into
    nowhere and returns. *)
Definition mcast_listener (ip : string) (port : Z) : KM unit :=
  fd ← need negative (Socket false false) (explained "Failed to create socket: ");
  _ ← need negative (Bind fd (Some ip) port) (explained "Failed to bind socket: ");
  _ ← need negative (AddMembership fd ip "0.0.0.0") (explained "Failed to add group membership: ");
  _ ← call (Read fd 0);
  mret tt.

(** What [main] returns; [None]: it goes on. *)
Definition exit_code (usage : bool) (m : KM (option Z)) : KM (option Z) := λ h,
  if usage then (Ret (Some 1), h) else match m h with (Ret rc, h') => (Ret rc, h') | (Throw _, h') => (Ret (Some 1), h') end.

Definition print_snapshots_main (argc : Z) (ip : string) (port : Z) (local_ip : string) : KM (option Z) :=
  exit_code (negb (argc =? 4)) (_ ← open_snapshot_printer ip port local_ip; mret None).
Definition mcast_listener_main (argc : Z) (ip : string) (port : Z) : KM (option Z) :=
  exit_code (argc <? 3) (_ ← mcast_listener ip port; mret (Some 0)).

(** ** The order entry server *)

Definition open_server (port : Z) : KM (Z * Z) :=
  epoll_fd ← need minus_one EpollCreate (explained "Failed to create epoll instance: ");
  listen_fd ← need minus_one (Socket true true) (explained "Failed to create socket: ");
  _ ← need minus_one (ReuseAddr listen_fd) (explained "Failed to set socket options: ");
  _ ← need minus_one (Bind listen_fd None port) (explained "Failed to bind socket: ");
  _ ← need minus_one (Listen listen_fd 64) (explained "Failed to listen on socket: ");
  _ ← need minus_one (EpollAdd epoll_fd listen_fd (Z.lor EPOLLIN (Z.lor EPOLLET EPOLLRDHUP)))
        (explained "Failed to add listen socket to epoll: ");
  mret (epoll_fd, listen_fd).

Definition close_server (fds : Z * Z) : KM unit :=
  _ ← call (Close fds.1);
  _ ← call (Close fds.2);
  mret tt.
End calls.

(** ** What the calls have done *)

(** How a descriptor is configured, as far as the calls say. *)
Record sock := mk_sock {
  nonblocking : bool;
  bound : option (option string * Z);
  groups : list (string * string);
  sends_on : option string;
  listening : bool;
  watching : list Z;
}.

Definition new_sock (nonblock : bool) : sock := mk_sock nonblock None [] None false [].

Definition configure (c : syscall) (s : sock) : sock :=
  match c with
  | SetFlags _ flags => mk_sock (Z.testbit flags 11) (bound s) (groups s) (sends_on s) (listening s) (watching s)
  | Bind _ ip port => mk_sock (nonblocking s) (Some (ip, port)) (groups s) (sends_on s) (listening s) (watching s)
  | AddMembership _ group iface => mk_sock (nonblocking s) (bound s) ((group, iface) :: groups s) (sends_on s) (listening s) (watching s)
  | MulticastIf _ iface => mk_sock (nonblocking s) (bound s) (groups s) (Some iface) (listening s) (watching s)
  | Listen _ _ => mk_sock (nonblocking s) (bound s) (groups s) (sends_on s) true (watching s)
  | EpollAdd _ fd _ => mk_sock (nonblocking s) (bound s) (groups s) (sends_on s) (listening s) (fd :: watching s)
  | _ => s
  end.

Definition target (c : syscall) : option Z :=
  match c with
  | Socket _ _ | EpollCreate => None
  | GetFlags fd | SetFlags fd _ | ReusePort fd | ReuseAddr fd | ReceiveBuffer fd _ | Bind fd _ _ | AddMembership fd _ _
  | MulticastIf fd _ | MulticastLoop fd | Listen fd _ | EpollAdd fd _ _ | Read fd _ | Close fd => Some fd
  end.

(** The open descriptors after a call that was answered. *)
Definition after_call (m : gmap Z sock) (ca : syscall * Z) : gmap Z sock :=
  let '(c, a) := ca in
  if a =? -1 then m
  else match c with
       | Socket _ nonblock => <[a := new_sock nonblock]> m
       | EpollCreate => <[a := new_sock false]> m
       | Close fd => delete fd m
       | c => match target c with Some fd => alter (configure c) fd m | None => m end
       end.

Definition descriptors (h : history) : gmap Z sock := foldl after_call ∅ h.
