(* ===== verification/SocketsTheorems.v ===== *)
(** * What the constructors leave open *)
From Stdlib Require Import Strings.String.
From S2P Require Import Prelude Sockets.
#[local] Open Scope Z_scope.

(** ** What is asked of the operating system *)

Definition opens (c : syscall) : bool := match c with Socket _ _ | EpollCreate => true | _ => false end.
Definition closes (c : syscall) : bool := match c with Close _ => true | _ => false end.

(** As documented: a call answers -1 or something non-negative, and a new
    descriptor is not open yet. *)
Class KernelOk `{K : Kernel} : Prop := {
  ko_answer h c : -1 ≤ k_answer h c;
  ko_fresh h c : opens c = true → descriptors h !! k_answer h c = None;
}.

(** How the message about a failed call begins. *)
Definition complaint (c : syscall) : string :=
  match c with
  | Socket _ _ => "Failed to create "
  | EpollCreate => "Failed to create epoll instance"
  | GetFlags _ => "Failed to get socket flags"
  | SetFlags _ _ => "Failed to set socket "
  | ReusePort _ => "Failed to set SO_REUSEPORT"
  | ReuseAddr _ => "Failed to set socket options"
  | ReceiveBuffer _ _ => "Failed to set receive buffer size"
  | Bind _ _ _ => "Failed to bind socket"
  | AddMembership _ _ _ => "Failed to join multicast group"
  | MulticastIf _ _ => "Failed to bind to multicast address"
  | MulticastLoop _ => "Failed to enable multicast loopback"
  | Listen _ _ => "Failed to listen on socket"
  | EpollAdd _ _ _ => "Failed to add listen socket to epoll"
  | Read _ _ | Close _ => ""
  end.

Definition succeeded (ca : syscall * Z) : Prop := ca.2 ≠ -1 ∧ closes ca.1 = false.

(** The last call failed, and no other; the message is about it. *)
Definition first_failure (calls : history) (e : exn) : Prop := ∃ before c text,
  calls = before ++ [(c, -1)] ∧ Forall succeeded before ∧ closes c = false ∧
  e = runtime_error text ∧ String.prefix (complaint c) text = true.

(** [m] goes on after each call that succeeds, to a state as [R] says, and stops at
    the first that fails, closing nothing. *)
Definition sets_up `{K : Kernel} {A} (m : M history A) (R : gmap Z sock → A → gmap Z sock → Prop) : Prop := ∀ h,
  let '(r, h') := m h in ∃ calls, h' = h ++ calls ∧
  match r with
  | Ret a => Forall succeeded calls ∧ R (descriptors h) a (descriptors h')
  | Throw e => first_failure calls e
  end.

Section set_up.
Context `{K : Kernel}.

Lemma sets_up_bind {A B} (m : M history A) (k : A → M history B) R R' :
  sets_up m R → (∀ a, sets_up (k a) (R' a)) → sets_up (mbind k m) (λ d b d', ∃ a d1, R d a d1 ∧ R' a d1 b d').
Proof.
  intros Hm Hk h. specialize (Hm h). unfold mbind, M_bind. destruct (m h) as [[a|e] h1]; destruct Hm as (c1 & -> & H1).
  - specialize (Hk a (h ++ c1)). destruct (k a (h ++ c1)) as [[b|e] h2]; destruct Hk as (c2 & -> & H2); exists (c1 ++ c2);
      (split; [by rewrite app_assoc|]).
    + destruct H1 as [H1 H3], H2 as [H2 H4]. split; [by apply Forall_app|by eexists _, _].
    + destruct H1 as [H1 _], H2 as (before & c & text & -> & Hb & H2). exists (c1 ++ before), c, text.
      split; [by rewrite app_assoc|]. split; [by apply Forall_app|done].
  - exists c1. split; [done|exact H1].
Qed.

Lemma sets_up_ret {A} (a : A) : sets_up (mret a) (λ d b d', b = a ∧ d' = d).
Proof. intros h. exists []. by rewrite app_nil_r. Qed.

Lemma sets_up_mono {A} (m : M history A) (R R' : gmap Z sock → A → gmap Z sock → Prop) :
  sets_up m R → (∀ d a d', R d a d' → R' d a d') → sets_up m R'.
Proof.
  intros Hm HR h. specialize (Hm h). destruct (m h) as [[a|e] h']; destruct Hm as (calls & -> & H); exists calls; (split; [done|]);
    [destruct H; split; auto|done].
Qed.

Lemma descriptors_snoc h c a : descriptors (h ++ [(c, a)]) = after_call (descriptors h) (c, a).
Proof. unfold descriptors. by rewrite foldl_app. Qed.

Context `{KO : !KernelOk}.

Lemma sets_up_need failed c what :
  closes c = false → (∀ h, String.prefix (complaint c) (what h) = true) → (failed = negative ∨ failed = minus_one) →
  sets_up (need failed c what) (λ d a d', 0 ≤ a ∧ (opens c = true → d !! a = None) ∧ d' = after_call d (c, a)).
Proof using KO.
  intros Hc Hw Hf h. pose proof (ko_answer h c) as Ha. pose proof (ko_fresh h c) as Hfr.
  assert (failed (k_answer h c) = (k_answer h c =? -1)) as Hfail.
  { destruct Hf as [-> | ->]; [|done]. unfold negative. destruct (Z.ltb_spec (k_answer h c) 0); lia. }
  unfold need. erewrite bind_ret by reflexivity. cbn beta. erewrite bind_ret by reflexivity. cbn beta. rewrite Hfail.
  destruct (Z.eqb_spec (k_answer h c) (-1)) as [E|E]; cbv [throw mret M_ret]; exists [(c, k_answer h c)]; (split; [done|]).
  - exists [], c, (what (h ++ [(c, k_answer h c)])). by rewrite E.
  - split; [by apply Forall_singleton|]. rewrite descriptors_snoc. split; [lia|done].
Qed.
End set_up.

Lemma prefix_append a b t : String.prefix a b = true → String.prefix a (b +:+ t) = true.
Proof.
  revert b. induction a as [|x a IH]; intros b H; [by destruct (b +:+ t)|]. destruct b as [|y b]; [done|].
  change (String y b +:+ t) with (String y (b +:+ t)). simpl in *. destruct (Ascii.ascii_dec x y); [by apply IH|done].
Qed.

(** A call that needs to succeed, whatever its message adds. *)
Ltac setting_up :=
  lazymatch goal with
  | |- sets_up (mbind _ _) _ => eapply sets_up_bind; [|intros ?]
  | |- sets_up (mret _) _ => apply sets_up_ret
  | |- sets_up (need _ _ _) _ =>
      apply sets_up_need; [reflexivity|intros ?; reflexivity || (apply prefix_append; reflexivity)|by (left + right)]
  end.

Lemma nonblock_flag flags : Z.testbit (Z.lor flags O_NONBLOCK) 11 = true.
Proof. rewrite Z.lor_spec. apply orb_true_r. Qed.

Ltac unpack := repeat (cbn beta in *; match goal with H : ∃ _, _ |- _ => destruct H | H : _ ∧ _ |- _ => destruct H end); subst.

(** Reading off what a sequence of successful calls has done. *)
Ltac configured := unfold after_call; cbn [target];
  repeat rewrite (proj2 (Z.eqb_neq _ (-1))) by lia;
  rewrite ?alter_insert_eq; cbn [configure new_sock nonblocking bound groups sends_on listening watching]; rewrite ?nonblock_flag.

Section constructors.
Context `{K : Kernel} `{KO : !KernelOk}.

(** One more descriptor, configured like this. *)
Definition adds (s : sock) (d : gmap Z sock) (fd : Z) (d' : gmap Z sock) : Prop := 0 ≤ fd ∧ d !! fd = None ∧ d' = <[fd := s]> d.

(** What a chain of calls on a new descriptor adds up to. *)
Ltac opened := eapply sets_up_mono; [repeat setting_up|intros d fd d' H; unpack; split; [done|]; split; [by auto|]; by configured].

Lemma sets_up_publisher iface : sets_up (open_publisher iface) (adds (mk_sock true None [] (Some iface) false [])).
Proof using KO. unfold open_publisher. opened. Qed.

Lemma sets_up_writer iface : sets_up (open_snapshot_writer iface) (adds (mk_sock true None [] (Some iface) false [])).
Proof using KO. unfold open_snapshot_writer. opened. Qed.

Lemma sets_up_reader : sets_up open_reader (adds (mk_sock true None [] None false [])).
Proof using KO. unfold open_reader. opened. Qed.

(** A reader that listens to a group. *)
Definition member (ip : option string) (port : Z) (group iface : string) : sock :=
  mk_sock true (Some (ip, port)) [(group, iface)] None false [].

Ltac joined := eapply sets_up_mono; [eapply sets_up_bind; [apply sets_up_reader|intros ?; unfold join_group; repeat setting_up]|
  intros d fd d' H; unfold adds in H; unpack; split; [done|]; split; [by auto|]; by configured].

Lemma sets_up_snapshot_client ip port bind_ip :
  sets_up (open_snapshot_client ip port bind_ip) (adds (member None port ip bind_ip)).
Proof using KO. unfold open_snapshot_client. joined. Qed.

Lemma sets_up_mcast_socket ip port bind_ip :
  sets_up (create_mcast_socket ip port bind_ip) (adds (member (Some ip) port ip bind_ip)).
Proof using KO. unfold create_mcast_socket. joined. Qed.

Lemma sets_up_clearing_client ip port bind_ip :
  sets_up (open_clearing_client ip port bind_ip) (adds (member (Some ip) port ip bind_ip)).
Proof using KO. unfold open_clearing_client. joined. Qed.

(** The printer makes a reader's calls, with messages of its own. *)
Lemma sets_up_printer ip port bind_ip :
  sets_up (open_snapshot_printer ip port bind_ip) (adds (member (Some ip) port ip bind_ip)).
Proof using KO. unfold open_snapshot_printer. opened. Qed.

(** Two descriptors. *)
Definition adds_two (s1 s2 : Z → sock) (d : gmap Z sock) (fds : Z * Z) (d' : gmap Z sock) : Prop :=
  0 ≤ fds.1 ∧ 0 ≤ fds.2 ∧ fds.1 ≠ fds.2 ∧ d !! fds.1 = None ∧ d !! fds.2 = None ∧
  d' = <[fds.2 := s2 fds.2]> (<[fds.1 := s1 fds.2]> d).

Lemma sets_up_md_client live_ip live_port snapshot_ip snapshot_port bind_ip :
  sets_up (open_md_client live_ip live_port snapshot_ip snapshot_port bind_ip)
    (adds_two (λ _, member (Some live_ip) live_port live_ip bind_ip) (λ _, member (Some snapshot_ip) snapshot_port snapshot_ip bind_ip)).
Proof using KO.
  unfold open_md_client. eapply sets_up_mono.
  { eapply sets_up_bind; [apply sets_up_mcast_socket|intros ?]. eapply sets_up_bind; [apply sets_up_mcast_socket|intros ?]. apply sets_up_ret. }
  intros d [fd1 fd2] d' H. unfold adds in H. unpack. simplify_eq.
  match goal with H : <[_ := _]> _ !! _ = None |- _ => apply lookup_insert_None in H as [? ?] end. by split_and!.
Qed.

Lemma sets_up_server port :
  sets_up (open_server port)
    (adds_two (λ listen_fd, mk_sock false None [] None false [listen_fd]) (λ _, mk_sock true (Some (None, port)) [] None true [])).
Proof using KO.
  eapply sets_up_mono; [unfold open_server; repeat setting_up|]. intros d [fd1 fd2] d' H. unpack. simplify_eq.
  match goal with H : opens (Socket true true) = true → _ |- _ => specialize (H eq_refl); unfold after_call in H;
    rewrite (proj2 (Z.eqb_neq _ (-1))) in H by lia; apply lookup_insert_None in H as [? ?] end.
  split_and!; try done; [by auto|]. configured. rewrite alter_insert_ne, alter_insert_eq by done. done.
Qed.

(** Both destructors close what the constructors opened. *)
Lemma close_both (fds : Z * Z) h : (∀ h fd, k_answer h (Close fd) = 0) →
  let '(r, h') := (_ ← call (Close fds.1); _ ← call (Close fds.2); mret tt) h in
  r = Ret tt ∧ descriptors h' = delete fds.2 (delete fds.1 (descriptors h)).
Proof.
  intros Hc. unfold call. do 2 (erewrite bind_ret by reflexivity; cbn beta). split; [done|]. by rewrite !descriptors_snoc, !Hc.
Qed.
End constructors.

(** ** The property *)

(** C40 ([sockets_configured]): every constructor that opens sockets makes its calls one by
    one and stops at the first that fails, with an exception whose message is about
    that call; it closes nothing then, so a descriptor it had opened stays open.
    When it returns, every call has succeeded and exactly its descriptors are new:
    the publishers' non-blocking on their interface; the readers' non-blocking,
    bound to their port (the snapshot client's at any address, the others' at
    their group's) and members of their group; the server's listening,
    non-blocking and watched by its epoll instance. *)
Theorem sockets_configured (K : Kernel) (KO : KernelOk) ip port ip' port' bind_ip :
  sets_up (open_publisher bind_ip) (adds (mk_sock true None [] (Some bind_ip) false [])) ∧
  sets_up (open_clearing_publisher bind_ip) (adds (mk_sock true None [] (Some bind_ip) false [])) ∧
  sets_up (open_snapshot_writer bind_ip) (adds (mk_sock true None [] (Some bind_ip) false [])) ∧
  sets_up (open_snapshot_client ip port bind_ip) (adds (member None port ip bind_ip)) ∧
  sets_up (open_clearing_client ip port bind_ip) (adds (member (Some ip) port ip bind_ip)) ∧
  sets_up (open_snapshot_printer ip port bind_ip) (adds (member (Some ip) port ip bind_ip)) ∧
  sets_up (open_md_client ip port ip' port' bind_ip)
    (adds_two (λ _, member (Some ip) port ip bind_ip) (λ _, member (Some ip') port' ip' bind_ip)) ∧
  sets_up (open_server port)
    (adds_two (λ listen_fd, mk_sock false None [] None false [listen_fd]) (λ _, mk_sock true (Some (None, port)) [] None true [])).
Proof.
  split_and!; [apply sets_up_publisher|apply sets_up_publisher|apply sets_up_writer|apply sets_up_snapshot_client|
    apply sets_up_clearing_client|apply sets_up_printer|apply sets_up_md_client|apply sets_up_server].
Qed.

(** A kernel that numbers descriptors from 3, and refuses every multicast group. *)
Definition next_fd (h : history) : Z := foldr (λ fd n, Z.max (fd + 1) n) 3 ((map_to_list (descriptors h)).*1).

Definition no_groups : Kernel := {|
  k_answer h c := match c with Socket _ _ | EpollCreate => next_fd h | AddMembership _ _ _ => -1 | _ => 0 end;
  k_strerror _ := "Operation not permitted";
|}.

Lemma next_fd_bounds l : (3 ≤ foldr (λ fd n, Z.max (fd + 1) n) 3 l) ∧ ∀ fd, fd ∈ l → fd < foldr (λ fd n, Z.max (fd + 1) n) 3 l.
Proof.
  induction l as [|x l [IH1 IH2]]; simpl; [split; [lia|by intros fd ?%elem_of_nil]|]. split; [lia|].
  intros fd [->|Hin]%elem_of_cons; [lia|]. specialize (IH2 fd Hin). lia.
Qed.

Lemma no_groups_ok : KernelOk (K := no_groups).
Proof.
  split.
  - intros h c. unfold k_answer, no_groups. destruct (next_fd_bounds ((map_to_list (descriptors h)).*1)) as [H _]. unfold next_fd. case_match; lia.
  - intros h c Hc. assert (k_answer (Kernel := no_groups) h c = next_fd h) as -> by by destruct c.
    destruct (descriptors h !! next_fd h) as [s|] eqn:E; [|done]. exfalso.
    destruct (next_fd_bounds ((map_to_list (descriptors h)).*1)) as [_ H]. specialize (H (next_fd h)). unfold next_fd in *.
    eapply Z.lt_irrefl, H, list_elem_of_fmap. eexists (_, s). split; [done|]. by apply elem_of_map_to_list.
Qed.

(** The client of the feed fails to start and leaves its socket open; a publisher
    starts. *)
Lemma sockets_configured_witness :
  sets_up (K := no_groups) (open_md_client (K := no_groups) "239.1.3.37" 12345 "239.1.3.38" 12345 "127.0.0.1")
    (adds_two (λ _, member (Some "239.1.3.37") 12345 "239.1.3.37" "127.0.0.1") (λ _, member (Some "239.1.3.38") 12345 "239.1.3.38" "127.0.0.1")) ∧
  (let '(r, h) := open_md_client (K := no_groups) "239.1.3.37" 12345 "239.1.3.38" 12345 "127.0.0.1" [] in
   r = Throw (runtime_error "Failed to join multicast group") ∧ is_Some (descriptors h !! 3)) ∧
  (let '(r, h) := open_publisher (K := no_groups) "127.0.0.1" [] in r = Ret 3 ∧ length h = 5%nat).
Proof.
  split; [apply (sockets_configured no_groups no_groups_ok)|]. split; [split; [reflexivity|by eexists]|by split].
Defined.
