(* ===== verification/MdMcast.v ===== *)
(** * [matching_engine/md_mcast.cpp]: the market data publisher

    Messages are serialised into a buffer of one packet; the buffer is sent
    when the next message does not fit and at the end of every publication.
    Trades are queued and published together behind a summary. *)
From Stdlib Require Import Init.Byte.
From S2P Require Import Prelude Protocol.

Module MarketDataPublisher.

(** [buffer] is the first [buffer_size] bytes of [char buffer[1460]];
    [readings], [sends] count the calls of [nanotime] and [sendto];
    [packets] is what the network was given. *)
Record t := mk {
  buffer : list byte;
  seq_num : Z;
  queued_trades : list md.trade;
  readings : nat;
  sends : nat;
  packets : list (list byte);
}.

Definition initial : t := mk [] 0 [] 0 0 [].

Definition BUFFER_SIZE : Z := 1460.

Definition set_buffer (b : list byte) (p : t) : t := mk b (seq_num p) (queued_trades p) (readings p) (sends p) (packets p).
Definition set_seq_num (n : Z) (p : t) : t := mk (buffer p) n (queued_trades p) (readings p) (sends p) (packets p).
Definition set_queued_trades (q : list md.trade) (p : t) : t := mk (buffer p) (seq_num p) q (readings p) (sends p) (packets p).
Definition count_reading (p : t) : t := mk (buffer p) (seq_num p) (queued_trades p) (S (readings p)) (sends p) (packets p).
Definition count_send (p : t) : t := mk (buffer p) (seq_num p) (queued_trades p) (readings p) (S (sends p)) (packets p).
Definition add_packet (b : list byte) (p : t) : t := mk (buffer p) (seq_num p) (queued_trades p) (readings p) (sends p) (packets p ++ [b]).

(** A message under construction: only [length] and [msg_type] of its header
    are assigned; [write_msg] assigns the rest in the buffer. *)
Definition header (length msg_type : Z) : md.md_header := md.Build_md_header 0 length 0 0 msg_type.

(** The header fields [write_msg] assigns through the pointer into the
    buffer, over the bytes copied from the message. *)
Definition stamp (seq ts msg_type : Z) (body : list byte) : list byte :=
  let h := c_dec md.c_md_header body in
  c_enc md.c_md_header (md.Build_md_header md.MAGIC_NUMBER (md.length h) seq ts msg_type)
    ++ drop (c_size md.c_md_header) body.

Section ops.
Context `{World}.
Abbreviation PM := (M t).

Definition nanotime : PM Z :=
  n ← gets readings;
  modify count_reading;;
  mret (clock_nanotime (nanotime_at n)).

Definition send : PM unit :=
  b ← gets buffer;
  if bool_decide (b = []) then mret tt
  else
    n ← gets sends;
    modify count_send;;
    if sendto_rc n b <? 0 then throw (runtime_error "Failed to send payload to multicast group")
    else
      modify (add_packet b);;
      modify (set_buffer []).

Definition write_msg {Msg} (c : codec Msg) (hdr : Msg → md.md_header) (msg : Msg) : PM unit :=
  b ← gets buffer;
  when (BUFFER_SIZE <? Z.of_nat (length b) + md.length (hdr msg)) send;;
  seq ← gets seq_num;
  modify (set_seq_num (u32 (seq + 1)));;
  ts ← nanotime;
  b ← gets buffer;
  modify (set_buffer (b ++ stamp seq ts (md.msg_type (hdr msg))
    (take (Z.to_nat (md.length (hdr msg))) (c_enc c msg)))).

Definition publish_new_order (order_id symbol side quantity price flags : Z) : PM unit :=
  write_msg md.c_new_order md.no_header
    (md.Build_new_order (header (Z.of_nat (c_size md.c_new_order)) md.MSG_TYPE.NEW_ORDER)
       order_id symbol side quantity (s32 price) flags);;
  send.

Definition publish_delete_order (order_id : Z) : PM unit :=
  write_msg md.c_delete_order md.do_header
    (md.Build_delete_order (header (Z.of_nat (c_size md.c_delete_order)) md.MSG_TYPE.DELETE_ORDER) order_id);;
  send.

Definition publish_modify_order (order_id side quantity price : Z) : PM unit :=
  write_msg md.c_modify_order md.mo_header
    (md.Build_modify_order (header (Z.of_nat (c_size md.c_modify_order)) md.MSG_TYPE.MODIFY_ORDER)
       order_id side quantity (s32 price));;
  send.

Definition queue_trade (order_id quantity price : Z) : PM unit :=
  let msg := md.Build_trade (header (Z.of_nat (c_size md.c_trade)) md.MSG_TYPE.TRADE) order_id quantity (s32 price) in
  q ← gets queued_trades;
  modify (set_queued_trades (q ++ [msg])).

Definition total_quantity (q : list md.trade) : Z := foldl (λ acc tr, u32 (acc + md.tr_quantity tr)) 0 q.
Definition last_price (q : list md.trade) : Z := foldl (λ _ tr, u32 (md.tr_price tr)) 0 q.

Definition publish_queued_trades (symbol aggressor_side : Z) : PM unit :=
  q ← gets queued_trades;
  if bool_decide (q = []) then mret tt
  else
    write_msg md.c_trade_summary md.ts_header
      (md.Build_trade_summary (header (Z.of_nat (c_size md.c_trade_summary)) md.MSG_TYPE.TRADE_SUMMARY)
         symbol aggressor_side (total_quantity q) (s32 (last_price q)));;
    for_each q (write_msg md.c_trade md.tr_header);;
    modify (set_queued_trades []);;
    send.

Definition publish_hearbeat : PM unit :=
  b ← gets buffer;
  when (BUFFER_SIZE <? Z.of_nat (length b) + Z.of_nat (c_size md.c_md_header)) send;;
  seq ← gets seq_num;
  modify (set_seq_num (u32 (seq + 1)));;
  ts ← nanotime;
  b ← gets buffer;
  modify (set_buffer (b ++ c_enc md.c_md_header
    (md.Build_md_header md.MAGIC_NUMBER (Z.of_nat (c_size md.c_md_header)) seq ts md.MSG_TYPE.HEARTBEAT)));;
  send.
End ops.
End MarketDataPublisher.
