(* ===== verification/MdStream.v ===== *)
(** * What the market data publisher puts on the wire

    Whatever the sequence of publications, and whether or not sends fail, the
    packets sent followed by the buffer are the frames of the messages
    written, each whole, with consecutive sequence numbers, in packets of at
    most 1460 bytes. *)
From Stdlib Require Import Init.Byte.
From S2P Require Import Prelude Protocol MdMcast.
Import MarketDataPublisher.

(** ** Messages and frames *)

Inductive md_msg :=
  | Heartbeat
  | NewOrder (order_id symbol side quantity price flags : Z)
  | DeleteOrder (order_id : Z)
  | ModifyOrder (order_id side quantity price : Z)
  | Trade (order_id quantity price : Z)
  | TradeSummary (symbol aggressor_side total_quantity last_price : Z).

#[global] Instance md_msg_eq_dec : EqDecision md_msg.
Proof. solve_decision. Defined.

Definition msg_size (m : md_msg) : nat :=
  match m with
  | Heartbeat => c_size md.c_md_header
  | NewOrder _ _ _ _ _ _ => c_size md.c_new_order
  | DeleteOrder _ => c_size md.c_delete_order
  | ModifyOrder _ _ _ _ => c_size md.c_modify_order
  | Trade _ _ _ => c_size md.c_trade
  | TradeSummary _ _ _ _ => c_size md.c_trade_summary
  end.

Definition msg_tag (m : md_msg) : Z :=
  match m with
  | Heartbeat => md.MSG_TYPE.HEARTBEAT
  | NewOrder _ _ _ _ _ _ => md.MSG_TYPE.NEW_ORDER
  | DeleteOrder _ => md.MSG_TYPE.DELETE_ORDER
  | ModifyOrder _ _ _ _ => md.MSG_TYPE.MODIFY_ORDER
  | Trade _ _ _ => md.MSG_TYPE.TRADE
  | TradeSummary _ _ _ _ => md.MSG_TYPE.TRADE_SUMMARY
  end.

Definition msg_ok (m : md_msg) : Prop :=
  match m with
  | Heartbeat => True
  | NewOrder i y d q p f => is_u64 i ∧ is_u32 y ∧ is_u8 d ∧ is_u32 q ∧ is_s32 p ∧ is_u8 f
  | DeleteOrder i => is_u64 i
  | ModifyOrder i d q p => is_u64 i ∧ is_u8 d ∧ is_u32 q ∧ is_s32 p
  | Trade i q p => is_u64 i ∧ is_u32 q ∧ is_s32 p
  | TradeSummary y d q p => is_u32 y ∧ is_u8 d ∧ is_u32 q ∧ is_s32 p
  end.

#[global] Instance msg_ok_dec m : Decision (msg_ok m).
Proof. destruct m; simpl; apply _. Defined.

Definition wire_header (seq ts : Z) (m : md_msg) : md.md_header :=
  md.Build_md_header md.MAGIC_NUMBER (Z.of_nat (msg_size m)) seq ts (msg_tag m).

(** The bytes of a message under a given header. *)
Definition msg_bytes (h : md.md_header) (m : md_msg) : list byte :=
  match m with
  | Heartbeat => c_enc md.c_md_header h
  | NewOrder i y d q p f => c_enc md.c_new_order (md.Build_new_order h i y d q p f)
  | DeleteOrder i => c_enc md.c_delete_order (md.Build_delete_order h i)
  | ModifyOrder i d q p => c_enc md.c_modify_order (md.Build_modify_order h i d q p)
  | Trade i q p => c_enc md.c_trade (md.Build_trade h i q p)
  | TradeSummary y d q p => c_enc md.c_trade_summary (md.Build_trade_summary h y d q p)
  end.

Definition frame (seq ts : Z) (m : md_msg) : list byte := msg_bytes (wire_header seq ts m) m.

(** What follows the header. *)
Definition msg_payload (m : md_msg) : list byte :=
  match m with
  | Heartbeat => []
  | NewOrder i y d q p f => c_enc U64 i ++ c_enc U32 y ++ c_enc U8 d ++ c_enc U32 q ++ c_enc S32 p ++ c_enc U8 f
  | DeleteOrder i => c_enc U64 i
  | ModifyOrder i d q p => c_enc U64 i ++ c_enc U8 d ++ c_enc U32 q ++ c_enc S32 p
  | Trade i q p => c_enc U64 i ++ c_enc U32 q ++ c_enc S32 p
  | TradeSummary y d q p => c_enc U32 y ++ c_enc U8 d ++ c_enc U32 q ++ c_enc S32 p
  end.

Lemma msg_bytes_split h m : msg_bytes h m = c_enc md.c_md_header h ++ msg_payload m.
Proof.
  destruct m; cbn [msg_bytes msg_payload]; rewrite ?app_nil_r; [done|..];
    cbn [c_enc c_iso md.c_new_order md.c_delete_order md.c_modify_order md.c_trade md.c_trade_summary c_pair fst snd
         md.no_header md.do_header md.mo_header md.tr_header md.ts_header
         md.no_order_id md.no_symbol md.no_side md.no_quantity md.no_price md.no_flags
         md.do_order_id md.mo_order_id md.mo_side md.mo_quantity md.mo_price
         md.tr_order_id md.tr_quantity md.tr_price
         md.ts_symbol md.ts_aggressor_side md.ts_total_quantity md.ts_last_price]; rewrite <- ?app_assoc; done.
Qed.

Lemma header_ok l typ : is_u16 l → is_u8 typ → c_ok md.c_md_header (header l typ).
Proof. unfold is_u16, is_u8. simpl. intros. split_and!; lia. Qed.

Lemma wire_header_ok seq ts m : is_u32 seq → is_u64 ts → c_ok md.c_md_header (wire_header seq ts m).
Proof.
  unfold is_u32, is_u64. intros. simpl. split_and!; try lia; try (vm_compute; done); by destruct m.
Qed.

Lemma msg_payload_length m : msg_ok m → (c_size md.c_md_header + length (msg_payload m) = msg_size m)%nat.
Proof.
  destruct m; cbn [msg_payload msg_size msg_ok length]; intros;
    rewrite ?length_app; cbn [c_enc c_uint c_s32]; rewrite ?length_le_split; reflexivity.
Qed.

Lemma stamp_msg l typ m seq ts t' :
  is_u16 l → is_u8 typ →
  stamp seq ts t' (msg_bytes (header l typ) m) =
  c_enc md.c_md_header (md.Build_md_header md.MAGIC_NUMBER l seq ts t') ++ msg_payload m.
Proof.
  intros Hl Ht. unfold stamp. rewrite msg_bytes_split. pose proof (header_ok l typ Hl Ht) as Hh.
  rewrite dec_enc by done. rewrite drop_app_length' by by rewrite enc_length. done.
Qed.

Lemma frame_length seq ts m : msg_ok m → is_u32 seq → is_u64 ts → length (frame seq ts m) = msg_size m.
Proof.
  intros Hm Hs Ht. unfold frame. rewrite msg_bytes_split, length_app, enc_length by by apply wire_header_ok.
  by apply msg_payload_length.
Qed.

Lemma msg_size_bound m : (23 ≤ msg_size m ≤ 45)%nat.
Proof. destruct m; simpl; lia. Qed.

Lemma msg_bytes_length h m : msg_ok m → c_ok md.c_md_header h → length (msg_bytes h m) = msg_size m.
Proof. intros Hm Hh. rewrite msg_bytes_split, length_app, enc_length by done. by apply msg_payload_length. Qed.

(** ** Writing one message *)

Section emit.
Context `{World}.

Definition emit (m : md_msg) : M t unit :=
  b ← gets buffer;
  when (BUFFER_SIZE <? Z.of_nat (length b) + Z.of_nat (msg_size m)) send;;
  seq ← gets seq_num;
  modify (set_seq_num (u32 (seq + 1)));;
  ts ← nanotime;
  b ← gets buffer;
  modify (set_buffer (b ++ frame seq ts m)).

Lemma write_msg_emit {Msg} (c : codec Msg) hdr msg m p :
  hdr msg = header (Z.of_nat (msg_size m)) (msg_tag m) →
  c_enc c msg = msg_bytes (header (Z.of_nat (msg_size m)) (msg_tag m)) m → msg_ok m →
  write_msg c hdr msg p = emit m p.
Proof.
  intros Hh He Hm. unfold write_msg, emit. rewrite Hh, He. cbn [md.length md.msg_type header].
  assert (is_u16 (Z.of_nat (msg_size m)) ∧ is_u8 (msg_tag m)) as [Hl Ht].
  { destruct m; by vm_compute. }
  rewrite Nat2Z.id, firstn_all2.
  2: { rewrite msg_bytes_length; [done|done|by apply header_ok]. }
  unfold mbind, M_bind. destruct (gets buffer p) as [[b|?] p1]; [|done].
  destruct (when _ _ p1) as [[[]|?] p2]; [|done]. destruct (gets seq_num p2) as [[n|?] p3]; [|done].
  destruct (modify _ p3) as [[[]|?] p4]; [|done]. destruct (nanotime p4) as [[ts|?] p5]; [|done].
  destruct (gets buffer p5) as [[b'|?] p6]; [|done]. rewrite stamp_msg by done.
  unfold frame. by rewrite msg_bytes_split.
Qed.
End emit.

(** ** The stream invariant *)

Abbreviation numbered := (Z * Z * md_msg)%type (only parsing).

Definition enc_frames (fs : list numbered) : list byte := concat ((λ '(s, ts, m), frame s ts m) <$> fs).

Definition numbered_ok (f : numbered) : Prop := is_u32 f.1.1 ∧ is_u64 f.1.2 ∧ msg_ok f.2.

(** The messages written so far are [ms]: those of the packets sent and then
    those of the buffer. *)
Record streamed (p : t) (ms : list md_msg) (sent : list (list numbered)) (pending : list numbered) : Prop := {
  st_packets : packets p = enc_frames <$> sent;
  st_buffer : buffer p = enc_frames pending;
  st_msgs : (λ f : numbered, f.2) <$> (concat sent ++ pending) = ms;
  st_seqs : (λ f : numbered, f.1.1) <$> (concat sent ++ pending) = u32 <$> seqZ 0 (Z.of_nat (length ms));
  st_ok : Forall numbered_ok (concat sent ++ pending);
  st_size : Forall (λ g, g ≠ [] ∧ Z.of_nat (length (enc_frames g)) <= BUFFER_SIZE) sent;
  st_room : Z.of_nat (length (enc_frames pending)) <= BUFFER_SIZE;
  st_seq_num : seq_num p = u32 (Z.of_nat (length ms));
}.

Definition stream (p : t) (ms : list md_msg) : Prop := ∃ sent pending, streamed p ms sent pending.

Lemma stream_initial : stream initial [].
Proof. exists [], []. by split. Qed.

Lemma enc_frames_app fs gs : enc_frames (fs ++ gs) = enc_frames fs ++ enc_frames gs.
Proof. unfold enc_frames. by rewrite fmap_app, concat_app. Qed.

Lemma enc_frames_nil fs : Forall numbered_ok fs → enc_frames fs = [] → fs = [].
Proof.
  destruct fs as [|[[s ts] m] fs]; [done|]. intros [(Hs & Ht & Hm) _]%Forall_cons Hnil. simpl in *.
  apply (f_equal length) in Hnil. unfold enc_frames in Hnil. simpl in Hnil. rewrite length_app, frame_length in Hnil by done.
  pose proof (msg_size_bound m). simpl in Hnil. lia.
Qed.

Lemma enc_app_inj {A} (c : codec A) `{!CodecOk c} a b r1 r2 :
  c_ok c a → c_ok c b → c_enc c a ++ r1 = c_enc c b ++ r2 → a = b ∧ r1 = r2.
Proof.
  intros Ha Hb He. split; [rewrite <- (dec_enc a r1 Ha), He; by apply dec_enc|].
  apply (f_equal (drop (c_size c))) in He. by rewrite !drop_app_length' in He by by rewrite enc_length.
Qed.

(** Frames are read in one way only. *)
Lemma frame_inj s t m s' t' m' r r' :
  numbered_ok (s, t, m) → numbered_ok (s', t', m') → frame s t m ++ r = frame s' t' m' ++ r' →
  (s, t, m) = (s', t', m') ∧ r = r'.
Proof.
  intros (Hs & Ht & Hm) (Hs' & Ht' & Hm'). unfold frame. rewrite !msg_bytes_split, <- !app_assoc. cbn [fst snd] in *.
  intros [Hh Hp]%(enc_app_inj md.c_md_header); [|by apply wire_header_ok..]. injection Hh as _ <- <- Htag.
  destruct m, m'; try (by vm_compute in Htag); cbn [msg_ok] in Hm, Hm'; cbn [msg_payload] in Hp; rewrite <- ?app_assoc in Hp;
    destruct_and?;
    repeat match type of Hp with c_enc ?c _ ++ _ = _ => apply (enc_app_inj c) in Hp as [-> Hp]; [|done..] end; done.
Qed.

Lemma enc_frames_inj fs : ∀ gs, Forall numbered_ok fs → Forall numbered_ok gs → enc_frames fs = enc_frames gs → fs = gs.
Proof.
  induction fs as [|[[s t] m] fs IH]; intros [|[[s' t'] m'] gs] Hf Hg He; [done| | |].
  - symmetry in He |- *. by apply enc_frames_nil in He.
  - by apply enc_frames_nil in He.
  - apply Forall_cons in Hf as [Hf1 Hf], Hg as [Hg1 Hg]. apply frame_inj in He as [-> He]; [|done..]. f_equal. by apply IH.
Qed.

Lemma packets_inj fss : ∀ gss, Forall numbered_ok (concat fss) → Forall numbered_ok (concat gss) →
  enc_frames <$> fss = enc_frames <$> gss → fss = gss.
Proof.
  induction fss as [|fs fss IH]; intros [|gs gss] Hf Hg He; try done.
  apply Forall_app in Hf as [Hf1 Hf], Hg as [Hg1 Hg]. injection He as He1 He. f_equal; [by apply enc_frames_inj|by apply IH].
Qed.

Definition send_failed : exn := runtime_error "Failed to send payload to multicast group".

Section stream.
Context `{World}.

(** [send] moves the buffer to the network, or throws and keeps it. *)
Lemma send_stream p ms :
  stream p ms → let '(r, p') := send p in
  stream p' ms ∧ queued_trades p' = queued_trades p ∧
  (r = Ret tt ∧ buffer p' = [] ∨ r = Throw send_failed).
Proof.
  intros (sent & pending & [Hp Hb Hm Hs Hok Hsz Hr Hn]).
  unfold send. erewrite bind_ret by reflexivity. cbn beta. case_bool_decide as Hnil.
  { split; [by exists sent, pending|]. auto. }
  erewrite bind_ret by reflexivity. cbn beta. erewrite bind_ret by reflexivity. cbn beta.
  destruct (sendto_rc (sends p) (buffer p) <? 0) eqn:Hrc; simpl.
  { split; [by exists sent, pending|]. auto. }
  split; [|auto]. exists (sent ++ [pending]), []. split; simpl; rewrite ?app_nil_r.
  - by rewrite fmap_app, Hp, Hb.
  - done.
  - rewrite concat_app. simpl. by rewrite app_nil_r.
  - rewrite concat_app. simpl. by rewrite app_nil_r.
  - rewrite concat_app. simpl. by rewrite app_nil_r.
  - rewrite Forall_app. split; [done|]. constructor; [|constructor]. split; [|done].
    intros ->. by rewrite Hb in Hnil.
  - done.
  - done.
Qed.

Lemma when_send_stream (b : bool) p ms :
  stream p ms → let '(r, p') := when b send p in
  stream p' ms ∧ queued_trades p' = queued_trades p ∧
  (r = Ret tt ∧ buffer p' = (if b then [] else buffer p) ∨ r = Throw send_failed).
Proof. destruct b; simpl; [apply send_stream|]. intros. auto. Qed.

Lemma emit_stream m p ms :
  stream p ms → msg_ok m → let '(r, p') := emit m p in
  queued_trades p' = queued_trades p ∧
  (r = Ret tt ∧ stream p' (ms ++ [m]) ∨ r = Throw send_failed ∧ stream p' ms).
Proof.
  intros Hst Hm. unfold emit. erewrite bind_ret by reflexivity. cbn beta.
  set (full := BUFFER_SIZE <? _). pose proof (when_send_stream full p ms Hst) as Hw.
  unfold mbind at 1, M_bind at 1. destruct (when full send p) as [r p1].
  destruct Hw as (Hst1 & Hq1 & [[-> Hb1]| ->]); [|auto].
  unfold gets, modify, nanotime, mbind, M_bind. simpl. split; [done|]. left. split; [done|].
  destruct Hst1 as (sent & pending & [Hp Hb Hms Hs Hok Hsz Hr Hn]).
  set (ts := clock_nanotime _). assert (numbered_ok (seq_num p1, ts, m)) as Hnew.
  { split_and!; simpl; [rewrite Hn; apply u32_range|apply clock_nanotime_range|done]. }
  exists sent, (pending ++ [(seq_num p1, ts, m)]). split; simpl.
  - done.
  - rewrite enc_frames_app, Hb. unfold enc_frames. simpl. by rewrite app_nil_r.
  - rewrite app_assoc, fmap_app, Hms. done.
  - rewrite app_assoc, fmap_app, Hs, length_app. simpl.
    rewrite Nat2Z.inj_add, seqZ_app, fmap_app by lia. simpl. rewrite Hn. done.
  - rewrite app_assoc, Forall_app. split; [done|]. by constructor.
  - done.
  - rewrite enc_frames_app, length_app. unfold enc_frames at 2. simpl. rewrite app_nil_r, frame_length by apply Hnew.
    rewrite Hb in Hb1. subst full. pose proof (msg_size_bound m). destruct (BUFFER_SIZE <? _) eqn:Hfull.
    + apply (enc_frames_nil pending) in Hb1; [|by apply Forall_app in Hok as [_ ?]].
      subst pending. unfold BUFFER_SIZE. simpl. lia.
    + rewrite Hb1. lia.
  - rewrite Hn, length_app. simpl. rewrite u32_add_l. f_equal. lia.
Qed.
End stream.

(** ** Publications *)

Inductive pub_op :=
  | PublishNew (order_id symbol side quantity price flags : Z)
  | PublishDelete (order_id : Z)
  | PublishModify (order_id side quantity price : Z)
  | QueueTrade (order_id quantity price : Z)
  | PublishTrades (symbol aggressor_side : Z)
  | PublishHeartbeat.

(** Prices travel as [uint32_t] arguments. *)
Definition pub_ok (o : pub_op) : Prop :=
  match o with
  | PublishNew i y d q p f => is_u64 i ∧ is_u32 y ∧ is_u8 d ∧ is_u32 q ∧ is_u32 p ∧ is_u8 f
  | PublishDelete i => is_u64 i
  | PublishModify i d q p => is_u64 i ∧ is_u8 d ∧ is_u32 q ∧ is_u32 p
  | QueueTrade i q p => is_u64 i ∧ is_u32 q ∧ is_u32 p
  | PublishTrades y d => is_u32 y ∧ is_u8 d
  | PublishHeartbeat => True
  end.

#[global] Instance pub_ok_dec o : Decision (pub_ok o).
Proof. destruct o; simpl; apply _. Defined.

(** The trades waiting in the queue. *)
Record queued := Queued { qt_id : Z; qt_quantity : Z; qt_price : Z }.
Definition queued_ok (q : queued) : Prop := is_u64 (qt_id q) ∧ is_u32 (qt_quantity q) ∧ is_s32 (qt_price q).
Definition queued_msg (q : queued) : md_msg := Trade (qt_id q) (qt_quantity q) (qt_price q).
Definition queued_struct (q : queued) : md.trade :=
  md.Build_trade (header (Z.of_nat (c_size md.c_trade)) md.MSG_TYPE.TRADE) (qt_id q) (qt_quantity q) (qt_price q).

Definition summary_msg (symbol side : Z) (qs : list queued) : md_msg :=
  TradeSummary symbol side (u32 (foldr Z.add 0 (qt_quantity <$> qs)))
    (match last qs with Some q => qt_price q | None => 0 end).

(** What a publication writes, and what it leaves in the queue. *)
Definition pub_msgs (o : pub_op) (qs : list queued) : list md_msg * list queued :=
  match o with
  | PublishNew i y d q p f => ([NewOrder i y d q (s32 p) f], qs)
  | PublishDelete i => ([DeleteOrder i], qs)
  | PublishModify i d q p => ([ModifyOrder i d q (s32 p)], qs)
  | QueueTrade i q p => ([], qs ++ [Queued i q (s32 p)])
  | PublishTrades y d => if bool_decide (qs = []) then ([], []) else (summary_msg y d qs :: (queued_msg <$> qs), [])
  | PublishHeartbeat => ([Heartbeat], qs)
  end.

Fixpoint pubs_msgs (os : list pub_op) (qs : list queued) : list md_msg * list queued :=
  match os with
  | [] => ([], qs)
  | o :: os => let '(ms, qs) := pub_msgs o qs in let '(ms', qs) := pubs_msgs os qs in (ms ++ ms', qs)
  end.

Lemma total_quantity_sum qs : total_quantity (queued_struct <$> qs) = u32 (foldr Z.add 0 (qt_quantity <$> qs)).
Proof.
  unfold total_quantity. assert (∀ acc, is_u32 acc → foldl (λ a tr, u32 (a + md.tr_quantity tr)) acc (queued_struct <$> qs)
    = u32 (acc + foldr Z.add 0 (qt_quantity <$> qs))) as H; [|rewrite H by done; done].
  induction qs as [|q qs IH]; intros acc Hacc; simpl; [by rewrite Z.add_0_r, u32_id|].
  rewrite IH by apply u32_range. rewrite u32_add_l. by rewrite <- Z.add_assoc.
Qed.

Lemma last_price_last qs q : last qs = Some q → last_price (queued_struct <$> qs) = u32 (qt_price q).
Proof.
  intros (qs' & ->)%last_Some. unfold last_price. rewrite fmap_app, foldl_app. done.
Qed.

Lemma summary_msg_ok symbol side qs : is_u32 symbol → is_u8 side → Forall queued_ok qs → msg_ok (summary_msg symbol side qs).
Proof.
  intros Hy Hd Hq. simpl. split_and!; [done|done|apply u32_range|].
  destruct (last qs) as [q|] eqn:Hl; [|done]. apply last_Some in Hl as [qs' ->].
  apply Forall_app in Hq as [_ [(_ & _ & ?) _]%Forall_cons]. done.
Qed.

Section publish.
Context `{World}.

Definition pub_run (o : pub_op) : M t unit :=
  match o with
  | PublishNew i y d q p f => publish_new_order i y d q p f
  | PublishDelete i => publish_delete_order i
  | PublishModify i d q p => publish_modify_order i d q p
  | QueueTrade i q p => queue_trade i q p
  | PublishTrades y d => publish_queued_trades y d
  | PublishHeartbeat => publish_hearbeat
  end.

(** One message written and sent. *)
Lemma emit_send_stream m p ms :
  stream p ms → msg_ok m →
  let '(r, p') := (emit m;; send) p in
  queued_trades p' = queued_trades p ∧
  (r = Ret tt ∧ buffer p' = [] ∧ stream p' (ms ++ [m]) ∨
   r = Throw send_failed ∧ ∃ ms', ms' `prefix_of` [m] ∧ stream p' (ms ++ ms')).
Proof.
  intros Hst Hm. pose proof (emit_stream m p ms Hst Hm) as He. unfold mbind, M_bind.
  destruct (emit m p) as [r p1]. destruct He as (Hq & [[-> Hst1]|[-> Hst1]]).
  - pose proof (send_stream p1 _ Hst1) as Hs. destruct (send p1) as [r p2].
    destruct Hs as (Hst2 & Hq2 & [[-> Hb]| ->]); (split; [congruence|]); [auto|]. right. split; [done|]. exists [m]. done.
  - split; [done|]. right. split; [done|]. exists []. rewrite app_nil_r. split; [apply prefix_nil|done].
Qed.

Lemma write_msg_send {Msg} (c : codec Msg) hdr msg m p :
  hdr msg = header (Z.of_nat (msg_size m)) (msg_tag m) →
  c_enc c msg = msg_bytes (header (Z.of_nat (msg_size m)) (msg_tag m)) m → msg_ok m →
  (write_msg c hdr msg;; send) p = (emit m;; send) p.
Proof. intros. unfold mbind, M_bind. by erewrite write_msg_emit. Qed.

(** The trades of the queue, written one by one. *)
Lemma emit_queue_stream qs : ∀ p ms,
  stream p ms → Forall queued_ok qs →
  let '(r, p') := for_each (queued_struct <$> qs) (write_msg md.c_trade md.tr_header) p in
  queued_trades p' = queued_trades p ∧
  (r = Ret tt ∧ stream p' (ms ++ (queued_msg <$> qs)) ∨
   r = Throw send_failed ∧ ∃ ms', ms' `prefix_of` (queued_msg <$> qs) ∧ stream p' (ms ++ ms')).
Proof.
  induction qs as [|q qs IH]; intros p ms Hst Hok; simpl.
  { split; [done|]. left. by rewrite app_nil_r. }
  apply Forall_cons in Hok as [Hq Hok]. pose proof (emit_stream (queued_msg q) p ms Hst Hq) as He.
  unfold mbind, M_bind. rewrite (write_msg_emit _ _ _ (queued_msg q)) by done.
  destruct (emit (queued_msg q) p) as [r p1]. destruct He as (Hq1 & [[-> Hst1]|[-> Hst1]]).
  - specialize (IH p1 _ Hst1 Hok). destruct (for_each _ _ p1) as [r p2].
    destruct IH as (Hq2 & [[-> Hst2]|(-> & ms' & Hms' & Hst2)]); (split; [congruence|]).
    + left. by rewrite <- app_assoc in Hst2.
    + right. split; [done|]. exists (queued_msg q :: ms'). split; [by apply prefix_cons|]. by rewrite <- app_assoc in Hst2.
  - split; [done|]. right. split; [done|]. exists []. rewrite app_nil_r. split; [apply prefix_nil|done].
Qed.
End publish.

(** ** Every publication, and every run of publications *)

(** What a publication leaves behind: on success the buffer is empty and the
    messages are on the wire; after a failed send what was written stays. *)
Definition published (o : pub_op) (qs : list queued) (ms : list md_msg) (r : outcome unit) (p' : t) : Prop :=
  let '(new, qs') := pub_msgs o qs in
  (r = Ret tt ∧ buffer p' = [] ∧ stream p' (ms ++ new) ∧ queued_trades p' = queued_struct <$> qs') ∨
  (r = Throw send_failed ∧ queued_trades p' = queued_struct <$> qs ∨
   r = Throw send_failed ∧ queued_trades p' = queued_struct <$> qs') ∧
  ∃ new', new' `prefix_of` new ∧ stream p' (ms ++ new').

Section run.
Context `{World}.

Lemma published_one o m qs ms p :
  pub_msgs o qs = ([m], qs) → stream p ms → msg_ok m → queued_trades p = queued_struct <$> qs →
  let '(r, p') := (emit m;; send) p in published o qs ms r p'.
Proof.
  intros Ho Hst Hm Hq. pose proof (emit_send_stream m p ms Hst Hm) as He. unfold published. rewrite Ho.
  destruct ((emit m;; send) p) as [r p']. destruct He as (Hq' & [(-> & ? & ?)|(-> & ?)]); [left|right]; rewrite Hq', Hq; auto.
Qed.

Lemma heartbeat_emit p : publish_hearbeat p = (emit Heartbeat;; send) p.
Proof.
  unfold publish_hearbeat, emit, mbind, M_bind.
  change (Z.of_nat (msg_size Heartbeat)) with (Z.of_nat (c_size md.c_md_header)).
  destruct (gets buffer p) as [[b|?] p1]; [|done]. by destruct (when _ _ p1) as [[[]|?] p2].
Qed.

Lemma pub_trades_published symbol side qs ms p :
  is_u32 symbol → is_u8 side → Forall queued_ok qs → qs ≠ [] →
  stream p ms → queued_trades p = queued_struct <$> qs →
  let '(r, p') := publish_queued_trades symbol side p in published (PublishTrades symbol side) qs ms r p'.
Proof.
  intros Hy Hd Hok Hne Hst Hq. pose proof (summary_msg_ok symbol side qs Hy Hd Hok) as Hm.
  unfold publish_queued_trades. erewrite bind_ret by reflexivity. cbn beta. rewrite Hq.
  rewrite bool_decide_false by (by destruct qs).
  assert (s32 (last_price (queued_struct <$> qs)) = match last qs with Some q => qt_price q | None => 0 end) as Hlp.
  { destruct (last qs) as [q|] eqn:Hl.
    - rewrite (last_price_last _ _ Hl), s32_u32. apply s32_id. apply last_Some in Hl as [qs' ->].
      apply Forall_app in Hok as [_ [(_ & _ & ?) _]%Forall_cons]. done.
    - by apply last_None in Hl. }
  rewrite Hlp, total_quantity_sum. unfold published, pub_msgs. rewrite bool_decide_false by done.
  unfold mbind at 1, M_bind at 1. rewrite (write_msg_emit _ _ _ (summary_msg symbol side qs)) by done.
  pose proof (emit_stream _ p ms Hst Hm) as He. destruct (emit _ p) as [r p1].
  destruct He as (Hq1 & [[-> Hst1]|[-> Hst1]]).
  2: { right. split; [left; by rewrite Hq1|]. exists []. rewrite app_nil_r. split; [apply prefix_nil|done]. }
  unfold mbind at 1, M_bind at 1. pose proof (emit_queue_stream qs p1 _ Hst1 Hok) as Hf.
  destruct (for_each _ _ p1) as [r p2]. destruct Hf as (Hq2 & [[-> Hst2]|(-> & ms' & Hms' & Hst2)]).
  2: { right. split; [left; by rewrite Hq2, Hq1|]. exists (summary_msg symbol side qs :: ms').
       split; [by apply prefix_cons|]. by rewrite <- app_assoc in Hst2. }
  rewrite <- app_assoc in Hst2. erewrite bind_ret by reflexivity. cbn beta.
  assert (stream (set_queued_trades [] p2) (ms ++ summary_msg symbol side qs :: (queued_msg <$> qs))) as Hst3.
  { destruct Hst2 as (sent & pending & [? ? ? ? ? ? ? ?]). by exists sent, pending. }
  pose proof (send_stream _ _ Hst3) as Hs. destruct (send _) as [r p3].
  destruct Hs as (Hst4 & Hq4 & [[-> Hb]| ->]); [left; auto|]. right. split; [right; auto|]. eauto.
Qed.

(** Each publication writes its messages in order behind the others. *)
Lemma pub_run_published o qs ms p :
  pub_ok o → Forall queued_ok qs → stream p ms → queued_trades p = queued_struct <$> qs → buffer p = [] →
  let '(r, p') := pub_run o p in published o qs ms r p'.
Proof.
  intros Ho Hok Hst Hq Hb. destruct o as [i y d q pr f|i|i d q pr|i q pr|y d|]; simpl in Ho.
  - assert (msg_ok (NewOrder i y d q (s32 pr) f)) as Hm by (simpl; intuition; apply s32_range).
    unfold pub_run, publish_new_order. erewrite write_msg_send; [|..|exact Hm]; [|done..].
    by apply published_one.
  - unfold pub_run, publish_delete_order. erewrite (write_msg_send _ _ _ (DeleteOrder i)); [|done..].
    by apply published_one.
  - assert (msg_ok (ModifyOrder i d q (s32 pr))) as Hm by (simpl; intuition; apply s32_range).
    unfold pub_run, publish_modify_order. erewrite write_msg_send; [|..|exact Hm]; [|done..].
    by apply published_one.
  - unfold pub_run, queue_trade. msteps. left. simpl. split; [done|]. split; [done|]. rewrite app_nil_r.
    split; [|by rewrite Hq, fmap_app]. destruct Hst as (sent & pending & [? ? ? ? ? ? ? ?]). by exists sent, pending.
  - destruct (decide (qs = [])) as [->|Hne].
    + unfold pub_run, publish_queued_trades. erewrite bind_ret by reflexivity. cbn beta. rewrite Hq. left.
      rewrite app_nil_r. split; [done|]. split; [exact Hb|]. split; [exact Hst|exact Hq].
    + destruct Ho. by apply pub_trades_published.
  - unfold pub_run. rewrite heartbeat_emit. by apply published_one.
Qed.

Lemma pub_msgs_queue_ok o qs : pub_ok o → Forall queued_ok qs → Forall queued_ok (pub_msgs o qs).2.
Proof.
  intros Ho Hq. destruct o; simpl in *; try done.
  - apply Forall_app. split; [done|]. constructor; [|done]. unfold queued_ok; simpl. intuition. apply s32_range.
  - by case_bool_decide.
Qed.

Lemma run_pubs os : ∀ qs ms p,
  Forall pub_ok os → Forall queued_ok qs → stream p ms → queued_trades p = queued_struct <$> qs → buffer p = [] →
  let '(r, p') := for_each os pub_run p in
  (r = Ret tt ∧ buffer p' = [] ∧ stream p' (ms ++ (pubs_msgs os qs).1) ∧ queued_trades p' = queued_struct <$> (pubs_msgs os qs).2) ∨
  (r = Throw send_failed ∧ ∃ new, new `prefix_of` (pubs_msgs os qs).1 ∧ stream p' (ms ++ new)).
Proof.
  induction os as [|o os IH]; intros qs ms p Hok Hqs Hst Hq Hb; simpl.
  { left. by rewrite app_nil_r. }
  apply Forall_cons in Hok as [Ho Hok]. pose proof (pub_run_published o qs ms p Ho Hqs Hst Hq Hb) as Hp.
  pose proof (pub_msgs_queue_ok o qs Ho Hqs) as Hqs'. unfold mbind, M_bind.
  destruct (pub_run o p) as [r p1]. unfold published in Hp. destruct (pub_msgs o qs) as [new qs'].
  destruct Hp as [(-> & Hb1 & Hst1 & Hq1)|(Hr & new' & Hnew & Hst1)].
  - specialize (IH qs' _ p1 Hok Hqs' Hst1 Hq1 Hb1). destruct (for_each os pub_run p1) as [r2 p2].
    destruct (pubs_msgs os qs') as [ms2 qs2]. simpl in *.
    destruct IH as [(-> & Hb2 & Hst2 & Hq2)|(-> & new2 & Hnew2 & Hst2)]; rewrite <- app_assoc in Hst2; [auto|].
    right. split; [done|]. exists (new ++ new2). split; [by apply prefix_app|done].
  - assert (r = Throw send_failed) as -> by (by destruct Hr as [[? _]|[? _]]).
    right. destruct (pubs_msgs os qs') as [ms2 qs2]. simpl. split; [done|].
    exists new'. split; [by apply prefix_app_r|done].
Qed.
Lemma pubs_stream os qs ms p :
  Forall pub_ok os → Forall queued_ok qs → stream p ms → queued_trades p = queued_struct <$> qs → buffer p = [] →
  let '(r, p') := for_each os pub_run p in
  (r = Ret tt ∧ buffer p' = [] ∧ stream p' (ms ++ (pubs_msgs os qs).1)) ∨
  (r = Throw send_failed ∧ ∃ new, new `prefix_of` (pubs_msgs os qs).1 ∧ stream p' (ms ++ new)).
Proof.
  intros Hok Hqs Hst Hq Hb. pose proof (run_pubs os qs ms p Hok Hqs Hst Hq Hb) as Hr.
  destruct (for_each os pub_run p) as [r p']. tauto.
Qed.
End run.
