(* ===== verification/SnapshotClient.v ===== *)
(** * [market_data/snapshot_client.cpp]: reading the market data feed

    [SnapshotClient::process] walks the frames of one datagram and queues a
    payload per message.  The buffer is modelled with what earlier datagrams
    left in it, the remaining length as the [size_t] it is. *)
From Stdlib Require Import Init.Byte.
From S2P Require Import Prelude Protocol MdMcast MdStream.

(** [market_data/spsc_md_queue.H] *)
Record md_payload := mk_md_payload {
  mp_msg_type : Z;
  mp_seq_num : Z;
  mp_order_id : Z;
  mp_symbol : Z;
  mp_side : Z;
  mp_quantity : Z;
  mp_price : Z;
  mp_flags : Z;
}.

#[global] Instance md_payload_eq_dec : EqDecision md_payload.
Proof. solve_decision. Defined.

(** What [recvfrom] on a non-blocking socket answers. *)
Inductive received :=
  | RecvWouldBlock
  | RecvError
  | RecvPacket (pkt : list byte).

Module SnapshotClient.

Record t := mk {
  buf : list byte;
  last_seq_num : Z;
  queue : list md_payload;
}.

Definition BUF_SIZE : nat := Z.to_nat 4096.

Definition initial : t := mk (replicate BUF_SIZE x00) 0 [].

Definition set_buf (b : list byte) (s : t) : t := mk b (last_seq_num s) (queue s).
Definition set_last_seq_num (n : Z) (s : t) : t := mk (buf s) n (queue s).
Definition emplace (p : md_payload) (s : t) : t := mk (buf s) (last_seq_num s) (queue s ++ [p]).

(** [reinterpret_cast<A*>(buf_ptr)], dereferenced: reading past the array is
    undefined. *)
Definition read {A} (c : codec A) (off : nat) : M t A :=
  b ← gets buf;
  if bool_decide (off + c_size c ≤ length b)%nat then mret (c_dec c (drop off b))
  else throw (undefined_behaviour "read past the end of buf").

(** A case of the [switch]: the length check, then the struct, then the
    queue.  The boolean says whether [process] goes on. *)
Definition queued {A} (c : codec A) (off : nat) (buf_len : Z) (f : A → md_payload) : M t bool :=
  if buf_len <? Z.of_nat (c_size c) then mret false
  else m ← read c off; modify (emplace (f m));; mret true.

Definition process_message (off : nat) (buf_len : Z) (header : md.md_header) : M t bool :=
  let seq_num := md.seq_num header in
  let ty := md.msg_type header in
  if ty =? md.MSG_TYPE.NEW_ORDER then
    queued md.c_new_order off buf_len (λ m, mk_md_payload md.MSG_TYPE.NEW_ORDER seq_num (md.no_order_id m)
      (md.no_symbol m) (md.no_side m) (md.no_quantity m) (md.no_price m) (md.no_flags m))
  else if ty =? md.MSG_TYPE.DELETE_ORDER then
    queued md.c_delete_order off buf_len (λ m, mk_md_payload md.MSG_TYPE.DELETE_ORDER seq_num (md.do_order_id m)
      0 md.SIDE.BUY 0 0 0)
  else if ty =? md.MSG_TYPE.MODIFY_ORDER then
    queued md.c_modify_order off buf_len (λ m, mk_md_payload md.MSG_TYPE.MODIFY_ORDER seq_num (md.mo_order_id m)
      0 (md.mo_side m) (md.mo_quantity m) (md.mo_price m) 0)
  else if ty =? md.MSG_TYPE.TRADE then
    queued md.c_trade off buf_len (λ m, mk_md_payload md.MSG_TYPE.TRADE seq_num (md.tr_order_id m)
      0 md.SIDE.BUY (md.tr_quantity m) (md.tr_price m) 0)
  else if ty =? md.MSG_TYPE.TRADE_SUMMARY then
    mret (negb (buf_len <? Z.of_nat (c_size md.c_trade_summary)))
  else if ty =? md.MSG_TYPE.HEARTBEAT then
    modify (emplace (mk_md_payload md.MSG_TYPE.HEARTBEAT seq_num 0 0 md.SIDE.BUY 0 0 0));; mret true
  else mret true.

Fixpoint process_loop (fuel : nat) (off : nat) (buf_len : Z) : M t unit :=
  match fuel with
  | O => throw out_of_fuel
  | S fuel =>
      if buf_len >? 0 then
        header ← read md.c_md_header off;
        if negb (md.magic_number header =? md.MAGIC_NUMBER) then mret tt
        else
          (* a gap is only logged *)
          modify (set_last_seq_num (md.seq_num header));;
          go ← process_message off buf_len header;
          if (go : bool) then
            process_loop fuel (off + Z.to_nat (md.length header)) (u64 (buf_len - md.length header))
          else mret tt
      else mret tt
  end.

(** A frame that makes progress takes at least one byte, and reading past
    the buffer stops the model: one iteration per byte is enough. *)
Definition process (r : received) : M t unit :=
  match r with
  | RecvWouldBlock => mret tt
  | RecvError => throw (runtime_error "Failed to receive message")
  | RecvPacket pkt =>
      let pkt := take BUF_SIZE pkt in
      b ← gets buf;
      modify (set_buf (pkt ++ drop (length pkt) b));;
      process_loop (S BUF_SIZE) 0 (Z.of_nat (length pkt))
  end.

#[global] Arguments BUF_SIZE : simpl never.
#[global] Arguments process : simpl never.
End SnapshotClient.

Import SnapshotClient.

(** What the queue gets for a message of the feed; summaries are skipped. *)
Definition payload_of (seq : Z) (m : md_msg) : option md_payload :=
  match m with
  | Heartbeat => Some (mk_md_payload md.MSG_TYPE.HEARTBEAT seq 0 0 md.SIDE.BUY 0 0 0)
  | NewOrder i y d q p f => Some (mk_md_payload md.MSG_TYPE.NEW_ORDER seq i y d q p f)
  | DeleteOrder i => Some (mk_md_payload md.MSG_TYPE.DELETE_ORDER seq i 0 md.SIDE.BUY 0 0 0)
  | ModifyOrder i d q p => Some (mk_md_payload md.MSG_TYPE.MODIFY_ORDER seq i 0 d q p 0)
  | Trade i q p => Some (mk_md_payload md.MSG_TYPE.TRADE seq i 0 md.SIDE.BUY q p 0)
  | TradeSummary _ _ _ _ => None
  end.

Definition payloads (fs : list (Z * Z * md_msg)) : list md_payload :=
  omap (λ '(s, _, m), payload_of s m) fs.

(** ** Reading back what was framed *)

Lemma run_read {A} (c : codec A) `{!CodecOk c} s pre a rest :
  buf s = pre ++ c_enc c a ++ rest → c_ok c a → read c (length pre) s = (Ret a, s).
Proof.
  intros Hb Ha. unfold read. erewrite bind_ret by reflexivity. cbn beta. rewrite Hb.
  rewrite bool_decide_true by (rewrite !length_app, enc_length by done; lia).
  by rewrite drop_app_length, dec_enc.
Qed.

Lemma run_queued {A} (c : codec A) `{!CodecOk c} s pre a rest buf_len f :
  buf s = pre ++ c_enc c a ++ rest → c_ok c a → Z.of_nat (c_size c) <= buf_len →
  queued c (length pre) buf_len f s = (Ret true, emplace (f a) s).
Proof.
  intros Hb Ha Hl. unfold queued. replace (buf_len <? _) with false by lia.
  erewrite bind_ret by (by eapply run_read). done.
Qed.

Definition push (seq : Z) (m : md_msg) (s : t) : t :=
  match payload_of seq m with Some p => emplace p s | None => s end.

Lemma struct_ok seq ts m : is_u32 seq → is_u64 ts → msg_ok m →
  match m with
  | Heartbeat => True
  | NewOrder i y d q p f => c_ok md.c_new_order (md.Build_new_order (wire_header seq ts m) i y d q p f)
  | DeleteOrder i => c_ok md.c_delete_order (md.Build_delete_order (wire_header seq ts m) i)
  | ModifyOrder i d q p => c_ok md.c_modify_order (md.Build_modify_order (wire_header seq ts m) i d q p)
  | Trade i q p => c_ok md.c_trade (md.Build_trade (wire_header seq ts m) i q p)
  | TradeSummary y d q p => c_ok md.c_trade_summary (md.Build_trade_summary (wire_header seq ts m) y d q p)
  end.
Proof.
  intros Hs Ht Hm. pose proof (wire_header_ok seq ts m Hs Ht) as Hh.
  destruct m; cbn -[wire_header md.c_md_header is_s32 Z.pow] in *; unfold is_u64, is_u32, is_u8 in *; intuition.
Qed.

Lemma run_process_message seq ts m s pre rest buf_len :
  buf s = pre ++ frame seq ts m ++ rest → is_u32 seq → is_u64 ts → msg_ok m → Z.of_nat (msg_size m) <= buf_len →
  process_message (length pre) buf_len (wire_header seq ts m) s = (Ret true, push seq m s).
Proof.
  intros Hb Hs Ht Hm Hl. pose proof (struct_ok seq ts m Hs Ht Hm) as Hok. unfold frame in Hb.
  unfold process_message. cbn [wire_header md.msg_type md.seq_num].
  destruct m; cbn [msg_tag];
    repeat match goal with |- context [?a =? ?b] => change (a =? b) with true || change (a =? b) with false end; cbn iota.
  - done.
  - by erewrite run_queued; [|apply _|exact Hb|exact Hok|exact Hl].
  - by erewrite run_queued; [|apply _|exact Hb|exact Hok|exact Hl].
  - by erewrite run_queued; [|apply _|exact Hb|exact Hok|exact Hl].
  - by erewrite run_queued; [|apply _|exact Hb|exact Hok|exact Hl].
  - replace (buf_len <? _) with false; [done|]. symmetry. apply Z.ltb_ge. exact Hl.
Qed.

(** [off] bytes of the packet are done; the frames [fs] are left. *)
Lemma run_process_loop fs : ∀ fuel s pre stale,
  buf s = pre ++ enc_frames fs ++ stale → Forall numbered_ok fs →
  (length fs < fuel)%nat → Z.of_nat (length (enc_frames fs)) < 2 ^ 64 →
  ∃ s', process_loop fuel (length pre) (Z.of_nat (length (enc_frames fs))) s = (Ret tt, s') ∧
    buf s' = buf s ∧ queue s' = queue s ++ payloads fs ∧
    last_seq_num s' = (match last fs with Some (n, _, _) => n | None => last_seq_num s end).
Proof.
  induction fs as [|[[seq ts] m] fs IH]; intros [|fuel] s pre stale Hb Hok Hfuel Hlen; simpl in Hfuel; try lia.
  { exists s. rewrite app_nil_r. done. }
  apply Forall_cons in Hok as [(Hs & Ht & Hm) Hok]. cbn [fst snd] in *.
  assert (enc_frames ((seq, ts, m) :: fs) = frame seq ts m ++ enc_frames fs) as Hcons by done.
  rewrite Hcons, length_app, frame_length in * by done. rewrite <- !app_assoc in Hb.
  pose proof (msg_size_bound m) as Hsz.
  cbn [process_loop]. assert (Z.of_nat (msg_size m + length (enc_frames fs)) >? 0 = true) as -> by (apply Z.gtb_lt; lia).
  erewrite bind_ret.
  2: { eapply (run_read md.c_md_header s pre (wire_header seq ts m)); [|by apply wire_header_ok].
       rewrite Hb. unfold frame. rewrite msg_bytes_split, <- app_assoc. done. }
  cbn beta. change (md.magic_number (wire_header seq ts m)) with md.MAGIC_NUMBER. rewrite Z.eqb_refl. cbn [negb].
  erewrite bind_ret by reflexivity. cbn beta.
  erewrite bind_ret by (apply (run_process_message seq ts m _ pre (enc_frames fs ++ stale)); [done..|lia]). cbn beta iota.
  set (s1 := push seq m _).
  assert (u64 (Z.of_nat (msg_size m + length (enc_frames fs)) - md.length (wire_header seq ts m)) =
          Z.of_nat (length (enc_frames fs))) as ->.
  { cbn [md.length wire_header]. rewrite u64_id; unfold is_u64; lia. }
  assert (length pre + Z.to_nat (md.length (wire_header seq ts m)) = length (pre ++ frame seq ts m))%nat as ->.
  { rewrite length_app, frame_length by done. cbn [md.length wire_header]. lia. }
  assert (buf s1 = buf s) as Hb1 by by destruct m.
  destruct (IH fuel s1 (pre ++ frame seq ts m) stale) as (s' & Hrun & Hbuf & Hq & Hl); [|done|lia|lia|].
  { by rewrite Hb1, Hb, <- app_assoc. }
  exists s'. split; [done|]. split; [congruence|]. split.
  - rewrite Hq. unfold payloads. simpl. unfold s1, push. destruct (payload_of seq m); simpl; [by rewrite <- app_assoc|done].
  - rewrite Hl, last_cons. destruct (last fs) as [[[? ?] ?]|]; [done|]. by destruct m.
Qed.

Lemma enc_frames_length fs : Forall numbered_ok fs → (23 * length fs ≤ length (enc_frames fs))%nat.
Proof.
  induction fs as [|[[seq ts] m] fs IH]; [done|]. intros [(Hs & Ht & Hm) Hok]%Forall_cons.
  specialize (IH Hok). change (enc_frames ((seq, ts, m) :: fs)) with (frame seq ts m ++ enc_frames fs).
  rewrite length_app, frame_length by done. pose proof (msg_size_bound m). simpl length. lia.
Qed.

(** One datagram of whole frames is read to its end. *)
Lemma run_process fs s :
  Forall numbered_ok fs → Z.of_nat (length (enc_frames fs)) <= MarketDataPublisher.BUFFER_SIZE → length (buf s) = BUF_SIZE →
  ∃ s', process (RecvPacket (enc_frames fs)) s = (Ret tt, s') ∧ length (buf s') = BUF_SIZE ∧
    queue s' = queue s ++ payloads fs ∧
    last_seq_num s' = (match last fs with Some (n, _, _) => n | None => last_seq_num s end).
Proof.
  unfold MarketDataPublisher.BUFFER_SIZE. intros Hok Hlen Hb. unfold process.
  assert (Z.of_nat BUF_SIZE = 4096) as HB by done. revert HB Hb. generalize BUF_SIZE as n. intros n HB Hb.
  rewrite firstn_all2 by lia.
  erewrite bind_ret by reflexivity. cbn beta. erewrite bind_ret by reflexivity. cbn beta.
  set (s1 := set_buf _ s). pose proof (enc_frames_length fs Hok) as Hn.
  destruct (run_process_loop fs (S n) s1 [] (drop (length (enc_frames fs)) (buf s))) as (s' & Hrun & Hb' & Hq & Hl);
    [done|done|lia|lia|].
  exists s'. split; [exact Hrun|]. split; [|done]. rewrite Hb'. simpl. rewrite length_app, length_drop. lia.
Qed.
