(* ===== verification/MdTheorems.v ===== *)
(** * The market data feed, end to end *)
From Stdlib Require Import Init.Byte.
From S2P Require Import Prelude Protocol MdMcast MdStream SnapshotClient.
Import MarketDataPublisher.

(** The payloads a reader of the feed is to see: one per message, numbered
    from zero, without the trade summaries. *)
Definition feed_payloads (ms : list md_msg) : list md_payload :=
  omap (λ '(i, m), payload_of (u32 i) m) (zip (seqZ 0 (Z.of_nat (length ms))) ms).

Lemma payloads_feed fs :
  (λ f : Z * Z * md_msg, f.1.1) <$> fs = u32 <$> seqZ 0 (Z.of_nat (length fs)) →
  payloads fs = feed_payloads ((λ f : Z * Z * md_msg, f.2) <$> fs).
Proof.
  intros Hs. unfold payloads, feed_payloads. rewrite length_fmap. revert Hs.
  generalize (seqZ 0 (Z.of_nat (length fs))) as ks.
  induction fs as [|[[s ts] m] fs IH]; intros [|k ks] Hs; try done; simpl in *.
  injection Hs as -> Hs. destruct (payload_of (u32 k) m); [f_equal|]; by apply IH.
Qed.

Lemma payloads_app fs gs : payloads (fs ++ gs) = payloads fs ++ payloads gs.
Proof. apply omap_app. Qed.

Lemma run_packets sent : ∀ s,
  Forall numbered_ok (concat sent) →
  Forall (λ g, g ≠ [] ∧ Z.of_nat (length (enc_frames g)) <= BUFFER_SIZE) sent →
  length (SnapshotClient.buf s) = SnapshotClient.BUF_SIZE →
  ∃ s', for_each (enc_frames <$> sent) (λ pkt, SnapshotClient.process (RecvPacket pkt)) s = (Ret tt, s') ∧
    SnapshotClient.queue s' = SnapshotClient.queue s ++ payloads (concat sent).
Proof.
  induction sent as [|g sent IH]; intros s Hok Hsz Hb; simpl.
  { exists s. by rewrite app_nil_r. }
  simpl in Hok. apply Forall_app in Hok as [Hg Hok]. apply Forall_cons in Hsz as [[_ Hlen] Hsz].
  destruct (run_process g s Hg Hlen Hb) as (s1 & Hrun & Hb1 & Hq1 & _).
  destruct (IH s1 Hok Hsz Hb1) as (s2 & Hrun2 & Hq2).
  exists s2. split; [by erewrite bind_ret by exact Hrun|]. by rewrite Hq2, Hq1, payloads_app, app_assoc.
Qed.

Definition demo_pubs : list pub_op :=
  [PublishNew 11 1 md.SIDE.BUY 100 (u32 (-5)) 0; QueueTrade 11 40 (u32 (-5)); QueueTrade 11 60 (u32 (-5));
   PublishTrades 1 md.SIDE.SELL; PublishModify 11 md.SIDE.SELL 7 3; PublishDelete 11; PublishHeartbeat].

(** Whatever is published, in packets of at most 1460
    bytes the network is given whole frames with the exchange's magic number,
    consecutive sequence numbers from zero and the published messages in
    order.  When all sends succeed every message is on the wire and the buffer
    is empty; when one fails the publication throws and what was written so far
    is a prefix of the publications, with nothing lost or repeated. *)
Theorem md_publisher_stream (W : World) os :
  Forall pub_ok os →
  let '(r, p) := for_each os pub_run initial in
  (r = Ret tt ∧ buffer p = [] ∧ stream p (pubs_msgs os []).1) ∨
  (r = Throw send_failed ∧ ∃ new, new `prefix_of` (pubs_msgs os []).1 ∧ stream p new).
Proof. intros Hok. apply (pubs_stream os [] [] initial Hok); [done|apply stream_initial|done|done]. Qed.

Lemma md_publisher_stream_witness :
  Forall pub_ok demo_pubs ∧
  let '(r, p) := for_each demo_pubs (@pub_run calm_world) initial in
  (r = Ret tt ∧ buffer p = [] ∧ stream p (pubs_msgs demo_pubs []).1) ∨
  (r = Throw send_failed ∧ ∃ new, new `prefix_of` (pubs_msgs demo_pubs []).1 ∧ stream p new).
Proof.
  assert (Forall pub_ok demo_pubs) as H by by_decide.
  split; [exact H|]. exact (md_publisher_stream calm_world demo_pubs H).
Defined.

(** C19 ([md_feed_roundtrip]): a snapshot client that receives all of the publisher's
    packets in order, the publisher's sends having succeeded, queues one entry for
    every published message but the trade summaries, which it reads over
    ([snapshot_client.cpp:156]): in the order of publication, under the sequence
    number the publisher gave (the summaries count), with the order id, symbol,
    side, quantity, price and flags, where the message has them, as they were
    published.  It neither reads past its buffer nor loops. *)
Theorem md_feed_roundtrip (W : World) os p :
  Forall pub_ok os → for_each os pub_run initial = (Ret tt, p) →
  ∃ s, for_each (packets p) (λ pkt, SnapshotClient.process (RecvPacket pkt)) SnapshotClient.initial = (Ret tt, s) ∧
    SnapshotClient.queue s = feed_payloads (pubs_msgs os []).1.
Proof.
  intros Hok Hrun. pose proof (pubs_stream os [] [] initial Hok) as Hs. rewrite Hrun in Hs.
  destruct Hs as [(_ & Hb & sent & pending & [Hp Hbuf Hms Hseq Hnum Hsz _ _])|[? _]];
    [done|apply stream_initial|done|done| |done].
  assert (pending = []) as ->.
  { apply enc_frames_nil; [by apply Forall_app in Hnum as [_ ?]|congruence]. }
  rewrite app_nil_r in Hms, Hseq, Hnum. simpl app in *.
  destruct (run_packets sent SnapshotClient.initial Hnum Hsz) as (s & Hs & Hq); [apply length_replicate|].
  exists s. rewrite Hp. split; [done|]. rewrite Hq. simpl app. rewrite <- Hms. apply payloads_feed.
  rewrite Hseq, <- Hms. by rewrite length_fmap.
Qed.

Lemma md_feed_roundtrip_witness : ∃ p s,
  for_each demo_pubs (@pub_run calm_world) initial = (Ret tt, p) ∧
  for_each (packets p) (λ pkt, SnapshotClient.process (RecvPacket pkt)) SnapshotClient.initial = (Ret tt, s) ∧
  SnapshotClient.queue s = feed_payloads (pubs_msgs demo_pubs []).1.
Proof.
  assert (Forall pub_ok demo_pubs) as H by by_decide.
  assert (∃ p, for_each demo_pubs (@pub_run calm_world) initial = (Ret tt, p)) as [p Hp].
  { destruct (for_each demo_pubs (@pub_run calm_world) initial) as [r p] eqn:E. exists p.
    vm_compute in E. by injection E as <- _. }
  destruct (md_feed_roundtrip calm_world demo_pubs p H Hp) as (s & Hs & Hq).
  exists p, s. split; [exact Hp|]. split; [exact Hs|exact Hq].
Defined.
