(* ===== verification/Clearing.v ===== *)
(** * Clearing: [matching_engine/clearing_mcast.cpp] and [web_data/clearing_client.cpp]

    The publisher multicasts one datagram per fill; the client keeps, per
    client and symbol, position, volume and profit in 32-bit integers. *)
From Stdlib Require Import Init.Byte.
From S2P Require Import Prelude Protocol MdMcast SnapshotClient.

Module ClearingPublisher.

Record t := mk {
  fill_msg : clearing.fill;
  sends : nat;
  packets : list (list byte);
}.

(** The message as the constructor leaves it. *)
Definition initial : t :=
  mk (clearing.Build_fill
        (clearing.Build_clearing_header clearing.MAGIC_NUMBER (Z.of_nat (c_size clearing.c_fill)) 0 clearing.MSG_TYPE.FILL)
        0 0 0 0 md.SIDE.BUY) 0 [].

(** [fill_msg.header.length = …; msg_type = …; seq_num++]. *)
Definition next_header (length msg_type : Z) (m : clearing.fill) : clearing.clearing_header :=
  let h := clearing.f_header m in
  clearing.Build_clearing_header (clearing.magic_number h) length (u32 (clearing.seq_num h + 1)) msg_type.

Section ops.
Context `{World}.
Abbreviation PM := (M t).

Definition set_fill_msg (m : clearing.fill) (p : t) : t := mk m (sends p) (packets p).

Definition sendto (pkt : list byte) : PM unit :=
  n ← gets sends;
  modify (λ p, mk (fill_msg p) (S (sends p)) (packets p));;
  if sendto_rc n pkt <? 0 then throw (runtime_error "Failed to send payload to multicast group")
  else modify (λ p, mk (fill_msg p) (sends p) (packets p ++ [pkt])).

Definition publish_fill (order_id client_id symbol quantity price side : Z) : PM unit :=
  m ← gets fill_msg;
  modify (set_fill_msg (clearing.Build_fill
    (next_header (Z.of_nat (c_size clearing.c_fill)) clearing.MSG_TYPE.FILL m)
    client_id symbol quantity price side));;
  m ← gets fill_msg;
  sendto (c_enc clearing.c_fill m).

Definition publish_heartbeat : PM unit :=
  m ← gets fill_msg;
  modify (set_fill_msg (clearing.Build_fill
    (next_header (Z.of_nat (c_size clearing.c_clearing_header)) clearing.MSG_TYPE.HEARTBEAT m)
    0 0 0 0 (clearing.f_side m)));;
  m ← gets fill_msg;
  sendto (take (c_size clearing.c_clearing_header) (c_enc clearing.c_fill m)).
End ops.
End ClearingPublisher.

(** A map of maps, as [operator[]] sees it: a missing entry is created as zero. *)
Abbreviation table := (gmap Z (gmap Z Z)).
Definition get2 (m : table) (c s : Z) : Z := default 0 (default ∅ (m !! c) !! s).
Definition set2 (m : table) (c s : Z) (z : Z) : table := <[c := <[s := z]> (default ∅ (m !! c))]> m.

Lemma get2_set2 m c s z : get2 (set2 m c s z) c s = z.
Proof. unfold get2, set2. rewrite lookup_insert_eq. cbn [from_option id]. by rewrite lookup_insert_eq. Qed.

Lemma get2_set2_ne m c s c' s' z : (c', s') ≠ (c, s) → get2 (set2 m c s z) c' s' = get2 m c' s'.
Proof.
  intros Hne. unfold get2, set2. destruct (decide (c' = c)) as [->|]; [|by rewrite lookup_insert_ne].
  rewrite lookup_insert_eq. cbn [from_option id]. rewrite lookup_insert_ne; [done|congruence].
Qed.

Lemma get2_set2_case m c s c' s' z :
  get2 (set2 m c s z) c' s' = if decide ((c', s') = (c, s)) then z else get2 m c' s'.
Proof. destruct (decide _) as [[= -> ->]|]; [apply get2_set2|by apply get2_set2_ne]. Qed.

Module ClearingClient.

Record t := mk {
  buf : list byte;
  last_seq_num : Z;
  positions : table;
  raw_pnl : table;
  total_buy : table;
  total_sell : table;
  volume : table;
}.

Definition BUF_SIZE : nat := Z.to_nat 4096.
#[global] Arguments BUF_SIZE : simpl never.

Definition initial : t := mk (replicate BUF_SIZE x00) 0 ∅ ∅ ∅ ∅ ∅.

Definition set_buf (b : list byte) (s : t) : t :=
  mk b (last_seq_num s) (positions s) (raw_pnl s) (total_buy s) (total_sell s) (volume s).
Definition set_last_seq_num (n : Z) (s : t) : t :=
  mk (buf s) n (positions s) (raw_pnl s) (total_buy s) (total_sell s) (volume s).

(** A fill applied to the tables: the sums are [uint32_t] arithmetic, the
    positions and the profit [int32_t] read back from it. *)
Definition apply_fill (f : clearing.fill) (s : t) : t :=
  let c := clearing.f_client_id f in
  let y := clearing.f_symbol f in
  let q := clearing.f_quantity f in
  let v := u32 (q * clearing.f_price f) in
  let buy := clearing.f_side f =? md.SIDE.BUY in
  let positions' := set2 (positions s) c y
    (s32 (if buy then get2 (positions s) c y + q else get2 (positions s) c y - q)) in
  let total_buy' := if buy then set2 (total_buy s) c y (u32 (get2 (total_buy s) c y + v)) else total_buy s in
  let total_sell' := if buy then total_sell s else set2 (total_sell s) c y (u32 (get2 (total_sell s) c y + v)) in
  let volume' := set2 (volume s) c y (u32 (get2 (volume s) c y + q)) in
  (* reading total_sell[c][y] and total_buy[c][y] creates the entries *)
  let total_sell'' := set2 total_sell' c y (get2 total_sell' c y) in
  let total_buy'' := set2 total_buy' c y (get2 total_buy' c y) in
  let raw_pnl' := set2 (raw_pnl s) c y (s32 (get2 total_sell'' c y - get2 total_buy'' c y)) in
  mk (buf s) (last_seq_num s) positions' raw_pnl' total_buy'' total_sell'' volume'.

Definition process (r : received) : M t unit :=
  match r with
  | RecvWouldBlock => mret tt
  | RecvError => throw (runtime_error "Failed to receive message")
  | RecvPacket pkt =>
      let pkt := take BUF_SIZE pkt in
      let len := Z.of_nat (length pkt) in
      b ← gets buf;
      modify (set_buf (pkt ++ drop (length pkt) b));;
      b ← gets buf;
      let header := c_dec clearing.c_clearing_header b in
      if negb (clearing.magic_number header =? clearing.MAGIC_NUMBER) then
        throw (runtime_error "Invalid magic number")
      else
        last ← gets last_seq_num;
        if negb (last =? 0) && negb (clearing.seq_num header =? u64 (last + 1)) then mret tt
        else
          modify (set_last_seq_num (clearing.seq_num header));;
          if clearing.msg_type header =? clearing.MSG_TYPE.FILL then
            if len <? Z.of_nat (c_size clearing.c_fill) then mret tt
            else
              let fill := c_dec clearing.c_fill b in
              if (clearing.f_side fill =? md.SIDE.BUY) || (clearing.f_side fill =? md.SIDE.SELL)
              then modify (apply_fill fill)
              else mret tt
          else mret tt
  end.
#[global] Arguments process : simpl never.

(** [get_positions], [get_raw_pnl], [get_volume] *)
Definition get_positions (s : t) : table := positions s.
Definition get_raw_pnl (s : t) : table := raw_pnl s.
Definition get_volume (s : t) : table := volume s.
End ClearingClient.

(** ** Fills, as published and as applied *)

Record fill_info := Fill { fi_client : Z; fi_symbol : Z; fi_quantity : Z; fi_price : Z; fi_side : Z }.

Definition fill_ok (f : fill_info) : Prop :=
  is_u32 (fi_client f) ∧ is_u32 (fi_symbol f) ∧ is_u32 (fi_quantity f) ∧ is_s32 (fi_price f) ∧
  (fi_side f = md.SIDE.BUY ∨ fi_side f = md.SIDE.SELL).

#[global] Instance fill_ok_dec f : Decision (fill_ok f).
Proof. unfold fill_ok. apply _. Defined.

Definition fill_struct (n : Z) (f : fill_info) : clearing.fill :=
  clearing.Build_fill (clearing.Build_clearing_header clearing.MAGIC_NUMBER (Z.of_nat (c_size clearing.c_fill)) n clearing.MSG_TYPE.FILL)
    (fi_client f) (fi_symbol f) (fi_quantity f) (fi_price f) (fi_side f).

Lemma fill_struct_ok n f : is_u32 n → fill_ok f → c_ok clearing.c_fill (fill_struct n f).
Proof.
  unfold is_u32. intros Hn (Hc & Hy & Hq & Hp & Hd). unfold is_u32 in *.
  cbn -[is_s32 Z.pow clearing.MAGIC_NUMBER]. split_and!; try lia; try done; by destruct Hd as [-> | ->].
Qed.

(** The datagrams of fills numbered from [n]. *)
Fixpoint fill_packets (n : Z) (fs : list fill_info) : list (list byte) :=
  match fs with [] => [] | f :: fs => c_enc clearing.c_fill (fill_struct n f) :: fill_packets (n + 1) fs end.

(** Sums over the fills of one client in one symbol. *)
Definition sum_fills (g : fill_info → Z) (c y : Z) (fs : list fill_info) : Z :=
  foldr (λ f z, (if decide ((c, y) = (fi_client f, fi_symbol f)) then g f else 0) + z) 0 fs.

Definition bought (f : fill_info) : Z := if fi_side f =? md.SIDE.BUY then fi_quantity f else 0.
Definition sold (f : fill_info) : Z := if fi_side f =? md.SIDE.BUY then 0 else fi_quantity f.
Definition paid (f : fill_info) : Z := bought f * fi_price f.
Definition received_for (f : fill_info) : Z := sold f * fi_price f.

Lemma sum_fills_app g c y fs gs : sum_fills g c y (fs ++ gs) = sum_fills g c y fs + sum_fills g c y gs.
Proof. unfold sum_fills. induction fs as [|f fs IH]; simpl; [done|]. rewrite IH. lia. Qed.

(** The tables are the sums over all fills so far, at their widths. *)
Definition tallied (s : ClearingClient.t) (fs : list fill_info) : Prop := ∀ c y,
  get2 (ClearingClient.positions s) c y = s32 (sum_fills bought c y fs - sum_fills sold c y fs) ∧
  get2 (ClearingClient.volume s) c y = u32 (sum_fills fi_quantity c y fs) ∧
  get2 (ClearingClient.total_buy s) c y = u32 (sum_fills paid c y fs) ∧
  get2 (ClearingClient.total_sell s) c y = u32 (sum_fills received_for c y fs) ∧
  get2 (ClearingClient.raw_pnl s) c y = s32 (sum_fills received_for c y fs - sum_fills paid c y fs).

Lemma tallied_initial : tallied ClearingClient.initial [].
Proof. intros c y. done. Qed.

Lemma s32_sub_s32 a b : s32 (s32 a - b) = s32 (a - b).
Proof. words. Qed.

Lemma s32_sub_u32 a b : s32 (u32 a - u32 b) = s32 (a - b).
Proof. words. Qed.

Lemma tallied_apply n s fs f :
  fill_ok f → tallied s fs → tallied (ClearingClient.apply_fill (fill_struct n f) s) (fs ++ [f]).
Proof.
  intros (_ & _ & _ & _ & Hd) Ht c y. specialize (Ht c y). destruct Ht as (Hp & Hv & Hb & Hs & Hr).
  rewrite !sum_fills_app. unfold sum_fills at 2 4 6 8 10 12 14. simpl foldr. rewrite !Z.add_0_r.
  unfold ClearingClient.apply_fill. cbn [fill_struct clearing.f_client_id clearing.f_symbol clearing.f_quantity clearing.f_price clearing.f_side
    ClearingClient.positions ClearingClient.volume ClearingClient.total_buy ClearingClient.total_sell ClearingClient.raw_pnl].
  set (buy := fi_side f =? md.SIDE.BUY).
  assert (bought f = if buy then fi_quantity f else 0) as -> by done.
  assert (sold f = if buy then 0 else fi_quantity f) as -> by done.
  assert (paid f = if buy then fi_quantity f * fi_price f else 0) as -> by (unfold paid, bought, buy; by destruct (_ =? _)).
  assert (received_for f = if buy then 0 else fi_quantity f * fi_price f) as -> by (unfold received_for, sold, buy; by destruct (_ =? _)).
  destruct buy; rewrite !get2_set2_case;
    destruct (decide ((c, y) = (fi_client f, fi_symbol f))) as [[= -> ->]|Hne];
    rewrite ?get2_set2_case, ?decide_True by done; rewrite ?Z.add_0_r, ?Z.mul_0_l, ?Z.add_0_r, ?Z.sub_0_r;
    rewrite ?Hp, ?Hv, ?Hb, ?Hs, ?Hr; try done.
  - rewrite s32_add, !u32_add_l, u32_add_r, s32_sub_u32. split_and!; try done; f_equal; lia.
  - rewrite s32_sub_s32, !u32_add_l, u32_add_r, s32_sub_u32. split_and!; try done; f_equal; lia.
Qed.

(** ** One datagram *)

Lemma fill_packet_length n f : is_u32 n → fill_ok f → length (c_enc clearing.c_fill (fill_struct n f)) = c_size clearing.c_fill.
Proof. intros. apply enc_length. by apply fill_struct_ok. Qed.

Lemma clearing_header_of_fill bs m : (c_size clearing.c_fill ≤ length bs)%nat → c_dec clearing.c_fill bs = m →
  c_dec clearing.c_clearing_header bs = clearing.f_header m.
Proof. intros _ <-. done. Qed.

Lemma run_process_fill n f s :
  is_u32 n → fill_ok f → length (ClearingClient.buf s) = ClearingClient.BUF_SIZE →
  ∃ b, length b = ClearingClient.BUF_SIZE ∧
  ClearingClient.process (RecvPacket (c_enc clearing.c_fill (fill_struct n f))) s =
    (Ret tt, 
     if negb (ClearingClient.last_seq_num s =? 0) && negb (n =? u64 (ClearingClient.last_seq_num s + 1))
     then ClearingClient.set_buf b s
     else ClearingClient.apply_fill (fill_struct n f) (ClearingClient.set_last_seq_num n (ClearingClient.set_buf b s))).
Proof.
  intros Hn Hf Hb. unfold ClearingClient.process.
  set (pkt := c_enc clearing.c_fill (fill_struct n f)).
  assert (length pkt = 32%nat) as Hlen by by apply fill_packet_length.
  assert (Z.of_nat ClearingClient.BUF_SIZE = 4096) as HB by done.
  rewrite firstn_all2 by lia. erewrite bind_ret by reflexivity. cbn beta. erewrite bind_ret by reflexivity. cbn beta.
  set (b := pkt ++ drop (length pkt) (ClearingClient.buf s)).
  assert (length b = ClearingClient.BUF_SIZE) as Hbl by (unfold b; rewrite length_app, length_drop; lia).
  exists b. split; [done|]. erewrite bind_ret by reflexivity. cbn beta. cbn [ClearingClient.buf ClearingClient.set_buf].
  assert (c_dec clearing.c_fill b = fill_struct n f) as Hdec by (apply dec_enc; by apply fill_struct_ok).
  rewrite (clearing_header_of_fill b (fill_struct n f)) by (done || (change (c_size clearing.c_fill) with 32%nat; lia)).
  cbn [fill_struct clearing.f_header clearing.magic_number clearing.seq_num clearing.msg_type].
  rewrite Z.eqb_refl. cbn [negb]. erewrite bind_ret by reflexivity. cbn beta.
  change (ClearingClient.last_seq_num (ClearingClient.set_buf b s)) with (ClearingClient.last_seq_num s).
  destruct (_ && _); [done|]. erewrite bind_ret by reflexivity. cbn beta.
  rewrite Z.eqb_refl. rewrite Hlen. change (Z.of_nat 32 <? Z.of_nat (c_size clearing.c_fill)) with false. cbn iota.
  rewrite Hdec. cbn [fill_struct clearing.f_side].
  destruct Hf as (_ & _ & _ & _ & Hd).
  assert ((fi_side f =? md.SIDE.BUY) || (fi_side f =? md.SIDE.SELL) = true) as -> by (by destruct Hd as [-> | ->]).
  done.
Qed.

(** Datagrams in sequence are all applied, and what a fill keeps true of the
    tables and the fills so far, they keep. *)
Lemma run_process_fills_keep (I : ClearingClient.t → list fill_info → Prop) :
  (∀ n b s fs f, fill_ok f → I s fs →
    I (ClearingClient.apply_fill (fill_struct n f) (ClearingClient.set_last_seq_num n (ClearingClient.set_buf b s))) (fs ++ [f])) →
  ∀ fs n s done_,
  ClearingClient.last_seq_num s = n → 0 <= n → n + Z.of_nat (length fs) < 2 ^ 32 →
  Forall fill_ok fs → length (ClearingClient.buf s) = ClearingClient.BUF_SIZE → I s done_ →
  ∃ s', for_each (fill_packets (n + 1) fs) (λ pkt, ClearingClient.process (RecvPacket pkt)) s = (Ret tt, s') ∧
    I s' (done_ ++ fs) ∧ ClearingClient.last_seq_num s' = n + Z.of_nat (length fs) ∧
    length (ClearingClient.buf s') = ClearingClient.BUF_SIZE.
Proof.
  intros HI. induction fs as [|f fs IH]; intros n s dn Hl Hn Hmax Hok Hb Ht; cbn [fill_packets for_each length].
  { exists s. rewrite app_nil_r, Z.add_0_r. done. }
  cbn [length] in Hmax. apply Forall_cons in Hok as [Hf Hok].
  assert (is_u32 (n + 1)) as Hn1 by (unfold is_u32; lia).
  destruct (run_process_fill (n + 1) f s Hn1 Hf Hb) as (b & Hbl & Hrun).
  rewrite Hl, (u64_id (n + 1)), Z.eqb_refl, andb_false_r in Hrun by (unfold is_u64; lia).
  set (s1 := ClearingClient.apply_fill _ _) in Hrun.
  destruct (IH (n + 1) s1 (dn ++ [f])) as (s2 & Hrun2 & Ht2 & Hl2 & Hb2); try done; try lia.
  { by apply HI. }
  exists s2. split; [by erewrite bind_ret by exact Hrun|]. rewrite <- app_assoc in Ht2. split; [done|].
  split; [rewrite Hl2; lia|done].
Qed.

Lemma run_process_fills fs n s done_ :
  ClearingClient.last_seq_num s = n → 0 <= n → n + Z.of_nat (length fs) < 2 ^ 32 →
  Forall fill_ok fs → length (ClearingClient.buf s) = ClearingClient.BUF_SIZE → tallied s done_ →
  ∃ s', for_each (fill_packets (n + 1) fs) (λ pkt, ClearingClient.process (RecvPacket pkt)) s = (Ret tt, s') ∧
    tallied s' (done_ ++ fs) ∧ ClearingClient.last_seq_num s' = n + Z.of_nat (length fs) ∧
    length (ClearingClient.buf s') = ClearingClient.BUF_SIZE.
Proof. apply (run_process_fills_keep tallied). intros. by apply tallied_apply. Qed.

(** After a gap nothing is applied any more. *)
Lemma run_process_after_gap fs : ∀ n k s,
  ClearingClient.last_seq_num s = n → 0 < n → n + 1 < k → k + Z.of_nat (length fs) <= 2 ^ 32 →
  Forall fill_ok fs → length (ClearingClient.buf s) = ClearingClient.BUF_SIZE →
  ∃ b, for_each (fill_packets k fs) (λ pkt, ClearingClient.process (RecvPacket pkt)) s = (Ret tt, ClearingClient.set_buf b s).
Proof.
  induction fs as [|f fs IH]; intros n k s Hl Hn Hk Hmax Hok Hb; cbn [fill_packets for_each length].
  { exists (ClearingClient.buf s). by destruct s. }
  cbn [length] in Hmax. apply Forall_cons in Hok as [Hf Hok].
  assert (is_u32 k) as Hk1 by (unfold is_u32; lia).
  destruct (run_process_fill k f s Hk1 Hf Hb) as (b & Hbl & Hrun).
  rewrite Hl, (u64_id (n + 1)) in Hrun by (unfold is_u64; lia).
  replace (n =? 0) with false in Hrun by lia. replace (k =? n + 1) with false in Hrun by lia. cbn [negb andb] in Hrun.
  destruct (IH n (k + 1) (ClearingClient.set_buf b s)) as (b2 & Hrun2); try done; try lia.
  exists b2. erewrite bind_ret by exact Hrun. exact Hrun2.
Qed.

(** ** The publisher *)

Section publisher.
Context `{World}.
Import ClearingPublisher.

Definition publish (f : fill_info) : M t unit :=
  publish_fill 0 (fi_client f) (fi_symbol f) (fi_quantity f) (fi_price f) (fi_side f).

Lemma publish_fills_packets fs : ∀ p p',
  clearing.magic_number (clearing.f_header (fill_msg p)) = clearing.MAGIC_NUMBER →
  for_each fs publish p = (Ret tt, p') →
  0 <= clearing.seq_num (clearing.f_header (fill_msg p)) →
  clearing.seq_num (clearing.f_header (fill_msg p)) + Z.of_nat (length fs) < 2 ^ 32 →
  packets p' = packets p ++ fill_packets (clearing.seq_num (clearing.f_header (fill_msg p)) + 1) fs.
Proof.
  induction fs as [|f fs IH]; intros p p' Hm Hrun Hn Hmax; cbn [for_each fill_packets length] in *.
  { injection Hrun as ->. by rewrite app_nil_r. }
  apply bind_inv in Hrun as ([] & p1 & Hrun1 & Hrun). unfold publish, publish_fill, sendto in Hrun1.
  do 5 (erewrite bind_ret in Hrun1 by reflexivity; cbn beta in Hrun1).
  destruct (sendto_rc _ _ <? 0); [discriminate|]. injection Hrun1 as <-.
  cbn [fill_msg set_fill_msg packets sends] in Hrun.
  apply IH in Hrun; cbn [fill_msg set_fill_msg packets sends clearing.f_header next_header clearing.seq_num clearing.magic_number] in *.
  2: { done. }
  2: { apply u32_range. }
  2: { rewrite u32_id by (unfold is_u32; lia). lia. }
  rewrite Hrun, <- app_assoc. cbn [app].
  rewrite u32_id by (unfold is_u32; lia). unfold fill_struct. by rewrite Hm.
Qed.
End publisher.
