(* ===== verification/ClearingTheorems.v ===== *)
(** * The clearing house, end to end *)
From Stdlib Require Import Init.Byte.
From S2P Require Import Prelude Protocol MdMcast SnapshotClient Clearing.

(** ** Sums over clients *)

Definition sum_over {A} (g : A → Z) (xs : list A) : Z := foldr (λ x z, g x + z) 0 xs.

Lemma sum_over_add {A} (g h : A → Z) xs : sum_over (λ x, g x + h x) xs = sum_over g xs + sum_over h xs.
Proof. unfold sum_over. induction xs as [|x xs IH]; simpl; [done|]. rewrite IH. lia. Qed.

Lemma sum_over_opp {A} (g : A → Z) xs : sum_over (λ x, - g x) xs = - sum_over g xs.
Proof. unfold sum_over. induction xs as [|x xs IH]; simpl; [done|]. rewrite IH. lia. Qed.

Lemma sum_over_zero {A} (g : A → Z) xs : (∀ x, x ∈ xs → g x = 0) → sum_over g xs = 0.
Proof.
  unfold sum_over. induction xs as [|x xs IH]; intros Hg; simpl; [done|].
  rewrite Hg, IH; [done| |constructor]. intros. apply Hg. list_in.
Qed.

Lemma sum_over_u32 {A} (g h : A → Z) xs : (∀ x, u32 (g x) = u32 (h x)) → u32 (sum_over g xs) = u32 (sum_over h xs).
Proof.
  intros Hg. unfold sum_over. induction xs as [|x xs IH]; simpl; [done|].
  rewrite <- u32_add_l, <- u32_add_r, Hg, IH, u32_add_l, u32_add_r. done.
Qed.

Lemma sum_over_one (f : fill_info) g y cs :
  NoDup cs → fi_client f ∈ cs →
  sum_over (λ c, if decide ((c, y) = (fi_client f, fi_symbol f)) then g else 0) cs = if decide (y = fi_symbol f) then g else 0.
Proof.
  induction cs as [|c cs IH]; [by intros _ ?%elem_of_nil|]. rewrite NoDup_cons, elem_of_cons.
  intros [Hc Hn] Hin. unfold sum_over in *. simpl. destruct (decide (fi_client f = c)) as [<-|Hne].
  - assert (foldr (λ x z, (if decide ((x, y) = (fi_client f, fi_symbol f)) then g else 0) + z) 0 cs = 0) as ->.
    { apply (sum_over_zero (λ x, if decide ((x, y) = (fi_client f, fi_symbol f)) then g else 0)).
      intros x Hx. rewrite decide_False; [done|]. intros [= -> _]. done. }
    destruct (decide (y = fi_symbol f)) as [->|]; [rewrite decide_True by done; lia|].
    rewrite decide_False by congruence. done.
  - rewrite decide_False by congruence. rewrite IH; [done|done|]. destruct Hin; [congruence|done].
Qed.

Lemma sum_over_clients g y cs fs :
  NoDup cs → Forall (λ f, fi_client f ∈ cs) fs →
  sum_over (λ c, sum_fills g c y fs) cs = sum_over (λ f, if decide (y = fi_symbol f) then g f else 0) fs.
Proof.
  intros Hn Hf. induction Hf as [|f fs Hf _ IH]; [by apply sum_over_zero|].
  unfold sum_fills. simpl. rewrite sum_over_add. fold (sum_fills g).
  rewrite (sum_over_one f (g f) y cs Hn Hf). unfold sum_over at 2. simpl. f_equal. exact IH.
Qed.

(** ** Trades: a passive and an active fill *)

Record trade_info := TradeInfo { t_passive : Z; t_active : Z; t_symbol : Z; t_quantity : Z; t_price : Z; t_active_side : Z }.

Definition opposite (side : Z) : Z := if side =? md.SIDE.BUY then md.SIDE.SELL else md.SIDE.BUY.

Definition trade_ok (t : trade_info) : Prop :=
  is_u32 (t_passive t) ∧ is_u32 (t_active t) ∧ is_u32 (t_symbol t) ∧ is_u32 (t_quantity t) ∧ is_s32 (t_price t) ∧
  (t_active_side t = md.SIDE.BUY ∨ t_active_side t = md.SIDE.SELL).

#[global] Instance trade_ok_dec t : Decision (trade_ok t).
Proof. unfold trade_ok. apply _. Defined.

(** What the broker publishes for a trade: the resting side first. *)
Definition trade_fills (t : trade_info) : list fill_info :=
  [Fill (t_passive t) (t_symbol t) (t_quantity t) (t_price t) (opposite (t_active_side t));
   Fill (t_active t) (t_symbol t) (t_quantity t) (t_price t) (t_active_side t)].

Lemma trade_fills_ok t : trade_ok t → Forall fill_ok (trade_fills t).
Proof.
  intros (? & ? & ? & ? & ? & Hd). apply Forall_cons. split; [|apply Forall_singleton]; unfold fill_ok; simpl;
    split_and!; try done. destruct Hd as [-> | ->]; auto.
Qed.

Lemma trades_balance (g h : fill_info → Z) y ts :
  (∀ t, t ∈ ts → sum_over (λ f, g f - h f) (trade_fills t) = 0) →
  sum_over (λ f, if decide (y = fi_symbol f) then g f else 0) (ts ≫= trade_fills) =
  sum_over (λ f, if decide (y = fi_symbol f) then h f else 0) (ts ≫= trade_fills).
Proof.
  intros Hb. induction ts as [|t ts IH]; [done|]. rewrite bind_cons. unfold sum_over in *. simpl.
  assert (Ht := Hb t ltac:(constructor)). simpl in Ht.
  rewrite IH by (intros; apply Hb; list_in). destruct (decide (y = t_symbol t)); lia.
Qed.

Lemma balance_bought_sold t : trade_ok t → sum_over (λ f, bought f - sold f) (trade_fills t) = 0.
Proof.
  intros (_ & _ & _ & _ & _ & Hd). unfold sum_over, bought, sold. simpl. destruct Hd as [-> | ->]; simpl; lia.
Qed.

Lemma balance_paid t : trade_ok t → sum_over (λ f, received_for f - paid f) (trade_fills t) = 0.
Proof.
  intros (_ & _ & _ & _ & _ & Hd). unfold sum_over, received_for, paid, bought, sold. simpl.
  destruct Hd as [-> | ->]; simpl; lia.
Qed.

Lemma tallied_zero_sum s ts cs y :
  tallied s (ts ≫= trade_fills) → Forall trade_ok ts → NoDup cs →
  Forall (λ t, t_passive t ∈ cs ∧ t_active t ∈ cs) ts →
  u32 (sum_over (λ c, get2 (ClearingClient.get_positions s) c y) cs) = 0 ∧
  u32 (sum_over (λ c, get2 (ClearingClient.get_raw_pnl s) c y) cs) = 0.
Proof.
  intros Ht Hok Hn Hcs.
  assert (Forall (λ f, fi_client f ∈ cs) (ts ≫= trade_fills)) as Hf.
  { apply Forall_bind. eapply Forall_impl; [exact Hcs|]. intros t [? ?]. by repeat constructor. }
  assert (∀ z, u32 (s32 z) = u32 z) as Hsu by (intros; words).
  assert (∀ g h, (∀ t, t ∈ ts → sum_over (λ f, g f - h f) (trade_fills t) = 0) →
    u32 (sum_over (λ c, s32 (sum_fills g c y (ts ≫= trade_fills) - sum_fills h c y (ts ≫= trade_fills))) cs) = 0) as Hzero.
  { intros g h Hb. rewrite (sum_over_u32 _ (λ c, sum_fills g c y (ts ≫= trade_fills) + - sum_fills h c y (ts ≫= trade_fills)))
      by (intros; rewrite Hsu; f_equal; lia).
    rewrite sum_over_add. rewrite (sum_over_clients g y cs _ Hn Hf).
    rewrite sum_over_opp, (sum_over_clients h y cs _ Hn Hf), (trades_balance g h y ts Hb). by rewrite Z.add_opp_diag_r. }
  split.
  - rewrite (sum_over_u32 _ (λ c, s32 (sum_fills bought c y (ts ≫= trade_fills) - sum_fills sold c y (ts ≫= trade_fills)))).
    + apply Hzero. intros t Hin. apply balance_bought_sold. by eapply Forall_forall in Hok.
    + intros c. f_equal. apply (Ht c y).
  - rewrite (sum_over_u32 _ (λ c, s32 (sum_fills received_for c y (ts ≫= trade_fills) - sum_fills paid c y (ts ≫= trade_fills)))).
    + apply Hzero. intros t Hin. apply balance_paid. by eapply Forall_forall in Hok.
    + intros c. f_equal. apply (Ht c y).
Qed.

(** ** The properties *)

Definition demo_trades : list trade_info :=
  [TradeInfo 10 20 1 100 50 md.SIDE.SELL; TradeInfo 20 30 1 40 (-3) md.SIDE.BUY; TradeInfo 10 30 2 7 12 md.SIDE.BUY].

(** When the publisher's sends succeed, a clearing client
    that receives the datagrams holds, per client and symbol, the net position,
    the volume and the profit of all published fills, each as its 32-bit
    integer holds it. *)
Theorem clearing_end_to_end (W : World) fs p :
  Forall fill_ok fs → Z.of_nat (length fs) < 2 ^ 32 →
  for_each fs publish ClearingPublisher.initial = (Ret tt, p) →
  ∃ s, for_each (ClearingPublisher.packets p) (λ pkt, ClearingClient.process (RecvPacket pkt)) ClearingClient.initial = (Ret tt, s) ∧
    ∀ c y,
      get2 (ClearingClient.get_positions s) c y = s32 (sum_fills bought c y fs - sum_fills sold c y fs) ∧
      get2 (ClearingClient.get_volume s) c y = u32 (sum_fills fi_quantity c y fs) ∧
      get2 (ClearingClient.get_raw_pnl s) c y = s32 (sum_fills received_for c y fs - sum_fills paid c y fs).
Proof.
  intros Hok Hmax Hrun. apply publish_fills_packets in Hrun; [|done|done|done]. rewrite Hrun.
  destruct (run_process_fills fs 0 ClearingClient.initial []) as (s & Hs & Ht & _); try done.
  exists s. split; [exact Hs|]. intros c y. destruct (Ht c y) as (? & ? & _ & _ & ?). done.
Qed.

Lemma clearing_end_to_end_witness : ∃ p s,
  for_each (demo_trades ≫= trade_fills) (@publish calm_world) ClearingPublisher.initial = (Ret tt, p) ∧
  for_each (ClearingPublisher.packets p) (λ pkt, ClearingClient.process (RecvPacket pkt)) ClearingClient.initial = (Ret tt, s) ∧
  get2 (ClearingClient.get_positions s) 20 1 = -140.
Proof.
  assert (Forall fill_ok (demo_trades ≫= trade_fills)) as H by by_decide.
  assert (∃ p, for_each (demo_trades ≫= trade_fills) (@publish calm_world) ClearingPublisher.initial = (Ret tt, p)) as [p Hp].
  { destruct (for_each _ (@publish calm_world) _) as [r p] eqn:E. exists p. vm_compute in E. by injection E as <- _. }
  destruct (clearing_end_to_end calm_world _ p H ltac:(by vm_compute) Hp) as (s & Hs & Ht).
  exists p, s. split; [exact Hp|]. split; [exact Hs|]. destruct (Ht 20 1) as (Hpos & _). rewrite Hpos. vm_compute. reflexivity.
Defined.

(** In every symbol the positions, and the profits, of all
    clients sum to zero modulo [2^32]: clearing neither creates nor loses
    quantity or money. *)
Theorem clearing_zero_sum (W : World) ts cs y p :
  Forall trade_ok ts → Z.of_nat (length (ts ≫= trade_fills)) < 2 ^ 32 →
  NoDup cs → Forall (λ t, t_passive t ∈ cs ∧ t_active t ∈ cs) ts →
  for_each (ts ≫= trade_fills) publish ClearingPublisher.initial = (Ret tt, p) →
  ∃ s, for_each (ClearingPublisher.packets p) (λ pkt, ClearingClient.process (RecvPacket pkt)) ClearingClient.initial = (Ret tt, s) ∧
    u32 (sum_over (λ c, get2 (ClearingClient.get_positions s) c y) cs) = 0 ∧
    u32 (sum_over (λ c, get2 (ClearingClient.get_raw_pnl s) c y) cs) = 0.
Proof.
  intros Hok Hmax Hn Hcs Hrun.
  assert (Forall fill_ok (ts ≫= trade_fills)) as Hf.
  { apply Forall_bind. eapply Forall_impl; [exact Hok|]. apply trade_fills_ok. }
  apply publish_fills_packets in Hrun; [|done|done|done]. rewrite Hrun.
  destruct (run_process_fills (ts ≫= trade_fills) 0 ClearingClient.initial []) as (s & Hs & Ht & _); try done.
  exists s. split; [exact Hs|]. by apply (tallied_zero_sum s ts).
Qed.

Lemma clearing_zero_sum_witness : ∃ p s,
  for_each (demo_trades ≫= trade_fills) (@publish calm_world) ClearingPublisher.initial = (Ret tt, p) ∧
  for_each (ClearingPublisher.packets p) (λ pkt, ClearingClient.process (RecvPacket pkt)) ClearingClient.initial = (Ret tt, s) ∧
  u32 (sum_over (λ c, get2 (ClearingClient.get_positions s) c 1) [10; 20; 30]) = 0.
Proof.
  assert (Forall trade_ok demo_trades) as Hok by by_decide.
  assert (∃ p, for_each (demo_trades ≫= trade_fills) (@publish calm_world) ClearingPublisher.initial = (Ret tt, p)) as [p Hp].
  { destruct (for_each _ (@publish calm_world) _) as [r p] eqn:E. exists p. vm_compute in E. by injection E as <- _. }
  assert (NoDup [10; 20; 30]) as Hn by by_decide.
  assert (Forall (λ t, t_passive t ∈ [10; 20; 30] ∧ t_active t ∈ [10; 20; 30]) demo_trades) as Hcs by by_decide.
  destruct (clearing_zero_sum calm_world demo_trades [10; 20; 30] 1 p Hok ltac:(by vm_compute) Hn Hcs Hp) as (s & Hs & Hpos & _).
  exists p, s. split; [exact Hp|]. split; [exact Hs|exact Hpos].
Defined.

(** Once a datagram is lost the client applies no
    later fill at all: the expected sequence number is never moved past the
    gap, so every datagram from the next one on is dropped. *)
Theorem clearing_stuck_after_gap n k fs s :
  ClearingClient.last_seq_num s = n → 0 < n → n + 1 < k → k + Z.of_nat (length fs) <= 2 ^ 32 →
  Forall fill_ok fs → length (ClearingClient.buf s) = ClearingClient.BUF_SIZE →
  ∃ s', for_each (fill_packets k fs) (λ pkt, ClearingClient.process (RecvPacket pkt)) s = (Ret tt, s') ∧
    ClearingClient.get_positions s' = ClearingClient.get_positions s ∧
    ClearingClient.get_volume s' = ClearingClient.get_volume s ∧
    ClearingClient.get_raw_pnl s' = ClearingClient.get_raw_pnl s.
Proof.
  intros Hl Hn Hk Hmax Hok Hb. destruct (run_process_after_gap fs n k s Hl Hn Hk Hmax Hok Hb) as [b Hrun].
  exists (ClearingClient.set_buf b s). done.
Qed.

Lemma clearing_stuck_after_gap_witness : ∃ s s',
  ClearingClient.last_seq_num s = 1 ∧
  for_each (fill_packets 3 (demo_trades ≫= trade_fills)) (λ pkt, ClearingClient.process (RecvPacket pkt)) s = (Ret tt, s') ∧
  ClearingClient.get_volume s' = ClearingClient.get_volume s.
Proof.
  pose (s := ClearingClient.set_last_seq_num 1 ClearingClient.initial).
  destruct (clearing_stuck_after_gap 1 3 (demo_trades ≫= trade_fills) s eq_refl) as (s' & Hrun & _ & Hv & _);
    [lia|lia|by vm_compute|by_decide|by vm_compute|].
  exists s, s'. split; [reflexivity|]. split; [exact Hrun|exact Hv].
Defined.
