(* ===== verification/OrderLadder.v ===== *)
(** * [matching_engine/order_ladder.H]: the order ladder, as written

    The ladder is modelled down to its pointers: a heap of [Order] nodes, the
    pool's free list, the [orders] hash map from order id to node, and one
    ordered map of price levels per side whose [head] and [tail] point into
    doubly linked lists.  Nothing here is simplified to a list of orders; the
    file [LadderSpec] does that and proves that the two agree. *)
From S2P Require Import Prelude Protocol.

Abbreviation BUY := md.SIDE.BUY.
Abbreviation SELL := md.SIDE.SELL.
Abbreviation IOC := oe.ORDER_FLAGS.IOC.

(** ** The subscriber interface

    [OrderLadder<Subscriber>] calls back into its template argument.  The six
    member functions it uses are the constructors of [callback]; a
    [Subscriber] says what its state does with one of them, and may throw. *)
Inductive callback :=
  | onNewOrder (order_id symbol side quantity price flags : Z)
  | onModifyOrder (order_id symbol side quantity price : Z)
  | onDeleteOrder (order_id : Z) (publish : bool)
  | onCancelReject (order_id : Z)
  | onTrade (order_id quantity price : Z)
  | onFill (order_id symbol side quantity price flags : Z) (active : bool).

#[global] Instance callback_eq_dec : EqDecision callback.
Proof. solve_decision. Defined.

Class Subscriber (Sb : Type) := notify : callback → M Sb unit.

(** The mock subscriber of the unit tests: it records what it is told. *)
#[global] Instance Recorder : Subscriber (list callback) := λ cb log, (Ret tt, log ++ [cb]).

(** ** State *)

Abbreviation loc := Z (only parsing).

Record Order := mkOrder {
  order_id : Z;
  timestamp : Z;
  quantity : Z;
  filled_quantity : Z;
  price : Z;
  side : Z;
  flags : Z;
  next : option loc;
  prev : option loc;
}.

Record PriceLevel := mkLevel {
  head : option loc;
  tail : option loc;
}.

(** Which of the two ordered maps a [PriceLevels&] argument refers to. *)
Inductive Levels := buy_levels | sell_levels.

#[global] Instance Levels_eq_dec : EqDecision Levels.
Proof. solve_decision. Defined.

(** [free_list] is kept with [back()] first; [blocks] is the number of blocks
    allocated; node [i] of block [b] has location [b * 4096 + i]. *)
Record Ladder := mkLadder {
  heap : gmap Z Order;
  blocks : Z;
  free_list : list Z;
  orders : gmap Z Z;
  buys : gmap Z PriceLevel;
  sells : gmap Z PriceLevel;
  symbol : Z;
}.

Definition OrderLadder (symbol : Z) : Ladder := mkLadder ∅ 0 [] ∅ ∅ ∅ symbol.

Definition levels (pl : Levels) (L : Ladder) : gmap Z PriceLevel :=
  match pl with buy_levels => buys L | sell_levels => sells L end.

(** Setters: what an assignment to a member does. *)
Definition with_heap (f : gmap Z Order → gmap Z Order) (L : Ladder) : Ladder :=
  mkLadder (f (heap L)) (blocks L) (free_list L) (orders L) (buys L) (sells L) (symbol L).
Definition with_blocks (f : Z → Z) (L : Ladder) : Ladder :=
  mkLadder (heap L) (f (blocks L)) (free_list L) (orders L) (buys L) (sells L) (symbol L).
Definition with_free_list (f : list Z → list Z) (L : Ladder) : Ladder :=
  mkLadder (heap L) (blocks L) (f (free_list L)) (orders L) (buys L) (sells L) (symbol L).
Definition with_orders (f : gmap Z Z → gmap Z Z) (L : Ladder) : Ladder :=
  mkLadder (heap L) (blocks L) (free_list L) (f (orders L)) (buys L) (sells L) (symbol L).
Definition with_levels (pl : Levels) (f : gmap Z PriceLevel → gmap Z PriceLevel) (L : Ladder) : Ladder :=
  match pl with
  | buy_levels => mkLadder (heap L) (blocks L) (free_list L) (orders L) (f (buys L)) (sells L) (symbol L)
  | sell_levels => mkLadder (heap L) (blocks L) (free_list L) (orders L) (buys L) (f (sells L)) (symbol L)
  end.

Definition set_next (p : option loc) (o : Order) : Order :=
  mkOrder (order_id o) (timestamp o) (quantity o) (filled_quantity o) (price o) (side o) (flags o) p (prev o).
Definition set_prev (p : option loc) (o : Order) : Order :=
  mkOrder (order_id o) (timestamp o) (quantity o) (filled_quantity o) (price o) (side o) (flags o) (next o) p.
Definition set_quantity (q : Z) (o : Order) : Order :=
  mkOrder (order_id o) (timestamp o) q (filled_quantity o) (price o) (side o) (flags o) (next o) (prev o).
Definition set_filled_quantity (q : Z) (o : Order) : Order :=
  mkOrder (order_id o) (timestamp o) (quantity o) q (price o) (side o) (flags o) (next o) (prev o).
Definition set_head (p : option loc) (l : PriceLevel) : PriceLevel := mkLevel p (tail l).
Definition set_tail (p : option loc) (l : PriceLevel) : PriceLevel := mkLevel (head l) p.

(** ** [std::map] of price levels, in the comparator's order *)

(** [better pl p p']: the comparator of the map puts [p] before [p']. *)
Definition better (pl : Levels) (p p' : Z) : bool :=
  match pl with buy_levels => p' <? p | sell_levels => p <? p' end.

Definition first_of (pl : Levels) (acc : option Z) (p : Z) : option Z :=
  match acc with
  | None => Some p
  | Some p' => Some (if better pl p p' then p else p')
  end.

(** [begin()]: the first entry in the comparator's order. *)
Definition begin {A} (pl : Levels) (m : gmap Z A) : option (Z * A) :=
  p ← foldl (first_of pl) None (map_to_list m).*1;
  l ← m !! p;
  Some (p, l).

(** ** Operations *)

Definition ORDER_POOL_BLOCK_SIZE : Z := 4096.

(** [std::make_unique<Order[]>] value-initialises: every member is zero. *)
Definition zero_order : Order := mkOrder 0 0 0 0 0 0 0 None None.

Section ops.
Context {Sb : Type} `{!Subscriber Sb}.

Abbreviation LM := (M (Ladder * Sb)).

Definition getl {A} (f : Ladder → A) : LM A := gets (λ s, f s.1).
Definition setl (f : Ladder → Ladder) : LM unit := modify (λ s, (f s.1, s.2)).
Definition call (cb : callback) : LM unit :=
  λ s, let '(r, sb) := notify cb s.2 in (r, (s.1, sb)).

(** [*p], and a store through [p]. *)
Definition deref (p : loc) : LM Order :=
  h ← getl heap;
  match h !! p with
  | Some o => mret o
  | None => throw (undefined_behaviour "dangling Order pointer")
  end.

Definition store (p : loc) (f : Order → Order) : LM unit :=
  o ← deref p;
  setl (with_heap (insert p (f o))).

Definition add_block : LM unit :=
  b ← getl blocks;
  let block := seqZ (b * ORDER_POOL_BLOCK_SIZE) ORDER_POOL_BLOCK_SIZE in
  setl (with_blocks (Z.add 1));;
  setl (with_heap (λ h, foldr (λ l, insert l zero_order) h block));;
  setl (with_free_list (λ fl, rev block ++ fl)).

Definition allocate : LM loc :=
  fl ← getl free_list;
  when (bool_decide (fl = [])) add_block;;
  fl ← getl free_list;
  match fl with
  | [] => throw (undefined_behaviour "back() of an empty vector")
  | order :: rest =>
      setl (with_free_list (λ _, rest));;
      mret order
  end.

Definition deallocate (order : loc) : LM unit :=
  store order (set_next None);;
  store order (set_prev None);;
  setl (with_free_list (cons order)).

Definition handle_delete_order (order_id : Z) (price_levels : Levels) : LM unit :=
  os ← getl orders;
  match os !! order_id with
  | None => call (onCancelReject order_id)
  | Some it =>
      order ← deref it;
      lv ← getl (levels price_levels);
      match lv !! price order with
      | None =>
          throw (runtime_error ("Price level " +:+ pretty (price order) +:+ " for this order "
                   +:+ pretty order_id +:+ " does not exist"))
      | Some price_level =>
          let update f := setl (with_levels price_levels (alter f (price order))) in
          when (bool_decide (head price_level = Some it)) (update (set_head (next order)));;
          when (bool_decide (tail price_level = Some it)) (update (set_tail (prev order)));;
          match prev order with
          | Some p => store p (set_next (next order))
          | None => mret tt
          end;;
          order ← deref it;
          match next order with
          | Some n => store n (set_prev (prev order))
          | None => mret tt
          end;;
          setl (with_orders (delete order_id));;
          deallocate it
      end
  end.

(** The inner loop of [match]: walk one price level from [order].  The
    boolean of the result says that the loop left through [return]. *)
Fixpoint match_level (fuel : nat) (incoming_order_id side_in : Z)
    (opposite_side_price_levels : Levels) (order : option loc) (qty : Z) : LM (Z * bool) :=
  match fuel with
  | O => throw out_of_fuel
  | S fuel =>
      match order with
      | Some p =>
          if qty >? 0 then
            sym ← getl symbol;
            o ← deref p;
            if quantity o <=? qty then
              call (onTrade (order_id o) (quantity o) (price o));;
              call (onFill (order_id o) sym (side o) (quantity o) (price o) oe.FILL_FLAGS.CLOSED false);;
              let qty := u32 (qty - quantity o) in
              call (onFill incoming_order_id sym side_in (quantity o) (price o)
                      (if qty >? 0 then oe.FILL_FLAGS.PARTIAL_FILL else oe.FILL_FLAGS.CLOSED) true);;
              let order := next o in
              handle_delete_order (order_id o) opposite_side_price_levels;;
              match_level fuel incoming_order_id side_in opposite_side_price_levels order qty
            else
              call (onTrade (order_id o) qty (price o));;
              call (onFill (order_id o) sym (side o) qty (price o) oe.FILL_FLAGS.PARTIAL_FILL false);;
              call (onFill incoming_order_id sym side_in qty (price o) oe.FILL_FLAGS.CLOSED true);;
              store p (λ o, set_filled_quantity (u32 (filled_quantity o + qty)) o);;
              store p (λ o, set_quantity (u32 (quantity o - qty)) o);;
              mret (0, true)
          else mret (qty, false)
      | None => mret (qty, false)
      end
  end.

(** The outer loop of [match].  [it] starts at [begin()] and only moves by
    [erase], which yields the new [begin()]. *)
Fixpoint match_levels (fuel inner : nat) (incoming_order_id side_in price_in : Z)
    (opposite_side_price_levels : Levels) (qty : Z) : LM Z :=
  match fuel with
  | O => throw out_of_fuel
  | S fuel =>
      lv ← getl (levels opposite_side_price_levels);
      match begin opposite_side_price_levels lv with
      | Some (first, price_level) =>
          if qty >? 0 then
            if (side_in =? BUY) && (first >? price_in) || (side_in =? SELL) && (first <? price_in)
            then mret qty
            else
              r ← match_level inner incoming_order_id side_in opposite_side_price_levels (head price_level) qty;
              let '(qty, returned) := r in
              if (returned : bool) then mret qty
              else
                lv ← getl (levels opposite_side_price_levels);
                match lv !! first with
                | None => throw (undefined_behaviour "reference to an erased price level")
                | Some price_level =>
                    if bool_decide (head price_level = None) then
                      setl (with_levels opposite_side_price_levels (delete first));;
                      match_levels fuel inner incoming_order_id side_in price_in opposite_side_price_levels qty
                    else if qty >? 0 then
                      throw (runtime_error ("Price level " +:+ pretty first
                               +:+ " not empty but no orders? Impossible. Remaining quantity: " +:+ pretty qty))
                    else match_levels fuel inner incoming_order_id side_in price_in opposite_side_price_levels qty
                end
          else mret qty
      | None => mret qty
      end
  end.

(** Both loops visit each resting order at most once, so one more than the
    number of resting orders is enough fuel ([LadderSpec] proves it). *)
Definition match_ (incoming_order_id side_in qty price_in : Z) (opposite_side_price_levels : Levels) : LM Z :=
  os ← getl orders;
  let fuel := S (size os) in
  match_levels fuel fuel incoming_order_id side_in price_in opposite_side_price_levels qty.

Definition is_ioc (flags : Z) : bool := negb (Z.land flags IOC =? 0).

(** [uint32_t& quantity] is an in-out parameter: its final value is the
    result. *)
Definition handle_new_order (order_id side qty price flags : Z) (price_levels : Levels)
    (ntf : bool) (filled_quantity : Z) : LM Z :=
  if qty >? filled_quantity then
    let qty := u32 (qty - filled_quantity) in
    let prematch_quantity := qty in
    qty ← (if side =? BUY then match_ order_id side qty price sell_levels
           else match_ order_id side qty price buy_levels);
    sym ← getl symbol;
    when (ntf && negb (is_ioc flags)) (call (onNewOrder order_id sym side qty price flags));;
    if (qty >? 0) && is_ioc flags then
      when ntf (call (onDeleteOrder order_id false));;
      mret qty
    else if qty =? 0 then mret qty
    else
      os ← getl orders;
      match os !! order_id with
      | Some _ => throw (runtime_error "Order already exists")
      | None =>
          if qty >? prematch_quantity then throw (runtime_error "Impossible")
          else
            order_ptr ← allocate;
            store order_ptr (λ _, mkOrder order_id 0 qty (u32 (prematch_quantity - qty)) price side flags None None);;
            lv ← getl (levels price_levels);
            match lv !! price with
            | None => setl (with_levels price_levels (insert price (mkLevel (Some order_ptr) (Some order_ptr))))
            | Some l =>
                match tail l with
                | None => throw (runtime_error ("Price level " +:+ pretty price +:+ " tail is nullptr"))
                | Some t =>
                    store t (set_next (Some order_ptr));;
                    store order_ptr (set_prev (Some t));;
                    setl (with_levels price_levels (alter (set_tail (Some order_ptr)) price))
                end
            end;;
            setl (with_orders (insert order_id order_ptr));;
            mret qty
      end
  else throw (runtime_error "filled quantity > quantity on new order!").

Definition new_order (ntf : bool) (order_id side qty price flags filled_quantity : Z) : LM unit :=
  (if side =? BUY
   then handle_new_order order_id side qty price flags buy_levels ntf filled_quantity
   else handle_new_order order_id side qty price flags sell_levels ntf filled_quantity);;
  mret tt.

(** [if (levels.find(price) != end && levels[price].head == nullptr) erase] *)
Definition erase_if_empty (price_levels : Levels) (price : Z) : LM unit :=
  lv ← getl (levels price_levels);
  match lv !! price with
  | Some l => when (bool_decide (head l = None)) (setl (with_levels price_levels (delete price)))
  | None => mret tt
  end.

Definition delete_order (ntf : bool) (order_id : Z) : LM unit :=
  os ← getl orders;
  match os !! order_id with
  | None => call (onCancelReject order_id)
  | Some it =>
      o ← deref it;
      (if side o =? BUY then
         handle_delete_order order_id buy_levels;;
         erase_if_empty buy_levels (price o)
       else
         handle_delete_order order_id sell_levels;;
         erase_if_empty sell_levels (price o));;
      when ntf (call (onDeleteOrder order_id true))
  end.

Definition modify_order (order_id side_in qty price_in : Z) : LM unit :=
  os ← getl orders;
  match os !! order_id with
  | None => call (onCancelReject order_id)
  | Some it =>
      o ← deref it;
      if filled_quantity o >=? qty then delete_order true order_id
      else if (price o =? price_in) && (side o =? side_in) then
        store it (set_quantity qty);;
        sym ← getl symbol;
        o ← deref it;
        call (onModifyOrder order_id sym side_in (u32 (qty - filled_quantity o)) price_in)
      else
        let pre_modify_filled_quantity := filled_quantity o in
        delete_order false order_id;;
        qty ← (if side_in =? BUY
               then handle_new_order order_id side_in qty price_in (flags o) buy_levels false pre_modify_filled_quantity
               else handle_new_order order_id side_in qty price_in (flags o) sell_levels false pre_modify_filled_quantity);
        sym ← getl symbol;
        if qty >? 0 then call (onModifyOrder order_id sym side_in qty price_in)
        else call (onDeleteOrder order_id true)
  end.
End ops.
