(* ===== verification/LadderSpec.v ===== *)
(** * What an order ladder promises: the abstract book

    A book is two lists of resting orders in price-time priority, best first.
    Matching is structural recursion on the opposite list; a new order joins
    its own list behind every order that is at least as good.  The file
    [LadderRefine] proves that the pointer structure of [OrderLadder]
    implements this. *)
From S2P Require Import Prelude Protocol OrderLadder.

Record entry := Entry {
  e_id : Z;
  e_qty : Z;
  e_filled : Z;
  e_price : Z;
  e_side : Z;
  e_flags : Z;
}.

#[global] Instance entry_eq_dec : EqDecision entry.
Proof. solve_decision. Defined.

Record Book := mkBook {
  bids : list entry;
  asks : list entry;
  b_symbol : Z;
}.

Definition empty_book (sym : Z) : Book := mkBook [] [] sym.

Definition book_side (pl : Levels) (B : Book) : list entry :=
  match pl with buy_levels => bids B | sell_levels => asks B end.

Definition set_side (pl : Levels) (l : list entry) (B : Book) : Book :=
  match pl with
  | buy_levels => mkBook l (asks B) (b_symbol B)
  | sell_levels => mkBook (bids B) l (b_symbol B)
  end.

Definition other (pl : Levels) : Levels :=
  match pl with buy_levels => sell_levels | sell_levels => buy_levels end.

(** The levels an order of a side rests on, and the levels it trades with. *)
Definition own_levels (side : Z) : Levels := if side =? BUY then buy_levels else sell_levels.
Definition opp_levels (side : Z) : Levels := other (own_levels side).

Definition all_entries (B : Book) : list entry := bids B ++ asks B.
Definition ids (B : Book) : list Z := e_id <$> all_entries B.
Definition find_id (id : Z) (l : list entry) : option entry := hd_error (filter (λ e, e_id e = id) l).

Definition set_qty (q : Z) (e : entry) : entry := Entry (e_id e) q (e_filled e) (e_price e) (e_side e) (e_flags e).
Definition fill_by (q : Z) (e : entry) : entry :=
  Entry (e_id e) (e_qty e - q) (u32 (e_filled e + q)) (e_price e) (e_side e) (e_flags e).

(** A resting price trades with an order of [side] limited at [limit].  A side
    byte other than [BUY] and [SELL] has no limit. *)
Definition crosses (side limit p : Z) : bool :=
  negb ((side =? BUY) && (p >? limit) || (side =? SELL) && (p <? limit)).

(** The three callbacks of one trade of [q] against the resting order [e]. *)
Definition trade_cbs (sym incoming side q : Z) (passive_flags active_flags : Z) (e : entry) : list callback :=
  [onTrade (e_id e) q (e_price e);
   onFill (e_id e) sym (e_side e) q (e_price e) passive_flags false;
   onFill incoming sym side q (e_price e) active_flags true].

Fixpoint fill_queue (sym incoming side limit q : Z) (l : list entry) : list entry * Z * list callback :=
  match l with
  | [] => ([], q, [])
  | e :: l' =>
      if (q >? 0) && crosses side limit (e_price e) then
        if e_qty e <=? q then
          let q' := q - e_qty e in
          let '(l'', q'', cbs) := fill_queue sym incoming side limit q' l' in
          (l'', q'',
           trade_cbs sym incoming side (e_qty e) oe.FILL_FLAGS.CLOSED
             (if q' >? 0 then oe.FILL_FLAGS.PARTIAL_FILL else oe.FILL_FLAGS.CLOSED) e ++ cbs)
        else
          (fill_by q e :: l', 0,
           trade_cbs sym incoming side q oe.FILL_FLAGS.PARTIAL_FILL oe.FILL_FLAGS.CLOSED e)
      else (l, q, [])
  end.

Fixpoint insert_entry (pl : Levels) (e : entry) (l : list entry) : list entry :=
  match l with
  | [] => [e]
  | e' :: l' => if better pl (e_price e) (e_price e') then e :: l else e' :: insert_entry pl e l'
  end.

Definition remove_id (id : Z) (l : list entry) : list entry := filter (λ e, e_id e ≠ id) l.
Definition update_id (id : Z) (f : entry → entry) (l : list entry) : list entry :=
  (λ e, if decide (e_id e = id) then f e else e) <$> l.

Definition remove_order (id : Z) (B : Book) : Book :=
  mkBook (remove_id id (bids B)) (remove_id id (asks B)) (b_symbol B).
Definition update_order (id : Z) (f : entry → entry) (B : Book) : Book :=
  mkBook (update_id id f (bids B)) (update_id id f (asks B)) (b_symbol B).

(** The abstract operations: the outcome, the book and the callbacks. *)
Definition spec_handle_new (ntf : bool) (id side q p flags filled : Z) (B : Book) : outcome Z * Book * list callback :=
  if q <=? filled then (Throw (runtime_error "filled quantity > quantity on new order!"), B, [])
  else
    let pre := q - filled in
    let '(l, q, cbs) := fill_queue (b_symbol B) id side p pre (book_side (opp_levels side) B) in
    let B := set_side (opp_levels side) l B in
    let cbs := cbs ++ (if ntf && negb (is_ioc flags) then [onNewOrder id (b_symbol B) side q p flags] else []) in
    if (q >? 0) && is_ioc flags then
      (Ret q, B, cbs ++ if ntf then [onDeleteOrder id false] else [])
    else if q =? 0 then (Ret q, B, cbs)
    else if bool_decide (id ∈ ids B) then (Throw (runtime_error "Order already exists"), B, cbs)
    else
      let pl := own_levels side in
      (Ret q, set_side pl (insert_entry pl (Entry id q (pre - q) p side flags) (book_side pl B)) B, cbs).

Definition spec_new_order (ntf : bool) (id side q p flags filled : Z) (B : Book) : outcome unit * Book * list callback :=
  let '(r, B, cbs) := spec_handle_new ntf id side q p flags filled B in
  (match r with Ret _ => Ret tt | Throw e => Throw e end, B, cbs).

Definition spec_delete_order (ntf : bool) (id : Z) (B : Book) : outcome unit * Book * list callback :=
  match find_id id (all_entries B) with
  | None => (Ret tt, B, [onCancelReject id])
  | Some _ => (Ret tt, remove_order id B, if ntf then [onDeleteOrder id true] else [])
  end.

Definition spec_modify_order (id side q p : Z) (B : Book) : outcome unit * Book * list callback :=
  match find_id id (all_entries B) with
  | None => (Ret tt, B, [onCancelReject id])
  | Some e =>
      if q <=? e_filled e then spec_delete_order true id B
      else if (e_price e =? p) && (e_side e =? side) then
        (Ret tt, update_order id (set_qty q) B, [onModifyOrder id (b_symbol B) side (q - e_filled e) p])
      else
        let '(r, B, cbs) := spec_handle_new false id side q p (e_flags e) (e_filled e) (remove_order id B) in
        match r with
        | Throw e => (Throw e, B, cbs)
        | Ret q =>
            (Ret tt, B, cbs ++ if q >? 0 then [onModifyOrder id (b_symbol B) side q p] else [onDeleteOrder id true])
        end
  end.

(** ** Well-formed books *)

Definition sorted (pl : Levels) (l : list entry) : Prop :=
  StronglySorted (λ a b, better pl (e_price b) (e_price a) = false) l.

Record entry_ok (pl : Levels) (e : entry) : Prop := {
  ok_qty : 0 < e_qty e < 2 ^ 32;
  ok_filled : is_u32 (e_filled e);
  ok_side : own_levels (e_side e) = pl;
  ok_flags : is_ioc (e_flags e) = false;
}.

Record book_ok (B : Book) : Prop := {
  bk_ids : NoDup (ids B);
  bk_sorted pl : sorted pl (book_side pl B);
  bk_entries pl e : e ∈ book_side pl B → entry_ok pl e;
}.

(** Best bid below best ask: no two resting orders could trade. *)
Definition uncrossed (B : Book) : Prop :=
  ∀ b a, b ∈ bids B → a ∈ asks B → e_price b < e_price a.

(** ** Lemmas on the list operations *)

Definition at_price (p : Z) (l : list entry) : list entry := filter (λ e, e_price e = p) l.

Lemma elem_of_all B e : e ∈ all_entries B ↔ ∃ pl, e ∈ book_side pl B.
Proof.
  unfold all_entries. rewrite elem_of_app. split.
  - intros [H|H]; [by exists buy_levels | by exists sell_levels].
  - intros [[|] H]; auto.
Qed.

Lemma book_side_set pl l B : book_side pl (set_side pl l B) = l.
Proof. by destruct pl. Qed.

Lemma book_side_set_other pl l B : book_side (other pl) (set_side pl l B) = book_side (other pl) B.
Proof. by destruct pl. Qed.

Lemma book_side_set_case pl pl' l B :
  (pl' = pl ∧ book_side pl' (set_side pl l B) = l) ∨
  (pl' = other pl ∧ book_side pl' (set_side pl l B) = book_side pl' B).
Proof. destruct pl, pl'; auto. Qed.

Lemma symbol_set_side pl l B : b_symbol (set_side pl l B) = b_symbol B.
Proof. by destruct pl. Qed.

Lemma other_other pl : other (other pl) = pl.
Proof. by destruct pl. Qed.

Lemma book_side_remove pl id B : book_side pl (remove_order id B) = remove_id id (book_side pl B).
Proof. by destruct pl. Qed.

Lemma book_side_update pl id f B : book_side pl (update_order id f B) = update_id id f (book_side pl B).
Proof. by destruct pl. Qed.

Lemma set_side_id pl B : set_side pl (book_side pl B) B = B.
Proof. by destruct pl, B. Qed.

Lemma set_side_set_side pl l l' B : set_side pl l (set_side pl l' B) = set_side pl l B.
Proof. by destruct pl. Qed.

Lemma all_entries_remove id B : all_entries (remove_order id B) = remove_id id (all_entries B).
Proof. unfold all_entries, remove_id. by rewrite filter_app. Qed.

Lemma all_entries_update id f B : all_entries (update_order id f B) = update_id id f (all_entries B).
Proof. unfold all_entries, update_id. by rewrite fmap_app. Qed.

#[global] Hint Rewrite book_side_set book_side_set_other symbol_set_side other_other
  book_side_remove book_side_update set_side_id set_side_set_side
  all_entries_remove all_entries_update : book.

Lemma find_id_Some id l e : find_id id l = Some e → e ∈ l ∧ e_id e = id.
Proof.
  unfold find_id. intros H. assert (e ∈ filter (λ e, e_id e = id) l) as He.
  { destruct (filter _ l); simplify_eq/=. constructor. }
  by apply list_elem_of_filter in He as [? ?].
Qed.

Lemma find_id_None id l : find_id id l = None ↔ id ∉ e_id <$> l.
Proof.
  unfold find_id. rewrite list_elem_of_fmap. split.
  - intros H (e & -> & He). assert (e ∈ filter (λ e', e_id e' = e_id e) l) as Hf.
    { by apply list_elem_of_filter. }
    destruct (filter _ l); [by apply elem_of_nil in Hf | done].
  - intros H. destruct (filter _ l) as [|e l'] eqn:E; [done|].
    assert (e ∈ filter (λ e, e_id e = id) l) as He by (rewrite E; constructor).
    apply list_elem_of_filter in He as [? ?]. exfalso; eauto.
Qed.

Lemma NoDup_fmap_inj l e e' : NoDup (e_id <$> l) → e ∈ l → e' ∈ l → e_id e = e_id e' → e = e'.
Proof.
  induction l as [|x l IH]; [by rewrite elem_of_nil|].
  rewrite fmap_cons, NoDup_cons, !list_elem_of_fmap, !elem_of_cons.
  intros [Hx Hn] [->|He] [->|He'] Heq; eauto; exfalso; eauto.
Qed.

Lemma find_id_eq id l e : NoDup (e_id <$> l) → e ∈ l → e_id e = id → find_id id l = Some e.
Proof.
  intros Hn He Hid. destruct (find_id id l) as [e'|] eqn:E.
  - apply find_id_Some in E as [? ?]. f_equal. eapply NoDup_fmap_inj; eauto. congruence.
  - apply find_id_None in E. rewrite list_elem_of_fmap in E. exfalso; eauto.
Qed.

Lemma elem_of_remove_id id l e : e ∈ remove_id id l ↔ e_id e ≠ id ∧ e ∈ l.
Proof. unfold remove_id. by rewrite list_elem_of_filter. Qed.

Lemma elem_of_at_price p l e : e ∈ at_price p l ↔ e_price e = p ∧ e ∈ l.
Proof. unfold at_price. by rewrite list_elem_of_filter. Qed.

Lemma filter_comm {A} (P Q : A → Prop) `{∀ x, Decision (P x), ∀ x, Decision (Q x)} (l : list A) :
  filter P (filter Q l) = filter Q (filter P l).
Proof.
  rewrite !list_filter_filter. apply list_filter_iff. intros; tauto.
Qed.

Lemma at_price_remove p id l : at_price p (remove_id id l) = remove_id id (at_price p l).
Proof. apply filter_comm. Qed.

Lemma remove_id_notin id l : id ∉ e_id <$> l → remove_id id l = l.
Proof.
  induction l as [|e l IH]; [done|]. rewrite fmap_cons, not_elem_of_cons. intros [H1 H2].
  unfold remove_id. rewrite filter_cons_True by congruence. f_equal. by apply IH.
Qed.

Lemma remove_id_app id l1 l2 : remove_id id (l1 ++ l2) = remove_id id l1 ++ remove_id id l2.
Proof. apply filter_app. Qed.

Lemma remove_id_mid e l1 l2 :
  NoDup (e_id <$> (l1 ++ e :: l2)) → remove_id (e_id e) (l1 ++ e :: l2) = l1 ++ l2.
Proof.
  rewrite fmap_app, fmap_cons, NoDup_app, NoDup_cons. intros (_ & H1 & H2 & _).
  rewrite remove_id_app. unfold remove_id at 2. rewrite filter_cons_False by auto.
  fold (remove_id (e_id e) l2). rewrite !remove_id_notin; [done|done|].
  intros H. eapply H1; [done|]. constructor.
Qed.

Lemma update_id_notin id f l : id ∉ e_id <$> l → update_id id f l = l.
Proof.
  induction l as [|e l IH]; [done|]. rewrite fmap_cons, not_elem_of_cons. intros [H1 H2].
  simpl. rewrite decide_False by done. f_equal. by apply IH.
Qed.

Lemma update_id_mid e f l1 l2 :
  NoDup (e_id <$> (l1 ++ e :: l2)) → update_id (e_id e) f (l1 ++ e :: l2) = l1 ++ f e :: l2.
Proof.
  rewrite fmap_app, fmap_cons, NoDup_app, NoDup_cons. intros (_ & H1 & H2 & _).
  unfold update_id. rewrite fmap_app, fmap_cons, decide_True by done.
  fold (update_id (e_id e) f l1) (update_id (e_id e) f l2).
  rewrite !update_id_notin; [done|done|].
  intros H. eapply H1; [done|]. constructor.
Qed.

Lemma at_price_update p id f l :
  (∀ e, e_price (f e) = e_price e) → at_price p (update_id id f l) = update_id id f (at_price p l).
Proof.
  intros Hf. induction l as [|e l IH]; [done|]. unfold update_id at 1. rewrite fmap_cons.
  fold (update_id id f l). unfold at_price in *. rewrite !filter_cons, IH.
  assert (e_price (if decide (e_id e = id) then f e else e) = e_price e) as ->
    by (destruct (decide (e_id e = id)); auto).
  by destruct (decide (e_price e = p)).
Qed.

Lemma ids_update id f l :
  (∀ e, e_id (f e) = e_id e) → e_id <$> update_id id f l = e_id <$> l.
Proof.
  intros Hf. unfold update_id. rewrite <- list_fmap_compose. apply list_fmap_ext.
  intros i e _. simpl. by destruct (decide _).
Qed.

(** ** Well-formedness is kept by removal, update and insertion *)

Lemma book_ok_intro B :
  NoDup (ids B) → (∀ pl, sorted pl (book_side pl B)) →
  (∀ pl e, e ∈ book_side pl B → entry_ok pl e) → book_ok B.
Proof. by split. Qed.

Lemma ids_remove id B : ids (remove_order id B) = filter (λ i, i ≠ id) (ids B).
Proof.
  unfold ids. rewrite all_entries_remove. generalize (all_entries B) as l. unfold remove_id.
  induction l as [|e l IH]; [done|]. rewrite filter_cons, fmap_cons, filter_cons.
  destruct (decide _); rewrite ?fmap_cons, IH; done.
Qed.

Lemma elem_of_ids_remove i id B : i ∈ ids (remove_order id B) ↔ i ≠ id ∧ i ∈ ids B.
Proof. rewrite ids_remove. by rewrite list_elem_of_filter. Qed.

Lemma sorted_filter pl l (P : entry → Prop) `{∀ e, Decision (P e)} : sorted pl l → sorted pl (filter P l).
Proof.
  unfold sorted. induction 1 as [|e l Hs IH Hf]; [constructor|]. rewrite filter_cons.
  destruct (decide (P e)); [|done]. constructor; [done|].
  rewrite Forall_forall in *. intros x [_ Hx]%list_elem_of_filter. auto.
Qed.

Lemma book_ok_remove id B : book_ok B → book_ok (remove_order id B).
Proof.
  intros [Hn Hs He]. split.
  - rewrite ids_remove. by apply NoDup_filter.
  - intros pl. rewrite book_side_remove. by apply sorted_filter.
  - intros pl e. rewrite book_side_remove, elem_of_remove_id. intros [_ ?]. auto.
Qed.

Lemma better_irrefl pl p : better pl p p = false.
Proof. destruct pl; simpl; lia. Qed.

Lemma better_trans pl p1 p2 p3 : better pl p2 p1 = false → better pl p3 p2 = false → better pl p3 p1 = false.
Proof. destruct pl; simpl; lia. Qed.

Lemma better_antisym pl p p' : better pl p p' = false → better pl p' p = false → p = p'.
Proof. destruct pl; simpl; lia. Qed.

Lemma better_asym pl p p' : better pl p p' = true → better pl p' p = false.
Proof. destruct pl; simpl; lia. Qed.

Lemma better_trans_l pl p1 p2 p3 : better pl p1 p2 = true → better pl p3 p2 = false → better pl p1 p3 = true.
Proof. destruct pl; simpl; lia. Qed.

Lemma insert_entry_perm pl e l : insert_entry pl e l ≡ₚ e :: l.
Proof.
  induction l as [|e' l IH]; simpl; [done|]. destruct (better _ _ _); [done|].
  rewrite IH. constructor.
Qed.

Lemma elem_of_insert_entry pl e e' l : e' ∈ insert_entry pl e l ↔ e' = e ∨ e' ∈ l.
Proof. by rewrite insert_entry_perm, elem_of_cons. Qed.

Lemma sorted_insert pl e l : sorted pl l → sorted pl (insert_entry pl e l).
Proof.
  unfold sorted. induction 1 as [|e' l Hs IH Hf]; simpl; [repeat constructor|].
  rewrite Forall_forall in Hf. destruct (better pl (e_price e) (e_price e')) eqn:Hb.
  - constructor; [by constructor; [|rewrite Forall_forall]|]. rewrite Forall_forall.
    intros x [->|Hx]%elem_of_cons; [by apply better_asym|].
    eapply better_trans; [by apply better_asym|by apply Hf].
  - constructor; [done|]. rewrite Forall_forall. intros x [->|Hx]%elem_of_insert_entry; auto.
Qed.

Lemma at_price_none p l : (∀ e, e ∈ l → e_price e ≠ p) → at_price p l = [].
Proof.
  unfold at_price. induction l as [|e l IH]; intros H; [done|].
  rewrite filter_cons_False by (apply H; constructor). apply IH. intros. apply H. list_in.
Qed.

Lemma at_price_all p l : (∀ e, e ∈ l → e_price e = p) → at_price p l = l.
Proof.
  unfold at_price. induction l as [|e l IH]; intros H; [done|].
  rewrite filter_cons_True by (apply H; constructor). f_equal. apply IH. intros. apply H. list_in.
Qed.

Lemma at_price_app p l1 l2 : at_price p (l1 ++ l2) = at_price p l1 ++ at_price p l2.
Proof. apply filter_app. Qed.

(** A new order joins the queue of its price at the back: time priority. *)
Lemma at_price_insert pl p e l :
  sorted pl l →
  at_price p (insert_entry pl e l) = at_price p l ++ (if decide (e_price e = p) then [e] else []).
Proof.
  unfold sorted. induction 1 as [|e' l Hs IH Hf]; simpl.
  { unfold at_price. rewrite filter_cons. by destruct (decide _). }
  rewrite Forall_forall in Hf. destruct (better pl (e_price e) (e_price e')) eqn:Hb.
  - destruct (decide (e_price e = p)) as [<-|Hne].
    + assert (at_price (e_price e) (e' :: l) = []) as Hnone.
      { apply at_price_none. intros x [->|Hx]%elem_of_cons Heq; rewrite <- Heq in Hb.
        - by rewrite better_irrefl in Hb.
        - by rewrite Hf in Hb. }
      unfold at_price in *. by rewrite filter_cons_True, Hnone.
    + rewrite app_nil_r. unfold at_price. by rewrite (filter_cons_False _ e).
  - unfold at_price in *. rewrite !filter_cons. destruct (decide (e_price e' = p)); simpl; by rewrite IH.
Qed.

(** The best price's queue is a prefix of its side. *)
Lemma sorted_best_prefix pl p l :
  sorted pl l → (∀ e, e ∈ l → better pl (e_price e) p = false) →
  ∃ rest, l = at_price p l ++ rest ∧ ∀ e, e ∈ rest → e_price e ≠ p.
Proof.
  unfold sorted. induction 1 as [|e l Hs IH Hf]; intros Hp.
  { exists []. split; [done|]. intros e ?%elem_of_nil. done. }
  rewrite Forall_forall in Hf. destruct (decide (e_price e = p)) as [<-|Hne].
  - destruct IH as (rest & Heq & Hr). { intros x Hx. apply Hp. list_in. }
    exists rest. split; [|done]. unfold at_price. rewrite filter_cons_True by done. simpl. by f_equal.
  - exists (e :: l). assert (∀ x, x ∈ e :: l → e_price x ≠ p) as Hx.
    { intros x [->|Hx]%elem_of_cons; [done|]. intros <-. apply Hne.
      apply (better_antisym pl); [apply Hp|apply Hf]; list_in. }
    split; [|done]. by rewrite at_price_none.
Qed.

Lemma ids_set_side pl l B : ids (set_side pl l B) ≡ₚ (e_id <$> l) ++ (e_id <$> book_side (other pl) B).
Proof. unfold ids, all_entries. rewrite fmap_app. destruct pl; simpl; [done|]. by rewrite Permutation_app_comm. Qed.

Lemma ids_side pl B : ids B ≡ₚ (e_id <$> book_side pl B) ++ (e_id <$> book_side (other pl) B).
Proof. by rewrite <- (ids_set_side pl _ B), set_side_id. Qed.

Lemma book_ok_insert pl e B :
  book_ok B → e_id e ∉ ids B → entry_ok pl e → book_ok (set_side pl (insert_entry pl e (book_side pl B)) B).
Proof.
  intros [Hn Hs He] Hid Hok. split.
  - rewrite ids_set_side, insert_entry_perm, fmap_cons. simpl. rewrite <- ids_side. by constructor.
  - intros pl'. destruct (book_side_set_case pl pl' (insert_entry pl e (book_side pl B)) B) as [[-> ->]|[-> ->]];
      auto using sorted_insert.
  - intros pl' e'. destruct (book_side_set_case pl pl' (insert_entry pl e (book_side pl B)) B) as [[-> ->]|[-> ->]]; [|auto].
    rewrite elem_of_insert_entry. intros [->|?]; auto.
Qed.

(** Removing or replacing an order only touches its own side. *)
Lemma not_in_other pl B e :
  book_ok B → e ∈ book_side pl B → e_id e ∉ e_id <$> book_side (other pl) B.
Proof.
  intros [Hn _ _] He Hin. rewrite (ids_side pl), NoDup_app in Hn. destruct Hn as (_ & Hn & _).
  eapply Hn; [|done]. by apply list_elem_of_fmap_2.
Qed.

Lemma remove_order_side pl B e :
  book_ok B → e ∈ book_side pl B →
  remove_order (e_id e) B = set_side pl (remove_id (e_id e) (book_side pl B)) B.
Proof.
  intros Hok He. pose proof (not_in_other pl B e Hok He) as Hn. unfold remove_order.
  destruct pl; simpl in *; by rewrite (remove_id_notin _ _ Hn).
Qed.

Lemma update_order_side pl B e f :
  book_ok B → e ∈ book_side pl B →
  update_order (e_id e) f B = set_side pl (update_id (e_id e) f (book_side pl B)) B.
Proof.
  intros Hok He. pose proof (not_in_other pl B e Hok He) as Hn. unfold update_order.
  destruct pl; simpl in *; by rewrite (update_id_notin _ f _ Hn).
Qed.

Lemma book_ok_update pl B e f :
  book_ok B → e ∈ book_side pl B → (∀ x, e_id (f x) = e_id x) → (∀ x, e_price (f x) = e_price x) →
  entry_ok pl (f e) → book_ok (update_order (e_id e) f B).
Proof.
  intros Hok He Hid Hp Hfe. pose proof Hok as [Hn Hs Hen]. split.
  - unfold ids. by rewrite all_entries_update, ids_update.
  - intros pl'. rewrite book_side_update. specialize (Hs pl'). unfold sorted, update_id in *.
    induction Hs as [|x l Hx IH Hf]; simpl; constructor; [done|].
    rewrite Forall_forall in *. intros y (z & -> & Hz)%list_elem_of_fmap.
    assert (∀ w, e_price (if decide (e_id w = e_id e) then f w else w) = e_price w) as Hw
      by (intros w; destruct (decide _); auto).
    rewrite !Hw. auto.
  - intros pl' x. rewrite book_side_update. unfold update_id. intros (y & -> & Hy)%list_elem_of_fmap.
    destruct (decide (e_id y = e_id e)) as [Heq|]; [|auto].
    assert (y = e) as ->. { eapply NoDup_fmap_inj; [exact Hn|..|done]; apply elem_of_all; eauto. }
    assert (pl' = pl) as ->; [|done].
    rewrite <- (ok_side _ _ (Hen _ _ He)). by rewrite <- (ok_side _ _ (Hen _ _ Hy)).
Qed.

(** Filling a queue that is a prefix of another. *)
Lemma fill_queue_app sym id side limit q l1 l2 :
  fill_queue sym id side limit q (l1 ++ l2) =
  let '(l1', q', cbs) := fill_queue sym id side limit q l1 in
  match l1' with
  | [] => let '(l2', q'', cbs') := fill_queue sym id side limit q' l2 in (l2', q'', cbs ++ cbs')
  | _ => (l1' ++ l2, q', cbs)
  end.
Proof.
  revert q. induction l1 as [|e l1 IH]; intros q; simpl.
  { by destruct (fill_queue _ _ _ _ q l2) as [[? ?] ?]. }
  destruct ((q >? 0) && crosses side limit (e_price e)); [|done].
  destruct (e_qty e <=? q); [|done]. rewrite IH.
  destruct (fill_queue _ _ _ _ (q - e_qty e) l1) as [[[|e' l1'] q'] cbs]; [|done].
  by destruct (fill_queue _ _ _ _ q' l2) as [[? ?] ?].
Qed.

Lemma fill_queue_none sym id side limit q l : q = 0 → fill_queue sym id side limit q l = (l, q, []).
Proof. intros ->. by destruct l. Qed.

(** What filling a queue does: some orders at the front are filled whole, at
    most one more is filled in part, and the rest is untouched. *)
Definition total (l : list entry) : Z := foldr (λ e z, e_qty e + z) 0 l.

Lemma total_app l1 l2 : total (l1 ++ l2) = total l1 + total l2.
Proof. unfold total. induction l1; simpl; lia. Qed.

Inductive filled (side limit q : Z) (l : list entry) : list entry → Z → Prop :=
  | filled_whole l1 l2 :
      l = l1 ++ l2 → Forall (λ e, crosses side limit (e_price e) = true) l1 → total l1 <= q →
      (q = total l1 ∨ ∀ e, hd_error l2 = Some e → crosses side limit (e_price e) = false) →
      filled side limit q l l2 (q - total l1)
  | filled_part l1 e l2 :
      l = l1 ++ e :: l2 → Forall (λ e, crosses side limit (e_price e) = true) (l1 ++ [e]) →
      0 < q - total l1 < e_qty e →
      filled side limit q l (fill_by (q - total l1) e :: l2) 0.

Lemma fill_queue_filled sym id side limit l : ∀ q l' q' cbs,
  fill_queue sym id side limit q l = (l', q', cbs) → 0 <= q → filled side limit q l l' q'.
Proof.
  induction l as [|e l IH]; intros q l' q' cbs Hf Hq; simpl in Hf.
  { simplify_eq. rewrite <- (Z.sub_0_r q') at 2. apply (filled_whole _ _ _ _ [] []); auto. by right. }
  destruct ((q >? 0) && crosses side limit (e_price e)) eqn:Hc.
  2: { simplify_eq. rewrite <- (Z.sub_0_r q') at 2. apply (filled_whole _ _ _ _ []); simpl; auto.
       apply andb_false_iff in Hc as [?|Hc]; [left; simpl; lia|]. right. by intros ? [= <-]. }
  apply andb_true_iff in Hc as [Hpos Hc]. destruct (e_qty e <=? q) eqn:Hle.
  - destruct (fill_queue _ _ _ _ (q - e_qty e) l) as [[l1 q1] cbs1] eqn:Hrec. simplify_eq.
    apply IH in Hrec; [|lia]. destruct Hrec as [l1 l2 -> Hcr Ht Hstop|l1 e1 l2 -> Hcr Ht].
    + replace (q - e_qty e - total l1) with (q - total (e :: l1)) by (simpl; lia).
      apply filled_whole; [done|by constructor|simpl; lia|]. destruct Hstop; [left; simpl; lia|by right].
    + replace (q - e_qty e - total l1) with (q - total (e :: l1)) by (simpl; lia).
      apply filled_part; [done|by constructor|simpl; lia].
  - simplify_eq. replace q with (q - total []) at 2 by (simpl; lia).
    apply filled_part; [done|by repeat constructor|simpl; lia].
Qed.

Lemma filled_in side limit q l l' q' e' :
  filled side limit q l l' q' → e' ∈ l' → ∃ e, e ∈ l ∧ e_price e = e_price e' ∧ e_id e = e_id e'.
Proof.
  destruct 1 as [l1 l2 -> _ _ _|l1 e l2 -> _ _].
  - intros. exists e'. list_in.
  - intros [->|?]%elem_of_cons; [exists e|exists e']; list_in.
Qed.

Lemma total_perm l1 l2 : l1 ≡ₚ l2 → total l1 = total l2.
Proof. unfold total. induction 1; simpl; lia. Qed.
