(* ===== verification/LadderRep.v ===== *)
(** * The pointer ladder refines the abstract book

    [rep L B] relates the heap, free list, hash map and price levels of
    [OrderLadder] to a [Book]: at every price the level's doubly linked list,
    from [head] to [tail], is exactly the sublist of the book at that price,
    in time priority.  Each operation run with the recording subscriber gives
    the outcome, the callbacks and a state related to the book of its
    specification; in particular no dangling pointer is followed and the fuel
    of the loops is enough. *)
From S2P Require Import Prelude Protocol OrderLadder LadderSpec.

(** ** Doubly linked segments *)

Definition node (e : entry) (pv nx : option Z) : Order :=
  mkOrder (e_id e) 0 (e_qty e) (e_filled e) (e_price e) (e_side e) (e_flags e) nx pv.

(** The location of the first entry of a segment, or what follows it; and of
    the last, or what precedes it. *)
Definition hd_loc (lk : gmap Z Z) (q : list entry) (nx : option Z) : option Z :=
  match q with [] => nx | e :: _ => lk !! e_id e end.

Fixpoint last_loc (lk : gmap Z Z) (pv : option Z) (q : list entry) : option Z :=
  match q with [] => pv | e :: q => last_loc lk (lk !! e_id e) q end.

(** [dseg h lk pv q nx]: the nodes of [q] form a doubly linked segment in the
    heap [h], preceded by [pv] and followed by [nx]; [lk] is the ladder's map
    from order ids to nodes. *)
Fixpoint dseg (h : gmap Z Order) (lk : gmap Z Z) (pv : option Z) (q : list entry) (nx : option Z) : Prop :=
  match q with
  | [] => True
  | e :: q' => ∃ l, lk !! e_id e = Some l ∧ h !! l = Some (node e pv (hd_loc lk q' nx)) ∧ dseg h lk (Some l) q' nx
  end.

Definition at_loc (lk : gmap Z Z) (q : list entry) (l : Z) : Prop := ∃ e, e ∈ q ∧ lk !! e_id e = Some l.

Lemma hd_loc_app lk q1 q2 nx : hd_loc lk (q1 ++ q2) nx = hd_loc lk q1 (hd_loc lk q2 nx).
Proof. by destruct q1. Qed.

Lemma last_loc_app lk pv q1 q2 : last_loc lk pv (q1 ++ q2) = last_loc lk (last_loc lk pv q1) q2.
Proof. revert pv; induction q1 as [|e q1 IH]; intros; simpl; auto. Qed.

Lemma last_loc_cons lk pv pv' e q : last_loc lk pv (e :: q) = last_loc lk pv' (e :: q).
Proof. done. Qed.

Lemma dseg_app h lk pv q1 q2 nx :
  dseg h lk pv (q1 ++ q2) nx ↔
  dseg h lk pv q1 (hd_loc lk q2 nx) ∧ dseg h lk (last_loc lk pv q1) q2 nx.
Proof.
  revert pv. induction q1 as [|e q1 IH]; intros pv; simpl; [tauto|].
  rewrite hd_loc_app. split.
  - intros (l & Hl & Hn & Hd). apply IH in Hd as [H1 H2]. rewrite Hl. eauto.
  - intros ((l & Hl & Hn & Hd) & H2). rewrite Hl in H2. exists l. by rewrite IH.
Qed.

(** A segment only depends on the nodes and the map entries of its orders. *)
Lemma dseg_frame h h' lk lk' pv q nx :
  (∀ e, e ∈ q → lk' !! e_id e = lk !! e_id e) →
  (∀ l, at_loc lk q l → h' !! l = h !! l) →
  dseg h lk pv q nx → dseg h' lk' pv q nx.
Proof.
  revert pv. induction q as [|e q IH]; intros pv Hlk Hh; simpl; [done|].
  intros (l & Hl & Hn & Hd). exists l.
  assert (hd_loc lk' q nx = hd_loc lk q nx) as ->.
  { destruct q as [|e' q]; simpl; [done|]. apply Hlk. list_in. }
  rewrite Hlk by list_in. rewrite Hh by (exists e; list_in).
  split_and!; [done..|]. apply IH; [|..|done].
  - intros e' He'. apply Hlk. list_in.
  - intros l' (e' & He' & Hl'). apply Hh. exists e'. list_in.
Qed.

Lemma dseg_lookup h lk pv q nx e :
  dseg h lk pv q nx → e ∈ q → ∃ l pv' nx', lk !! e_id e = Some l ∧ h !! l = Some (node e pv' nx').
Proof.
  revert pv. induction q as [|e' q IH]; intros pv; [by rewrite elem_of_nil|].
  simpl. rewrite elem_of_cons. intros (l & Hl & Hn & Hd) [->|He]; eauto 10.
Qed.

(** The node at the end, and at the front, of a segment. *)
Lemma last_loc_snoc lk pv q e : last_loc lk pv (q ++ [e]) = lk !! e_id e.
Proof. by rewrite last_loc_app. Qed.

Lemma last_loc_Some lk pv q l :
  last_loc lk pv q = Some l → (q = [] ∧ pv = Some l) ∨ ∃ q' e, q = q' ++ [e] ∧ lk !! e_id e = Some l.
Proof.
  destruct q as [|e q _] using rev_ind; simpl; [auto|].
  rewrite last_loc_snoc. intros. right. eauto.
Qed.

Definition relink_next (p : option Z) (nx : option Z) (h : gmap Z Order) : gmap Z Order :=
  match p with Some l => alter (set_next nx) l h | None => h end.
Definition relink_prev (p : option Z) (pv : option Z) (h : gmap Z Order) : gmap Z Order :=
  match p with Some l => alter (set_prev pv) l h | None => h end.

Definition lk_inj (lk : gmap Z Z) : Prop := ∀ i j l, lk !! i = Some l → lk !! j = Some l → i = j.

Lemma dseg_relink_next h lk q nx nx' :
  lk_inj lk → NoDup (e_id <$> q) →
  dseg h lk None q nx → dseg (relink_next (last_loc lk None q) nx' h) lk None q nx'.
Proof.
  intros Hinj. destruct q as [|e q _] using rev_ind; [done|].
  rewrite last_loc_snoc, fmap_app, NoDup_app. intros (_ & Hnd & _).
  rewrite !dseg_app. simpl. intros [Hq (l & Hl & Hn & _)]. rewrite Hl in Hq |- *. simpl. split.
  - eapply dseg_frame; [done| |done]. intros l' (e' & He' & Hl'). apply lookup_alter_ne.
    intros ->. apply (Hnd (e_id e')); [by apply list_elem_of_fmap_2|].
    simpl. rewrite (Hinj _ _ _ Hl' Hl). by constructor.
  - exists l. split_and!; [done| |done]. by rewrite lookup_alter_eq, Hn.
Qed.

Lemma dseg_relink_prev h lk q pv pv' :
  lk_inj lk → NoDup (e_id <$> q) →
  dseg h lk pv q None → dseg (relink_prev (hd_loc lk q None) pv' h) lk pv' q None.
Proof.
  intros Hinj. destruct q as [|e q]; [done|]. rewrite fmap_cons, NoDup_cons. simpl.
  intros [Hnd _] (l & Hl & Hn & Hq). rewrite Hl. simpl. exists l. split_and!; [done| |].
  - by rewrite lookup_alter_eq, Hn.
  - eapply dseg_frame; [done| |done]. intros l' (e' & He' & Hl'). apply lookup_alter_ne.
    intros ->. apply Hnd. rewrite <- (Hinj _ _ _ Hl' Hl). by apply list_elem_of_fmap_2.
Qed.

(** Overwriting the contents of one order leaves the links alone. *)
Lemma dseg_update h lk pv q1 e e' q2 nx l f :
  lk_inj lk → NoDup (e_id <$> (q1 ++ e :: q2)) →
  lk !! e_id e = Some l → e_id e' = e_id e →
  (∀ pv nx, f (node e pv nx) = node e' pv nx) →
  dseg h lk pv (q1 ++ e :: q2) nx → dseg (alter f l h) lk pv (q1 ++ e' :: q2) nx.
Proof.
  intros Hinj Hnd Hl Hid Hf. rewrite !dseg_app. simpl. rewrite Hid.
  rewrite fmap_app, fmap_cons, NoDup_app, NoDup_cons in Hnd. destruct Hnd as (_ & Hn1 & Hn2 & _).
  intros (H1 & l' & Hl' & Hn & H2). rewrite Hl in Hl'. injection Hl' as <-.
  split; [|exists l; split_and!; [done| |]].
  - eapply dseg_frame; [done| |done]. intros l1 (e1 & He1 & Hl1). apply lookup_alter_ne.
    intros <-. apply (Hn1 (e_id e1)); [by apply list_elem_of_fmap_2|].
    rewrite (Hinj _ _ _ Hl1 Hl). by constructor.
  - rewrite lookup_alter_eq, Hn. simpl. by rewrite Hf.
  - eapply dseg_frame; [done| |done]. intros l1 (e1 & He1 & Hl1). apply lookup_alter_ne.
    intros <-. apply Hn2. rewrite <- (Hinj _ _ _ Hl1 Hl). by apply list_elem_of_fmap_2.
Qed.

(** ** The representation relation *)

Definition level_rep (h : gmap Z Order) (lk : gmap Z Z) (m : option PriceLevel) (q : list entry) : Prop :=
  match m with
  | None => q = []
  | Some lv => head lv = hd_loc lk q None ∧ tail lv = last_loc lk None q ∧ dseg h lk None q None
  end.

(** The pool: free nodes are allocated, distinct and not in use. *)
Record pool_ok (L : Ladder) : Prop := {
  p_blocks : 0 <= blocks L;
  p_nodup : NoDup (free_list L);
  p_heap l : is_Some (heap L !! l) → l < blocks L * ORDER_POOL_BLOCK_SIZE;
  p_free l : l ∈ free_list L → is_Some (heap L !! l) ∧ ∀ i, orders L !! i ≠ Some l;
}.

(** [rep'] allows a price level whose list is empty, as it is inside [match];
    [rep] does not. *)
Record rep' (L : Ladder) (B : Book) : Prop := {
  r_sym : symbol L = b_symbol B;
  r_book : book_ok B;
  r_inj : lk_inj (orders L);
  r_dom i : is_Some (orders L !! i) ↔ i ∈ ids B;
  r_level pl p : level_rep (heap L) (orders L) (levels pl L !! p) (at_price p (book_side pl B));
  r_pool : pool_ok L;
}.

Definition levels_full (pl : Levels) (L : Ladder) (B : Book) : Prop :=
  ∀ p lv, levels pl L !! p = Some lv → at_price p (book_side pl B) ≠ [].

Record rep (L : Ladder) (B : Book) : Prop := {
  rep_weak : rep' L B;
  rep_full pl : levels_full pl L B;
}.

Lemma rep_empty sym : rep (OrderLadder sym) (empty_book sym).
Proof.
  split; [split|]; simpl.
  - done.
  - split; [constructor|..]; [intros []; constructor | intros [] e; simpl; by rewrite elem_of_nil].
  - intros i j l. by rewrite lookup_empty.
  - intros i. rewrite lookup_empty. unfold ids; simpl. rewrite elem_of_nil. split; [by intros []|done].
  - intros [] p; simpl; by rewrite lookup_empty.
  - split; simpl; [done|constructor|intros l; rewrite lookup_empty; by intros []|by intros l ?%elem_of_nil].
  - intros [] p lv; simpl; by rewrite lookup_empty.
Qed.

Section rep_facts.
Context {L : Ladder} {B : Book} (HR : rep' L B).

Lemma r_ids : NoDup (e_id <$> all_entries B).
Proof using HR. apply bk_ids, r_book with L, HR. Qed.

Lemma r_unique pl pl' e e' :
  e ∈ book_side pl B → e' ∈ book_side pl' B → e_id e = e_id e' → e = e' ∧ pl = pl'.
Proof using HR.
  intros He He' Hid. assert (e = e') as <-.
  { eapply NoDup_fmap_inj; [apply r_ids|..|done]; apply elem_of_all; eauto. }
  split; [done|]. destruct (r_book _ _ HR) as [_ _ Hok].
  rewrite <- (ok_side _ _ (Hok _ _ He)). by rewrite <- (ok_side _ _ (Hok _ _ He')).
Qed.

Lemma r_side_nodup pl : NoDup (e_id <$> book_side pl B).
Proof using HR.
  pose proof r_ids as H. unfold all_entries in H. rewrite fmap_app, NoDup_app in H.
  destruct pl; tauto.
Qed.

Lemma r_queue_nodup pl p : NoDup (e_id <$> at_price p (book_side pl B)).
Proof using HR.
  eapply sublist_NoDup; [apply (r_side_nodup pl)|]. apply fmap_sublist, sublist_filter.
Qed.

Lemma r_lookup pl e :
  e ∈ book_side pl B → ∃ l pv nx, orders L !! e_id e = Some l ∧ heap L !! l = Some (node e pv nx).
Proof using HR.
  intros He. assert (e ∈ at_price (e_price e) (book_side pl B)) as Hq by by apply elem_of_at_price.
  pose proof (r_level _ _ HR pl (e_price e)) as Hl. destruct (levels pl L !! e_price e); simpl in Hl.
  - destruct Hl as (_ & _ & Hd). destruct (dseg_lookup _ _ _ _ _ _ Hd Hq) as (l & pv & nx & ? & ?). eauto 10.
  - rewrite Hl in Hq. by apply elem_of_nil in Hq.
Qed.

Lemma r_find id e : find_id id (all_entries B) = Some e → ∃ pl, e ∈ book_side pl B ∧ e_id e = id.
Proof using HR.
  intros [He ?]%find_id_Some. apply elem_of_all in He as [pl ?]. eauto.
Qed.

Lemma r_orders_None id : orders L !! id = None ↔ find_id id (all_entries B) = None.
Proof using HR.
  rewrite find_id_None, eq_None_not_Some. by rewrite (r_dom _ _ HR).
Qed.
End rep_facts.

(** ** Frames: what a change at one price leaves alone *)

Lemma level_rep_frame h h' lk lk' m q :
  (∀ e, e ∈ q → lk' !! e_id e = lk !! e_id e) →
  (∀ l, at_loc lk q l → h' !! l = h !! l) →
  level_rep h lk m q → level_rep h' lk' m q.
Proof.
  intros Hlk Hh. destruct m as [lv|]; simpl; [|done]. intros (-> & -> & Hd). split_and!.
  - destruct q; simpl; [done|]. symmetry. apply Hlk. list_in.
  - destruct q as [|e q _] using rev_ind; [done|]. rewrite !last_loc_snoc. symmetry. apply Hlk. list_in.
  - eapply dseg_frame; eauto.
Qed.

(** The nodes of two different orders are different nodes. *)
Lemma r_loc_ne L B e e' l l' :
  rep' L B → orders L !! e_id e = Some l → orders L !! e_id e' = Some l' → e_id e ≠ e_id e' → l ≠ l'.
Proof. intros HR Hl Hl' Hne <-. apply Hne. by eapply (r_inj _ _ HR). Qed.

(** An entry of another queue than [at_price p (book_side pl B)] has another id
    than every entry of this queue. *)
Lemma r_other_id L B pl pl' p e e' :
  rep' L B → e ∈ at_price p (book_side pl B) → e' ∈ book_side pl' B →
  (pl', e_price e') ≠ (pl, p) → e_id e ≠ e_id e'.
Proof.
  intros HR [Hp He]%elem_of_at_price He' Hne Hid.
  destruct (r_unique HR _ _ _ _ He He' Hid) as [<- <-]. by subst p.
Qed.

Lemma level_frame L B pl p h' lk' :
  rep' L B →
  (∀ pl' e, e ∈ book_side pl' B → (pl', e_price e) ≠ (pl, p) →
     lk' !! e_id e = orders L !! e_id e ∧
     ∀ l, orders L !! e_id e = Some l → h' !! l = heap L !! l) →
  ∀ pl' p', (pl', p') ≠ (pl, p) →
  level_rep h' lk' (levels pl' L !! p') (at_price p' (book_side pl' B)).
Proof.
  intros HR Hother pl' p' Hne.
  eapply level_rep_frame; [| |apply (r_level _ _ HR)].
  - intros e [He ?]%elem_of_at_price. eapply Hother; eauto. congruence.
  - intros l (e & [He ?]%elem_of_at_price & Hl). eapply Hother; eauto. congruence.
Qed.

(** ** The helpers of the code, run *)

Section runs.
Context {Sb : Type} `{!Subscriber Sb}.
Implicit Types (L : Ladder) (s : Sb).

Lemma run_deref L s p o : heap L !! p = Some o → deref p (L, s) = (Ret o, (L, s)).
Proof. intros H. unfold deref. mstep. simpl. by rewrite H. Qed.

Lemma run_store L s p o f :
  heap L !! p = Some o → store p f (L, s) = (Ret tt, (with_heap (alter f p) L, s)).
Proof.
  intros H. unfold store. erewrite bind_ret by by apply run_deref.
  unfold setl, modify, with_heap. simpl. by erewrite alter_Some.
Qed.

Lemma run_store_is_Some L s p f :
  is_Some (heap L !! p) → store p f (L, s) = (Ret tt, (with_heap (alter f p) L, s)).
Proof. intros [o H]. by eapply run_store. Qed.
End runs.

(** Run the head of a program: a state access, a known read or a write. *)
Ltac run :=
  first
    [ erewrite bind_ret by reflexivity
    | erewrite bind_ret by (apply run_deref; eassumption)
    | erewrite bind_ret by (apply run_store_is_Some; eauto)
    | rewrite run_store_is_Some by eauto ]; cbn beta.

(** ** [handle_delete_order] *)

Definition unlink_level (l : Z) (o : Order) (lv : PriceLevel) : PriceLevel :=
  mkLevel (if bool_decide (head lv = Some l) then next o else head lv)
          (if bool_decide (tail lv = Some l) then prev o else tail lv).

Definition unlinked (pl : Levels) (id l : Z) (o : Order) (lv : PriceLevel) (L : Ladder) : Ladder :=
  with_free_list (cons l) (with_heap (λ h,
    alter (set_prev None) l (alter (set_next None) l
      (relink_prev (next o) (prev o) (relink_next (prev o) (next o) h))))
    (with_orders (delete id) (with_levels pl (insert (price o) (unlink_level l o lv)) L))).

Lemma relink_next_is_Some p nx h l : is_Some (relink_next p nx h !! l) ↔ is_Some (h !! l).
Proof. destruct p; simpl; [apply alter_is_Some|done]. Qed.

Lemma relink_prev_is_Some p pv h l : is_Some (relink_prev p pv h !! l) ↔ is_Some (h !! l).
Proof. destruct p; simpl; [apply alter_is_Some|done]. Qed.

#[global] Hint Rewrite relink_next_is_Some relink_prev_is_Some : ndfex.

Lemma relink_next_ne p nx h l : p ≠ Some l → relink_next p nx h !! l = h !! l.
Proof. intros H. destruct p; simpl; [|done]. apply lookup_alter_ne. congruence. Qed.

Lemma relink_prev_ne p pv h l : p ≠ Some l → relink_prev p pv h !! l = h !! l.
Proof. intros H. destruct p; simpl; [|done]. apply lookup_alter_ne. congruence. Qed.

Lemma levels_with_levels pl f L : levels pl (with_levels pl f L) = f (levels pl L).
Proof. by destruct pl. Qed.

Lemma levels_with_levels_other pl f L : levels (other pl) (with_levels pl f L) = levels (other pl) L.
Proof. by destruct pl. Qed.

Lemma run_when_setl {Sb} L (s : Sb) b f :
  when b (setl f) (L, s) = (Ret tt, (if b then f L else L, s)).
Proof. by destruct b. Qed.

Lemma unlink_level_step pl p l o lv L :
  levels pl L !! p = Some lv →
  (if bool_decide (tail lv = Some l)
   then with_levels pl (alter (set_tail (prev o)) p)
          (if bool_decide (head lv = Some l) then with_levels pl (alter (set_head (next o)) p) L else L)
   else (if bool_decide (head lv = Some l) then with_levels pl (alter (set_head (next o)) p) L else L))
  = with_levels pl (insert p (unlink_level l o lv)) L.
Proof.
  intros H. unfold unlink_level.
  destruct pl, lv as [hd tl], L as [h b fl os bs ss sy]; simpl in *;
    repeat case_bool_decide; simpl; f_equal;
    rewrite ?(alter_Some _ _ _ _ H), ?insert_id by done;
    try (erewrite alter_Some by apply lookup_insert_eq; rewrite insert_insert_eq); done.
Qed.

Lemma run_relink_next {Sb} L (s : Sb) p nx :
  (∀ l, p = Some l → is_Some (heap L !! l)) →
  match p with Some q => store q (set_next nx) | None => mret tt end (L, s)
  = (Ret tt, (with_heap (relink_next p nx) L, s)).
Proof.
  intros H. destruct p as [q|]; simpl; [|by destruct L]. by rewrite run_store_is_Some by auto.
Qed.

Lemma run_relink_prev {Sb} L (s : Sb) p pv :
  (∀ l, p = Some l → is_Some (heap L !! l)) →
  match p with Some q => store q (set_prev pv) | None => mret tt end (L, s)
  = (Ret tt, (with_heap (relink_prev p pv) L, s)).
Proof.
  intros H. destruct p as [q|]; simpl; [|by destruct L]. by rewrite run_store_is_Some by auto.
Qed.

Lemma run_unlink {Sb} `{!Subscriber Sb} L (s : Sb) pl id l o lv :
  orders L !! id = Some l → heap L !! l = Some o → levels pl L !! price o = Some lv →
  prev o ≠ Some l → next o ≠ Some l →
  (∀ p, prev o = Some p → is_Some (heap L !! p)) →
  (∀ n, next o = Some n → is_Some (heap L !! n)) →
  handle_delete_order id pl (L, s) = (Ret tt, (unlinked pl id l o lv L, s)).
Proof.
  intros Hid Hl Hlv Hpl Hnl Hp Hn. unfold handle_delete_order.
  run. simpl. rewrite Hid. run. run. simpl. rewrite Hlv.
  erewrite bind_ret by apply run_when_setl. cbn beta.
  erewrite bind_ret by apply run_when_setl. cbn beta.
  rewrite (unlink_level_step pl (price o) l o lv L Hlv).
  set (L1 := with_levels pl (insert (price o) (unlink_level l o lv)) L).
  assert (heap L1 = heap L) as Hh1 by by destruct pl.
  erewrite bind_ret by (apply run_relink_next; by rewrite Hh1). cbn beta.
  set (L2 := with_heap (relink_next (prev o) (next o)) L1).
  assert (heap L2 !! l = Some o) as Hl2.
  { simpl. rewrite Hh1. by rewrite relink_next_ne. }
  run. erewrite bind_ret; [|apply run_relink_prev].
  2: { intros n Hn'. simpl. rewrite Hh1. apply relink_next_is_Some. auto. }
  cbn beta. run. unfold deallocate.
  assert (is_Some (heap L2 !! l)) as Hs by (rewrite Hl2; eauto). simpl in Hs.
  erewrite bind_ret.
  2: { apply run_store_is_Some. simpl. by rewrite relink_prev_is_Some. }
  cbn beta. erewrite bind_ret.
  2: { apply run_store_is_Some. simpl. by rewrite alter_is_Some, relink_prev_is_Some. }
  unfold unlinked, setl, modify; destruct pl; reflexivity.
Qed.

Lemma at_loc_last lk q p : last_loc lk None q = Some p → at_loc lk q p.
Proof.
  intros [[_ ?]|(q' & e & -> & Hl)]%last_loc_Some; [done|]. exists e. split; [|done]. list_in.
Qed.

Lemma at_loc_hd lk q p : hd_loc lk q None = Some p → at_loc lk q p.
Proof. destruct q as [|e q]; simpl; [done|]. intros. exists e. split; [constructor|done]. Qed.

Lemma at_loc_disjoint lk q q' l :
  lk_inj lk → NoDup (e_id <$> (q ++ q')) → at_loc lk q l → at_loc lk q' l → False.
Proof.
  rewrite fmap_app, NoDup_app. intros Hinj (_ & Hnd & _) (e & He & Hl) (e' & He' & Hl').
  apply (Hnd (e_id e)); [by apply list_elem_of_fmap_2|].
  rewrite (Hinj _ _ _ Hl Hl'). by apply list_elem_of_fmap_2.
Qed.

(** Unlinking one order from its queue. *)
Lemma level_rep_unlink h lk lv q1 e q2 l :
  lk_inj lk → NoDup (e_id <$> (q1 ++ e :: q2)) → lk !! e_id e = Some l →
  level_rep h lk (Some lv) (q1 ++ e :: q2) →
  let o := node e (last_loc lk None q1) (hd_loc lk q2 None) in
  level_rep (alter (set_prev None) l (alter (set_next None) l
      (relink_prev (next o) (prev o) (relink_next (prev o) (next o) h))))
    (delete (e_id e) lk) (Some (unlink_level l o lv)) (q1 ++ q2).
Proof.
  intros Hinj Hnd Hl Hlev o. destruct lv as [hd tl].
  assert (NoDup (e_id <$> (q1 ++ q2)) ∧ e_id e ∉ e_id <$> q1 ++ q2) as [Hnd12 He12].
  { rewrite fmap_app, fmap_cons, <- Permutation_middle, NoDup_cons in Hnd.
    rewrite fmap_app. tauto. }
  assert (∀ l', at_loc lk (q1 ++ q2) l' → l' ≠ l) as Hne.
  { intros l' (e' & He' & Hl') ->. apply He12. rewrite <- (Hinj _ _ _ Hl' Hl). by apply list_elem_of_fmap_2. }
  assert (∀ q l', q = q1 ∨ q = q2 → at_loc lk q l' → l' ≠ l) as Hne'.
  { intros q l' Hq (e' & He' & Hl'). apply Hne. exists e'. split; [|done]. list_in. destruct Hq as [-> | ->]; auto. }
  simpl in Hlev. destruct Hlev as (-> & -> & Hd).
  rewrite dseg_app in Hd. destruct Hd as [H1 (l' & Hl' & Hn & H2)]. simpl in H1.
  rewrite Hl in Hl', H1. injection Hl' as <-.
  eapply (level_rep_frame _ _ lk); [|done|].
  { intros e' He'. apply lookup_delete_ne. intros Heq. apply He12. rewrite Heq. by apply list_elem_of_fmap_2. }
  unfold unlink_level, o; simpl. split_and!.
  - destruct q1 as [|e1 q1]; simpl.
    + by rewrite bool_decide_true.
    + rewrite bool_decide_false; [done|]. intros He1. apply (Hne l); [|done]. exists e1. split; [|done]. by left.
  - destruct q2 as [|e2 q2 _] using rev_ind.
    + rewrite last_loc_snoc, app_nil_r. by rewrite bool_decide_true.
    + rewrite app_comm_cons, !app_assoc, !last_loc_snoc.
      rewrite bool_decide_false; [done|]. intros He2. apply (Hne l); [|done]. exists e2. split; [|done]. list_in.
  - apply dseg_app. split.
    + eapply dseg_frame; [done| |eapply (dseg_relink_next _ _ _ (Some l)); [done| |exact H1]].
      2: { rewrite fmap_app, NoDup_app in Hnd12. tauto. }
      intros l' Hq. pose proof (Hne' _ _ (or_introl eq_refl) Hq).
      rewrite !lookup_alter_ne by done. apply relink_prev_ne. intros Hh.
      eapply (at_loc_disjoint lk q1 q2); eauto using at_loc_hd.
    + eapply dseg_frame; [done| |eapply (dseg_relink_prev _ _ _ (Some l)); [done| |eapply dseg_frame; [done| |exact H2]]].
      * intros l' Hq. pose proof (Hne' _ _ (or_intror eq_refl) Hq). by rewrite !lookup_alter_ne.
      * rewrite fmap_app, NoDup_app in Hnd12. tauto.
      * intros l' Hq. apply relink_next_ne. intros Hh.
        eapply (at_loc_disjoint lk q1 q2); eauto using at_loc_last.
Qed.

(** The queue an entry stands in, split at the entry. *)
Lemma r_split L B pl e :
  rep' L B → e ∈ book_side pl B →
  ∃ q1 q2 l lv,
    at_price (e_price e) (book_side pl B) = q1 ++ e :: q2 ∧
    NoDup (e_id <$> (q1 ++ e :: q2)) ∧
    orders L !! e_id e = Some l ∧
    levels pl L !! e_price e = Some lv ∧
    level_rep (heap L) (orders L) (Some lv) (q1 ++ e :: q2) ∧
    heap L !! l = Some (node e (last_loc (orders L) None q1) (hd_loc (orders L) q2 None)).
Proof.
  intros HR He. assert (e ∈ at_price (e_price e) (book_side pl B)) as Hq by by apply elem_of_at_price.
  pose proof (r_queue_nodup HR pl (e_price e)) as Hnd.
  pose proof (r_level _ _ HR pl (e_price e)) as Hlev.
  apply list_elem_of_split in Hq as (q1 & q2 & Hq). rewrite Hq in Hnd, Hlev.
  destruct (levels pl L !! e_price e) as [lv|] eqn:Elv; [|by destruct q1].
  pose proof Hlev as (_ & _ & Hd). rewrite dseg_app in Hd. destruct Hd as [_ (l & Hl & Hn & _)].
  exists q1, q2, l, lv. eauto 10.
Qed.

Lemma queue_loc_is_Some L B pl p l :
  rep' L B → at_loc (orders L) (at_price p (book_side pl B)) l → is_Some (heap L !! l).
Proof.
  intros HR (e & [_ He]%elem_of_at_price & Hl).
  destruct (r_lookup HR pl e He) as (l' & pv & nx & Hl' & Hn). simplify_eq. eauto.
Qed.

Lemma pool_ok_unlinked L pl id l o lv :
  pool_ok L → lk_inj (orders L) → orders L !! id = Some l → heap L !! l = Some o →
  pool_ok (unlinked pl id l o lv L).
Proof.
  intros [Hb Hnd Hh Hf] Hinj Hid Hl.
  assert (∀ l', is_Some (heap (unlinked pl id l o lv L) !! l') ↔ is_Some (heap L !! l')) as Hdom.
  { intros l'. destruct pl; simpl; autorewrite with ndfex; done. }
  split.
  - by destruct pl.
  - replace (free_list (unlinked pl id l o lv L)) with (l :: free_list L) by by destruct pl.
    constructor; [|done]. intros Hin. destruct (Hf _ Hin) as [_ Hno]. by apply (Hno id).
  - intros l' Hl'. apply Hdom, Hh in Hl'. by destruct pl.
  - intros l'. replace (free_list (unlinked pl id l o lv L)) with (l :: free_list L) by by destruct pl.
    replace (orders (unlinked pl id l o lv L)) with (delete id (orders L)) by by destruct pl.
    rewrite elem_of_cons, Hdom. intros [->|Hin].
    + split; [eauto|]. intros i [Hne Hi]%lookup_delete_Some. apply Hne. by eapply Hinj.
    + destruct (Hf _ Hin) as [? Hno]. split; [done|]. intros i [_ Hi]%lookup_delete_Some. by apply (Hno i).
Qed.

Lemma run_handle_delete {Sb} `{!Subscriber Sb} L (s : Sb) B pl e :
  rep' L B → e ∈ book_side pl B →
  ∃ L', handle_delete_order (e_id e) pl (L, s) = (Ret tt, (L', s)) ∧
    rep' L' (remove_order (e_id e) B) ∧
    (∀ p, is_Some (levels pl L' !! p) ↔ is_Some (levels pl L !! p)) ∧
    levels (other pl) L' = levels (other pl) L ∧
    orders L' = delete (e_id e) (orders L).
Proof.
  intros HR He. destruct (r_split L B pl e HR He) as (q1 & q2 & l & lv & Hq & Hnd & Hl & Hlv & Hlev & Hn).
  set (o := node e _ _) in Hn.
  pose proof (level_rep_unlink _ _ _ _ _ _ _ (r_inj _ _ HR) Hnd Hl Hlev) as Hlev'. simpl in Hlev'.
  assert (∀ l', prev o = Some l' ∨ next o = Some l' → at_loc (orders L) (q1 ++ q2) l') as Hpn.
  { simpl. intros l' [?%at_loc_last|?%at_loc_hd].
    - destruct H as (e' & ? & ?). exists e'. split; [list_in|done].
    - destruct H as (e' & ? & ?). exists e'. split; [list_in|done]. }
  assert (∀ l', at_loc (orders L) (q1 ++ q2) l' → l' ≠ l ∧ is_Some (heap L !! l')) as Hq12.
  { intros l' Hat. split.
    - intros ->. destruct Hat as (e' & He' & Hl'). rewrite fmap_app, fmap_cons, <- Permutation_middle, <- fmap_app, NoDup_cons in Hnd.
      apply (proj1 Hnd). rewrite <- (r_inj _ _ HR _ _ _ Hl' Hl). by apply list_elem_of_fmap_2.
    - eapply (queue_loc_is_Some L B pl (e_price e)); [done|]. rewrite Hq.
      destruct Hat as (e' & He' & Hl'). exists e'. split; [|done]. revert He'. rewrite !elem_of_app, elem_of_cons. tauto. }
  exists (unlinked pl (e_id e) l o lv L). split.
  { assert (∀ p, prev o = Some p ∨ next o = Some p → p ≠ l ∧ is_Some (heap L !! p)) as Hp by auto.
    apply run_unlink; [done..| | | |].
    - intros E. by destruct (Hp l (or_introl E)).
    - intros E. by destruct (Hp l (or_intror E)).
    - intros p E. apply (Hp p (or_introl E)).
    - intros p E. apply (Hp p (or_intror E)). }
  assert (levels (other pl) (unlinked pl (e_id e) l o lv L) = levels (other pl) L) as Hother by by destruct pl.
  assert (levels pl (unlinked pl (e_id e) l o lv L) = <[e_price e := unlink_level l o lv]> (levels pl L)) as Hown by by destruct pl.
  assert (orders (unlinked pl (e_id e) l o lv L) = delete (e_id e) (orders L)) as Horders by by destruct pl.
  split_and!; [|..|done|done].
  2: { intros p. rewrite Hown, lookup_insert. destruct (decide (e_price e = p)) as [<-|]; [rewrite Hlv; split; eauto|done]. }
  split.
  - destruct pl; apply (r_sym _ _ HR).
  - apply book_ok_remove, (r_book _ _ HR).
  - rewrite Horders. intros i j l' [_ Hi]%lookup_delete_Some [_ Hj]%lookup_delete_Some. by eapply (r_inj _ _ HR).
  - intros i. rewrite Horders, elem_of_ids_remove, <- (r_dom _ _ HR), lookup_delete.
    destruct (decide (e_id e = i)) as [<-|]; [split; [by intros []|by intros []]|]. split; [split; [congruence|done]|by intros []].
  - intros pl' p'. rewrite book_side_remove, at_price_remove.
    destruct (decide ((pl', p') = (pl, e_price e))) as [[= -> ->]|Hne].
    + rewrite Hq, (remove_id_mid _ _ _ Hnd), Hown, lookup_insert_eq, Horders.
      replace (heap (unlinked _ _ _ _ _ _)) with (alter (set_prev None) l (alter (set_next None) l
        (relink_prev (next o) (prev o) (relink_next (prev o) (next o) (heap L))))) by by destruct pl.
      exact Hlev'.
    + assert (levels pl' (unlinked pl (e_id e) l o lv L) !! p' = levels pl' L !! p') as ->.
      { destruct (decide (pl' = pl)) as [->|]; [rewrite Hown; apply lookup_insert_ne; congruence|].
        replace pl' with (other pl) by (by destruct pl, pl'). by rewrite Hother. }
      rewrite remove_id_notin.
      2: { rewrite list_elem_of_fmap. intros (e' & Hid & [Hp' He']%elem_of_at_price).
           destruct (r_unique HR _ _ _ _ He He' Hid) as [<- <-]. congruence. }
      rewrite Horders. eapply level_frame; [done| |done]. intros pl1 e1 He1 Hne1.
      assert (e_id e ≠ e_id e1) as Hid1.
      { eapply r_other_id; [done| |exact He1|exact Hne1]. by apply elem_of_at_price. }
      split; [by apply lookup_delete_ne|]. intros l1 Hl1.
      replace (heap (unlinked _ _ _ _ _ _)) with (alter (set_prev None) l (alter (set_next None) l
        (relink_prev (next o) (prev o) (relink_next (prev o) (next o) (heap L))))) by by destruct pl.
      rewrite !lookup_alter_ne by (eapply r_loc_ne; eauto).
      assert (∀ x, prev o = x ∨ next o = x → x ≠ Some l1) as Hx.
      { intros x Hx ->. destruct (Hpn l1 Hx) as (e' & He' & Hl').
        refine (r_other_id L B pl pl1 (e_price e) e' e1 HR _ He1 Hne1 (r_inj _ _ HR _ _ _ Hl' Hl1)).
        rewrite Hq. revert He'. rewrite !elem_of_app, elem_of_cons. tauto. }
      rewrite relink_prev_ne by auto. by rewrite relink_next_ne by auto.
  - eapply pool_ok_unlinked; [apply (r_pool _ _ HR)|apply (r_inj _ _ HR)|done|done].
Qed.
