(* ===== verification/LadderMatch.v ===== *)
(** * Matching, the order pool and linking, run on a represented book

    The runs of [match] on a ladder that represents a book consume the book as
    [fill_queue] does; [allocate] takes a fresh node; linking a node behind the
    tail of its level is insertion in price-time order. *)
From S2P Require Import Prelude Protocol OrderLadder LadderSpec LadderRep.

(** ** Changing the contents of one order *)

Lemma rep'_update L B pl e l f g :
  rep' L B → e ∈ book_side pl B → orders L !! e_id e = Some l →
  (∀ x, e_id (g x) = e_id x) → (∀ x, e_price (g x) = e_price x) → entry_ok pl (g e) →
  (∀ pv nx, f (node e pv nx) = node (g e) pv nx) →
  rep' (with_heap (alter f l) L) (update_order (e_id e) g B).
Proof.
  intros HR He Hl Hid Hp Hok Hf. split.
  - apply (r_sym _ _ HR).
  - eapply book_ok_update; eauto. apply (r_book _ _ HR).
  - apply (r_inj _ _ HR).
  - intros i. unfold ids. rewrite all_entries_update, ids_update by done. apply (r_dom _ _ HR).
  - intros pl' p'. rewrite book_side_update, at_price_update by done. cbn [heap orders with_heap].
    replace (levels pl' (with_heap (alter f l) L)) with (levels pl' L) by by destruct pl'.
    destruct (decide ((pl', p') = (pl, e_price e))) as [[= -> ->]|Hne].
    + destruct (r_split L B pl e HR He) as (q1 & q2 & l' & lv & Hq & Hnd & Hl' & -> & (Hh & Ht & Hd) & _).
      rewrite Hq, update_id_mid by done. rewrite Hl in Hl'. injection Hl' as <-. split_and!.
      * rewrite Hh. destruct q1; simpl; by rewrite ?Hid.
      * rewrite Ht, !last_loc_app. simpl. by rewrite Hid.
      * eapply dseg_update; eauto. apply (r_inj _ _ HR).
    + rewrite update_id_notin.
      * eapply level_frame; [done| |done]. intros pl1 e1 He1 Hne1. split; [done|]. intros l1 Hl1.
        apply lookup_alter_ne. eapply r_loc_ne; eauto.
        eapply r_other_id; [done| |exact He1|exact Hne1]. by apply elem_of_at_price.
      * intros (e1 & Heq & [Hp1 He1]%elem_of_at_price)%list_elem_of_fmap.
        destruct (r_unique HR _ _ _ _ He He1 Heq) as [<- <-]. congruence.
  - destruct (r_pool _ _ HR) as [Hb Hnd Hh Hfr]. split; [done|done| |].
    + intros l'. simpl. rewrite alter_is_Some. apply Hh.
    + intros l' Hl'. simpl. rewrite alter_is_Some. by apply Hfr.
Qed.

(** ** [begin()] *)

Lemma foldl_first_of pl ps acc :
  match foldl (first_of pl) acc ps with
  | None => acc = None ∧ ps = []
  | Some p => (p ∈ ps ∨ acc = Some p) ∧ ∀ p', p' ∈ ps ∨ acc = Some p' → better pl p' p = false
  end.
Proof.
  revert acc. induction ps as [|p ps IH]; intros acc; simpl.
  { destruct acc as [a|]; [|done]. split; [auto|]. intros p' [?%elem_of_nil|[= <-]]; [done|apply better_irrefl]. }
  specialize (IH (first_of pl acc p)). destruct (foldl _ _ ps) as [b|]; [|by destruct acc, IH].
  destruct IH as [Hin Hb]. split.
  - rewrite elem_of_cons. destruct Hin as [?|Hin]; [auto|]. destruct acc as [a|]; simpl in Hin; simplify_eq/=; [|auto].
    destruct (better pl p a); auto.
  - intros p'. rewrite elem_of_cons. destruct acc as [a|]; simpl in *.
    + destruct (better pl p a) eqn:Epa.
      * intros [[->|?]|[= ->]]; auto. eapply better_trans; [|by apply better_asym]. auto.
      * intros [[->|?]|[= ->]]; auto. eapply better_trans; [|done]. auto.
    + intros [[->|?]|?]; auto; done.
Qed.

Lemma begin_spec {A} pl (m : gmap Z A) :
  match begin pl m with
  | None => m = ∅
  | Some (p, lv) => m !! p = Some lv ∧ ∀ p', is_Some (m !! p') → better pl p' p = false
  end.
Proof.
  unfold begin. pose proof (foldl_first_of pl (map_to_list m).*1 None) as H.
  assert (∀ p, p ∈ (map_to_list m).*1 ↔ is_Some (m !! p)) as Hdom.
  { intros p. rewrite list_elem_of_fmap. split.
    - intros ([? lv] & -> & Hin%elem_of_map_to_list). by exists lv.
    - intros [lv Hlv%elem_of_map_to_list]. by exists (p, lv). }
  destruct (foldl _ _ _) as [p|]; simpl.
  - destruct H as [[Hin|?] Hb]; [|done]. apply Hdom in Hin as [lv Hlv]. rewrite Hlv. simpl.
    split; [done|]. intros p' Hp'%Hdom. auto.
  - destruct H as [_ Hnil]. apply map_to_list_empty_iff. by destruct (map_to_list m).
Qed.

Lemma rep'_level_Some L B pl e : rep' L B → e ∈ book_side pl B → is_Some (levels pl L !! e_price e).
Proof.
  intros HR He. pose proof (r_level _ _ HR pl (e_price e)) as Hl.
  destruct (levels pl L !! e_price e); [eauto|]. simpl in Hl.
  assert (e ∈ at_price (e_price e) (book_side pl B)) as Hin by by apply elem_of_at_price.
  rewrite Hl in Hin. by apply elem_of_nil in Hin.
Qed.

(** On a ladder without empty levels [begin()] is the queue at the best price. *)
Lemma rep'_begin L B pl :
  rep' L B → levels_full pl L B →
  match begin pl (levels pl L) with
  | None => book_side pl B = []
  | Some (p, lv) =>
      levels pl L !! p = Some lv ∧
      ∃ e q rest, book_side pl B = (e :: q) ++ rest ∧ at_price p (book_side pl B) = e :: q ∧
        (∀ x, x ∈ rest → e_price x ≠ p) ∧ ∀ x, x ∈ book_side pl B → better pl (e_price x) p = false
  end.
Proof.
  intros HR Hfull. pose proof (begin_spec pl (levels pl L)) as Hb.
  destruct (begin _ _) as [[p lv]|].
  - destruct Hb as [Hlv Hb]. split; [done|].
    assert (∀ x, x ∈ book_side pl B → better pl (e_price x) p = false) as Hbest.
    { intros x Hx. by apply Hb, (rep'_level_Some L B). }
    destruct (sorted_best_prefix pl p (book_side pl B)) as (rest & Heq & Hr); [apply (r_book _ _ HR)|done|].
    pose proof (Hfull p lv Hlv) as Hne. destruct (at_price p (book_side pl B)) as [|e q]; [done|]. eauto 10.
  - destruct (book_side pl B) as [|e l] eqn:E; [done|].
    destruct (rep'_level_Some L B pl e HR) as [lv Hlv]; [rewrite E; constructor|].
    by rewrite Hb, lookup_empty in Hlv.
Qed.

(** ** [match] *)

Lemma rep'_head L B pl p e q :
  rep' L B → at_price p (book_side pl B) = e :: q →
  ∃ l, orders L !! e_id e = Some l ∧ heap L !! l = Some (node e None (hd_loc (orders L) q None)).
Proof.
  intros HR Hq. pose proof (r_level _ _ HR pl p) as Hlev. rewrite Hq in Hlev.
  destruct (levels pl L !! p); [|done]. destruct Hlev as (_ & _ & (l & ? & ? & _)). eauto.
Qed.

Lemma run_call L log cb : call cb (L, log) = (Ret tt, (L, log ++ [cb])).
Proof. done. Qed.

(** The three callbacks of one trade, and how the log grows. *)
Ltac run_log := erewrite bind_ret by apply run_call; cbn beta.

Definition closes (q' : Z) : Z := if q' >? 0 then oe.FILL_FLAGS.PARTIAL_FILL else oe.FILL_FLAGS.CLOSED.

Section matching.
Context (id side limit : Z).

(** What one pass over the queue [q] at price [p] is to do. *)
Definition level_result (pl : Levels) (B : Book) (L : Ladder) (log : list callback)
    (q rest : list entry) (qty : Z) (r : outcome (Z * bool) * (Ladder * list callback)) : Prop :=
  let '(q', qty', cbs) := fill_queue (b_symbol B) id side limit qty q in
  ∃ L' returned, r = (Ret (qty', returned), (L', log ++ cbs)) ∧
    rep' L' (set_side pl (q' ++ rest) B) ∧
    (∀ p, is_Some (levels pl L' !! p) ↔ is_Some (levels pl L !! p)) ∧
    levels (other pl) L' = levels (other pl) L ∧
    is_u32 qty' ∧ (q' ≠ [] → qty' = 0) ∧ (returned = true → q' ≠ []).

Lemma level_result_stop pl B L log q rest qty :
  rep' L (set_side pl (q ++ rest) B) → is_u32 qty → q = [] ∨ qty = 0 →
  level_result pl B L log q rest qty (Ret (qty, false), (L, log)).
Proof.
  intros HR Hqty Hq. unfold level_result.
  assert (fill_queue (b_symbol B) id side limit qty q = (q, qty, [])) as ->.
  { destruct Hq as [-> | ->]; [done|by apply fill_queue_none]. }
  exists L, false. rewrite app_nil_r. split_and!; try done. by destruct Hq.
Qed.

Lemma run_partial pl B L log e q rest qty l lv :
  rep' L B → book_side pl B = (e :: q) ++ rest → orders L !! e_id e = Some l →
  heap L !! l = Some (node e None lv) → 0 < qty < e_qty e →
  crosses side limit (e_price e) = true →
  level_result pl B L log (e :: q) rest qty
    ((call (onTrade (e_id e) qty (e_price e));;
     call (onFill (e_id e) (b_symbol B) (e_side e) qty (e_price e) oe.FILL_FLAGS.PARTIAL_FILL false);;
     call (onFill id (b_symbol B) side qty (e_price e) oe.FILL_FLAGS.CLOSED true);;
     store l (λ o, set_filled_quantity (u32 (filled_quantity o + qty)) o);;
     store l (λ o, set_quantity (u32 (quantity o - qty)) o);;
     mret (0, true)) (L, log)).
Proof.
  intros HR Hside Hl Hn Hqty Hc. unfold level_result. simpl.
  assert (e ∈ book_side pl B) as He by (rewrite Hside; constructor).
  pose proof (bk_entries _ (r_book _ _ HR) _ _ He) as Hok. pose proof Hok as [Hq Hf Hs Hi].
  replace (qty >? 0) with true by lia. rewrite Hc. simpl.
  replace (e_qty e <=? qty) with false by lia.
  do 3 run_log. run.
  erewrite bind_ret by (apply run_store_is_Some; simpl; rewrite alter_is_Some; eauto). cbn beta.
  eexists _, true. split.
  { rewrite <- !app_assoc. simpl. reflexivity. }
  assert (set_side pl ((fill_by qty e :: q) ++ rest) B = update_order (e_id e) (fill_by qty) B) as ->.
  { rewrite (update_order_side pl) by (done || apply (r_book _ _ HR)). rewrite Hside.
    pose proof (r_side_nodup HR pl) as Hnd. rewrite Hside in Hnd.
    change ((e :: q) ++ rest) with ([] ++ e :: (q ++ rest)) in *. by rewrite update_id_mid. }
  split_and!; [|done|by destruct pl|done|done|done].
  assert (∀ a b, with_heap (alter b l) (with_heap (alter a l) L) = with_heap (alter (b ∘ a) l) L) as Hcomp.
  { intros a b. unfold with_heap. simpl. by rewrite alter_alter_eq. }
  rewrite Hcomp. eapply rep'_update; [done|done|done|done|done| |].
  - split; simpl; [lia|apply u32_range|done|done].
  - intros pv nx. unfold node, set_quantity, set_filled_quantity. simpl.
    rewrite (u32_id (e_qty e - qty)); [done|]. unfold is_u32. lia.
Qed.

Lemma run_match_level pl q : ∀ fuel B L log rest qty p,
  rep' L B → book_side pl B = q ++ rest →
  (∀ e, e ∈ q → e_price e = p) → (∀ e, e ∈ rest → e_price e ≠ p) →
  crosses side limit p = true → is_u32 qty → (length q < fuel)%nat →
  level_result pl B L log q rest qty
    (match_level fuel id side pl (hd_loc (orders L) q None) qty (L, log)).
Proof.
  induction q as [|e q IH]; intros [|fuel] B L log rest qty p HR Hside Hp Hr Hc Hqty Hfuel; simpl in Hfuel; try lia.
  { simpl. apply level_result_stop; [|done|auto]. by rewrite <- Hside, set_side_id. }
  assert (e ∈ book_side pl B) as He by (rewrite Hside; constructor).
  pose proof (bk_entries _ (r_book _ _ HR) _ _ He) as [Hq Hf Hs Hi].
  assert (e_price e = p) as Hpe by (apply Hp; constructor).
  destruct (rep'_head L B pl p e q HR) as (l & Hl & Hn).
  { rewrite Hside, at_price_app, (at_price_none _ rest), app_nil_r by done. by apply at_price_all. }
  cbn [hd_loc match_level]. rewrite Hl.
  destruct (qty >? 0) eqn:Hpos.
  2: { apply level_result_stop; [|done|right; unfold is_u32 in *; lia]. by rewrite <- Hside, set_side_id. }
  run. run. cbn [order_id quantity price OrderLadder.side next node fst].
  rewrite (r_sym _ _ HR). destruct (e_qty e <=? qty) eqn:Hle.
  2: { apply (run_partial pl B L log e q rest qty l (hd_loc (orders L) q None)); try done; [lia|by rewrite Hpe]. }
  do 3 run_log. set (log1 := ((log ++ _) ++ _) ++ _).
  destruct (run_handle_delete L log1 B pl e HR He) as (L1 & Hrun & HR1 & Hdom & Hoth & Hords).
  erewrite bind_ret by exact Hrun. cbn beta.
  assert (u32 (qty - e_qty e) = qty - e_qty e) as Hu by (apply u32_id; unfold is_u32 in *; lia).
  pose proof (r_side_nodup HR pl) as Hnd. rewrite Hside in Hnd.
  assert (book_side pl (remove_order (e_id e) B) = q ++ rest) as Hside1.
  { rewrite book_side_remove, Hside. by apply (remove_id_mid e []). }
  assert (hd_loc (orders L) q None = hd_loc (orders L1) q None) as ->.
  { destruct q as [|e2 q]; [done|]. simpl. rewrite Hords, lookup_delete_ne; [done|]. intros Heq.
    simpl in Hnd. rewrite Heq, !NoDup_cons, elem_of_cons in Hnd. tauto. }
  specialize (IH fuel (remove_order (e_id e) B) L1 log1 rest (u32 (qty - e_qty e)) p HR1 Hside1).
  unfold level_result in *. cbn [fill_queue]. rewrite Hpos, Hpe, Hc, Hle, Hu in *. simpl in IH |- *.
  destruct (fill_queue _ _ _ _ (qty - e_qty e) q) as [[q' qty'] cbs].
  destruct IH as (L2 & ret & Hrun2 & HR2 & Hdom2 & Hoth2 & Hq' & Hret & Hne);
    [intros; apply Hp; list_in|done|done|unfold is_u32 in *; lia|lia|].
  exists L2, ret. rewrite Hrun2. split_and!.
  - unfold log1. rewrite <- !app_assoc. simpl. by rewrite Hu.
  - revert HR2. rewrite (remove_order_side pl) by (done || apply (r_book _ _ HR)). by rewrite set_side_set_side.
  - intros p'. by rewrite Hdom2.
  - congruence.
  - done.
  - done.
  - done.
Qed.

Definition match_result (pl : Levels) (B : Book) (L : Ladder) (log : list callback)
    (qty : Z) (r : outcome Z * (Ladder * list callback)) : Prop :=
  let '(l', qty', cbs) := fill_queue (b_symbol B) id side limit qty (book_side pl B) in
  ∃ L', r = (Ret qty', (L', log ++ cbs)) ∧
    rep' L' (set_side pl l' B) ∧ levels_full pl L' (set_side pl l' B) ∧
    levels (other pl) L' = levels (other pl) L ∧ is_u32 qty'.

Lemma match_result_stop pl B L log qty :
  rep' L B → levels_full pl L B → is_u32 qty →
  fill_queue (b_symbol B) id side limit qty (book_side pl B) = (book_side pl B, qty, []) →
  match_result pl B L log qty (Ret qty, (L, log)).
Proof.
  intros HR Hfull Hqty Hf. unfold match_result. rewrite Hf. exists L.
  rewrite app_nil_r, set_side_id. done.
Qed.

Lemma run_match_levels_zero pl L log fuel inner :
  match_levels (S fuel) inner id side limit pl 0 (L, log) = (Ret 0, (L, log)).
Proof. cbn [match_levels]. run. by destruct (begin _ _) as [[? ?]|]. Qed.

(** Erasing the price level of an exhausted queue. *)
Lemma rep'_erase pl B L p :
  rep' L B → at_price p (book_side pl B) = [] → rep' (with_levels pl (delete p) L) B.
Proof.
  intros HR Hp. split.
  - destruct pl; apply (r_sym _ _ HR).
  - apply (r_book _ _ HR).
  - destruct pl; apply (r_inj _ _ HR).
  - destruct pl; apply (r_dom _ _ HR).
  - intros pl' p'. pose proof (r_level _ _ HR pl' p') as Hl.
    replace (heap (with_levels pl (delete p) L)) with (heap L) by by destruct pl.
    replace (orders (with_levels pl (delete p) L)) with (orders L) by by destruct pl.
    destruct (decide (pl' = pl)) as [->|Hne].
    + rewrite levels_with_levels, lookup_delete. by destruct (decide (p = p')) as [<-|].
    + replace pl' with (other pl) in * by (by destruct pl, pl'). by rewrite levels_with_levels_other.
  - destruct (r_pool _ _ HR) as [? ? ? ?]. by destruct pl; split.
Qed.

Lemma levels_full_erase pl B L p :
  (∀ p' lv, p' ≠ p → levels pl L !! p' = Some lv → at_price p' (book_side pl B) ≠ []) →
  levels_full pl (with_levels pl (delete p) L) B.
Proof. intros H p' lv. rewrite levels_with_levels. intros [? ?]%lookup_delete_Some. eauto. Qed.

(** Where the entries at the best price were a prefix, the other levels are
    not touched. *)
Lemma levels_full_rest pl B L L1 q rest p p' :
  levels_full pl L B → book_side pl B = q ++ rest → (∀ x, x ∈ q → e_price x = p) →
  (∀ p, is_Some (levels pl L1 !! p) ↔ is_Some (levels pl L !! p)) →
  p' ≠ p → is_Some (levels pl L1 !! p') → at_price p' rest ≠ [].
Proof.
  intros Hfull Hside Hp Hdom Hne [lv Hlv]%Hdom. pose proof (Hfull _ _ Hlv) as Hnil.
  rewrite Hside, at_price_app, (at_price_none _ q) in Hnil; [done|].
  intros x Hx. rewrite (Hp x Hx). done.
Qed.

Lemma fill_queue_price sym qty q q' qty' cbs p e' :
  fill_queue sym id side limit qty q = (q', qty', cbs) → 0 <= qty →
  (∀ x, x ∈ q → e_price x = p) → e' ∈ q' → e_price e' = p.
Proof.
  intros Hfill Hqty Hp He'. apply fill_queue_filled in Hfill; [|done].
  destruct (filled_in _ _ _ _ _ _ e' Hfill He') as (x & Hx & <- & _). auto.
Qed.

(** The rest of an iteration once the queue at the best price is done. *)
Lemma match_result_partial pl B L log cbs q e' q' rest p qty L1 :
  rep' L B → levels_full pl L B →
  book_side pl B = q ++ rest → (∀ x, x ∈ q → e_price x = p) →
  fill_queue (b_symbol B) id side limit qty q = (e' :: q', 0, cbs) → 0 <= qty →
  rep' L1 (set_side pl ((e' :: q') ++ rest) B) →
  (∀ p, is_Some (levels pl L1 !! p) ↔ is_Some (levels pl L !! p)) →
  levels (other pl) L1 = levels (other pl) L →
  match_result pl B L log qty (Ret 0, (L1, log ++ cbs)).
Proof.
  intros HR Hfull Hside Hp Hfill Hqty HR1 Hdom Hoth. unfold match_result.
  rewrite Hside, fill_queue_app, Hfill. exists L1. split_and!; [done..| |done|done].
  intros p' lv Hlv. rewrite book_side_set, at_price_app.
  assert (e_price e' = p) as Hpe' by (eapply fill_queue_price; eauto; constructor).
  destruct (decide (p' = p)) as [->|Hne].
  - unfold at_price. rewrite filter_cons_True by done. done.
  - intros [_ Hnil]%app_nil. by eapply levels_full_rest in Hnil.
Qed.

Lemma match_result_whole pl B L log cbs q rest p qty qty' L1 r :
  levels_full pl L B →
  book_side pl B = q ++ rest → (∀ x, x ∈ q → e_price x = p) → (∀ x, x ∈ rest → e_price x ≠ p) →
  fill_queue (b_symbol B) id side limit qty q = ([], qty', cbs) →
  rep' L1 (set_side pl rest B) →
  (∀ p, is_Some (levels pl L1 !! p) ↔ is_Some (levels pl L !! p)) →
  levels (other pl) L1 = levels (other pl) L →
  (rep' (with_levels pl (delete p) L1) (set_side pl rest B) →
   levels_full pl (with_levels pl (delete p) L1) (set_side pl rest B) →
   match_result pl (set_side pl rest B) (with_levels pl (delete p) L1) (log ++ cbs) qty' r) →
  match_result pl B L log qty r.
Proof.
  intros Hfull Hside Hp Hr Hfill HR1 Hdom Hoth Hrest.
  assert (match_result pl (set_side pl rest B) (with_levels pl (delete p) L1) (log ++ cbs) qty' r) as Hm.
  { apply Hrest.
    - apply rep'_erase; [done|]. rewrite book_side_set. by apply at_price_none.
    - apply levels_full_erase. intros p' lv' Hne' Hlv'. rewrite book_side_set.
      eapply levels_full_rest; eauto. }
  unfold match_result in *. rewrite book_side_set, symbol_set_side in Hm. rewrite Hside, fill_queue_app, Hfill.
  destruct (fill_queue _ _ _ _ qty' rest) as [[l2 qty2] cbs2].
  destruct Hm as (L3 & -> & HR3 & Hfull3 & Hoth3 & Hq3).
  exists L3. rewrite <- app_assoc, set_side_set_side in *. split_and!; try done.
  by rewrite Hoth3, levels_with_levels_other.
Qed.

Lemma run_match_levels pl inner : ∀ fuel B L log qty,
  rep' L B → levels_full pl L B → is_u32 qty →
  (length (book_side pl B) < fuel)%nat → (length (book_side pl B) < inner)%nat →
  match_result pl B L log qty (match_levels fuel inner id side limit pl qty (L, log)).
Proof.
  induction fuel as [|fuel IH]; intros B L log qty HR Hfull Hqty Hfuel Hinner; [lia|].
  cbn [match_levels]. run. pose proof (rep'_begin L B pl HR Hfull) as Hbegin. cbn [fst].
  destruct (begin pl (levels pl L)) as [[p lv]|].
  2: { apply match_result_stop; [done..|]. by rewrite Hbegin. }
  destruct Hbegin as (Hlv & e & q & rest & Hside & Hat & Hr & _).
  destruct (qty >? 0) eqn:Hpos.
  2: { apply match_result_stop; [done..|]. apply fill_queue_none. unfold is_u32 in *. lia. }
  assert (∀ x, x ∈ e :: q → e_price x = p) as Hp.
  { intros x. rewrite <- Hat. by intros [??]%elem_of_at_price. }
  replace ((side =? BUY) && (p >? limit) || (side =? SELL) && (p <? limit)) with (negb (crosses side limit p))
    by (unfold crosses; apply negb_involutive).
  destruct (crosses side limit p) eqn:Hc; simpl.
  2: { apply match_result_stop; [done..|]. rewrite Hside. simpl.
       rewrite (Hp e), Hc, andb_false_r by constructor. done. }
  pose proof (r_level _ _ HR pl p) as Hlev. rewrite Hlv, Hat in Hlev. destruct Hlev as (-> & _).
  rewrite Hside, length_app in Hfuel, Hinner. simpl in Hfuel, Hinner.
  pose proof (run_match_level pl (e :: q) inner B L log rest qty p HR Hside Hp Hr Hc Hqty ltac:(simpl; lia)) as Hrun.
  unfold level_result in Hrun. destruct (fill_queue _ _ _ _ qty (e :: q)) as [[q' qty'] cbs] eqn:Hfill.
  destruct Hrun as (L1 & ret & Hrun & HR1 & Hdom & Hoth & Hq' & Hret & Hne).
  erewrite bind_ret by exact Hrun. cbn beta iota.
  pose proof (r_level _ _ HR1 pl p) as Hlev1. rewrite book_side_set, at_price_app in Hlev1.
  rewrite (at_price_none p rest), app_nil_r in Hlev1 by done.
  destruct (proj2 (Hdom p)) as [lv1 Hlv1]; [by eexists|]. rewrite Hlv1 in Hlev1.
  destruct q' as [|e' q'].
  - destruct ret; [by destruct Hne|]. run. cbn [fst]. rewrite Hlv1.
    destruct Hlev1 as (-> & _). simpl. run. cbn [fst snd].
    eapply match_result_whole with (L1 := L1); try done. intros HR2 Hfull2.
    apply IH; try done; rewrite book_side_set; lia.
  - rewrite (Hret ltac:(done)) in Hfill |- *.
    assert (0 <= qty) by (unfold is_u32 in *; lia).
    pose proof (match_result_partial _ _ _ log _ _ _ _ _ p _ _ HR Hfull Hside Hp Hfill ltac:(done) HR1 Hdom Hoth) as Hdone.
    destruct ret; [exact Hdone|]. run. cbn [fst]. rewrite Hlv1.
    assert (is_Some (head lv1)) as [l Hl].
    { assert (e' ∈ at_price p (e' :: q')) as He'.
      { apply elem_of_at_price. split; [|constructor]. eapply fill_queue_price; eauto. constructor. }
      destruct Hlev1 as (-> & _ & Hd). destruct (at_price p (e' :: q')); [by apply elem_of_nil in He'|].
      destruct Hd as (? & Hl & _). simpl. eauto. }
    rewrite bool_decide_false by congruence. simpl.
    destruct fuel; [lia|]. rewrite run_match_levels_zero. exact Hdone.
Qed.
End matching.

Lemma rep'_orders_heap L B i l : rep' L B → orders L !! i = Some l → is_Some (heap L !! l).
Proof.
  intros HR Hi. assert (i ∈ ids B) as Hin by (apply (r_dom _ _ HR); eauto).
  unfold ids in Hin. apply list_elem_of_fmap in Hin as (e & -> & [pl He]%elem_of_all).
  destruct (r_lookup HR pl e He) as (l' & ? & ? & Hl' & Hn). rewrite Hi in Hl'. simplify_eq. eauto.
Qed.

Lemma rep'_size L B : rep' L B → size (orders L) = length (ids B).
Proof.
  intros HR. rewrite <- size_dom. rewrite <- (size_list_to_set (C := gset Z)) by apply (r_book _ _ HR).
  f_equal. apply set_eq. intros i. by rewrite elem_of_dom, (r_dom _ _ HR), elem_of_list_to_set.
Qed.

Lemma rep'_side_size L B pl : rep' L B → (length (book_side pl B) < S (size (orders L)))%nat.
Proof.
  intros HR. rewrite (rep'_size L B HR), (ids_side pl), length_app, !length_fmap. lia.
Qed.

(** [match] returns, whatever it is asked. *)
Lemma run_match id side limit L B log pl qty :
  rep' L B → levels_full pl L B → is_u32 qty →
  match_result id side limit pl B L log qty (match_ id side qty limit pl (L, log)).
Proof.
  intros HR Hfull Hqty. unfold match_. run.
  apply run_match_levels; try done; by apply rep'_side_size.
Qed.

(** ** The order pool *)

Lemma lookup_foldr_insert {A} (x : A) (ls : list Z) (h : gmap Z A) l :
  foldr (λ l, insert l x) h ls !! l = if decide (l ∈ ls) then Some x else h !! l.
Proof.
  induction ls as [|l' ls IH]; simpl; [done|]. rewrite lookup_insert, IH.
  destruct (decide (l' = l)) as [->|]; [by rewrite decide_True by constructor|].
  destruct (decide (l ∈ ls)); [by rewrite decide_True by list_in|].
  rewrite decide_False; [done|]. rewrite elem_of_cons. naive_solver.
Qed.

(** [L'] is [L] with node [l] taken from the pool. *)
Record allocated (L : Ladder) (l : Z) (L' : Ladder) : Prop := {
  a_pool : pool_ok L';
  a_here : is_Some (heap L' !! l);
  a_free : l ∉ free_list L';
  a_fresh i : orders L !! i ≠ Some l;
  a_heap l' : is_Some (heap L !! l') → heap L' !! l' = heap L !! l';
  a_orders : orders L' = orders L;
  a_levels pl : levels pl L' = levels pl L;
  a_symbol : symbol L' = symbol L;
}.

Lemma allocate_from_list L l fl :
  pool_ok L → free_list L = l :: fl → allocated L l (with_free_list (λ _, fl) L).
Proof.
  intros [Hb Hnd Hh Hf] Hfl. rewrite Hfl, NoDup_cons in *. destruct Hnd as [Hl Hnd].
  destruct (Hf l) as [Hs Ho]; [constructor|]. split; simpl; try done.
  split; simpl; [done|done|done|]. intros l' Hl'. apply Hf. list_in.
Qed.

Lemma pool_ok_block L B block :
  rep' L B → free_list L = [] → NoDup block → block ≠ [] →
  (∀ l, l ∈ block ↔ blocks L * ORDER_POOL_BLOCK_SIZE ≤ l < (1 + blocks L) * ORDER_POOL_BLOCK_SIZE) →
  let L' := with_free_list (λ fl, rev block ++ fl)
              (with_heap (λ h, foldr (λ l, insert l zero_order) h block) (with_blocks (Z.add 1) L)) in
  pool_ok L' ∧ (∀ l, is_Some (heap L !! l) → heap L' !! l = heap L !! l) ∧ free_list L' ≠ [].
Proof.
  intros HR Hfl Hnd Hne Hin L'. destruct (r_pool _ _ HR) as [Hb _ Hh _].
  split_and!.
  - split; simpl.
    + lia.
    + rewrite Hfl, app_nil_r, <- Permutation_rev. done.
    + intros l. rewrite lookup_foldr_insert. destruct (decide (l ∈ block)) as [Hl|].
      * intros _. apply Hin in Hl. lia.
      * intros Hl%Hh. unfold ORDER_POOL_BLOCK_SIZE in *. lia.
    + intros l. rewrite Hfl, app_nil_r, <- Permutation_rev. intros Hl. rewrite lookup_foldr_insert, decide_True by done.
      split; [eauto|]. intros i Hi. apply (rep'_orders_heap L B) in Hi; [|done]. apply Hh in Hi. apply Hin in Hl. lia.
  - intros l Hl. simpl. rewrite lookup_foldr_insert. rewrite decide_False; [done|].
    intros Hbl%Hin. apply Hh in Hl. lia.
  - simpl. rewrite Hfl, app_nil_r. intros Hnil%(f_equal length). rewrite length_rev in Hnil.
    by destruct block.
Qed.

Lemma run_add_block {Sb} L (s : Sb) block :
  seqZ (blocks L * ORDER_POOL_BLOCK_SIZE) ORDER_POOL_BLOCK_SIZE = block →
  add_block (L, s) = (Ret tt, (with_free_list (λ fl, rev block ++ fl)
    (with_heap (λ h, foldr (λ l, insert l zero_order) h block) (with_blocks (Z.add 1) L)), s)).
Proof. intros <-. reflexivity. Qed.

Lemma run_allocate {Sb} L (s : Sb) B :
  rep' L B → ∃ l L', allocate (L, s) = (Ret l, (L', s)) ∧ allocated L l L'.
Proof.
  intros HR. unfold allocate. run. cbn [fst].
  destruct (free_list L) as [|l fl] eqn:Hfl.
  - unfold when. rewrite bool_decide_true by done.
    remember (seqZ (blocks L * ORDER_POOL_BLOCK_SIZE) ORDER_POOL_BLOCK_SIZE) as block eqn:Hblock.
    destruct (pool_ok_block L B block) as (Hpool & Hframe & Hne); try done.
    { subst block. apply NoDup_seqZ. }
    { subst block. intros Hnil. assert (blocks L * ORDER_POOL_BLOCK_SIZE ∈ seqZ (blocks L * ORDER_POOL_BLOCK_SIZE) ORDER_POOL_BLOCK_SIZE) as Hin
        by (apply elem_of_seqZ; unfold ORDER_POOL_BLOCK_SIZE; lia). rewrite Hnil in Hin. by apply elem_of_nil in Hin. }
    { subst block. intros l. rewrite elem_of_seqZ. unfold ORDER_POOL_BLOCK_SIZE. lia. }
    revert Hpool Hframe Hne. set (L1 := with_free_list _ _). intros Hpool Hframe Hne.
    erewrite bind_ret by exact (run_add_block L s block (eq_sym Hblock)). cbn beta. run. cbn [fst].
    fold L1.
    destruct (free_list L1) as [|l fl] eqn:Hfl1; [done|].
    eexists l, _. split; [reflexivity|].
    pose proof (allocate_from_list L1 l fl Hpool Hfl1) as Ha. split.
    + apply (a_pool _ _ _ Ha).
    + apply (a_here _ _ _ Ha).
    + apply (a_free _ _ _ Ha).
    + exact (a_fresh _ _ _ Ha).
    + intros l' Hl'. rewrite <- (Hframe l' Hl'). apply (a_heap _ _ _ Ha). by rewrite (Hframe l' Hl').
    + exact (a_orders _ _ _ Ha).
    + exact (a_levels _ _ _ Ha).
    + exact (a_symbol _ _ _ Ha).
  - rewrite bool_decide_false by done. cbn [when]. run. run. cbn [fst]. rewrite Hfl.
    eexists l, _. split; [reflexivity|]. by apply allocate_from_list; [apply (r_pool _ _ HR)|].
Qed.

(** ** Linking a new order in at the back of its queue *)

Lemma r_dseg L B pl p : rep' L B → dseg (heap L) (orders L) None (at_price p (book_side pl B)) None.
Proof.
  intros HR. pose proof (r_level _ _ HR pl p) as Hlev. destruct (levels pl L !! p).
  - by destruct Hlev as (_ & _ & ?).
  - simpl in Hlev. by rewrite Hlev.
Qed.

Lemma hd_loc_insert lk i l q nx : i ∉ e_id <$> q → hd_loc (<[i:=l]> lk) q nx = hd_loc lk q nx.
Proof. destruct q as [|e q]; [done|]. rewrite fmap_cons, not_elem_of_cons. intros [? _]. simpl. by rewrite lookup_insert_ne. Qed.

Lemma last_loc_insert lk i l pv q : i ∉ e_id <$> q → last_loc (<[i:=l]> lk) pv q = last_loc lk pv q.
Proof.
  destruct q as [|e q _] using rev_ind; [done|]. rewrite fmap_app, not_elem_of_app, !last_loc_snoc.
  intros [_ Hn]. apply lookup_insert_ne. intros ->. apply Hn. simpl. by constructor.
Qed.

Definition linked (pl : Levels) (e : entry) (l : Z) (pv hd : option Z) (L : Ladder) : Ladder :=
  with_orders (insert (e_id e) l)
    (with_levels pl (insert (e_price e) (mkLevel hd (Some l)))
      (with_heap (λ h, relink_next pv (Some l) (<[l := node e pv None]> h)) L)).

Section linking.
Context {L L1 : Ladder} {B : Book} {pl : Levels} {e : entry} {l : Z}.
Context (HR : rep' L B) (Ha : allocated L l L1) (Hid : e_id e ∉ ids B) (Hok : entry_ok pl e).

Abbreviation q := (at_price (e_price e) (book_side pl B)).
Abbreviation pv := (last_loc (orders L) None q).
Abbreviation L2 := (linked pl e l pv (hd_loc (orders L) q (Some l)) L1).

Lemma linked_id_fresh pl' x : x ∈ book_side pl' B → e_id x ≠ e_id e.
Proof using HR Ha Hid Hok. intros Hx Heq. apply Hid. rewrite <- Heq. apply list_elem_of_fmap_2, elem_of_all. eauto. Qed.

Lemma linked_q_fresh : e_id e ∉ e_id <$> q.
Proof using HR Ha Hid Hok.
  intros (x & Heq & [_ Hx]%elem_of_at_price)%list_elem_of_fmap. by apply (linked_id_fresh _ _ Hx).
Qed.

Lemma linked_pv : pv ≠ Some l.
Proof using HR Ha Hid Hok. intros (x & _ & Hl)%at_loc_last. by apply (a_fresh _ _ _ Ha (e_id x)). Qed.

Lemma linked_level :
  level_rep (heap L2) (orders L2) (levels pl L2 !! e_price e) (q ++ [e]).
Proof using HR Ha Hid Hok.
  pose proof linked_q_fresh as Hq. pose proof linked_pv as Hpv.
  assert (orders L2 = <[e_id e := l]> (orders L)) as ->.
  { unfold linked. simpl. rewrite <- (a_orders _ _ _ Ha). by destruct pl. }
  assert (heap L2 = relink_next pv (Some l) (<[l := node e pv None]> (heap L1))) as -> by by destruct pl.
  assert (levels pl L2 !! e_price e = Some (mkLevel (hd_loc (orders L) q (Some l)) (Some l))) as ->.
  { unfold linked. destruct pl; simpl; by rewrite lookup_insert_eq. }
  simpl. split_and!.
  - rewrite hd_loc_app. simpl. by rewrite lookup_insert_eq, hd_loc_insert.
  - by rewrite last_loc_snoc, lookup_insert_eq.
  - rewrite dseg_app. simpl. rewrite lookup_insert_eq, last_loc_insert by done. split.
    + eapply dseg_frame; [|done|].
      2: { apply (dseg_relink_next _ _ _ None); [apply (r_inj _ _ HR)|apply (r_queue_nodup HR)|].
           eapply dseg_frame; [done| |by apply r_dseg].
           intros l' Hl'. rewrite lookup_insert_ne.
           - apply (a_heap _ _ _ Ha). by eapply queue_loc_is_Some.
           - intros <-. destruct Hl' as (x & _ & Hx). by apply (a_fresh _ _ _ Ha (e_id x)). }
      intros x Hx. apply lookup_insert_ne. intros Heq. apply Hq. rewrite Heq. by apply list_elem_of_fmap_2.
    + exists l. split_and!; [done| |done]. rewrite relink_next_ne by done. by rewrite lookup_insert_eq.
Qed.

Lemma linked_pool : pool_ok L2.
Proof using HR Ha Hid Hok.
  destruct (a_pool _ _ _ Ha) as [Hb Hnd Hh Hf].
  assert (∀ l', is_Some (heap L2 !! l') ↔ is_Some (heap L1 !! l')) as Hdom.
  { intros l'. replace (heap L2) with (relink_next pv (Some l) (<[l := node e pv None]> (heap L1))) by by destruct pl.
    rewrite relink_next_is_Some, lookup_insert. destruct (decide (l = l')) as [<-|]; [|done].
    split; [intros; apply (a_here _ _ _ Ha)|eauto]. }
  assert (free_list L2 = free_list L1 ∧ blocks L2 = blocks L1) as [Hfl Hbl] by by destruct pl.
  assert (orders L2 = <[e_id e := l]> (orders L1)) as Ho by by destruct pl.
  split; rewrite ?Hfl, ?Hbl, ?Ho; [done|done| |].
  - intros l' ?%Hdom. auto.
  - intros l' Hl'. rewrite Hdom. destruct (Hf _ Hl') as [? Hno]. split; [done|].
    intros i [[<- ->]|[_ ?]]%lookup_insert_Some; [by apply (a_free _ _ _ Ha)|by apply (Hno i)].
Qed.

Lemma rep'_linked : rep' L2 (set_side pl (insert_entry pl e (book_side pl B)) B).
Proof using HR Ha Hid Hok.
  pose proof (book_ok_insert pl e B (r_book _ _ HR) Hid Hok) as Hbook.
  assert (orders L2 = <[e_id e := l]> (orders L)) as Ho.
  { unfold linked. simpl. rewrite <- (a_orders _ _ _ Ha). by destruct pl. }
  split.
  - rewrite symbol_set_side, <- (r_sym _ _ HR), <- (a_symbol _ _ _ Ha). by destruct pl.
  - done.
  - rewrite Ho. intros i j l' [[<- <-]|[? Hi]]%lookup_insert_Some [[<- ?]|[? Hj]]%lookup_insert_Some; try done.
    + exfalso. by apply (a_fresh _ _ _ Ha j).
    + subst l'. exfalso. by apply (a_fresh _ _ _ Ha i).
    + by eapply (r_inj _ _ HR).
  - intros i. rewrite Ho, ids_set_side, insert_entry_perm, fmap_cons. simpl.
    rewrite <- ids_side, elem_of_cons, <- (r_dom _ _ HR), lookup_insert_is_Some'. naive_solver.
  - intros pl' p'. destruct (decide ((pl', p') = (pl, e_price e))) as [[= -> ->]|Hne].
    + rewrite book_side_set, at_price_insert by apply (r_book _ _ HR). rewrite decide_True by done.
      apply linked_level.
    + assert (at_price p' (book_side pl' (set_side pl (insert_entry pl e (book_side pl B)) B)) =
              at_price p' (book_side pl' B)) as ->.
      { destruct (book_side_set_case pl pl' (insert_entry pl e (book_side pl B)) B) as [[-> ->]|[-> ->]]; [|done].
        rewrite at_price_insert by apply (r_book _ _ HR). rewrite decide_False by congruence. by rewrite app_nil_r. }
      assert (levels pl' L2 !! p' = levels pl' L !! p') as ->.
      { rewrite <- (a_levels _ _ _ Ha). destruct (decide (pl' = pl)) as [->|].
        - transitivity (<[e_price e := mkLevel (hd_loc (orders L) q (Some l)) (Some l)]> (levels pl L1) !! p'); [by destruct pl|].
          apply lookup_insert_ne. congruence.
        - by destruct pl, pl'. }
      eapply level_frame; [done| |done]. intros pl1 e1 He1 Hne1. rewrite Ho. split.
      * apply lookup_insert_ne. intros Heq. by apply (linked_id_fresh _ _ He1).
      * intros l1 Hl1.
        replace (heap L2) with (relink_next pv (Some l) (<[l := node e pv None]> (heap L1))) by by destruct pl.
        rewrite relink_next_ne, lookup_insert_ne.
        -- apply (a_heap _ _ _ Ha). by eapply rep'_orders_heap.
        -- intros <-. by apply (a_fresh _ _ _ Ha (e_id e1)).
        -- intros (x & Hx & Hlx)%at_loc_last. apply (r_other_id L B pl pl1 (e_price e) x e1 HR Hx He1 Hne1).
           by apply (r_inj _ _ HR _ _ _ Hlx Hl1).
  - apply linked_pool.
Qed.

Lemma levels_full_linked :
  levels_full pl L B → levels_full pl L2 (set_side pl (insert_entry pl e (book_side pl B)) B).
Proof using HR Ha Hid Hok.
  intros Hfull p lv Hlv. rewrite book_side_set, at_price_insert by apply (r_book _ _ HR).
  destruct (decide (e_price e = p)) as [|Hne]; [by intros [_ ?]%app_nil|].
  rewrite app_nil_r. apply (Hfull p lv). rewrite <- (a_levels _ _ _ Ha), <- Hlv.
  transitivity (<[e_price e := mkLevel (hd_loc (orders L) q (Some l)) (Some l)]> (levels pl L1) !! p); [|by destruct pl].
  by rewrite lookup_insert_ne.
Qed.
End linking.
