(* ===== verification/LadderRefine.v ===== *)
(** * Every operation of the ladder refines its specification

    The runs of [handle_new_order], [new_order], [delete_order] and
    [modify_order] on a ladder that represents a book give the outcome, the
    callbacks and the book of [LadderSpec].  In particular no dangling pointer
    is followed and the fuel of the loops is enough. *)
From S2P Require Import Prelude Protocol OrderLadder LadderSpec LadderRep LadderMatch.

(** ** [handle_new_order] *)

(** What a run that starts in [(L, log)] and is specified by [r] ends with. *)
Definition refines {A} (L : Ladder) (log : list callback) (run : outcome A * (Ladder * list callback))
    (spec : outcome A * Book * list callback) : Prop :=
  let '(r, B', cbs) := spec in
  ∃ L', run = (r, (L', log ++ cbs)) ∧ rep L' B'.

Lemma last_loc_is_Some L B pl p :
  rep' L B → at_price p (book_side pl B) ≠ [] →
  ∃ t, last_loc (orders L) None (at_price p (book_side pl B)) = Some t ∧ is_Some (heap L !! t).
Proof.
  intros HR Hne. pose proof (r_dseg L B pl p HR) as Hd. revert Hne Hd.
  destruct (at_price p (book_side pl B)) as [|e q _] using rev_ind; [done|]. intros _.
  rewrite last_loc_snoc, dseg_app. intros [_ (t & Ht & Hn & _)]. eauto.
Qed.

Lemma run_alloc_link L B log pl e :
  rep' L B → levels_full pl L B → e_id e ∉ ids B → entry_ok pl e →
  ∃ L', (order_ptr ← allocate;
    store order_ptr (λ _, mkOrder (e_id e) 0 (e_qty e) (e_filled e) (e_price e) (e_side e) (e_flags e) None None);;
    lv ← getl (levels pl);
    match lv !! e_price e with
    | None => setl (with_levels pl (insert (e_price e) (mkLevel (Some order_ptr) (Some order_ptr))))
    | Some l =>
        match tail l with
        | None => throw (runtime_error ("Price level " +:+ pretty (e_price e) +:+ " tail is nullptr"))
        | Some t =>
            store t (set_next (Some order_ptr));;
            store order_ptr (set_prev (Some t));;
            setl (with_levels pl (alter (set_tail (Some order_ptr)) (e_price e)))
        end
    end;;
    setl (with_orders (insert (e_id e) order_ptr));;
    mret (e_qty e) : M (Ladder * list callback) Z) (L, log) = (Ret (e_qty e), (L', log)) ∧
    rep' L' (set_side pl (insert_entry pl e (book_side pl B)) B) ∧
    levels_full pl L' (set_side pl (insert_entry pl e (book_side pl B)) B) ∧
    levels (other pl) L' = levels (other pl) L.
Proof.
  intros HR Hfull Hid Hok. destruct (run_allocate L log B HR) as (l & L1 & Hrun & Ha).
  erewrite bind_ret by exact Hrun. cbn beta.
  erewrite bind_ret by (apply run_store_is_Some, (a_here _ _ _ Ha)). cbn beta. run. cbn [fst].
  set (q := at_price (e_price e) (book_side pl B)). set (pv := last_loc (orders L) None q).
  exists (linked pl e l pv (hd_loc (orders L) q (Some l)) L1).
  split; [|split_and!; [by apply rep'_linked|by apply levels_full_linked|]].
  2: { rewrite <- (a_levels _ _ _ Ha). by destruct pl. }
  pose proof (a_here _ _ _ Ha) as [o Ho]. change (mkOrder _ _ _ _ _ _ _ _ _) with (node e None None).
  assert (with_heap (alter (λ _, node e None None) l) L1 = with_heap (insert l (node e None None)) L1) as ->.
  { unfold with_heap. by erewrite alter_Some. }
  set (L0 := with_heap _ L1).
  replace (levels pl L0) with (levels pl L) by (rewrite <- (a_levels _ _ _ Ha); by destruct pl).
  pose proof (r_level _ _ HR pl (e_price e)) as Hlev. fold q in Hlev.
  destruct (levels pl L !! e_price e) as [lv|] eqn:Hlv; simpl in Hlev.
  - pose proof (Hfull _ _ Hlv) as Hne. fold q in Hne. destruct Hlev as (Hhd & -> & _). fold pv.
    destruct (last_loc_is_Some L B pl (e_price e) HR Hne) as (t & Ht & Hs). fold q in Ht. fold pv in Ht.
    assert (t ≠ l) as Htl.
    { intros ->. by apply (linked_pv (L := L) (L1 := L1) (B := B) (pl := pl) (e := e) HR Ha Hid Hok). }
    assert (is_Some (heap L1 !! t)) as Hs1 by by rewrite (a_heap _ _ _ Ha).
    rewrite Ht. erewrite bind_ret; [|erewrite bind_ret; [|apply run_store_is_Some]].
    2: { erewrite bind_ret; [|apply run_store_is_Some]; [reflexivity|]. simpl.
         rewrite alter_is_Some, lookup_insert_eq. eauto. }
    2: { simpl. by rewrite lookup_insert_ne. }
    cbn beta. run. f_equal. f_equal. cbn [fst snd]. unfold linked.
    assert (∀ h : gmap Z Order, alter (set_prev (Some t)) l (alter (set_next (Some l)) t (<[l := node e None None]> h))
            = relink_next (Some t) (Some l) (<[l := node e (Some t) None]> h)) as Hh.
    { intros h. simpl. rewrite alter_alter_ne by done. by erewrite alter_insert_eq. }
    assert (hd_loc (orders L) q (Some l) = head lv) as -> by (rewrite Hhd; by destruct q).
    rewrite <- (a_levels _ _ _ Ha) in Hlv.
    destruct pl; simpl in Hlv; unfold with_levels, with_orders, with_heap; simpl; rewrite Hh, (alter_Some _ _ _ _ Hlv); done.
  - unfold pv. rewrite Hlev. simpl. run. f_equal.
Qed.

Lemma fill_queue_bound sym id side limit q l l' q' cbs :
  fill_queue sym id side limit q l = (l', q', cbs) → 0 <= q → (∀ e, e ∈ l → 0 < e_qty e) → 0 <= q' <= q.
Proof.
  intros Hf Hq Hl. apply fill_queue_filled in Hf; [|done].
  assert (∀ l1 : list entry, (∀ e, e ∈ l1 → e ∈ l) → 0 <= total l1) as Htot.
  { induction l1 as [|e l1 IH]; simpl; [done|]. intros Hin.
    assert (0 < e_qty e) by (apply Hl, Hin; constructor).
    assert (0 <= total l1) by (apply IH; intros; apply Hin; list_in). lia. }
  destruct Hf as [l1 l2 -> _ ? _|l1 e l2 -> _ ?]; [|lia].
  assert (0 <= total l1) by (apply Htot; intros; list_in). lia.
Qed.

Lemma own_levels_cases side :
  (side =? BUY = true ∧ own_levels side = buy_levels ∧ opp_levels side = sell_levels) ∨
  (side =? BUY = false ∧ own_levels side = sell_levels ∧ opp_levels side = buy_levels).
Proof. unfold opp_levels, own_levels. destruct (side =? BUY); auto. Qed.

Lemma run_match_own id side q p L B log :
  rep L B → is_u32 q →
  match_result id side p (opp_levels side) B L log q
    ((if side =? BUY then match_ id side q p sell_levels else match_ id side q p buy_levels) (L, log)).
Proof.
  intros [HR Hfull] Hq. destruct (own_levels_cases side) as [(-> & _ & ->)|(-> & _ & ->)]; by apply run_match.
Qed.

Lemma run_notify (b : bool) (cb : callback) L log :
  when b (call cb) (L, log) = (Ret tt, (L, log ++ if b then [cb] else [])).
Proof. destruct b; simpl; [done|]. by rewrite app_nil_r. Qed.

Lemma rep_other pl L B : rep' L B → levels_full pl L B → levels_full (other pl) L B → rep L B.
Proof. intros ? ? ?. split; [done|]. intros pl'. by destruct pl, pl'. Qed.

Lemma levels_full_side pl L B L' l :
  levels_full (other pl) L B → levels (other pl) L' = levels (other pl) L → levels_full (other pl) L' (set_side pl l B).
Proof. intros H Heq p lv. rewrite Heq, book_side_set_other. apply H. Qed.

Lemma run_handle_new ntf id side q p flags filled L B log :
  rep L B → is_u32 q → is_u32 filled →
  refines L log (handle_new_order id side q p flags (own_levels side) ntf filled (L, log))
    (spec_handle_new ntf id side q p flags filled B).
Proof.
  intros HR Hq Hfl. unfold handle_new_order, spec_handle_new, refines.
  destruct (q <=? filled) eqn:Hle.
  { replace (q >? filled) with false by lia. exists L. rewrite app_nil_r. done. }
  replace (q >? filled) with true by lia.
  assert (u32 (q - filled) = q - filled) as -> by (apply u32_id; unfold is_u32 in *; lia).
  assert (is_u32 (q - filled)) as Hpre by (unfold is_u32 in *; lia).
  pose proof (run_match_own id side (q - filled) p L B log HR Hpre) as Hm. unfold match_result in Hm.
  destruct (fill_queue _ _ _ _ _ _) as [[l q'] cbs] eqn:Hfill.
  destruct Hm as (L1 & Hrun & HR1 & Hfull1 & Hoth1 & Hq').
  apply fill_queue_bound in Hfill.
  2: { unfold is_u32 in *; lia. }
  2: { intros e He. apply (ok_qty _ _ (bk_entries _ (r_book _ _ (rep_weak _ _ HR)) _ _ He)). }
  erewrite bind_ret by exact Hrun. cbn beta. run. cbn [fst].
  erewrite bind_ret by apply run_notify. cbn beta. rewrite (r_sym _ _ HR1), symbol_set_side, <- (app_assoc log cbs).
  assert (rep L1 (set_side (opp_levels side) l B)) as HRep1.
  { eapply rep_other; [done..|]. eapply levels_full_side; [apply (rep_full _ _ HR)|done]. }
  destruct ((q' >? 0) && is_ioc flags) eqn:Hioc.
  { erewrite bind_ret by apply run_notify. cbn beta. exists L1. rewrite <- !app_assoc. done. }
  destruct (q' =? 0) eqn:Hz; [by exists L1|].
  run. cbn [fst]. case_bool_decide as Hin.
  { apply (r_dom _ _ HR1) in Hin as [o Ho]. rewrite Ho. by exists L1. }
  destruct (orders L1 !! id) eqn:Ho; [by destruct Hin; apply (r_dom _ _ HR1); eauto|].
  replace (q' >? q - filled) with false by lia.
  assert (u32 (q - filled - q') = q - filled - q') as -> by (apply u32_id; unfold is_u32 in *; lia).
  destruct (run_alloc_link L1 (set_side (opp_levels side) l B)
    (log ++ cbs ++ if ntf && negb (is_ioc flags) then [onNewOrder id (b_symbol B) side q' p flags] else [])
    (own_levels side) (Entry id q' (q - filled - q') p side flags) HR1) as (L2 & Hrun2 & HR2 & Hfull2 & Hoth2); simpl.
  { apply (rep_full _ _ HRep1). }
  { done. }
  { split; simpl; [unfold is_u32 in *; lia..|done|]. apply andb_false_iff in Hioc as [?|?]; [lia|done]. }
  exists L2. split; [exact Hrun2|].
  eapply rep_other; [done..|]. eapply levels_full_side; [apply (rep_full _ _ HRep1)|done].
Qed.

(** ** [new_order], [delete_order] and [modify_order] *)

Lemma run_new ntf id side q p flags filled L B log :
  rep L B → is_u32 q → is_u32 filled →
  refines L log (new_order ntf id side q p flags filled (L, log)) (spec_new_order ntf id side q p flags filled B).
Proof.
  intros HR Hq Hf. pose proof (run_handle_new ntf id side q p flags filled L B log HR Hq Hf) as H.
  unfold refines, spec_new_order in *. destruct (spec_handle_new _ _ _ _ _ _ _ _) as [[r B'] cbs].
  destruct H as (L' & Hrun & HR'). exists L'. split; [|done]. unfold new_order.
  assert ((if side =? BUY then handle_new_order id side q p flags buy_levels ntf filled
           else handle_new_order id side q p flags sell_levels ntf filled) (L, log) = (r, (L', log ++ cbs))) as Hrun'.
  { rewrite <- Hrun. destruct (own_levels_cases side) as [(-> & -> & _)|(-> & -> & _)]; done. }
  destruct r; [by erewrite bind_ret by exact Hrun'|by erewrite bind_throw by exact Hrun'].
Qed.

Lemma run_erase_if_empty pl p L B (log : list callback) :
  rep' L B → (∀ p', p' ≠ p → is_Some (levels pl L !! p') → at_price p' (book_side pl B) ≠ []) →
  ∃ L', erase_if_empty pl p (L, log) = (Ret tt, (L', log)) ∧ rep' L' B ∧ levels_full pl L' B ∧
    levels (other pl) L' = levels (other pl) L.
Proof.
  intros HR Hfull. unfold erase_if_empty. run. cbn [fst].
  pose proof (r_level _ _ HR pl p) as Hlev. destruct (levels pl L !! p) as [lv|] eqn:Hlv.
  - destruct Hlev as (Hhd & _ & Hd). destruct (at_price p (book_side pl B)) as [|e q] eqn:Hq.
    + rewrite Hhd, run_when_setl. simpl. eexists. split; [reflexivity|]. split_and!.
      * by apply rep'_erase.
      * apply levels_full_erase. eauto.
      * apply levels_with_levels_other.
    + simpl in Hhd. destruct Hd as (l & Hl & _). rewrite Hhd, Hl, run_when_setl. simpl. exists L.
      split_and!; [done|done| |done]. intros p' lv' Hlv'. destruct (decide (p' = p)) as [->|]; [congruence|eauto].
  - exists L. split_and!; [done|done| |done]. intros p' lv' Hlv'. destruct (decide (p' = p)) as [->|]; [congruence|eauto].
Qed.

Lemma run_delete_side pl e L B log :
  rep L B → e ∈ book_side pl B →
  ∃ L', (handle_delete_order (e_id e) pl;; erase_if_empty pl (e_price e)) (L, log) = (Ret tt, (L', log)) ∧
    rep L' (remove_order (e_id e) B).
Proof.
  intros [HR Hfull] He.
  destruct (run_handle_delete L log B pl e HR He) as (L1 & Hrun & HR1 & Hdom & Hoth & Hords).
  erewrite bind_ret by exact Hrun. cbn beta.
  assert (∀ pl' p', (pl', p') ≠ (pl, e_price e) →
    at_price p' (book_side pl' (remove_order (e_id e) B)) = at_price p' (book_side pl' B)) as Hsame.
  { intros pl' p' Hne. rewrite book_side_remove, at_price_remove. apply remove_id_notin.
    intros (x & Hid & [Hp Hx]%elem_of_at_price)%list_elem_of_fmap.
    destruct (r_unique HR _ _ _ _ He Hx Hid) as [<- <-]. congruence. }
  destruct (run_erase_if_empty pl (e_price e) L1 (remove_order (e_id e) B) log HR1) as (L2 & Hrun2 & HR2 & Hfull2 & Hoth2).
  { intros p' Hne [lv Hlv]%Hdom. rewrite Hsame by congruence. by eapply Hfull. }
  exists L2. split; [done|]. eapply rep_other; [done..|].
  intros p lv. rewrite Hoth2, Hoth. intros Hlv. rewrite Hsame by (by destruct pl). by eapply Hfull.
Qed.

(** Looking an order up by id finds its node. *)
Lemma rep'_find_Some L B id e :
  rep' L B → find_id id (all_entries B) = Some e →
  ∃ l pv nx, orders L !! id = Some l ∧ heap L !! l = Some (node e pv nx) ∧
    e ∈ book_side (own_levels (e_side e)) B ∧ e_id e = id ∧ entry_ok (own_levels (e_side e)) e.
Proof.
  intros HR Hf. destruct (r_find HR id e Hf) as (pl & He & <-).
  destruct (r_lookup HR pl e He) as (l & pv & nx & Hl & Hn).
  pose proof (bk_entries _ (r_book _ _ HR) _ _ He) as Hok. pose proof (ok_side _ _ Hok) as <-. eauto 10.
Qed.

Lemma run_delete ntf id L B log :
  rep L B → refines L log (delete_order ntf id (L, log)) (spec_delete_order ntf id B).
Proof.
  intros HR. unfold delete_order, spec_delete_order. run. cbn [fst].
  destruct (find_id id (all_entries B)) as [e|] eqn:Hf.
  - destruct (rep'_find_Some L B id e (rep_weak _ _ HR) Hf) as (l & pv & nx & Hl & Hn & He & <- & _).
    rewrite Hl. run. cbn [OrderLadder.side price node].
    destruct (run_delete_side _ e L B log HR He) as (L' & Hrun & HR'). unfold refines. exists L'. split; [|done].
    destruct (own_levels_cases (e_side e)) as [(-> & Heq & _)|(-> & Heq & _)]; rewrite Heq in Hrun;
      erewrite bind_ret by exact Hrun; cbn beta; by rewrite run_notify.
  - apply (r_orders_None (rep_weak _ _ HR)) in Hf. rewrite Hf. by exists L.
Qed.

Lemma spec_handle_new_symbol ntf id side q p flags filled B :
  b_symbol (spec_handle_new ntf id side q p flags filled B).1.2 = b_symbol B.
Proof.
  unfold spec_handle_new. destruct (q <=? filled); [done|].
  destruct (fill_queue _ _ _ _ _ _) as [[l q'] cbs]. destruct (_ && _); [simpl; by rewrite symbol_set_side|].
  destruct (q' =? 0); [simpl; by rewrite symbol_set_side|].
  case_bool_decide; simpl; by rewrite ?symbol_set_side.
Qed.

Lemma run_modify id side q p L B log :
  rep L B → is_u32 q →
  refines L log (modify_order id side q p (L, log)) (spec_modify_order id side q p B).
Proof.
  intros HR Hq. unfold modify_order, spec_modify_order. run. cbn [fst].
  destruct (find_id id (all_entries B)) as [e|] eqn:Hf.
  2: { apply (r_orders_None (rep_weak _ _ HR)) in Hf. rewrite Hf. by exists L. }
  destruct (rep'_find_Some L B id e (rep_weak _ _ HR) Hf) as (l & pv & nx & Hl & Hn & He & <- & Hok).
  pose proof (r_sym _ _ (rep_weak _ _ HR)) as Hsym.
  rewrite Hl. run. cbn [OrderLadder.side price filled_quantity flags node].
  rewrite Z.geb_leb. destruct (q <=? e_filled e) eqn:Hle; [by apply run_delete|].
  destruct ((e_price e =? p) && (e_side e =? side)) eqn:Hsame.
  - apply andb_true_iff in Hsame as [Hp%Z.eqb_eq Hs%Z.eqb_eq].
    run. run. cbn [fst]. set (L1 := with_heap _ L).
    assert (heap L1 !! l = Some (set_quantity q (node e pv nx))) as Hn1.
    { simpl. by rewrite lookup_alter_eq, Hn. }
    run. cbn [filled_quantity set_quantity node].
    rewrite (Hsym : symbol L1 = b_symbol B).
    assert (u32 (q - e_filled e) = q - e_filled e) as ->.
    { apply u32_id. destruct Hok as [_ ? _ _]. unfold is_u32 in *. lia. }
    exists L1. split; [done|].
    assert (rep' L1 (update_order (e_id e) (set_qty q) B)) as HR1.
    { eapply rep'_update; try done; [apply HR|]. destruct Hok as [? Hf0 ? ?].
      split; simpl; try done. unfold is_u32 in *. lia. }
    split; [done|]. intros pl p' lv Hlv. rewrite book_side_update, at_price_update by done.
    assert (at_price p' (book_side pl B) ≠ []) as Hne by (apply (rep_full _ _ HR pl p' lv); by destruct pl).
    unfold update_id. by destruct (at_price p' (book_side pl B)).
  - pose proof (run_delete false (e_id e) L B log HR) as Hd. unfold spec_delete_order in Hd. rewrite Hf in Hd.
    destruct Hd as (L1 & Hrun & HR1). erewrite bind_ret by exact Hrun. cbn beta. rewrite app_nil_r.
    pose proof (run_handle_new false (e_id e) side q p (e_flags e) (e_filled e) L1 _ log HR1 Hq (ok_filled _ _ Hok)) as Hh.
    unfold refines in *.
    destruct (spec_handle_new _ _ _ _ _ _ _ _) as [[r B'] cbs] eqn:Hspec. destruct Hh as (L2 & Hrun2 & HR2).
    assert (b_symbol B' = b_symbol B) as Hsym'.
    { replace B' with (r, B', cbs).1.2 by done. rewrite <- Hspec. by rewrite spec_handle_new_symbol. }
    assert ((if side =? BUY then handle_new_order (e_id e) side q p (e_flags e) buy_levels false (e_filled e)
             else handle_new_order (e_id e) side q p (e_flags e) sell_levels false (e_filled e)) (L1, log)
            = (r, (L2, log ++ cbs))) as Hrun3.
    { rewrite <- Hrun2. destruct (own_levels_cases side) as [(-> & -> & _)|(-> & -> & _)]; done. }
    destruct r as [q'|ex]; [|erewrite bind_throw by exact Hrun3; by exists L2].
    erewrite bind_ret by exact Hrun3. cbn beta. run. cbn [fst].
    rewrite (r_sym _ _ (rep_weak _ _ HR2)), Hsym'. exists L2. split; [|done].
    destruct (q' >? 0); rewrite run_call, <- app_assoc; done.
Qed.
