(* ===== verification/LadderProps.v ===== *)
(** * What the order ladder guarantees

    Sequences of operations on a ladder, run as the matching engine runs them
    (an exception leaves the ladder as it is at the throw and the next
    operation goes on from there), and the properties of every such run:
    refinement of the book, absence of undefined behaviour, an uncrossed
    market, price-time priority and conservation of quantity. *)
From S2P Require Import Prelude Protocol OrderLadder LadderSpec LadderRep LadderMatch LadderRefine.

Inductive op :=
  | New (ntf : bool) (id side qty price flags filled : Z)
  | Delete (ntf : bool) (id : Z)
  | Modify (id side qty price : Z).

(** Quantities are [uint32_t]. *)
Definition op_ok (o : op) : Prop :=
  match o with
  | New _ _ _ q _ _ filled => is_u32 q ∧ is_u32 filled
  | Delete _ _ => True
  | Modify _ _ q _ => is_u32 q
  end.

Definition side_valid (side : Z) : Prop := side = BUY ∨ side = SELL.

Definition op_side_valid (o : op) : Prop :=
  match o with New _ _ side _ _ _ _ | Modify _ side _ _ => side_valid side | Delete _ _ => True end.

#[global] Instance op_ok_dec o : Decision (op_ok o).
Proof. destruct o; simpl; apply _. Defined.
#[global] Instance op_side_valid_dec o : Decision (op_side_valid o).
Proof. destruct o; simpl; unfold side_valid; apply _. Defined.

Definition run_op {Sb} `{!Subscriber Sb} (o : op) : M (Ladder * Sb) unit :=
  match o with
  | New ntf id side q p flags filled => new_order ntf id side q p flags filled
  | Delete ntf id => delete_order ntf id
  | Modify id side q p => modify_order id side q p
  end.

Definition spec_op (o : op) (B : Book) : outcome unit * Book * list callback :=
  match o with
  | New ntf id side q p flags filled => spec_new_order ntf id side q p flags filled B
  | Delete ntf id => spec_delete_order ntf id B
  | Modify id side q p => spec_modify_order id side q p B
  end.

Fixpoint exec {Sb} `{!Subscriber Sb} (ops : list op) (st : Ladder * Sb) : list (outcome unit) * (Ladder * Sb) :=
  match ops with
  | [] => ([], st)
  | o :: ops => let '(r, st) := run_op o st in let '(rs, st) := exec ops st in (r :: rs, st)
  end.

Fixpoint spec_exec (ops : list op) (B : Book) : list (outcome unit) * Book * list callback :=
  match ops with
  | [] => ([], B, [])
  | o :: ops =>
      let '(r, B, cbs) := spec_op o B in
      let '(rs, B, cbs') := spec_exec ops B in (r :: rs, B, cbs ++ cbs')
  end.

Lemma run_op_refines o L B log : rep L B → op_ok o → refines L log (run_op o (L, log)) (spec_op o B).
Proof.
  destruct o; simpl; intros HR Hok; [apply run_new|apply run_delete|apply run_modify]; tauto.
Qed.

Lemma exec_refines ops : ∀ L B log, rep L B → Forall op_ok ops →
  let '(rs, B', cbs) := spec_exec ops B in
  ∃ L', exec ops (L, log) = (rs, (L', log ++ cbs)) ∧ rep L' B'.
Proof.
  induction ops as [|o ops IH]; intros L B log HR Hok; simpl.
  { exists L. by rewrite app_nil_r. }
  apply Forall_cons in Hok as [Ho Hok]. pose proof (run_op_refines o L B log HR Ho) as H.
  unfold refines in H. destruct (spec_op o B) as [[r B1] cbs1]. destruct H as (L1 & -> & HR1).
  specialize (IH L1 B1 (log ++ cbs1) HR1 Hok). destruct (spec_exec ops B1) as [[rs B2] cbs2].
  destruct IH as (L2 & -> & HR2). exists L2. by rewrite <- app_assoc.
Qed.

(** ** The market is never crossed *)

Lemma crosses_buy limit p : crosses BUY limit p = (p <=? limit).
Proof. unfold crosses. simpl. rewrite orb_false_r, Z.gtb_ltb. by rewrite Z.leb_antisym. Qed.

Lemma crosses_sell limit p : crosses SELL limit p = (limit <=? p).
Proof. unfold crosses. simpl. by rewrite Z.leb_antisym. Qed.

(** A side that is neither buys at any price. *)
Lemma crosses_invalid side limit p : ¬ side_valid side → crosses side limit p = true.
Proof.
  unfold side_valid, crosses. intros H. replace (side =? BUY) with false by lia.
  replace (side =? SELL) with false by lia. done.
Qed.

Lemma crosses_better side limit p p' :
  side_valid side → better (opp_levels side) p p' = false → crosses side limit p' = false → crosses side limit p = false.
Proof.
  intros [-> | ->]; rewrite ?crosses_buy, ?crosses_sell; unfold opp_levels, own_levels; simpl; lia.
Qed.

(** What is left when a new order still has quantity does not trade with it. *)
Lemma filled_rest_uncrossed side limit q l l' q' e :
  side_valid side → sorted (opp_levels side) l → filled side limit q l l' q' → q' ≠ 0 → e ∈ l' →
  crosses side limit (e_price e) = false.
Proof.
  intros Hside Hs [l1 l2 -> _ _ Hstop|l1 e1 l2 _ _ _] Hq He; [|done].
  destruct Hstop as [?|Hstop]; [lia|]. destruct l2 as [|e2 l2]; [by apply elem_of_nil in He|].
  specialize (Hstop e2 eq_refl). apply elem_of_cons in He as [->|He]; [done|].
  eapply crosses_better; [done| |done].
  clear Hq. induction l1 as [|x l1 IH]; simpl in Hs; apply StronglySorted_inv in Hs as [Hs Hf]; [|by apply IH].
  rewrite Forall_forall in Hf. auto.
Qed.

Lemma filled_price side limit q l l' q' e' :
  filled side limit q l l' q' → e' ∈ l' → ∃ e, e ∈ l ∧ e_price e = e_price e'.
Proof. intros Hf He. destruct (filled_in _ _ _ _ _ _ _ Hf He) as (e & ? & ? & ?). eauto. Qed.

Lemma uncrossed_sides pl B :
  uncrossed B ↔ ∀ x y, x ∈ book_side pl B → y ∈ book_side (other pl) B →
    match pl with buy_levels => e_price x < e_price y | sell_levels => e_price y < e_price x end.
Proof. unfold uncrossed. destruct pl; simpl; naive_solver. Qed.

Lemma uncrossed_sub B B' :
  (∀ pl e', e' ∈ book_side pl B' → ∃ e, e ∈ book_side pl B ∧ e_price e = e_price e') → uncrossed B → uncrossed B'.
Proof.
  intros Hsub Hu b a Hb Ha. destruct (Hsub buy_levels b Hb) as (b' & Hb' & <-).
  destruct (Hsub sell_levels a Ha) as (a' & Ha' & <-). by apply Hu.
Qed.

Lemma uncrossed_set_side pl l B :
  (∀ e', e' ∈ l → ∃ e, e ∈ book_side pl B ∧ e_price e = e_price e') → uncrossed B → uncrossed (set_side pl l B).
Proof.
  intros Hl. apply uncrossed_sub. intros pl' e'.
  destruct (book_side_set_case pl pl' l B) as [[-> ->]|[-> ->]]; eauto.
Qed.

Lemma spec_handle_new_uncrossed ntf id side q p flags filled B :
  side_valid side → (∀ pl, sorted pl (book_side pl B)) → uncrossed B →
  uncrossed (spec_handle_new ntf id side q p flags filled B).1.2.
Proof.
  intros Hside Hs Hu. unfold spec_handle_new. destruct (q <=? filled) eqn:Hle; [done|].
  destruct (fill_queue _ _ _ _ _ _) as [[l q'] cbs] eqn:Hf. apply fill_queue_filled in Hf; [|lia].
  assert (uncrossed (set_side (opp_levels side) l B)) as Hu1.
  { apply uncrossed_set_side; [|done]. intros e' He'. by eapply filled_price. }
  destruct (_ && _); [done|]. destruct (q' =? 0) eqn:Hz; [done|]. case_bool_decide; [done|]. simpl.
  assert (∀ y, y ∈ l → crosses side p (e_price y) = false) as Hrest.
  { intros y Hy. eapply filled_rest_uncrossed; [done|apply Hs|done|lia|done]. }
  rewrite (uncrossed_sides (own_levels side)) in Hu1 |- *. intros x y. rewrite book_side_set, elem_of_insert_entry.
  rewrite book_side_set_other. intros [->|Hx] Hy; [|by apply Hu1]. simpl.
  unfold opp_levels in *. rewrite book_side_set in Hy. specialize (Hrest y Hy).
  destruct Hside as [-> | ->]; rewrite ?crosses_buy, ?crosses_sell in Hrest; simpl; lia.
Qed.

Lemma spec_op_uncrossed o B :
  op_side_valid o → (∀ pl, sorted pl (book_side pl B)) → uncrossed B → uncrossed (spec_op o B).1.2.
Proof.
  intros Ho Hs Hu.
  assert (∀ id, uncrossed (remove_order id B)) as Hrm.
  { intros id. eapply uncrossed_sub; [|done]. intros pl e'. rewrite book_side_remove, elem_of_remove_id. naive_solver. }
  assert (∀ ntf id, uncrossed (spec_delete_order ntf id B).1.2) as Hdel.
  { intros ntf id. unfold spec_delete_order. destruct (find_id _ _); simpl; auto. }
  destruct o as [ntf id side q p flags filled|ntf id|id side q p]; simpl in *; [| |].
  - unfold spec_new_order. pose proof (spec_handle_new_uncrossed ntf id side q p flags filled B Ho Hs Hu) as H.
    by destruct (spec_handle_new _ _ _ _ _ _ _ _) as [[r B'] cbs].
  - apply Hdel.
  - unfold spec_modify_order. destruct (find_id id _) as [e|]; [|done].
    destruct (q <=? e_filled e); [apply Hdel|]. destruct (_ && _).
    + simpl. eapply uncrossed_sub; [|done]. intros pl e'. rewrite book_side_update. unfold update_id.
      intros (x & -> & Hx)%list_elem_of_fmap. exists x. split; [done|]. by destruct (decide (e_id x = id)).
    + pose proof (spec_handle_new_uncrossed false id side q p (e_flags e) (e_filled e) (remove_order id B) Ho) as H.
      destruct (spec_handle_new _ _ _ _ _ _ _ _) as [[r B'] cbs].
      assert (uncrossed B') by (apply H; [intros pl; rewrite book_side_remove; by apply sorted_filter|done]).
      by destruct r.
Qed.

Lemma exec_uncrossed ops : ∀ L B, rep L B → uncrossed B → Forall op_ok ops → Forall op_side_valid ops →
  uncrossed (spec_exec ops B).1.2.
Proof.
  induction ops as [|o ops IH]; intros L B HR Hu Hok Hside; simpl; [done|].
  apply Forall_cons in Hok as [Ho Hok]. apply Forall_cons in Hside as [Hs Hside].
  pose proof (run_op_refines o L B [] HR Ho) as H. unfold refines in H.
  pose proof (spec_op_uncrossed o B Hs (bk_sorted _ (r_book _ _ (rep_weak _ _ HR))) Hu) as Hu1.
  destruct (spec_op o B) as [[r B1] cbs1]. destruct H as (L1 & _ & HR1). specialize (IH L1 B1 HR1 Hu1 Hok Hside).
  by destruct (spec_exec ops B1) as [[rs B2] cbs2].
Qed.

(** ** Outcomes *)

Definition benign (r : outcome unit) : Prop :=
  r = Ret tt ∨ r = Throw (runtime_error "filled quantity > quantity on new order!") ∨
  r = Throw (runtime_error "Order already exists").

Lemma spec_handle_new_outcome ntf id side q p flags filled B :
  match (spec_handle_new ntf id side q p flags filled B).1.1 with
  | Ret _ => filled < q
  | Throw e =>
      (e = runtime_error "filled quantity > quantity on new order!" ∧ q <= filled) ∨
      (e = runtime_error "Order already exists" ∧ id ∈ ids B)
  end.
Proof.
  unfold spec_handle_new. destruct (q <=? filled) eqn:Hle; [left; simpl; split; [done|lia]|].
  destruct (fill_queue _ _ _ _ _ _) as [[l q'] cbs] eqn:Hf. destruct (_ && _); [simpl; lia|].
  destruct (q' =? 0); [simpl; lia|]. case_bool_decide as Hin; simpl; [|lia]. right. split; [done|].
  apply fill_queue_filled in Hf; [|lia]. revert Hin. unfold ids. rewrite !list_elem_of_fmap.
  intros (e & -> & [pl He]%elem_of_all).
  destruct (book_side_set_case (opp_levels side) pl l B) as [[-> Heq]|[-> Heq]]; rewrite Heq in He.
  - destruct (filled_in _ _ _ _ _ _ _ Hf He) as (x & Hx & _ & ?). exists x. split; [done|]. apply elem_of_all. eauto.
  - exists e. split; [done|]. apply elem_of_all. eauto.
Qed.

Lemma spec_modify_outcome id side q p B : (spec_modify_order id side q p B).1.1 = Ret tt.
Proof.
  unfold spec_modify_order. destruct (find_id id _) as [e|] eqn:Hf; [|done].
  destruct (q <=? e_filled e) eqn:Hle; [unfold spec_delete_order; by rewrite Hf|]. destruct (_ && _); [done|].
  pose proof (spec_handle_new_outcome false id side q p (e_flags e) (e_filled e) (remove_order id B)) as H.
  destruct (spec_handle_new _ _ _ _ _ _ _ _) as [[[q'|ex] B'] cbs]; [done|]. simpl in H. exfalso.
  destruct H as [[_ ?]|[_ Hin]]; [lia|]. by apply elem_of_ids_remove in Hin as [? _].
Qed.

Lemma spec_op_benign o B : benign (spec_op o B).1.1.
Proof.
  unfold benign. destruct o as [ntf id side q p flags filled|ntf id|id side q p]; simpl.
  - unfold spec_new_order. pose proof (spec_handle_new_outcome ntf id side q p flags filled B) as H.
    destruct (spec_handle_new _ _ _ _ _ _ _ _) as [[[q'|ex] B'] cbs]; simpl in *; [auto|].
    destruct H as [[-> _]|[-> _]]; auto.
  - unfold spec_delete_order. destruct (find_id _ _); auto.
  - left. apply spec_modify_outcome.
Qed.

Lemma spec_exec_benign ops : ∀ B, Forall benign (spec_exec ops B).1.1.
Proof.
  induction ops as [|o ops IH]; intros B; simpl; [constructor|].
  pose proof (spec_op_benign o B) as Ho. destruct (spec_op o B) as [[r B1] cbs1].
  specialize (IH B1). destruct (spec_exec ops B1) as [[rs B2] cbs2]. by constructor.
Qed.

(** ** Trades *)

(** The trades of an incoming order: each is one [onTrade] at the resting
    order's price, one passive and one active fill of the same quantity, and
    never beyond the incoming order's limit.  [trades … n cbs] has [n] in all. *)
Inductive trades (sym incoming side limit : Z) : Z → list callback → Prop :=
  | trades_nil : trades sym incoming side limit 0 []
  | trades_cons resting rside n p pf af m cbs :
      0 < n → crosses side limit p = true → trades sym incoming side limit m cbs →
      trades sym incoming side limit (n + m)
        (onTrade resting n p :: onFill resting sym rside n p pf false ::
         onFill incoming sym side n p af true :: cbs).

Lemma fill_queue_trades sym id side limit l : ∀ q l' q' cbs,
  fill_queue sym id side limit q l = (l', q', cbs) → 0 <= q → (∀ e, e ∈ l → 0 < e_qty e) →
  trades sym id side limit (q - q') cbs ∧ total l - total l' = q - q'.
Proof.
  induction l as [|e l IH]; intros q l' q' cbs Hf Hq Hl; simpl in Hf.
  { simplify_eq. rewrite Z.sub_diag. split; [constructor|done]. }
  destruct ((q >? 0) && crosses side limit (e_price e)) eqn:Hc.
  2: { simplify_eq. rewrite !Z.sub_diag. split; [constructor|done]. }
  apply andb_true_iff in Hc as [Hpos Hc].
  assert (0 < e_qty e) as He by (apply Hl; constructor). destruct (e_qty e <=? q) eqn:Hle.
  - destruct (fill_queue _ _ _ _ (q - e_qty e) l) as [[l1 q1] cbs1] eqn:Hrec. simplify_eq.
    apply IH in Hrec as [Ht Htot]; [|lia|intros; apply Hl; list_in]. split; [|simpl; lia].
    replace (q - q') with (e_qty e + (q - e_qty e - q')) by lia. by constructor.
  - simplify_eq. split; [|simpl; lia]. replace (q - 0) with (q + 0) by lia.
    constructor; [lia|done|constructor].
Qed.

(** A new order that rests: where it stands in its side. *)
Lemma insert_entry_split pl e l :
  sorted pl l → ∃ l1 l2, l = l1 ++ l2 ∧ insert_entry pl e l = l1 ++ e :: l2 ∧
    (∀ x, x ∈ l1 → better pl (e_price e) (e_price x) = false) ∧
    (∀ x, x ∈ l2 → better pl (e_price e) (e_price x) = true).
Proof.
  unfold sorted. induction 1 as [|x l Hs IH Hf]; simpl.
  { exists [], []. split_and!; [done|done|..]; by intros x ?%elem_of_nil. }
  rewrite Forall_forall in Hf. destruct (better pl (e_price e) (e_price x)) eqn:Hb.
  - exists [], (x :: l). split_and!; [done|done|by intros ? ?%elem_of_nil|].
    intros y [->|Hy]%elem_of_cons; [done|]. eapply better_trans_l; eauto.
  - destruct IH as (l1 & l2 & -> & -> & H1 & H2). exists (x :: l1), l2. split_and!; [done|done| |done].
    intros y [->|Hy]%elem_of_cons; auto.
Qed.

(** The result of a new order on a fresh id. *)
Lemma spec_handle_new_fresh ntf id side q p flags filled B :
  book_ok B → id ∉ ids B → filled < q → 0 <= filled →
  ∃ n l cbs1 cbs2, 
    let q' := q - filled - n in
    let B1 := set_side (opp_levels side) l B in
    let rests := (0 <? q') && negb (is_ioc flags) in
    let pl := own_levels side in
    spec_handle_new ntf id side q p flags filled B =
      (Ret q', if rests then set_side pl (insert_entry pl (Entry id q' n p side flags) (book_side pl B)) B1 else B1,
       cbs1 ++ cbs2) ∧
    trades (b_symbol B) id side p n cbs1 ∧ 0 <= n <= q - filled ∧
    (fill_queue (b_symbol B) id side p (q - filled) (book_side (opp_levels side) B) = (l, q', cbs1) ∧
     LadderSpec.filled side p (q - filled) (book_side (opp_levels side) B) l q') ∧
    total (book_side (opp_levels side) B) - total l = n ∧
    cbs2 = (if ntf then if is_ioc flags then if 0 <? q' then [onDeleteOrder id false] else []
                        else [onNewOrder id (b_symbol B) side q' p flags] else []).
Proof.
  intros Hok Hid Hlt Hf0. unfold spec_handle_new. replace (q <=? filled) with false by lia.
  destruct (fill_queue _ _ _ _ _ _) as [[l q'] cbs] eqn:Hf.
  assert (∀ e, e ∈ book_side (opp_levels side) B → 0 < e_qty e) as Hpos.
  { intros e He. apply (ok_qty _ _ (bk_entries _ Hok _ _ He)). }
  pose proof (fill_queue_trades _ _ _ _ _ _ _ _ _ Hf ltac:(lia) Hpos) as [Ht Htot].
  pose proof (fill_queue_bound _ _ _ _ _ _ _ _ _ Hf ltac:(lia) Hpos) as Hq'.
  apply fill_queue_filled in Hf as Hfl; [|lia].
  exists (q - filled - q'), l, cbs. replace (q - filled - (q - filled - q')) with q' by lia.
  assert (id ∉ ids (set_side (opp_levels side) l B)) as Hid'.
  { intros Hin. apply Hid. revert Hin. unfold ids. rewrite !list_elem_of_fmap.
    intros (e & -> & [pl He]%elem_of_all).
    destruct (book_side_set_case (opp_levels side) pl l B) as [[-> Heq]|[-> Heq]]; rewrite Heq in He.
    - destruct (filled_in _ _ _ _ _ _ _ Hfl He) as (x & Hx & _ & ?). exists x. split; [done|]. apply elem_of_all. eauto.
    - exists e. split; [done|]. apply elem_of_all. eauto. }
  eexists. split_and!; [|done|lia|lia|done|done|lia|reflexivity].
  rewrite Z.gtb_ltb, symbol_set_side. destruct (0 <? q') eqn:Hz; simpl.
  - destruct (is_ioc flags) eqn:Hi; simpl.
    + rewrite andb_false_r, app_nil_r. by destruct ntf.
    + replace (q' =? 0) with false by lia. rewrite bool_decide_false by done. rewrite andb_true_r.
      destruct (own_levels_cases side) as [(_ & -> & ->)|(_ & -> & ->)]; by destruct ntf.
  - replace (q' =? 0) with true by lia. by destruct ntf, (is_ioc flags).
Qed.
