(* ===== verification/LadderReplay.v ===== *)
(** * Any subscriber sees what the recorder sees

    The ladder is a template over its subscriber.  Run with any subscriber it
    behaves as with the recorder: it delivers the recorded callbacks in order,
    and stops where the subscriber throws.  This is what lets the properties of
    the recorded ladder be used of the matching engine's broker. *)
From S2P Require Import Prelude Protocol OrderLadder LadderProps.

(** Delivering a list of callbacks to a subscriber. *)
Fixpoint replay {Sb} `{!Subscriber Sb} (cbs : list callback) : M Sb unit :=
  match cbs with
  | [] => mret tt
  | cb :: cbs => notify cb;; replay cbs
  end.

Section replay.
Context {Sb : Type} `{!Subscriber Sb}.

Lemma replay_app cbs1 cbs2 s : replay (cbs1 ++ cbs2) s = (replay cbs1;; replay cbs2) s.
Proof.
  revert s. induction cbs1 as [|cb cbs1 IH]; intros s; simpl; [done|].
  unfold mbind, M_bind in *. destruct (notify cb s) as [[[]|e] s']; [|done]. by rewrite IH.
Qed.

(** [sim m m']: [m] is [m'] with the recorded callbacks delivered. *)
Definition sim {A} (m : M (Ladder * Sb) A) (m' : M (Ladder * list callback) A) : Prop :=
  ∀ L s log, ∃ r L' cbs, m' (L, log) = (r, (L', log ++ cbs)) ∧
    match replay cbs s with
    | (Ret _, s') => m (L, s) = (r, (L', s'))
    | (Throw e, s') => ∃ L1, m (L, s) = (Throw e, (L1, s'))
    end.

Lemma sim_bind {A C} (m : M (Ladder * Sb) A) m' (k : A → M (Ladder * Sb) C) k' :
  sim m m' → (∀ a, sim (k a) (k' a)) → sim (mbind k m) (mbind k' m').
Proof.
  intros Hm Hk L s log. destruct (Hm L s log) as (r & L1 & cbs & Hr & Hs). unfold mbind, M_bind. rewrite Hr.
  destruct r as [a|e].
  - destruct (Hk a L1 (replay cbs s).2 (log ++ cbs)) as (r2 & L2 & cbs2 & Hr2 & Hs2).
    exists r2, L2, (cbs ++ cbs2). rewrite Hr2, app_assoc. split; [done|].
    rewrite replay_app. unfold mbind, M_bind. destruct (replay cbs s) as [[[]|e] s1]; simpl in *.
    + by rewrite Hs.
    + destruct Hs as [L3 ->]. eauto.
  - exists (Throw e), L1, cbs. split; [done|].
    destruct (replay cbs s) as [[[]|e'] s1]; [by rewrite Hs|]. destruct Hs as [L3 ->]. eauto.
Qed.

Lemma sim_pure {A} (m : M (Ladder * Sb) A) m' :
  (∀ L, ∃ r L', (∀ s, m (L, s) = (r, (L', s))) ∧ ∀ log, m' (L, log) = (r, (L', log))) → sim m m'.
Proof.
  intros H L s log. destruct (H L) as (r & L' & Hm & Hm'). exists r, L', []. rewrite app_nil_r. simpl. auto.
Qed.

Lemma sim_ret {A} (a : A) : sim (mret a) (mret a).
Proof. apply sim_pure. intros L. by exists (Ret a), L. Qed.
Lemma sim_throw {A} e : sim (throw (A := A) e) (throw e).
Proof. apply sim_pure. intros L. by exists (Throw e), L. Qed.
Lemma sim_getl {A} (f : Ladder → A) : sim (getl f) (getl f).
Proof. apply sim_pure. intros L. by exists (Ret (f L)), L. Qed.
Lemma sim_setl f : sim (setl f) (setl f).
Proof. apply sim_pure. intros L. by exists (Ret tt), (f L). Qed.

Lemma sim_call cb : sim (call cb) (call cb).
Proof.
  intros L s log. exists (Ret tt), L, [cb]. split; [done|]. simpl. unfold call, mbind, M_bind. simpl.
  destruct (notify cb s) as [[[]|e] s']; [done|]. eauto.
Qed.

Lemma sim_when b (m : M (Ladder * Sb) unit) m' : sim m m' → sim (when b m) (when b m').
Proof. destruct b; [done|]. intros _. apply sim_ret. Qed.
End replay.

Create HintDb sim.
#[export] Hint Resolve sim_ret sim_throw sim_getl sim_setl sim_call : sim.

(** [sims] follows the syntax of a program: sequencing, tests and the basic
    actions; what it does not know it looks up in the hint database. *)
Ltac sims := repeat first
  [ solve [auto with sim nocore]
  | apply sim_bind; [|intros ?]
  | apply sim_when
  | match goal with |- sim (let _ := ?x in _) _ => cbv zeta end
  | match goal with |- sim (match ?x with _ => _ end) _ => destruct x end ].

Section ops.
Context {Sb : Type} `{!Subscriber Sb}.
Notation "m ≈ m'" := (sim (Sb := Sb) m m') (at level 70).

Lemma sim_deref p : deref p ≈ deref p.
Proof. unfold deref. sims. Qed.
Hint Resolve sim_deref : sim.

Lemma sim_store p f : store p f ≈ store p f.
Proof. unfold store. sims. Qed.
Hint Resolve sim_store : sim.

Lemma sim_allocate : allocate ≈ allocate.
Proof. unfold allocate, add_block. sims. Qed.

Lemma sim_deallocate p : deallocate p ≈ deallocate p.
Proof. unfold deallocate. sims. Qed.
Hint Resolve sim_allocate sim_deallocate : sim.

Lemma sim_handle_delete_order id pl : handle_delete_order id pl ≈ handle_delete_order id pl.
Proof. unfold handle_delete_order. sims. Qed.
Hint Resolve sim_handle_delete_order : sim.

Lemma sim_match_level id side pl fuel : ∀ order qty,
  match_level fuel id side pl order qty ≈ match_level fuel id side pl order qty.
Proof. induction fuel as [|fuel IH]; intros order qty; cbn [match_level]; sims. Qed.
Hint Resolve sim_match_level : sim.

Lemma sim_match_levels id side p pl inner fuel : ∀ qty,
  match_levels fuel inner id side p pl qty ≈ match_levels fuel inner id side p pl qty.
Proof. induction fuel as [|fuel IH]; intros qty; cbn [match_levels]; sims. Qed.
Hint Resolve sim_match_levels : sim.

Lemma sim_match id side qty p pl : match_ id side qty p pl ≈ match_ id side qty p pl.
Proof. unfold match_. sims. Qed.
Hint Resolve sim_match : sim.

Lemma sim_handle_new_order id side q p flags pl ntf filled :
  handle_new_order id side q p flags pl ntf filled ≈ handle_new_order id side q p flags pl ntf filled.
Proof. unfold handle_new_order. sims. Qed.
Hint Resolve sim_handle_new_order : sim.

Lemma sim_new_order ntf id side q p flags filled :
  new_order ntf id side q p flags filled ≈ new_order ntf id side q p flags filled.
Proof. unfold new_order. sims. Qed.

Lemma sim_delete_order ntf id : delete_order ntf id ≈ delete_order ntf id.
Proof. unfold delete_order, erase_if_empty. sims. Qed.
Hint Resolve sim_delete_order : sim.

Lemma sim_modify_order id side q p : modify_order id side q p ≈ modify_order id side q p.
Proof. unfold modify_order. sims. Qed.

Lemma sim_run_op o : run_op o ≈ run_op o.
Proof. destruct o; [apply sim_new_order|apply sim_delete_order|apply sim_modify_order]. Qed.
End ops.
