(* ===== verification/LadderTheorems.v ===== *)
(** * The properties of the order ladder

    Stated of the pointer ladder itself, run with the recording subscriber. *)
From S2P Require Import Prelude Protocol OrderLadder LadderSpec LadderRep LadderMatch LadderRefine LadderProps.

(** Concrete runs used by the witnesses: two resting bids, a resting ask, an
    aggressive sell through both bids, a modification and a cancellation. *)
Definition demo_ops : list op :=
  [New true 1 BUY 100 50 0 0; New true 2 BUY 40 50 0 0; New true 3 SELL 30 60 0 0;
   New true 4 SELL 120 50 0 0; Modify 2 BUY 60 49; Modify 3 SELL 10 50; New true 5 SELL 7 48 IOC 0;
   New true 6 SELL 5 5 0 9; Delete true 3].

Definition demo_book : Book := mkBook [Entry 1 100 0 50 BUY 0; Entry 2 40 0 50 BUY 0] [Entry 3 30 0 60 SELL 0] 7.
Definition demo_start : list op := take 3 demo_ops.

(** The ladder of the three first orders represents [demo_book]. *)
Lemma demo_rep : ∃ L, exec demo_start (OrderLadder 7, []) =
    ([Ret tt; Ret tt; Ret tt], (L, [onNewOrder 1 7 BUY 100 50 0; onNewOrder 2 7 BUY 40 50 0; onNewOrder 3 7 SELL 30 60 0]))
  ∧ rep L demo_book.
Proof.
  pose proof (exec_refines demo_start (OrderLadder 7) (empty_book 7) [] (rep_empty 7)) as H.
  apply H. unfold demo_start. repeat constructor; by compute.
Defined.

Lemma demo_fresh : 4 ∉ ids demo_book.
Proof. unfold ids, demo_book; simpl. set_solver. Qed.

(** C1 ([ladder_refines_book]): run from the empty ladder, any sequence of new, delete
    and modify requests gives the outcomes and the subscriber callbacks of the
    abstract book, and a pointer structure that represents its final state. *)
Theorem ladder_refines_book sym ops :
  Forall op_ok ops →
  let '(rs, B, cbs) := spec_exec ops (empty_book sym) in
  ∃ L, exec ops (OrderLadder sym, []) = (rs, (L, cbs)) ∧ rep L B.
Proof. apply (exec_refines ops _ _ [] (rep_empty sym)). Qed.

Lemma ladder_refines_book_witness :
  Forall op_ok demo_ops ∧
  ∃ L, exec demo_ops (OrderLadder 7, []) =
    ((spec_exec demo_ops (empty_book 7)).1.1, (L, (spec_exec demo_ops (empty_book 7)).2)) ∧
    rep L (spec_exec demo_ops (empty_book 7)).1.2.
Proof.
  assert (Forall op_ok demo_ops) as H by (repeat constructor; by compute).
  split; [exact H|]. exact (ladder_refines_book 7 demo_ops H).
Defined.

(** In a run from the empty ladder no
    operation follows a dangling or null pointer, runs out of fuel or reports an
    impossible state: it returns, or throws for a filled quantity that is not
    below the quantity or for an order id that is already resting. *)
Theorem ladder_no_undefined_behaviour sym ops :
  Forall op_ok ops → Forall benign (exec ops (OrderLadder sym, ([] : list callback))).1.
Proof.
  intros H. pose proof (exec_refines ops _ _ [] (rep_empty sym) H) as Hr.
  pose proof (spec_exec_benign ops (empty_book sym)) as Hb.
  destruct (spec_exec _ _) as [[rs B] cbs]. by destruct Hr as (L & -> & _).
Qed.

Lemma ladder_no_undefined_behaviour_witness :
  Forall op_ok demo_ops ∧ Forall benign (exec demo_ops (OrderLadder 7, ([] : list callback))).1.
Proof.
  assert (Forall op_ok demo_ops) as H by (repeat constructor; by compute).
  split; [exact H|]. exact (ladder_no_undefined_behaviour 7 demo_ops H).
Defined.

(** C15 ([ladder_never_crossed]): when every request names one of the two sides, the
    best bid level of the ladder stays below its best ask level: no two resting
    orders could trade with each other. *)
Theorem ladder_never_crossed sym ops pb pa :
  Forall op_ok ops → Forall op_side_valid ops →
  let L := (exec ops (OrderLadder sym, ([] : list callback))).2.1 in
  is_Some (buys L !! pb) → is_Some (sells L !! pa) → pb < pa.
Proof.
  intros H Hs. pose proof (exec_refines ops _ _ [] (rep_empty sym) H) as Hr.
  pose proof (exec_uncrossed ops _ _ (rep_empty sym)) as Hu.
  destruct (spec_exec _ _) as [[rs B] cbs]. destruct Hr as (L & -> & [_ Hf]). simpl.
  specialize (Hu ltac:(intros b a ?%elem_of_nil; done) H Hs). simpl in Hu.
  intros [lb Hb] [la Ha].
  pose proof (Hf buy_levels pb lb Hb) as Hnb. pose proof (Hf sell_levels pa la Ha) as Hna.
  destruct (at_price pb _) as [|b lb'] eqn:Eb; [done|]. destruct (at_price pa _) as [|a la'] eqn:Ea; [done|].
  assert (b ∈ at_price pb (book_side buy_levels B)) as [<- Hb']%elem_of_at_price by (rewrite Eb; constructor).
  assert (a ∈ at_price pa (book_side sell_levels B)) as [<- Ha']%elem_of_at_price by (rewrite Ea; constructor).
  by apply Hu.
Qed.

Lemma ladder_never_crossed_witness :
  Forall op_ok demo_start ∧ Forall op_side_valid demo_start ∧ (50 < 60)%Z.
Proof.
  assert (Forall op_ok demo_start) as H by (repeat constructor; by compute).
  assert (Forall op_side_valid demo_start) as Hs.
  { repeat constructor; first [by left|by right]. }
  split_and!; [exact H|exact Hs|].
  apply (ladder_never_crossed 7 demo_start 50 60 H Hs); vm_compute; eexists; reflexivity.
Defined.

(** C9 ([match_price_time]): matching an incoming order of quantity [q] against a
    represented book returns what is left of it, having filled a prefix of the
    opposite side in full and at most one more order in part; everything filled
    is within the limit, and if quantity is left the next resting order is not. *)
Theorem match_price_time id side limit L B log pl q :
  rep L B → is_u32 q →
  ∃ L' q' l cbs, match_ id side q limit pl (L, log) = (Ret q', (L', log ++ cbs)) ∧
    rep' L' (set_side pl l B) ∧ LadderSpec.filled side limit q (book_side pl B) l q'.
Proof.
  intros [HR Hfull] Hq. pose proof (run_match id side limit L B log pl q HR (Hfull pl) Hq) as Hm.
  unfold match_result in Hm. destruct (fill_queue _ _ _ _ _ _) as [[l q'] cbs] eqn:Hf.
  apply fill_queue_filled in Hf; [|apply Hq]. destruct Hm as (L' & -> & HR' & _). eauto 10.
Qed.

Lemma match_price_time_witness : ∃ L L' q' l cbs,
  rep L demo_book ∧ match_ 9 SELL 120 50 buy_levels (L, []) = (Ret q', (L', cbs)) ∧
  LadderSpec.filled SELL 50 120 (bids demo_book) l q'.
Proof.
  destruct demo_rep as (L & _ & HR).
  destruct (match_price_time 9 SELL 50 L demo_book [] buy_levels 120 HR) as (L' & q' & l & cbs & Hrun & _ & Hf).
  { by compute. }
  exists L, L', q', l, cbs. split; [exact HR|]. split; [exact Hrun|exact Hf].
Defined.

(** C16 ([new_order_conserves_quantity]): a new order under a fresh id trades some
    quantity [n] in balanced trades (one [onTrade], one passive and one active
    fill each, none beyond the limit) which the opposite side loses exactly;
    the remainder rests in its own side, or is cancelled when the order is
    immediate-or-cancel, and is what the call returns. *)
Theorem new_order_conserves_quantity ntf id side q p flags filled L B log :
  rep L B → id ∉ ids B → is_u32 q → 0 <= filled < q →
  ∃ n L' B' cbs1 cbs2,
    let opp := opp_levels side in
    let own := own_levels side in
    handle_new_order id side q p flags own ntf filled (L, log) =
      (Ret (q - filled - n), (L', log ++ cbs1 ++ cbs2)) ∧
    rep L' B' ∧ 0 <= n <= q - filled ∧ trades (b_symbol B) id side p n cbs1 ∧
    total (book_side opp B) - total (book_side opp B') = n ∧
    total (book_side own B') - total (book_side own B) = (if is_ioc flags then 0 else q - filled - n) ∧
    cbs2 = (if ntf then
              if is_ioc flags then if 0 <? q - filled - n then [onDeleteOrder id false] else []
              else [onNewOrder id (b_symbol B) side (q - filled - n) p flags]
            else []).
Proof.
  intros HR Hid Hq Hf. pose proof (r_book _ _ (rep_weak _ _ HR)) as Hok.
  destruct (spec_handle_new_fresh ntf id side q p flags filled B Hok Hid ltac:(lia) ltac:(lia))
    as (n & l & cbs1 & cbs2 & Hspec & Ht & Hn & _ & Htot & Hcbs).
  pose proof (run_handle_new ntf id side q p flags filled L B log HR Hq ltac:(unfold is_u32 in *; lia)) as Hrun.
  rewrite Hspec in Hrun. destruct Hrun as (L' & Hrun & HR'). eexists n, L', _, cbs1, cbs2.
  split; [exact Hrun|]. split; [exact HR'|]. split; [done|]. split; [done|]. clear Hspec Hrun HR'.
  unfold opp_levels in *. split_and!; [| |done].
  - destruct (_ && _); [|by rewrite book_side_set].
    assert (∀ pl l B, book_side (other pl) (set_side pl l B) = book_side (other pl) B) as Ho by (intros [] ? ?; done).
    by rewrite Ho, book_side_set.
  - assert (∀ pl l B, book_side pl (set_side (other pl) l B) = book_side pl B) as Ho by (intros [] ? ?; done).
    destruct (is_ioc flags); [rewrite andb_false_r, Ho; lia|]. rewrite andb_true_r.
    destruct (0 <? q - filled - n) eqn:Hz; [|rewrite Ho; lia].
    rewrite book_side_set, (total_perm _ _ (insert_entry_perm _ _ _)). simpl. lia.
Qed.

Lemma new_order_conserves_quantity_witness : ∃ L, rep L demo_book ∧ 4 ∉ ids demo_book ∧
  ∃ n L' B' cbs1 cbs2,
    handle_new_order 4 SELL 120 50 0 sell_levels true 0 (L, []) = (Ret (120 - 0 - n), (L', [] ++ cbs1 ++ cbs2)) ∧
    rep L' B' ∧ trades 7 4 SELL 50 n cbs1.
Proof.
  destruct demo_rep as (L & _ & HR). pose proof demo_fresh as Hid.
  destruct (new_order_conserves_quantity true 4 SELL 120 50 0 0 L demo_book [] HR Hid ltac:(by compute) ltac:(lia))
    as (n & L' & B' & cbs1 & cbs2 & Hrun & HR' & _ & Ht & _).
  exists L. split; [exact HR|]. split; [exact Hid|]. exists n, L', B', cbs1, cbs2. split; [exact Hrun|]. split; [exact HR'|exact Ht].
Defined.

(** An order that rests joins its side behind every
    order at an equal or better price and ahead of every order at a worse one;
    the others keep their order. *)
Theorem new_order_time_priority ntf id side q p flags filled L B log r L' log' :
  rep L B → id ∉ ids B → is_u32 q → 0 <= filled < q →
  handle_new_order id side q p flags (own_levels side) ntf filled (L, log) = (Ret r, (L', log')) →
  0 < r → is_ioc flags = false →
  ∃ B' l1 l2, rep L' B' ∧
    book_side (own_levels side) B = l1 ++ l2 ∧
    book_side (own_levels side) B' = l1 ++ Entry id r (q - filled - r) p side flags :: l2 ∧
    (∀ x, x ∈ l1 → better (own_levels side) p (e_price x) = false) ∧
    (∀ x, x ∈ l2 → better (own_levels side) p (e_price x) = true).
Proof.
  intros HR Hid Hq Hf Hrun Hr Hioc. pose proof (r_book _ _ (rep_weak _ _ HR)) as Hok.
  destruct (spec_handle_new_fresh ntf id side q p flags filled B Hok Hid ltac:(lia) ltac:(lia))
    as (n & l & cbs1 & cbs2 & Hspec & _).
  pose proof (run_handle_new ntf id side q p flags filled L B log HR Hq ltac:(unfold is_u32 in *; lia)) as Href.
  rewrite Hspec in Href. destruct Href as (L1 & Hrun1 & HR1). rewrite Hrun in Hrun1. injection Hrun1 as -> -> ->.
  rewrite Hioc in HR1. replace (0 <? q - filled - n) with true in HR1 by lia. simpl in HR1.
  destruct (insert_entry_split (own_levels side) (Entry id (q - filled - n) n p side flags)
    (book_side (own_levels side) B) (bk_sorted _ Hok _)) as (l1 & l2 & Hl & Hins & H1 & H2).
  replace (q - filled - (q - filled - n)) with n by lia.
  eexists _, l1, l2. split_and!; [exact HR1|done| |done|done].
  by rewrite book_side_set, Hins.
Qed.

Lemma new_order_time_priority_witness : ∃ L L' log', rep L demo_book ∧
  handle_new_order 4 BUY 20 50 0 buy_levels true 0 (L, []) = (Ret 20, (L', log')) ∧
  ∃ B', rep L' B'.
Proof.
  destruct demo_rep as (L & _ & HR). pose proof demo_fresh as Hid.
  assert (∃ L' log', handle_new_order 4 BUY 20 50 0 buy_levels true 0 (L, []) = (Ret 20, (L', log'))) as (L' & log' & Hrun).
  { pose proof (run_handle_new true 4 BUY 20 50 0 0 L demo_book [] HR ltac:(by compute) ltac:(by compute)) as H.
    unfold refines in H. destruct (spec_handle_new _ _ _ _ _ _ _ _) as [[r B'] cbs] eqn:E. vm_compute in E.
    injection E as <- <- <-. destruct H as (L' & Hrun & _). exists L'. eexists. exact Hrun. }
  exists L, L', log'. split; [exact HR|]. split; [exact Hrun|].
  destruct (new_order_time_priority true 4 BUY 20 50 0 0 L demo_book [] 20 L' log' HR Hid ltac:(by compute) ltac:(lia) Hrun ltac:(lia) eq_refl)
    as (B' & _ & _ & HR' & _). exists B'. exact HR'.
Defined.

(** A cancel request removes exactly the order it names
    and keeps the others in their order; for an id that is not resting it only
    reports a reject. *)
Theorem delete_order_exact ntf id L B log :
  rep L B →
  ∃ L' B' cbs, delete_order ntf id (L, log) = (Ret tt, (L', log ++ cbs)) ∧ rep L' B' ∧
    (∀ pl, book_side pl B' = remove_id id (book_side pl B)) ∧
    cbs = (if bool_decide (id ∈ ids B) then if ntf then [onDeleteOrder id true] else [] else [onCancelReject id]).
Proof.
  intros HR. pose proof (run_delete ntf id L B log HR) as H. unfold refines, spec_delete_order in H.
  destruct (find_id id (all_entries B)) as [e|] eqn:Hf.
  - destruct H as (L' & Hrun & HR'). eexists L', _, _. split_and!; [done|done|by intros []|].
    rewrite bool_decide_true; [done|]. apply find_id_Some in Hf as [? <-]. by apply list_elem_of_fmap_2.
  - apply find_id_None in Hf. destruct H as (L' & Hrun & HR'). eexists L', _, _. split_and!; [done|done| |].
    + intros pl. symmetry. apply remove_id_notin. intros (e & -> & He)%list_elem_of_fmap. apply Hf.
      apply list_elem_of_fmap_2, elem_of_all. eauto.
    + by rewrite bool_decide_false.
Qed.

Lemma delete_order_exact_witness : ∃ L L' B', rep L demo_book ∧
  delete_order true 2 (L, []) = (Ret tt, (L', [onDeleteOrder 2 true])) ∧ rep L' B' ∧
  bids B' = [Entry 1 100 0 50 BUY 0].
Proof.
  destruct demo_rep as (L & _ & HR).
  destruct (delete_order_exact true 2 L demo_book [] HR) as (L' & B' & cbs & Hrun & HR' & Hside & Hcbs).
  exists L, L', B'. vm_compute in Hcbs. subst cbs. split; [exact HR|]. split; [exact Hrun|]. split; [exact HR'|].
  exact (Hside buy_levels).
Defined.

(** A modification that keeps price and side keeps the order's
    place in the queue and never throws; it announces [quantity - filled] while
    the resting order is given the whole new [quantity], so an order with
    earlier fills then rests with more than was announced. *)
Theorem modify_in_place id q L B log e :
  rep L B → find_id id (all_entries B) = Some e → is_u32 q → e_filled e < q →
  ∃ L' B', modify_order id (e_side e) q (e_price e) (L, log) =
      (Ret tt, (L', log ++ [onModifyOrder id (b_symbol B) (e_side e) (q - e_filled e) (e_price e)])) ∧
    rep L' B' ∧ (∀ pl, book_side pl B' = update_id id (set_qty q) (book_side pl B)) ∧
    find_id id (all_entries B') = Some (set_qty q e).
Proof.
  intros HR Hf Hq Hlt. pose proof (run_modify id (e_side e) q (e_price e) L B log HR Hq) as H.
  unfold refines, spec_modify_order in H. rewrite Hf in H. replace (q <=? e_filled e) with false in H by lia.
  rewrite !Z.eqb_refl in H. simpl in H. destruct H as (L' & Hrun & HR'). eexists L', _.
  split_and!; [done|done|by intros []|]. apply find_id_Some in Hf as [He <-].
  apply find_id_eq; [apply (bk_ids _ (r_book _ _ (rep_weak _ _ HR')))| |done].
  rewrite all_entries_update. unfold update_id. apply list_elem_of_fmap. exists e.
  by rewrite decide_True.
Qed.

Lemma modify_in_place_witness : ∃ L L' B', rep L (mkBook [Entry 1 70 30 50 BUY 0] [] 7) ∧
  modify_order 1 BUY 100 50 (L, []) = (Ret tt, (L', [onModifyOrder 1 7 BUY 70 50])) ∧
  rep L' B' ∧ find_id 1 (all_entries B') = Some (Entry 1 100 30 50 BUY 0).
Proof.
  pose proof (exec_refines [New true 1 BUY 100 50 0 0; New true 2 SELL 30 50 0 0] (OrderLadder 7) (empty_book 7) [] (rep_empty 7)) as H.
  destruct H as (L & _ & HR); [repeat constructor; by compute|].
  exists L. set (B0 := mkBook [Entry 1 70 30 50 BUY 0] [] 7).
  destruct (modify_in_place 1 100 L B0 [] (Entry 1 70 30 50 BUY 0) HR eq_refl ltac:(by compute) ltac:(by compute))
    as (L' & B' & Hrun & HR' & _ & Hfind).
  exists L', B'. split; [exact HR|]. split; [exact Hrun|]. split; [exact HR'|exact Hfind].
Defined.

(** A modification to another price or side cancels the order
    and enters [quantity - filled] anew under the same id: it trades [n], and
    what is left rests with [n] as its filled quantity — the fills it had
    before the modification are no longer counted — and is announced; nothing
    left, or nothing left of an immediate order, is announced as a deletion. *)
Theorem modify_requeues id side q p L B log e :
  rep L B → find_id id (all_entries B) = Some e → is_u32 q → e_filled e < q →
  (e_price e, e_side e) ≠ (p, side) →
  ∃ n L' B' cbs, 
    modify_order id side q p (L, log) =
      (Ret tt, (L', log ++ cbs ++ [if 0 <? q - e_filled e - n then onModifyOrder id (b_symbol B) side (q - e_filled e - n) p
                                   else onDeleteOrder id true])) ∧
    rep L' B' ∧ trades (b_symbol B) id side p n cbs ∧
    find_id id (all_entries B') =
      if 0 <? q - e_filled e - n then Some (Entry id (q - e_filled e - n) n p side (e_flags e)) else None.
Proof.
  intros HR Hf Hq Hlt Hne. pose proof (run_modify id side q p L B log HR Hq) as H.
  pose proof (r_book _ _ (rep_weak _ _ HR)) as Hok.
  destruct (rep'_find_Some L B id e (rep_weak _ _ HR) Hf) as (_ & _ & _ & _ & _ & _ & <- & [_ Hfl _ Hioc]).
  assert (e_id e ∉ ids (remove_order (e_id e) B)) as Hid by by intros [? _]%elem_of_ids_remove.
  unfold refines, spec_modify_order in H. rewrite Hf in H. replace (q <=? e_filled e) with false in H by lia.
  replace ((e_price e =? p) && (e_side e =? side)) with false in H.
  2: { symmetry. apply andb_false_iff. destruct (e_price e =? p) eqn:E1, (e_side e =? side) eqn:E2; auto.
       destruct Hne. f_equal; lia. }
  destruct (spec_handle_new_fresh false (e_id e) side q p (e_flags e) (e_filled e) (remove_order (e_id e) B)
    (book_ok_remove _ _ Hok) Hid Hlt (proj1 Hfl)) as (n & l & cbs1 & cbs2 & Hspec & Ht & Hn & [_ Hfi] & _ & ->).
  rewrite Hspec, app_nil_r, Hioc, andb_true_r in H. clear Hspec. destruct H as (L' & Hrun & HR').
  eexists n, L', _, cbs1. split; [|split; [exact HR'|split; [exact Ht|]]].
  { rewrite Hrun, Z.gtb_ltb. destruct (0 <? q - e_filled e - n); by rewrite ?symbol_set_side. }
  destruct (0 <? q - e_filled e - n) eqn:Hz.
  - apply find_id_eq; [apply (bk_ids _ (r_book _ _ (rep_weak _ _ HR')))| |done].
    apply elem_of_all. exists (own_levels side). rewrite book_side_set, elem_of_insert_entry. by left.
  - apply find_id_None. intros (x & Hx & [pl Hin]%elem_of_all)%list_elem_of_fmap. apply Hid.
    enough (e_id x ∈ ids (remove_order (e_id e) B)) as Hx' by by rewrite <- Hx in Hx'.
    destruct (book_side_set_case (opp_levels side) pl l (remove_order (e_id e) B)) as [[-> Heq]|[-> Heq]];
      rewrite Heq in Hin.
    + destruct (filled_in _ _ _ _ _ _ _ Hfi Hin) as (y & Hy & _ & <-). apply list_elem_of_fmap_2, elem_of_all. eauto.
    + apply list_elem_of_fmap_2, elem_of_all. eauto.
Qed.

Lemma modify_requeues_witness : ∃ n L L' B' cbs, rep L (mkBook [Entry 1 70 30 50 BUY 0] [] 7) ∧
  modify_order 1 BUY 100 51 (L, []) = (Ret tt, (L', [] ++ cbs ++ [if 0 <? 100 - 30 - n then onModifyOrder 1 7 BUY (100 - 30 - n) 51 else onDeleteOrder 1 true])) ∧
  rep L' B' ∧ find_id 1 (all_entries B') = if 0 <? 100 - 30 - n then Some (Entry 1 (100 - 30 - n) n 51 BUY 0) else None.
Proof.
  pose proof (exec_refines [New true 1 BUY 100 50 0 0; New true 2 SELL 30 50 0 0] (OrderLadder 7) (empty_book 7) [] (rep_empty 7)) as H.
  destruct H as (L & _ & HR); [repeat constructor; by compute|]. set (B0 := mkBook [Entry 1 70 30 50 BUY 0] [] 7).
  destruct (modify_requeues 1 BUY 100 51 L B0 [] (Entry 1 70 30 50 BUY 0) HR eq_refl ltac:(by compute) ltac:(by compute) ltac:(by intros [=]))
    as (n & L' & B' & cbs & Hrun & HR' & _ & Hfind).
  exists n, L, L', B', cbs. split; [exact HR|]. split; [exact Hrun|]. split; [exact HR'|exact Hfind].
Defined.

(** The side byte is not checked.  With a byte that
    is neither side the limit price plays no part: the order takes the bids at
    any price until its quantity or the bids are exhausted. *)
Theorem invalid_side_sweeps_bids ntf id side q p flags filled L B log :
  rep L B → ¬ side_valid side → id ∉ ids B → is_u32 q → 0 <= filled < q →
  ∃ L' B' cbs, handle_new_order id side q p flags sell_levels ntf filled (L, log) =
      (Ret (q - filled - Z.min (q - filled) (total (bids B))), (L', log ++ cbs)) ∧ rep L' B'.
Proof.
  intros HR Hside Hid Hq Hf. pose proof (r_book _ _ (rep_weak _ _ HR)) as Hok.
  assert (own_levels side = sell_levels) as Hown.
  { unfold own_levels. destruct (side =? BUY) eqn:E; [|done]. destruct Hside. left. lia. }
  destruct (spec_handle_new_fresh ntf id side q p flags filled B Hok Hid ltac:(lia) ltac:(lia))
    as (n & l & cbs1 & cbs2 & Hspec & Ht & Hn & [_ Hfi] & Htot & _).
  pose proof (run_handle_new ntf id side q p flags filled L B log HR Hq ltac:(unfold is_u32 in *; lia)) as Hrun.
  rewrite Hspec, Hown in Hrun. destruct Hrun as (L' & Hrun & HR').
  unfold opp_levels in *. rewrite Hown in *. simpl in Hfi, Htot.
  replace (Z.min (q - filled) (total (bids B))) with n; [by eexists L', _, _|].
  assert (∀ l : list entry, (∀ e, e ∈ l → 0 < e_qty e) → 0 <= total l) as Hpos.
  { clear. induction l as [|e l IH]; intros He; simpl; [done|].
    assert (0 < e_qty e) by (apply He; constructor). assert (0 <= total l); [|lia]. apply IH. intros. apply He. list_in. }
  assert (∀ e, e ∈ bids B → 0 < e_qty e) as Hq0 by (intros e He; apply (ok_qty _ _ (bk_entries _ Hok buy_levels e He))).
  inversion Hfi as [l1 l2 Hl _ Hle Hstop Hl2 Hn1|l1 e l2 Hl _ Hlt Hl2 Hn1]; subst l.
  - destruct Hstop as [?|Hstop].
    + rewrite Hl, total_app in *. assert (0 <= total l2) by (apply Hpos; intros; apply Hq0; list_in). lia.
    + destruct l2 as [|e l2]; [simpl in *; lia|]. specialize (Hstop e eq_refl). by rewrite crosses_invalid in Hstop.
  - rewrite Hl, total_app in *. simpl in *.
    assert (0 <= total l2) by (apply Hpos; intros; apply Hq0; rewrite elem_of_app, elem_of_cons; auto). lia.
Qed.

Lemma invalid_side_sweeps_bids_witness : ∃ L L' B' cbs, rep L demo_book ∧ ¬ side_valid 0 ∧
  handle_new_order 4 0 120 1000 0 sell_levels true 0 (L, []) = (Ret 0, (L', [] ++ cbs)) ∧ rep L' B'.
Proof.
  destruct demo_rep as (L & _ & HR). assert (¬ side_valid 0) as Hs by by intros [?|?].
  destruct (invalid_side_sweeps_bids true 4 0 120 1000 0 0 L demo_book [] HR Hs demo_fresh ltac:(by compute) ltac:(lia))
    as (L' & B' & cbs & Hrun & HR'). exists L, L', B', cbs. split; [exact HR|]. split; [exact Hs|]. split; [exact Hrun|exact HR'].
Defined.
