(* ===== verification/Broker.v ===== *)
(** * [matching_engine/me_broker.H]: the matching engine's broker

    The broker takes requests from the client handler's queue, runs them on
    the ladder of their symbol and, as the ladder's subscriber, turns what
    happens into market data, clearing fills and responses.  The two queues are
    modelled as lists: their capacity (80000) is not. *)
From Stdlib Require Import Init.Byte.
From S2P Require Import Prelude Protocol MdMcast Clearing OrderLadder.

(** The clock and the two sockets of the broker. *)
Class BrokerWorld := {
  bw_clock : nat → Z;
  bw_md : World;
  bw_clearing : World;
}.

Definition calm_broker_world : BrokerWorld :=
  {| bw_clock := Z.of_nat; bw_md := calm_world; bw_clearing := calm_world |}.

Module MatchingEngineBroker.

(** [symbol_to_matching_engine] holds the ladders behind the pointers; a
    symbol without an entry and one with a null entry are the same. *)
Record t := mk {
  client_seq : Z;
  client_id : Z;
  aggressor_side : Z;
  last_published_ts : Z;
  readings : nat;
  to_client : list oe.oe_payload;
  from_client : list oe.oe_payload;
  publisher : MarketDataPublisher.t;
  clearing_publisher : ClearingPublisher.t;
  symbol_to_matching_engine : gmap Z Ladder;
  exch_order_id_to_client_id : gmap Z Z;
}.

Definition initial : t :=
  mk 0 0 md.SIDE.BUY 0 0 [] [] MarketDataPublisher.initial ClearingPublisher.initial ∅ ∅.

Definition set_client (seq id : Z) (b : t) : t :=
  mk seq id (aggressor_side b) (last_published_ts b) (readings b) (to_client b) (from_client b) (publisher b)
    (clearing_publisher b) (symbol_to_matching_engine b) (exch_order_id_to_client_id b).
Definition set_aggressor_side (d : Z) (b : t) : t :=
  mk (client_seq b) (client_id b) d (last_published_ts b) (readings b) (to_client b) (from_client b) (publisher b)
    (clearing_publisher b) (symbol_to_matching_engine b) (exch_order_id_to_client_id b).
Definition set_last_published_ts (ts : Z) (b : t) : t :=
  mk (client_seq b) (client_id b) (aggressor_side b) ts (readings b) (to_client b) (from_client b) (publisher b)
    (clearing_publisher b) (symbol_to_matching_engine b) (exch_order_id_to_client_id b).
Definition count_reading (b : t) : t :=
  mk (client_seq b) (client_id b) (aggressor_side b) (last_published_ts b) (S (readings b)) (to_client b) (from_client b) (publisher b)
    (clearing_publisher b) (symbol_to_matching_engine b) (exch_order_id_to_client_id b).
Definition set_to_client (q : list oe.oe_payload) (b : t) : t :=
  mk (client_seq b) (client_id b) (aggressor_side b) (last_published_ts b) (readings b) q (from_client b) (publisher b)
    (clearing_publisher b) (symbol_to_matching_engine b) (exch_order_id_to_client_id b).
Definition set_from_client (q : list oe.oe_payload) (b : t) : t :=
  mk (client_seq b) (client_id b) (aggressor_side b) (last_published_ts b) (readings b) (to_client b) q (publisher b)
    (clearing_publisher b) (symbol_to_matching_engine b) (exch_order_id_to_client_id b).
Definition set_publisher (p : MarketDataPublisher.t) (b : t) : t :=
  mk (client_seq b) (client_id b) (aggressor_side b) (last_published_ts b) (readings b) (to_client b) (from_client b) p
    (clearing_publisher b) (symbol_to_matching_engine b) (exch_order_id_to_client_id b).
Definition set_clearing_publisher (p : ClearingPublisher.t) (b : t) : t :=
  mk (client_seq b) (client_id b) (aggressor_side b) (last_published_ts b) (readings b) (to_client b) (from_client b) (publisher b)
    p (symbol_to_matching_engine b) (exch_order_id_to_client_id b).
Definition set_ladder (symbol : Z) (L : Ladder) (b : t) : t :=
  mk (client_seq b) (client_id b) (aggressor_side b) (last_published_ts b) (readings b) (to_client b) (from_client b) (publisher b)
    (clearing_publisher b) (<[symbol := L]> (symbol_to_matching_engine b)) (exch_order_id_to_client_id b).
(** The key type is [uint32_t], the order id a [uint64_t]. *)
Definition set_order_client (order_id client : Z) (b : t) : t :=
  mk (client_seq b) (client_id b) (aggressor_side b) (last_published_ts b) (readings b) (to_client b) (from_client b) (publisher b)
    (clearing_publisher b) (symbol_to_matching_engine b) (<[u32 order_id := client]> (exch_order_id_to_client_id b)).

Definition HEARTBEAT_INTERVAL : Z := 500000000.

Definition add_symbol (symbol : Z) : M t unit := modify (set_ladder symbol (OrderLadder symbol)).

Section ops.
Context `{BW : BrokerWorld}.
Abbreviation BM := (M t).

Definition nanotime : BM Z :=
  n ← gets readings; modify count_reading;; mret (clock_nanotime (bw_clock n)).

Definition touch : BM unit := ts ← nanotime; modify (set_last_published_ts ts).

Definition on_md (m : M MarketDataPublisher.t unit) : BM unit := zoom publisher set_publisher m.
Definition on_clearing (m : M ClearingPublisher.t unit) : BM unit := zoom clearing_publisher set_clearing_publisher m.

Definition emplace (msg_type order_id symbol client_seq client_id side quantity price flags : Z) : BM unit :=
  q ← gets to_client;
  modify (set_to_client (q ++ [oe.mk_oe_payload msg_type order_id symbol client_seq client_id side quantity price flags])).

(** [emplace] with the sequence number and client of the request. *)
Definition respond (msg_type order_id symbol side quantity price flags : Z) : BM unit :=
  seq ← gets client_seq;
  c ← gets client_id;
  emplace msg_type order_id symbol seq c side quantity price flags.

Definition handle_onNewOrder (order_id symbol side quantity price flags : Z) : BM unit :=
  when (quantity >? 0)
    (on_md (@MarketDataPublisher.publish_new_order bw_md order_id symbol side quantity (u32 price) flags);; touch);;
  respond oe.MSG_TYPE.ACK order_id symbol side quantity price flags.

Definition handle_onModifyOrder (order_id symbol side quantity price : Z) : BM unit :=
  on_md (@MarketDataPublisher.publish_modify_order bw_md order_id side quantity (u32 price));;
  touch;;
  respond oe.MSG_TYPE.ACK order_id symbol side quantity price 0.

Definition handle_onDeleteOrder (order_id : Z) (publish : bool) : BM unit :=
  when publish (on_md (@MarketDataPublisher.publish_delete_order bw_md order_id);; touch);;
  respond oe.MSG_TYPE.CLOSE order_id 0 BUY 0 0 0.

Definition handle_onCancelReject (order_id : Z) : BM unit :=
  respond oe.MSG_TYPE.REJECT order_id 0 BUY 0 0 0.

Definition handle_onTrade (order_id quantity price : Z) : BM unit :=
  on_md (MarketDataPublisher.queue_trade order_id quantity (u32 price));;
  touch.

Definition no_client (order_id : Z) : exn :=
  runtime_error ("Failed to find client id for order id " +:+ pretty order_id).

Definition handle_onFill (order_id symbol side quantity price flags : Z) (active : bool) : BM unit :=
  seq ← gets client_seq;
  let client_seq_sent := if active then seq else 0 in
  c ← gets client_id;
  ids ← gets exch_order_id_to_client_id;
  fill_client_id ← (if active then mret c
                    else match ids !! u32 order_id with
                         | Some c => mret c
                         | None => throw (no_client order_id)
                         end);
  emplace oe.MSG_TYPE.FILL order_id symbol client_seq_sent fill_client_id side quantity price flags;;
  on_clearing (@ClearingPublisher.publish_fill bw_clearing order_id fill_client_id symbol quantity price side).

#[global] Instance broker_subscriber : Subscriber t := λ cb,
  match cb with
  | onNewOrder i y d q p f => handle_onNewOrder i y d q p f
  | onModifyOrder i y d q p => handle_onModifyOrder i y d q p
  | onDeleteOrder i publish => handle_onDeleteOrder i publish
  | onCancelReject i => handle_onCancelReject i
  | onTrade i q p => handle_onTrade i q p
  | onFill i y d q p f active => handle_onFill i y d q p f active
  end.

Definition finishedPacket (symbol : Z) : BM unit :=
  d ← gets aggressor_side;
  on_md (@MarketDataPublisher.publish_queued_trades bw_md symbol d);;
  touch.

(** [ladder->op(…)]: the ladder behind the pointer runs with the broker as
    its subscriber. *)
Definition on_ladder (symbol : Z) (op : M (Ladder * t) unit) : BM unit :=
  ladders ← gets symbol_to_matching_engine;
  match ladders !! symbol with
  | None => throw (runtime_error "Invalid symbol")
  | Some L => (λ b, let '(r, (L, b)) := op (L, b) in (r, set_ladder symbol L b)) : BM unit
  end.

(** The [switch] over the message type. *)
Definition handle (payload : oe.oe_payload) : BM unit :=
  let symbol := oe.symbol payload in
  let id := oe.exch_order_id payload in
  let ty := oe.msg_type payload in
  if ty =? oe.MSG_TYPE.NEW_ORDER then
    ladders ← gets symbol_to_matching_engine;
    match ladders !! symbol with
    | None => throw (runtime_error "Invalid symbol")
    | Some _ =>
        modify (set_order_client id (oe.client_id payload));;
        modify (set_aggressor_side (oe.side payload));;
        on_ladder symbol (new_order true id (oe.side payload) (oe.quantity payload) (s32 (oe.price payload)) (oe.flags payload) 0)
    end
  else if ty =? oe.MSG_TYPE.DELETE_ORDER then
    on_ladder symbol (delete_order true id)
  else if ty =? oe.MSG_TYPE.MODIFY_ORDER then
    ladders ← gets symbol_to_matching_engine;
    match ladders !! symbol with
    | None => throw (runtime_error "Invalid symbol")
    | Some _ =>
        modify (set_aggressor_side (oe.side payload));;
        on_ladder symbol (modify_order id (oe.side payload) (oe.quantity payload) (s32 (oe.price payload)))
    end
  else if ty =? oe.MSG_TYPE.REJECT then
    seq ← gets client_seq;
    emplace ty id symbol seq (oe.client_id payload) (oe.side payload) (oe.quantity payload) (oe.price payload) (oe.flags payload)
  else if bool_decide (ty ∈ [oe.MSG_TYPE.ERROR; oe.MSG_TYPE.LOGIN_RESPONSE; oe.MSG_TYPE.ACK; oe.MSG_TYPE.FILL;
                             oe.MSG_TYPE.CLOSE; oe.MSG_TYPE.LOGIN]) then
    throw (runtime_error ("Invalid message type " +:+ pretty ty))
  else mret tt.

(** [while (from_client.front())]; a request is popped when it is done. *)
Fixpoint process_requests (fuel : nat) : BM unit :=
  match fuel with
  | O => throw out_of_fuel
  | S fuel =>
      q ← gets from_client;
      match q with
      | [] => mret tt
      | payload :: _ =>
          modify (set_client (oe.client_seq payload) (oe.client_id payload));;
          handle payload;;
          finishedPacket (oe.symbol payload);;
          q ← gets from_client;
          modify (set_from_client (list.tail q));;
          process_requests fuel
      end
  end.

(** No handler adds to [from_client]: one iteration per waiting request is
    enough ([BrokerRefine] proves that the fuel never runs out). *)
Definition process : BM unit :=
  now ← nanotime;
  last ← gets last_published_ts;
  when (u64 (now - last) >? HEARTBEAT_INTERVAL)
    (on_md (@MarketDataPublisher.publish_hearbeat bw_md);; touch);;
  q ← gets from_client;
  process_requests (S (length q)).
End ops.
End MatchingEngineBroker.
