(* ===== verification/BrokerRefine.v ===== *)
(** * The broker turns the book's callbacks into messages

    The ladder run with the broker as its subscriber delivers the callbacks of
    the abstract book; each adds a response to [to_client], publications to
    the market data publisher and a clearing fill.  The invariant of the broker
    says that every ladder represents a book and that the client of every
    resting order is known. *)
From Stdlib Require Import Init.Byte.
From S2P Require Import Prelude Protocol MdMcast MdStream SnapshotClient Clearing OrderLadder LadderSpec LadderRep LadderMatch LadderRefine LadderProps LadderReplay Broker.
Import MatchingEngineBroker.

(** ** Programs that throw one exception only *)

Definition only_throws {St A} (E : exn) (m : M St A) : Prop := ∀ s e s', m s = (Throw e, s') → e = E.

Section only_throws.
Context {St : Type} (E : exn).

Lemma ot_ret {A} (a : A) : only_throws E (mret a : M St A).
Proof. intros s e s' H. discriminate. Qed.
Lemma ot_throw {A} : only_throws E (throw E : M St A).
Proof. intros s e s' [= <- _]. done. Qed.
Lemma ot_gets {A} (f : St → A) : only_throws E (gets f).
Proof. intros s e s' H. discriminate. Qed.
Lemma ot_modify (f : St → St) : only_throws E (modify f).
Proof. intros s e s' H. discriminate. Qed.
Lemma ot_bind {A C} (m : M St A) (k : A → M St C) :
  only_throws E m → (∀ a, only_throws E (k a)) → only_throws E (mbind k m).
Proof.
  intros Hm Hk s e s'. unfold mbind, M_bind. destruct (m s) as [[a|e1] s1] eqn:Hs; [apply Hk|].
  intros [= -> _]. by eapply Hm.
Qed.
Lemma ot_when (b : bool) (m : M St unit) : only_throws E m → only_throws E (when b m).
Proof. destruct b; [done|]. intros _. apply ot_ret. Qed.
Lemma ot_for_each {A} (f : A → M St unit) xs : (∀ x, only_throws E (f x)) → only_throws E (for_each xs f).
Proof. intros Hf. induction xs as [|x xs IH]; simpl; [apply ot_ret|]. apply ot_bind; auto. Qed.
End only_throws.

Create HintDb throws.
#[export] Hint Resolve ot_ret ot_throw ot_gets ot_modify : throws.

Ltac throws := repeat first
  [ solve [auto with throws nocore]
  | apply ot_bind; [|intros ?]
  | apply ot_when
  | apply ot_for_each; intros ?
  | match goal with |- only_throws _ (match ?x with _ => _ end) => destruct x end ].

Lemma send_throws `{World} : only_throws send_failed MarketDataPublisher.send.
Proof. unfold MarketDataPublisher.send. throws. Qed.
#[export] Hint Resolve send_throws : throws.

Lemma md_nanotime_throws `{World} : only_throws send_failed MarketDataPublisher.nanotime.
Proof. unfold MarketDataPublisher.nanotime. throws. Qed.
#[export] Hint Resolve md_nanotime_throws : throws.

Lemma write_msg_throws `{World} {Msg} (c : codec Msg) hdr msg : only_throws send_failed (MarketDataPublisher.write_msg c hdr msg).
Proof. unfold MarketDataPublisher.write_msg. throws. Qed.
#[export] Hint Resolve write_msg_throws : throws.

Lemma pub_run_throws `{World} o : only_throws send_failed (pub_run o).
Proof.
  destruct o; unfold pub_run, MarketDataPublisher.publish_new_order, MarketDataPublisher.publish_delete_order,
    MarketDataPublisher.publish_modify_order, MarketDataPublisher.queue_trade, MarketDataPublisher.publish_queued_trades,
    MarketDataPublisher.publish_hearbeat; throws.
Qed.

Lemma publish_throws `{World} i c y q p d : only_throws send_failed (ClearingPublisher.publish_fill i c y q p d).
Proof. unfold ClearingPublisher.publish_fill, ClearingPublisher.sendto. throws. Qed.
#[export] Hint Resolve pub_run_throws publish_throws : throws.

(** ** What one callback does to the broker *)

Definition cb_client (b : t) (id : Z) (active : bool) : Z :=
  if active then client_id b else default 0 (exch_order_id_to_client_id b !! u32 id).

Definition cb_payload (b : t) (cb : callback) : list oe.oe_payload :=
  let msg ty i y d q p f := [oe.mk_oe_payload ty i y (client_seq b) (client_id b) d q p f] in
  match cb with
  | onNewOrder i y d q p f => msg oe.MSG_TYPE.ACK i y d q p f
  | onModifyOrder i y d q p => msg oe.MSG_TYPE.ACK i y d q p 0
  | onDeleteOrder i _ => msg oe.MSG_TYPE.CLOSE i 0 BUY 0 0 0
  | onCancelReject i => msg oe.MSG_TYPE.REJECT i 0 BUY 0 0 0
  | onTrade _ _ _ => []
  | onFill i y d q p f active =>
      [oe.mk_oe_payload oe.MSG_TYPE.FILL i y (if active then client_seq b else 0) (cb_client b i active) d q p f]
  end.

Definition cb_pubs (cb : callback) : list pub_op :=
  match cb with
  | onNewOrder i y d q p f => if q >? 0 then [PublishNew i y d q (u32 p) f] else []
  | onModifyOrder i y d q p => [PublishModify i d q (u32 p)]
  | onDeleteOrder i publish => if publish then [PublishDelete i] else []
  | onTrade i q p => [QueueTrade i q (u32 p)]
  | _ => []
  end.

Definition cb_fills (b : t) (cb : callback) : list fill_info :=
  match cb with
  | onFill i y d q p f active => [Fill (cb_client b i active) y q p d]
  | _ => []
  end.

(** The client of a passive fill is known. *)
Definition routed (b : t) (cb : callback) : Prop :=
  match cb with onFill i _ _ _ _ _ false => is_Some (exch_order_id_to_client_id b !! u32 i) | _ => True end.

(** The part of the broker callbacks do not change. *)
Record same_session (b b' : t) : Prop := {
  ss_seq : client_seq b' = client_seq b;
  ss_client : client_id b' = client_id b;
  ss_side : aggressor_side b' = aggressor_side b;
  ss_requests : from_client b' = from_client b;
  ss_ladders : symbol_to_matching_engine b' = symbol_to_matching_engine b;
  ss_ids : exch_order_id_to_client_id b' = exch_order_id_to_client_id b;
}.

Section effects.
Context `{BW : BrokerWorld}.

Record effects (b : t) (cbs : list callback) (b' : t) : Prop := {
  ef_session : same_session b b';
  ef_to_client : to_client b' = to_client b ++ (cbs ≫= cb_payload b);
  ef_md : for_each (cbs ≫= cb_pubs) (@pub_run bw_md) (publisher b) = (Ret tt, publisher b');
  ef_clearing : for_each (cbs ≫= cb_fills b) (@publish bw_clearing) (clearing_publisher b) = (Ret tt, clearing_publisher b');
}.

Lemma same_session_refl b : same_session b b.
Proof. by split. Qed.

Lemma same_session_trans b1 b2 b3 : same_session b1 b2 → same_session b2 b3 → same_session b1 b3.
Proof. intros [? ? ? ? ? ?] [? ? ? ? ? ?]. split; congruence. Qed.

Lemma cb_payload_session b b' cb : same_session b b' → cb_payload b' cb = cb_payload b cb.
Proof. intros [Hs Hc _ _ _ Hi]. destruct cb; simpl; unfold cb_client; rewrite ?Hs, ?Hc, ?Hi; done. Qed.

Lemma cb_fills_session b b' cb : same_session b b' → cb_fills b' cb = cb_fills b cb.
Proof. intros [_ Hc _ _ _ Hi]. destruct cb; simpl; unfold cb_client; rewrite ?Hc, ?Hi; done. Qed.

Lemma routed_session b b' cb : same_session b b' → routed b cb → routed b' cb.
Proof. intros [_ _ _ _ _ Hi]. destruct cb as [| | | | |? ? ? ? ? ? []]; simpl; by rewrite ?Hi. Qed.

(** One publication of the market data publisher, inside the broker. *)
Lemma run_on_md o b :
  let '(r, p) := @pub_run bw_md o (publisher b) in
  on_md (@pub_run bw_md o) b = (r, set_publisher p b) ∧ (r = Ret tt ∨ r = Throw send_failed).
Proof.
  unfold on_md, zoom. destruct (pub_run o (publisher b)) as [[[]|e] p] eqn:E; [auto|]. split; [done|].
  right. f_equal. by eapply pub_run_throws.
Qed.
End effects.

Section notify.
Context `{BW : BrokerWorld}.

Lemma effects_intro b cb b' :
  for_each (cb_pubs cb) (@pub_run bw_md) (publisher b) = (Ret tt, publisher b') →
  for_each (cb_fills b cb) (@publish bw_clearing) (clearing_publisher b) = (Ret tt, clearing_publisher b') →
  same_session b b' → to_client b' = to_client b ++ cb_payload b cb → effects b [cb] b'.
Proof.
  intros Hm Hc Hs Ht. split; [done|..]; rewrite ?bind_cons, ?app_nil_r; simpl; by rewrite ?app_nil_r.
Qed.

(** A publication followed by the response. *)
Lemma published_effects o b cb (k : M t unit) :
  cb_pubs cb = [o] → cb_fills b cb = [] →
  (∀ p, ∃ b', k (set_publisher p b) = (Ret tt, b') ∧ same_session b b' ∧ publisher b' = p ∧
     clearing_publisher b' = clearing_publisher b ∧ to_client b' = to_client b ++ cb_payload b cb) →
  let '(r, b') := (on_md (@pub_run bw_md o);; k) b in (r = Ret tt ∧ effects b [cb] b') ∨ r = Throw send_failed.
Proof.
  intros Ho Hf Hk. pose proof (run_on_md o b) as Hm. unfold mbind, M_bind.
  destruct (pub_run o (publisher b)) as [r p1] eqn:E. destruct Hm as [-> [-> | ->]]; [|auto].
  destruct (Hk p1) as (b' & -> & Hs & Hp & Hc & Ht). left. split; [done|].
  apply effects_intro; [|by rewrite Hf, Hc|done|done]. by rewrite Ho, for_each_one, Hp.
Qed.

Lemma fill_effects i y d q p f active b :
  routed b (onFill i y d q p f active) →
  let '(r, b') := handle_onFill i y d q p f active b in
  (r = Ret tt ∧ effects b [onFill i y d q p f active] b') ∨ r = Throw send_failed.
Proof.
  intros Hr. unfold handle_onFill. erewrite bind_ret by reflexivity. cbn beta.
  erewrite bind_ret by reflexivity. cbn beta. erewrite bind_ret by reflexivity. cbn beta.
  erewrite bind_ret.
  2: { instantiate (2 := cb_client b i active). destruct active; [reflexivity|].
       destruct Hr as [c Hc]. unfold cb_client. rewrite Hc. reflexivity. }
  cbn beta. unfold emplace. rewrite bind_assoc. erewrite bind_ret by reflexivity. cbn beta.
  erewrite bind_ret by reflexivity. cbn beta. unfold on_clearing, zoom.
  set (b1 := set_to_client _ b). change (clearing_publisher b1) with (clearing_publisher b).
  change (@ClearingPublisher.publish_fill bw_clearing i) with (@ClearingPublisher.publish_fill bw_clearing 0).
  destruct (ClearingPublisher.publish_fill _ _ _ _ _ _ (clearing_publisher b)) as [[[]|e] c'] eqn:E.
  - left. split; [done|]. apply effects_intro; [done| |done|done].
    cbn [cb_fills]. rewrite for_each_one. exact E.
  - right. f_equal. eapply publish_throws. exact E.
Qed.

(** A callback has its effects, or the network refused a packet. *)
Lemma notify_effects cb b : routed b cb →
  let '(r, b') := notify cb b in (r = Ret tt ∧ effects b [cb] b') ∨ r = Throw send_failed.
Proof.
  intros Hr. destruct cb as [i y d q p f|i y d q p|i pub|i|i q p|i y d q p f active]; cbn [notify broker_subscriber].
  - unfold handle_onNewOrder. destruct (q >? 0) eqn:Hq; cbn [when].
    + pose proof (published_effects (PublishNew i y d q (u32 p) f) b (onNewOrder i y d q p f)
        (touch;; respond oe.MSG_TYPE.ACK i y d q p f)) as H.
      rewrite bind_assoc. apply H; [simpl; by rewrite Hq|done|]. intros p'. by eexists.
    + left. split; [done|]. apply effects_intro; simpl; rewrite ?Hq; done.
  - unfold handle_onModifyOrder. apply (published_effects (PublishModify i d q (u32 p))); [done|done|]. intros p'. by eexists.
  - unfold handle_onDeleteOrder. destruct pub; cbn [when].
    + rewrite bind_assoc. apply (published_effects (PublishDelete i)); [done|done|]. intros p'. by eexists.
    + left. split; [done|]. by apply effects_intro.
  - left. split; [done|]. by apply effects_intro.
  - unfold handle_onTrade. apply (published_effects (QueueTrade i q (u32 p))); [done|done|]. intros p'. eexists. simpl. by rewrite app_nil_r.
  - by apply fill_effects.
Qed.

(** The effects of a list of callbacks, all routed. *)
Lemma effects_nil b : effects b [] b.
Proof. split; [apply same_session_refl|by rewrite app_nil_r|done|done]. Qed.

Lemma effects_app b cbs1 b1 cbs2 b2 : effects b cbs1 b1 → effects b1 cbs2 b2 → effects b (cbs1 ++ cbs2) b2.
Proof.
  intros [Hs1 Ht1 Hm1 Hc1] [Hs2 Ht2 Hm2 Hc2]. split.
  - by eapply same_session_trans.
  - rewrite Ht2, Ht1, bind_app, <- app_assoc. do 2 f_equal. apply list_bind_ext; [|done].
    intros cb. by apply cb_payload_session.
  - rewrite bind_app, for_each_app. by erewrite bind_ret.
  - rewrite bind_app, for_each_app. erewrite bind_ret by exact Hc1.
    erewrite list_bind_ext; [exact Hc2| |done]. intros cb. symmetry. by apply cb_fills_session.
Qed.

Lemma replay_effects cbs : ∀ b, Forall (routed b) cbs →
  let '(r, b') := replay cbs b in (r = Ret tt ∧ effects b cbs b') ∨ r = Throw send_failed.
Proof.
  induction cbs as [|cb cbs IH]; intros b Hr; simpl; [left; split; [done|apply effects_nil]|].
  apply Forall_cons in Hr as [Hcb Hr]. pose proof (notify_effects cb b Hcb) as Hn. unfold mbind, M_bind.
  destruct (notify cb b) as [r b1]. destruct Hn as [[-> He]| ->]; [|auto].
  assert (Forall (routed b1) cbs) as Hr1.
  { eapply Forall_impl; [exact Hr|]. intros x. apply routed_session, (ef_session _ _ _ He). }
  specialize (IH b1 Hr1). destruct (replay cbs b1) as [r b2]. destruct IH as [[-> He2]| ->]; [|auto].
  left. split; [done|]. by apply (effects_app b [cb] b1).
Qed.
End notify.

(** ** Which orders a specification touches *)

Definition passive_in (l : list Z) (cb : callback) : Prop :=
  match cb with onFill i _ _ _ _ _ false => i ∈ l | _ => True end.

Lemma passive_in_sub l l' cbs : (∀ i, i ∈ l → i ∈ l') → Forall (passive_in l) cbs → Forall (passive_in l') cbs.
Proof.
  intros Hl Hf. eapply Forall_impl; [exact Hf|]. intros [| | | | |? ? ? ? ? ? []]; simpl; auto.
Qed.

Lemma fill_queue_passive sym id side limit l : ∀ q,
  Forall (passive_in (e_id <$> l)) (fill_queue sym id side limit q l).2.
Proof.
  induction l as [|e l IH]; intros q; simpl; [constructor|].
  destruct (_ && _); [|constructor]. destruct (e_qty e <=? q).
  - specialize (IH (q - e_qty e)). destruct (fill_queue _ _ _ _ (q - e_qty e) l) as [[l' q'] cbs]. simpl.
    repeat (constructor; [simpl; try constructor; done|]). eapply passive_in_sub; [|exact IH]. intros. by constructor.
  - simpl. repeat (constructor; [simpl; try constructor; done|]). constructor.
Qed.

Lemma book_side_ids pl B i : i ∈ e_id <$> book_side pl B → i ∈ ids B.
Proof. intros Hi. rewrite (ids_side pl). rewrite elem_of_app. auto. Qed.

Lemma spec_handle_new_ids ntf id side q p flags filled B :
  let '(r, B', cbs) := spec_handle_new ntf id side q p flags filled B in
  Forall (passive_in (ids B)) cbs ∧ ∀ i, i ∈ ids B' → i = id ∨ i ∈ ids B.
Proof.
  unfold spec_handle_new. destruct (q <=? filled) eqn:Hle; [split; [constructor|auto]|].
  pose proof (fill_queue_passive (b_symbol B) id side p (book_side (opp_levels side) B) (q - filled)) as Hp.
  destruct (fill_queue _ _ _ _ _ _) as [[l q'] cbs] eqn:Hf. apply fill_queue_filled in Hf; [|lia]. simpl in Hp.
  assert (∀ i, i ∈ ids (set_side (opp_levels side) l B) → i ∈ ids B) as Hids.
  { intros i. rewrite ids_set_side, (ids_side (opp_levels side) B), !elem_of_app, !list_elem_of_fmap.
    intros [(e & -> & He)|?]; [|auto]. destruct (filled_in _ _ _ _ _ _ _ Hf He) as (x & Hx & _ & <-). eauto. }
  assert (Forall (passive_in (ids B)) (cbs ++ if ntf && negb (is_ioc flags) then [onNewOrder id (b_symbol B) side q' p flags] else [])) as Hcbs.
  { apply Forall_app. split; [eapply passive_in_sub; [|exact Hp]; apply book_side_ids|]. destruct (_ && _); by repeat constructor. }
  rewrite symbol_set_side.
  destruct ((q' >? 0) && is_ioc flags); [|destruct (q' =? 0); [|case_bool_decide]].
  - split; [|auto]. apply Forall_app. split; [done|]. destruct ntf; by repeat constructor.
  - auto.
  - auto.
  - split; [done|]. intros i. rewrite ids_set_side, insert_entry_perm, fmap_cons. simpl.
    rewrite <- ids_side, elem_of_cons. naive_solver.
Qed.

Lemma ids_remove_sub id i B : i ∈ ids (remove_order id B) → i ∈ ids B.
Proof. intros [_ ?]%elem_of_ids_remove. done. Qed.

Lemma spec_delete_ids ntf id B :
  let '(r, B', cbs) := spec_delete_order ntf id B in
  Forall (passive_in (ids B)) cbs ∧ ∀ i, i ∈ ids B' → i ∈ ids B.
Proof.
  unfold spec_delete_order. destruct (find_id id _).
  - split; [destruct ntf; by repeat constructor|]. intros i. apply ids_remove_sub.
  - split; [by repeat constructor|auto].
Qed.

Definition op_new_ids (o : op) : list Z := match o with New _ id _ _ _ _ _ => [id] | _ => [] end.

Lemma spec_op_ids o B :
  let '(r, B', cbs) := spec_op o B in
  Forall (passive_in (ids B)) cbs ∧ ∀ i, i ∈ ids B' → i ∈ op_new_ids o ∨ i ∈ ids B.
Proof.
  destruct o as [ntf id side q p flags filled|ntf id|id side q p]; simpl.
  - unfold spec_new_order. pose proof (spec_handle_new_ids ntf id side q p flags filled B) as H.
    destruct (spec_handle_new _ _ _ _ _ _ _ _) as [[r B'] cbs]. destruct H as [? Hi]. split; [done|].
    intros i [->|?]%Hi; [left; constructor|auto].
  - pose proof (spec_delete_ids ntf id B) as H. destruct (spec_delete_order ntf id B) as [[r B'] cbs].
    destruct H; split; auto.
  - unfold spec_modify_order. destruct (find_id id (all_entries B)) as [e|] eqn:Hf.
    2: { split; [by repeat constructor|auto]. }
    destruct (q <=? e_filled e).
    { pose proof (spec_delete_ids true id B) as H. destruct (spec_delete_order true id B) as [[r B'] cbs].
      destruct H; split; auto. }
    destruct (_ && _).
    { split; [by repeat constructor|]. intros i. unfold ids. rewrite all_entries_update, ids_update by done. auto. }
    pose proof (spec_handle_new_ids false id side q p (e_flags e) (e_filled e) (remove_order id B)) as H.
    destruct (spec_handle_new _ _ _ _ _ _ _ _) as [[r B'] cbs]. destruct H as [Hp Hi].
    assert (∀ i, i ∈ ids B' → i ∈ ids B) as Hi'.
    { intros i [->|?]%Hi; [|by eapply ids_remove_sub]. apply find_id_Some in Hf as [? <-]. by apply list_elem_of_fmap_2. }
    assert (Forall (passive_in (ids B)) cbs) as Hp' by (eapply passive_in_sub; [|exact Hp]; intros i; apply ids_remove_sub).
    destruct r as [q'|ex]; [|split; auto]. split; [|auto]. apply Forall_app. split; [done|].
    destruct (q' >? 0); by repeat constructor.
Qed.

(** ** One request *)

Definition request_op (p : oe.oe_payload) : option op :=
  let id := oe.exch_order_id p in
  if oe.msg_type p =? oe.MSG_TYPE.NEW_ORDER then
    Some (New true id (oe.side p) (oe.quantity p) (s32 (oe.price p)) (oe.flags p) 0)
  else if oe.msg_type p =? oe.MSG_TYPE.DELETE_ORDER then Some (Delete true id)
  else if oe.msg_type p =? oe.MSG_TYPE.MODIFY_ORDER then
    Some (Modify id (oe.side p) (oe.quantity p) (s32 (oe.price p)))
  else None.

Definition is_new (p : oe.oe_payload) : bool := oe.msg_type p =? oe.MSG_TYPE.NEW_ORDER.
Definition is_modify (p : oe.oe_payload) : bool := oe.msg_type p =? oe.MSG_TYPE.MODIFY_ORDER.

(** The broker as the ladder sees it while it serves [p]. *)
Definition opened (p : oe.oe_payload) (b : t) : t :=
  let b := set_client (oe.client_seq p) (oe.client_id p) b in
  let b := if is_new p then set_order_client (oe.exch_order_id p) (oe.client_id p) b else b in
  if is_new p || is_modify p then set_aggressor_side (oe.side p) b else b.

Section request.
Context `{BW : BrokerWorld}.

Lemma run_on_ladder symbol o L B b :
  symbol_to_matching_engine b !! symbol = Some L → rep L B → op_ok o →
  (∀ i, i ∈ ids B → is_Some (exch_order_id_to_client_id b !! u32 i)) →
  let '(r0, B', cbs) := spec_op o B in
  let '(r, b') := on_ladder symbol (run_op o) b in
  (r = r0 ∧ ∃ L' b1, rep L' B' ∧ effects b cbs b1 ∧ b' = set_ladder symbol L' b1) ∨ r = Throw send_failed.
Proof.
  intros HL HR Ho Hids. pose proof (run_op_refines o L B [] HR Ho) as Hrun. unfold refines in Hrun.
  pose proof (spec_op_ids o B) as Hpass.
  destruct (spec_op o B) as [[r0 B'] cbs]. destruct Hrun as (L' & Hrun & HR'). destruct Hpass as [Hpass _].
  assert (Forall (routed b) cbs) as Hr.
  { eapply Forall_impl; [exact Hpass|]. intros [| | | | |? ? ? ? ? ? []]; simpl; auto. }
  pose proof (replay_effects cbs b Hr) as He.
  destruct (sim_run_op (Sb := t) o L b []) as (r1 & L1 & cbs1 & Hrun1 & Hs).
  rewrite Hrun in Hrun1. injection Hrun1 as <- <- <-.
  unfold on_ladder. erewrite bind_ret by reflexivity. cbn beta. rewrite HL.
  destruct (replay cbs b) as [[[]|e] b1].
  - rewrite Hs. destruct He as [[_ He]|?]; [|done]. left. split; [done|]. eauto 10.
  - destruct Hs as [L2 ->]. destruct He as [[? _]|He]; [done|]. right. congruence.
Qed.

Lemma handle_request p b o :
  request_op p = Some o → is_Some (symbol_to_matching_engine b !! oe.symbol p) →
  handle p (set_client (oe.client_seq p) (oe.client_id p) b) = on_ladder (oe.symbol p) (run_op o) (opened p b).
Proof.
  unfold request_op, handle, opened, is_new, is_modify. intros Ho [L HL].
  destruct (oe.msg_type p =? oe.MSG_TYPE.NEW_ORDER) eqn:E1; [|destruct (oe.msg_type p =? oe.MSG_TYPE.DELETE_ORDER) eqn:E2;
    [|destruct (oe.msg_type p =? oe.MSG_TYPE.MODIFY_ORDER) eqn:E3; [|done]]]; injection Ho as <-.
  - erewrite bind_ret by reflexivity. cbn beta. simpl. rewrite HL. done.
  - replace (oe.msg_type p =? oe.MSG_TYPE.MODIFY_ORDER) with false; [done|].
    apply Z.eqb_eq in E2. rewrite E2. done.
  - erewrite bind_ret by reflexivity. cbn beta. simpl. rewrite HL. done.
Qed.

Lemma opened_fields p b :
  symbol_to_matching_engine (opened p b) = symbol_to_matching_engine b ∧ to_client (opened p b) = to_client b ∧
  publisher (opened p b) = publisher b ∧ clearing_publisher (opened p b) = clearing_publisher b ∧
  from_client (opened p b) = from_client b ∧ client_seq (opened p b) = oe.client_seq p ∧
  client_id (opened p b) = oe.client_id p ∧
  (∀ i, is_Some (exch_order_id_to_client_id b !! i) → is_Some (exch_order_id_to_client_id (opened p b) !! i)) ∧
  (is_new p = true → is_Some (exch_order_id_to_client_id (opened p b) !! u32 (oe.exch_order_id p))).
Proof.
  unfold opened. destruct (is_new p), (is_modify p); simpl; split_and!; try done;
    intros; rewrite ?lookup_insert_eq; eauto; rewrite lookup_insert; destruct (decide _); eauto.
Qed.

(** ** The invariant *)

Definition broker_inv (seen : list Z) (b : t) : Prop :=
  ∀ symbol L, symbol_to_matching_engine b !! symbol = Some L → ∃ B, rep L B ∧
    ∀ i, i ∈ ids B → i ∈ seen ∧ is_Some (exch_order_id_to_client_id b !! u32 i).

(** Requests as the client handler emits them: for a listed symbol, with
    quantities that fit, new orders with a positive quantity under an id never
    used before, and rejects. *)
Definition request_ok (seen : list Z) (symbols : gset Z) (p : oe.oe_payload) : Prop :=
  match request_op p with
  | Some (New _ id _ q _ _ _) => oe.symbol p ∈ symbols ∧ 0 < q < 2 ^ 32 ∧ id ∉ seen
  | Some (Modify _ _ q _) => oe.symbol p ∈ symbols ∧ is_u32 q
  | Some (Delete _ _) => oe.symbol p ∈ symbols
  | None => oe.msg_type p = oe.MSG_TYPE.REJECT
  end.

Definition seen_after (seen : list Z) (p : oe.oe_payload) : list Z :=
  if is_new p then oe.exch_order_id p :: seen else seen.

Fixpoint requests_ok (seen : list Z) (symbols : gset Z) (ps : list oe.oe_payload) : Prop :=
  match ps with [] => True | p :: ps => request_ok seen symbols p ∧ requests_ok (seen_after seen p) symbols ps end.

(** The same without the freshness of the ids. *)
Definition request_listed (symbols : gset Z) (p : oe.oe_payload) : Prop :=
  match request_op p with
  | Some (New _ _ _ q _ _ _) => oe.symbol p ∈ symbols ∧ 0 < q < 2 ^ 32
  | Some (Modify _ _ q _) => oe.symbol p ∈ symbols ∧ is_u32 q
  | Some (Delete _ _) => oe.symbol p ∈ symbols
  | None => oe.msg_type p = oe.MSG_TYPE.REJECT
  end.

(** A new order whose id is one of [seen]. *)
Definition reuses (seen : list Z) (p : oe.oe_payload) : Prop := is_new p = true ∧ oe.exch_order_id p ∈ seen.

(** A queue with a new order whose id was given out before. *)
Fixpoint id_reused (seen : list Z) (ps : list oe.oe_payload) : Prop :=
  match ps with [] => False | p :: ps => reuses seen p ∨ id_reused (seen_after seen p) ps end.

(** The ids of the new orders, oldest first; and an id two of them carry. *)
Definition new_ids (ps : list oe.oe_payload) : list Z := oe.exch_order_id <$> filter (λ p, is_new p = true) ps.
Definition issued_twice (x : Z) (ps : list oe.oe_payload) : Prop := [x; x] `sublist_of` new_ids ps.

Lemma request_listed_ok seen symbols p : request_listed symbols p → ¬ reuses seen p → request_ok seen symbols p.
Proof.
  unfold request_listed, request_ok, reuses, request_op, is_new.
  destruct (_ =? oe.MSG_TYPE.NEW_ORDER); [|destruct (_ =? oe.MSG_TYPE.DELETE_ORDER); [done|by destruct (_ =? oe.MSG_TYPE.MODIFY_ORDER)]].
  intros [? ?] Hr. split; [done|]. split; [done|]. intros ?. by apply Hr.
Qed.

Lemma request_ok_listed seen symbols p : request_ok seen symbols p → request_listed symbols p ∧ ¬ reuses seen p.
Proof.
  unfold request_listed, request_ok, reuses, request_op, is_new.
  destruct (_ =? oe.MSG_TYPE.NEW_ORDER).
  - intros (? & ? & ?). split; [done|]. by intros [_ ?].
  - intros H. split; [|by intros [? _]]. destruct (_ =? oe.MSG_TYPE.DELETE_ORDER); [done|by destruct (_ =? oe.MSG_TYPE.MODIFY_ORDER)].
Qed.

Lemma requests_ok_listed symbols ps : ∀ seen, requests_ok seen symbols ps → Forall (request_listed symbols) ps ∧ ¬ id_reused seen ps.
Proof.
  induction ps as [|p ps IH]; intros seen; [by intros _; split; [constructor|intros []]|]. simpl.
  intros [[Hp Hr]%request_ok_listed [Hl Hn]%IH].
  split; [by constructor|]. tauto.
Qed.

Lemma requests_listed_ok symbols ps : ∀ seen, Forall (request_listed symbols) ps → requests_ok seen symbols ps ∨ id_reused seen ps.
Proof.
  induction ps as [|p ps IH]; intros seen; [by left|]. intros [Hp Hl]%Forall_cons. simpl.
  destruct (IH (seen_after seen p) Hl) as [H|H]; [|auto].
  destruct (decide (is_new p = true ∧ oe.exch_order_id p ∈ seen)) as [Hr|Hr]; [by right; left|].
  left. split; [by apply request_listed_ok|done].
Qed.

Lemma requests_ok_app seen symbols ps qs :
  requests_ok seen symbols (ps ++ qs) ↔ requests_ok seen symbols ps ∧ requests_ok (foldl seen_after seen ps) symbols qs.
Proof. revert seen. induction ps as [|p ps IH]; intros seen; simpl; [tauto|]. rewrite IH. tauto. Qed.

Lemma seen_after_all seen ps : foldl seen_after seen ps = reverse (new_ids ps) ++ seen.
Proof.
  revert seen. induction ps as [|p ps IH]; intros seen; [done|]. simpl. rewrite IH. unfold seen_after, new_ids.
  destruct (is_new p) eqn:Hn.
  - rewrite filter_cons_True by done. by rewrite fmap_cons, reverse_cons, <- app_assoc.
  - by rewrite filter_cons_False by congruence.
Qed.

Lemma new_ids_app ps qs : new_ids (ps ++ qs) = new_ids ps ++ new_ids qs.
Proof. unfold new_ids. by rewrite filter_app, fmap_app. Qed.

Lemma sublist_reverse {A} (l k : list A) : l `sublist_of` k → reverse l `sublist_of` reverse k.
Proof.
  induction 1 as [|x l k _ IH|x l k _ IH]; [done| |]; rewrite ?reverse_cons; [by apply sublist_app|by apply sublist_inserts_r].
Qed.

Lemma reverse_twice (x : Z) l : [x; x] `sublist_of` reverse l ↔ [x; x] `sublist_of` l.
Proof. split; intros H%sublist_reverse; by rewrite ?reverse_involutive in H. Qed.

Lemma id_reused_twice ps : ∀ qs, id_reused (foldl seen_after [] qs) ps → ∃ x, issued_twice x (qs ++ ps).
Proof.
  induction ps as [|p ps IH]; intros qs; [done|]. simpl. intros [[Hn Hin]|H].
  - exists (oe.exch_order_id p). unfold issued_twice. rewrite new_ids_app. apply (sublist_app [_] _ [_]).
    + rewrite seen_after_all, app_nil_r, elem_of_reverse in Hin. by apply singleton_sublist_l.
    + unfold new_ids. rewrite filter_cons_True by done. apply sublist_skip, sublist_nil_l.
  - destruct (IH (qs ++ [p])) as [x Hx]; [by rewrite foldl_app|]. exists x. by rewrite <- app_assoc in Hx.
Qed.
End request.

Section invariant.
Context `{BW : BrokerWorld}.

Definition order_exists : exn := runtime_error "Order already exists".

Lemma request_outcome seen symbols p o B :
  request_op p = Some o → request_listed symbols p → (∀ i, i ∈ ids B → i ∈ seen) →
  op_ok o ∧ oe.symbol p ∈ symbols ∧
  ((spec_op o B).1.1 = Ret tt ∨ (spec_op o B).1.1 = Throw order_exists ∧ reuses seen p) ∧
  op_new_ids o = (if is_new p then [oe.exch_order_id p] else []).
Proof.
  intros Ho Hok Hseen. unfold request_listed in Hok. rewrite Ho in Hok. unfold reuses.
  unfold request_op, is_new in *. destruct (oe.msg_type p =? oe.MSG_TYPE.NEW_ORDER).
  - injection Ho as <-. destruct Hok as (Hy & Hq). unfold op_ok, is_u32. split_and!; [lia..|done| |done].
    simpl. unfold spec_new_order.
    pose proof (spec_handle_new_outcome true (oe.exch_order_id p) (oe.side p) (oe.quantity p) (s32 (oe.price p)) (oe.flags p) 0 B) as H.
    destruct (spec_handle_new _ _ _ _ _ _ _ _) as [[[q'|ex] B'] cbs]; [by left|right]. simpl in *.
    destruct H as [[_ ?]|[-> Hin]]; [lia|]. auto.
  - destruct (oe.msg_type p =? oe.MSG_TYPE.DELETE_ORDER).
    + injection Ho as <-. split_and!; try done. left. simpl. unfold spec_delete_order. by destruct (find_id _ _).
    + destruct (oe.msg_type p =? oe.MSG_TYPE.MODIFY_ORDER); [|done]. injection Ho as <-.
      destruct Hok. split_and!; try done. left. apply spec_modify_outcome.
Qed.

Lemma request_ok_outcome seen symbols p o B :
  request_op p = Some o → request_ok seen symbols p → (∀ i, i ∈ ids B → i ∈ seen) → op_ok o ∧ (spec_op o B).1.1 = Ret tt.
Proof.
  intros Ho [Hl Hr]%request_ok_listed Hseen.
  by destruct (request_outcome seen symbols p o B Ho Hl Hseen) as (? & _ & [?|[_ ?]] & _).
Qed.

Lemma handle_reject p b :
  request_op p = None → oe.msg_type p = oe.MSG_TYPE.REJECT →
  handle p b = (Ret tt, set_to_client (to_client b ++ [oe.mk_oe_payload oe.MSG_TYPE.REJECT (oe.exch_order_id p) (oe.symbol p)
    (client_seq b) (oe.client_id p) (oe.side p) (oe.quantity p) (oe.price p) (oe.flags p)]) b).
Proof. intros _ Hty. unfold handle. rewrite Hty. done. Qed.

Lemma handle_inv seen symbols p b :
  broker_inv seen b → symbols = dom (symbol_to_matching_engine b) → request_listed symbols p →
  let '(r, b') := handle p (set_client (oe.client_seq p) (oe.client_id p) b) in
  (r = Ret tt ∧ broker_inv (seen_after seen p) b' ∧ dom (symbol_to_matching_engine b') = symbols ∧
   from_client b' = from_client b) ∨ r = Throw send_failed ∨ r = Throw order_exists ∧ reuses seen p.
Proof.
  intros Hinv Hdom Hok. destruct (request_op p) as [o|] eqn:Ho.
  2: { pose proof Hok as Hty. unfold request_listed in Hty. rewrite Ho in Hty.
       rewrite (handle_reject p _ Ho Hty). left. unfold seen_after, is_new. rewrite Hty. done. }
  assert (oe.symbol p ∈ symbols) as Hsym.
  { unfold request_listed in Hok. rewrite Ho in Hok. destruct o; tauto. }
  rewrite Hdom, elem_of_dom in Hsym. rewrite (handle_request p b o Ho Hsym). destruct Hsym as [L HL].
  destruct (Hinv _ _ HL) as (B & HR & Hids).
  destruct (request_outcome seen symbols p o B Ho Hok ltac:(intros i Hi; by apply Hids)) as (Hop & _ & Hret & Hnew).
  destruct (opened_fields p b) as (Hl & Ht & Hp & Hc & Hfc & Hcs & Hci & Hsome & Hsnew).
  pose proof (run_on_ladder (oe.symbol p) o L B (opened p b)) as Hrun. rewrite Hl in Hrun.
  specialize (Hrun HL HR Hop ltac:(intros i Hi; apply Hsome; by apply Hids)).
  pose proof (spec_op_ids o B) as Hspec.
  destruct (spec_op o B) as [[r0 B'] cbs]. simpl in Hret.
  destruct (on_ladder _ _ _) as [r b']. destruct Hrun as [[-> (L' & b1 & HR' & [Hs _ _ _] & ->)]| ->]; [|auto].
  destruct Hret as [->|[-> ?]]; [|by right; right]. left. destruct Hspec as [_ Hsub]. destruct Hs as [_ _ _ Hsf Hsl Hsi]. split; [done|]. split_and!.
  - intros y L2. simpl. rewrite Hsl, Hl, Hsi. unfold seen_after.
    assert (∀ i, i ∈ seen → i ∈ if is_new p then oe.exch_order_id p :: seen else seen) as Hmono.
    { intros i Hi. destruct (is_new p); [by constructor|done]. }
    intros [[<- <-]|[Hne HL2]]%lookup_insert_Some.
    + exists B'. split; [done|]. intros i [Hi|Hi]%Hsub.
      * rewrite Hnew in Hi. destruct (is_new p); [|by apply elem_of_nil in Hi].
        apply list_elem_of_singleton in Hi as ->. split; [constructor|by apply Hsnew].
      * destruct (Hids i Hi) as [? ?]. auto.
    + destruct (Hinv _ _ HL2) as (B2 & HR2 & Hids2). exists B2. split; [done|]. intros i Hi.
      destruct (Hids2 i Hi) as [? ?]. auto.
  - simpl. rewrite Hsl, Hl, dom_insert_L, Hdom. apply elem_of_dom_2 in HL. set_solver.
  - simpl. congruence.
Qed.

Lemma finishedPacket_frame symbol b :
  let '(r, b') := finishedPacket symbol b in
  (r = Ret tt ∧ symbol_to_matching_engine b' = symbol_to_matching_engine b ∧ from_client b' = from_client b ∧
   exch_order_id_to_client_id b' = exch_order_id_to_client_id b ∧ to_client b' = to_client b) ∨ r = Throw send_failed.
Proof.
  unfold finishedPacket. erewrite bind_ret by reflexivity. cbn beta.
  pose proof (run_on_md (PublishTrades symbol (aggressor_side b)) b) as Hm. unfold mbind, M_bind.
  destruct (pub_run _ (publisher b)) as [r p1]. destruct Hm as [Hm Hr].
  change (on_md _ b) with (on_md (@pub_run bw_md (PublishTrades symbol (aggressor_side b))) b). rewrite Hm.
  destruct Hr as [-> | ->]; [by left|by right].
Qed.

Lemma broker_inv_frame seen b b' :
  broker_inv seen b → symbol_to_matching_engine b' = symbol_to_matching_engine b →
  exch_order_id_to_client_id b' = exch_order_id_to_client_id b → broker_inv seen b'.
Proof. unfold broker_inv. intros Hinv -> ->. done. Qed.

Lemma process_requests_inv symbols ps : ∀ fuel seen b,
  from_client b = ps → (length ps < fuel)%nat → broker_inv seen b →
  symbols = dom (symbol_to_matching_engine b) → Forall (request_listed symbols) ps →
  let '(r, b') := process_requests fuel b in
  (r = Ret tt ∧ from_client b' = [] ∧ broker_inv (foldl seen_after seen ps) b' ∧
   dom (symbol_to_matching_engine b') = symbols) ∨ r = Throw send_failed ∨ r = Throw order_exists ∧ id_reused seen ps.
Proof.
  induction ps as [|p ps IH]; intros [|fuel] seen b Hq Hfuel Hinv Hdom Hok; simpl in Hfuel; try lia;
    cbn [process_requests]; (erewrite bind_ret by reflexivity); cbn beta; rewrite Hq.
  { left. simpl. eauto. }
  apply Forall_cons in Hok as [Hp Hok]. erewrite bind_ret by reflexivity. cbn beta.
  pose proof (handle_inv seen symbols p b Hinv Hdom Hp) as Hh. unfold mbind at 1, M_bind at 1.
  destruct (handle p _) as [r b1]. destruct Hh as [(-> & Hinv1 & Hdom1 & Hq1)|[-> |[-> Hr]]]; [|auto|simpl; auto].
  pose proof (finishedPacket_frame (oe.symbol p) b1) as Hf. unfold mbind at 1, M_bind at 1.
  destruct (finishedPacket (oe.symbol p) b1) as [r b2]. destruct Hf as [(-> & Hl2 & Hq2 & Hi2 & _)| ->]; [|auto].
  erewrite bind_ret by reflexivity. cbn beta. erewrite bind_ret by reflexivity. cbn beta.
  pose proof (IH fuel (seen_after seen p) (set_from_client (list.tail (from_client b2)) b2)) as H. simpl in H |- *.
  destruct (process_requests fuel _) as [r b']. destruct H as [H|[H|[-> H]]]; [by rewrite Hq2, Hq1, Hq|lia| |congruence|done|auto..].
  by eapply broker_inv_frame; [eapply (broker_inv_frame _ b1); [done|..]|..].
Qed.

Lemma process_inv symbols seen b :
  broker_inv seen b → symbols = dom (symbol_to_matching_engine b) → Forall (request_listed symbols) (from_client b) →
  let '(r, b') := process b in
  (r = Ret tt ∧ from_client b' = [] ∧ broker_inv (foldl seen_after seen (from_client b)) b' ∧
   dom (symbol_to_matching_engine b') = symbols) ∨
  r = Throw send_failed ∨ r = Throw order_exists ∧ id_reused seen (from_client b).
Proof.
  intros Hinv Hdom Hok. unfold process. unfold nanotime at 1. erewrite bind_ret by reflexivity. cbn beta.
  erewrite bind_ret by reflexivity. cbn beta.
  set (late := _ >? HEARTBEAT_INTERVAL). set (b0 := count_reading b).
  assert (let '(r, b1) := when late (on_md (@pub_run bw_md PublishHeartbeat);; touch) b0 in
    (r = Ret tt ∧ symbol_to_matching_engine b1 = symbol_to_matching_engine b ∧ from_client b1 = from_client b ∧
     exch_order_id_to_client_id b1 = exch_order_id_to_client_id b) ∨ r = Throw send_failed) as Hhb.
  { destruct late; cbn [when]; [|by left]. pose proof (run_on_md PublishHeartbeat b0) as Hm. unfold mbind, M_bind.
    destruct (pub_run _ (publisher b0)) as [r p1]. destruct Hm as [-> [-> | ->]]; [by left|by right]. }
  unfold mbind at 1, M_bind at 1. change (on_md MarketDataPublisher.publish_hearbeat) with (on_md (@pub_run bw_md PublishHeartbeat)).
  destruct (when late _ b0) as [r b1]. destruct Hhb as [(-> & Hl & Hq & Hi)| ->]; [|auto].
  erewrite bind_ret by reflexivity. cbn beta.
  rewrite <-Hq. eapply (process_requests_inv symbols (from_client b1) _ seen); [done|lia| |congruence|by rewrite Hq].
  by eapply broker_inv_frame.
Qed.
End invariant.
