(* ===== verification/BrokerTheorems.v ===== *)
(** * The properties of the matching engine's broker *)
From Stdlib Require Import Init.Byte.
From S2P Require Import Prelude Protocol MdMcast MdStream Clearing OrderLadder LadderSpec LadderRep LadderProps Broker BrokerRefine.
Import MatchingEngineBroker.

(** A request as the client handler queues it. *)
Definition request (ty id symbol seq client side quantity price flags : Z) : oe.oe_payload :=
  oe.mk_oe_payload ty id symbol seq client side quantity price flags.

Definition demo_broker (reqs : list oe.oe_payload) : t :=
  set_from_client reqs (set_ladder 2 (OrderLadder 2) (set_ladder 1 (OrderLadder 1) initial)).

Lemma demo_broker_inv reqs : broker_inv [] (demo_broker reqs).
Proof.
  intros symbol L. simpl. rewrite !lookup_insert_Some, lookup_empty.
  intros [[<- <-]|[_ [[<- <-]|[_ ?]]]]; [exists (empty_book 2)|exists (empty_book 1)|done];
    (split; [apply rep_empty|by intros i ?%elem_of_nil]).
Qed.

Definition demo_requests : list oe.oe_payload :=
  [request oe.MSG_TYPE.NEW_ORDER 101 1 1 10 BUY 100 50 0;
   request oe.MSG_TYPE.NEW_ORDER 102 1 1 20 SELL 60 50 0;
   request oe.MSG_TYPE.MODIFY_ORDER 101 1 2 10 BUY 120 51 0;
   request oe.MSG_TYPE.DELETE_ORDER 101 1 3 10 BUY 0 0 0;
   request oe.MSG_TYPE.REJECT 7 0 4 10 BUY 0 0 oe.REJECT_REASON.INVALID_PRICE].

(** C18 ([broker_request]): a new order, cancel or modify request for a listed symbol
    is run on the symbol's ladder, which then represents the book of the
    specification; every callback of the specification becomes one response
    with the sequence number and client of the request (a passive fill: no
    sequence number, and the client the order was entered by), its market data
    publication and its clearing fill, in order — unless the network refuses a
    packet. *)
Theorem broker_request (BW : BrokerWorld) p b o L B B' cbs :
  request_op p = Some o → op_ok o →
  symbol_to_matching_engine b !! oe.symbol p = Some L → rep L B →
  (∀ i, i ∈ ids B → is_Some (exch_order_id_to_client_id b !! u32 i)) →
  spec_op o B = (Ret tt, B', cbs) →
  let '(r, b') := handle p (set_client (oe.client_seq p) (oe.client_id p) b) in
  (r = Ret tt ∧ ∃ L', rep L' B' ∧
    symbol_to_matching_engine b' = <[oe.symbol p := L']> (symbol_to_matching_engine b) ∧
    to_client b' = to_client b ++ (cbs ≫= cb_payload (opened p b)) ∧
    for_each (cbs ≫= cb_pubs) (@pub_run bw_md) (publisher b) = (Ret tt, publisher b') ∧
    for_each (cbs ≫= cb_fills (opened p b)) (@publish bw_clearing) (clearing_publisher b) = (Ret tt, clearing_publisher b'))
  ∨ r = Throw send_failed.
Proof.
  intros Ho Hop HL HR Hids Hspec. rewrite (handle_request p b o Ho) by eauto.
  destruct (opened_fields p b) as (Hl & Ht & Hp & Hc & _ & _ & _ & Hsome & _).
  pose proof (run_on_ladder (oe.symbol p) o L B (opened p b)) as Hrun. rewrite Hl, Hspec in Hrun.
  specialize (Hrun HL HR Hop ltac:(intros i Hi; apply Hsome; auto)).
  destruct (on_ladder _ _ _) as [r b']. destruct Hrun as [[-> (L' & b1 & HR' & [Hs Hto Hm Hcl] & ->)]| ->]; [|by right].
  left. split; [done|]. exists L'. split; [done|]. destruct Hs as [_ _ _ _ Hsl _]. simpl.
  rewrite Hsl, Hl, Hto, Ht, <- Hp, <- Hc. done.
Qed.

Definition demo_new : oe.oe_payload := request oe.MSG_TYPE.NEW_ORDER 101 1 1 10 BUY 100 50 0.
Definition demo_idle : t := demo_broker [].

Lemma broker_request_witness : ∃ B' r b',
  @handle calm_broker_world demo_new (set_client 1 10 demo_idle) = (r, b') ∧
  ((r = Ret tt ∧ ∃ L', rep L' B' ∧ to_client b' = [oe.mk_oe_payload oe.MSG_TYPE.ACK 101 1 1 10 BUY 100 50 0])
   ∨ r = Throw send_failed).
Proof.
  exists (mkBook [Entry 101 100 0 50 BUY 0] [] 1).
  assert (spec_op (New true 101 BUY 100 50 0 0) (empty_book 1) =
    (Ret tt, mkBook [Entry 101 100 0 50 BUY 0] [] 1, [onNewOrder 101 1 BUY 100 50 0])) as Hspec by (vm_compute; reflexivity).
  assert (∀ i, i ∈ ids (empty_book 1) → is_Some (exch_order_id_to_client_id demo_idle !! u32 i)) as Hids by (intros i Hi; by apply elem_of_nil in Hi).
  assert (op_ok (New true 101 BUY 100 50 0 0)) as Hop by by_decide.
  assert (symbol_to_matching_engine demo_idle !! oe.symbol demo_new = Some (OrderLadder 1)) as HL by reflexivity.
  assert (request_op demo_new = Some (New true 101 BUY 100 50 0 0)) as Ho by reflexivity.
  pose proof (broker_request calm_broker_world demo_new demo_idle _ (OrderLadder 1) (empty_book 1) _ _ Ho Hop HL (rep_empty 1) Hids Hspec) as H.
  change (set_client (oe.client_seq demo_new) (oe.client_id demo_new) demo_idle) with (set_client 1 10 demo_idle) in H.
  destruct (handle demo_new (set_client 1 10 demo_idle)) as [r b']. exists r, b'. split; [reflexivity|].
  destruct H as [(Hr & L' & HR' & _ & Ht & _)|Hr]; [left|right; exact Hr].
  split; [exact Hr|]. exists L'. split; [exact HR'|exact Ht].
Defined.

(** C14 ([broker_never_stuck]): on a queue of requests as the client handler emits
    them (listed symbols, fresh ids, quantities in range) the broker serves all
    of them: it never misses the client of a resting order, meets an invalid
    symbol or runs into undefined behaviour; the only exception it can throw
    is a failed network send, and every ladder still represents a book of
    orders whose clients are known. *)
Theorem broker_never_stuck (BW : BrokerWorld) seen b :
  broker_inv seen b → requests_ok seen (dom (symbol_to_matching_engine b)) (from_client b) →
  let '(r, b') := process b in
  (r = Ret tt ∧ from_client b' = [] ∧ ∃ seen', broker_inv seen' b') ∨ r = Throw send_failed.
Proof.
  intros Hinv [Hl Hf]%requests_ok_listed. pose proof (process_inv _ _ _ Hinv eq_refl Hl) as H.
  destruct (process b) as [r b']. naive_solver.
Qed.

Definition demo_busy : t := demo_broker demo_requests.

Lemma broker_never_stuck_witness :
  broker_inv [] demo_busy ∧ ∃ r b', @process calm_broker_world demo_busy = (r, b') ∧
  ((r = Ret tt ∧ from_client b' = [] ∧ ∃ seen', broker_inv seen' b') ∨ r = Throw send_failed).
Proof.
  pose proof (demo_broker_inv demo_requests) as Hinv.
  assert (requests_ok [] (dom (symbol_to_matching_engine demo_busy)) (from_client demo_busy)) as Hok.
  { assert (1 ∈ dom (symbol_to_matching_engine demo_busy)) as H1 by by_decide.
    change (from_client demo_busy) with demo_requests. revert H1.
    generalize (dom (symbol_to_matching_engine demo_busy)) as S. intros S H1.
    unfold demo_requests. split; [split; [exact H1|split; [by_decide|by_decide]]|].
    split; [split; [exact H1|split; [by_decide|by_decide]]|].
    split; [split; [exact H1|by_decide]|]. split; [exact H1|]. split; [reflexivity|exact I]. }
  split; [exact Hinv|]. pose proof (broker_never_stuck calm_broker_world [] demo_busy Hinv Hok) as H.
  destruct (process demo_busy) as [r b']. exists r, b'. split; [reflexivity|exact H].
Defined.

(** Order ids are [uint64_t] readings of a nanosecond clock; the map from order
    id to client is keyed by [uint32_t]. *)
Definition colliding_requests : list oe.oe_payload :=
  [request oe.MSG_TYPE.NEW_ORDER 5 1 1 10 BUY 100 50 0;
   request oe.MSG_TYPE.NEW_ORDER (5 + 2 ^ 32) 2 1 20 BUY 100 50 0;
   request oe.MSG_TYPE.NEW_ORDER 9 1 1 30 SELL 100 50 0].

(** Client 10's order 5 is filled by client 30,
    but the fill is sent, and cleared, to client 20, whose later order shares
    the low 32 bits of the order id. *)
Theorem broker_misroutes_colliding_ids : ∃ b',
  @process calm_broker_world (demo_broker colliding_requests) = (Ret tt, b') ∧
  filter (λ p, oe.msg_type p = oe.MSG_TYPE.FILL) (to_client b') =
    [oe.mk_oe_payload oe.MSG_TYPE.FILL 5 1 0 20 BUY 100 50 oe.FILL_FLAGS.CLOSED;
     oe.mk_oe_payload oe.MSG_TYPE.FILL 9 1 1 30 SELL 100 50 oe.FILL_FLAGS.CLOSED] ∧
  ClearingPublisher.packets (clearing_publisher b') = fill_packets 1 [Fill 20 1 100 50 BUY; Fill 30 1 100 50 SELL].
Proof.
  exists (@process calm_broker_world (demo_broker colliding_requests)).2.
  split.
  { assert ((@process calm_broker_world (demo_broker colliding_requests)).1 = Ret tt) as H by (vm_compute; reflexivity).
    rewrite <- H. apply surjective_pairing. }
  split; vm_compute; reflexivity.
Qed.
