(* ===== verification/BrokerAnswers.v ===== *)
(** * The broker answers every request

    Whatever a request does to the book, the broker's turn that serves it adds a
    response that carries the request's order, sequence number and client. *)
From Stdlib Require Import Init.Byte.
From S2P Require Import Prelude Protocol MdMcast MdStream Clearing OrderLadder LadderSpec LadderRep LadderProps Broker BrokerRefine.

(** ** The callbacks of an operation *)

(** The callbacks the broker turns into a response to the request's sender. *)
Definition answering (id : Z) (cb : callback) : Prop :=
  match cb with
  | onNewOrder i _ _ _ _ _ | onModifyOrder i _ _ _ _ | onDeleteOrder i _ | onCancelReject i => i = id
  | onTrade _ _ _ => False
  | onFill i _ _ _ _ _ active => i = id ∧ active = true
  end.

Definition op_id (o : op) : Z := match o with New _ id _ _ _ _ _ | Delete _ id | Modify id _ _ _ => id end.

Ltac active_fill := unfold trade_cbs; simpl app; do 2 apply Exists_cons_tl; apply Exists_cons_hd; done.

(** An order that trades is told so. *)
Lemma fill_queue_answers sym id side limit q l l' q' cbs :
  fill_queue sym id side limit q l = (l', q', cbs) → q' ≠ q → Exists (answering id) cbs.
Proof.
  destruct l as [|e l]; cbn [fill_queue]; [congruence|]. destruct (_ && _); [|congruence].
  destruct (e_qty e <=? q).
  - destruct (fill_queue _ _ _ _ _ _) as [[l1 q1] cbs1]. intros [= <- <- <-] _. active_fill.
  - intros [= <- <- <-] _. active_fill.
Qed.

Lemma new_order_answers id side q p flags B B' cbs :
  spec_new_order true id side q p flags 0 B = (Ret tt, B', cbs) → Exists (answering id) cbs.
Proof.
  unfold spec_new_order, spec_handle_new. destruct (q <=? 0) eqn:Hq; [done|].
  destruct (fill_queue _ _ _ _ _ _) as [[l q'] cbs0] eqn:Hf. cbn [andb].
  destruct (is_ioc flags); cbn [negb].
  - rewrite app_nil_r, andb_true_r. destruct (q' >? 0) eqn:Hq'.
    + intros [= <- <-]. apply Exists_app. right. by apply Exists_cons_hd.
    + assert (Exists (answering id) cbs0) as H by (eapply fill_queue_answers; [exact Hf|lia]).
      destruct (q' =? 0); [by intros [= <- <-]|]. destruct (bool_decide _); [done|]. by intros [= <- <-].
  - rewrite andb_false_r. intros H. assert (∃ y z, cbs = cbs0 ++ [onNewOrder id y side z p flags]) as (y & z & ->).
    { destruct (q' =? 0); [simplify_eq/=; by eexists _, _|]. destruct (bool_decide _); [done|simplify_eq/=; by eexists _, _]. }
    apply Exists_app. right. by apply Exists_cons_hd.
Qed.

Lemma delete_order_answers id B : Exists (answering id) (spec_delete_order true id B).2.
Proof. unfold spec_delete_order. destruct (find_id _ _); by apply Exists_cons_hd. Qed.

Lemma modify_order_answers id side q p B : (spec_modify_order id side q p B).1.1 = Ret tt → Exists (answering id) (spec_modify_order id side q p B).2.
Proof.
  unfold spec_modify_order. destruct (find_id id _) as [e|]; [|intros _; by apply Exists_cons_hd].
  destruct (q <=? e_filled e); [intros _; apply delete_order_answers|]. destruct (_ && _); [intros _; by apply Exists_cons_hd|].
  destruct (spec_handle_new _ _ _ _ _ _ _ _) as [[[q'|ex] B'] cbs]; [|done]. intros _. apply Exists_app. right.
  destruct (q' >? 0); by apply Exists_cons_hd.
Qed.

(** What the engine answers a request with. *)
Record answers (p r : oe.oe_payload) : Prop := {
  an_order : oe.exch_order_id r = oe.exch_order_id p;
  an_seq : oe.client_seq r = oe.client_seq p;
  an_client : oe.client_id r = oe.client_id p;
}.

(** ** The engine's turn *)

Section engine.
Context `{BW : BrokerWorld}.
Import MatchingEngineBroker.

Lemma request_answers p o B :
  request_op p = Some o → (spec_op o B).1.1 = Ret tt → Exists (answering (oe.exch_order_id p)) (spec_op o B).2.
Proof.
  intros Ho Hret.
  assert (op_id o = oe.exch_order_id p) as Hid.
  { unfold request_op in Ho. repeat case_match; by simplify_eq. }
  unfold request_op in Ho. repeat case_match; simplify_eq; simpl in *.
  - destruct (spec_new_order _ _ _ _ _ _ _ _) as [[r B'] cbs] eqn:E. simpl in Hret. subst r. by eapply new_order_answers.
  - apply delete_order_answers.
  - by apply modify_order_answers.
Qed.

Lemma payload_answers p b cb :
  client_seq b = oe.client_seq p → client_id b = oe.client_id p → answering (oe.exch_order_id p) cb →
  Exists (answers p) (cb_payload b cb).
Proof.
  intros Hs Hc. destruct cb; simpl; try (intros ->; by apply Exists_cons_hd); [done|].
  intros [-> ->]. by apply Exists_cons_hd.
Qed.

(** One request: what it adds to the queue contains its answer. *)
Lemma handle_answers seen symbols p b b' :
  broker_inv seen b → symbols = dom (symbol_to_matching_engine b) → request_listed symbols p →
  handle p (set_client (oe.client_seq p) (oe.client_id p) b) = (Ret tt, b') →
  ∃ rs, to_client b' = to_client b ++ rs ∧ Exists (answers p) rs.
Proof.
  intros Hinv Hdom Hok Hrun. destruct (request_op p) as [o|] eqn:Ho.
  2: { pose proof Hok as Hty. unfold request_listed in Hty. rewrite Ho in Hty. rewrite (handle_reject p _ Ho Hty) in Hrun.
       injection Hrun as <-. eexists. split; [done|]. by apply Exists_cons_hd. }
  assert (oe.symbol p ∈ symbols) as Hsym by (unfold request_listed in Hok; rewrite Ho in Hok; destruct o; tauto).
  rewrite Hdom, elem_of_dom in Hsym. rewrite (handle_request p b o Ho Hsym) in Hrun. destruct Hsym as [L HL].
  destruct (Hinv _ _ HL) as (B & HR & Hids).
  assert (∀ i, i ∈ ids B → i ∈ seen) as Hseen by (intros i Hi; by apply Hids).
  destruct (request_outcome seen symbols p o B Ho Hok Hseen) as (Hop & _ & _ & _).
  pose proof (request_answers p o B Ho) as Hans.
  destruct (opened_fields p b) as (Hl & Ht & _ & _ & _ & Hcs & Hci & Hsome & _).
  pose proof (run_on_ladder (oe.symbol p) o L B (opened p b)) as Hl2. rewrite Hl in Hl2.
  specialize (Hl2 HL HR Hop ltac:(intros i Hi; apply Hsome; by apply Hids)).
  destruct (spec_op o B) as [[r0 B'] cbs]. simpl in Hans. rewrite Hrun in Hl2.
  destruct Hl2 as [[<- (L' & b1 & _ & [_ Hto _ _] & ->)]|[=]]. specialize (Hans eq_refl). exists (cbs ≫= cb_payload (opened p b)).
  split; [simpl; by rewrite Hto, Ht|]. apply Exists_exists in Hans as (cb & Hin & Hcb).
  pose proof (payload_answers p (opened p b) cb Hcs Hci Hcb) as (r & Hr & Har)%Exists_exists.
  apply Exists_exists. exists r. split; [|done]. apply list_elem_of_bind. by exists cb.
Qed.

(** The responses contain an answer for each request, in the requests' order. *)
Definition answered (ps rs : list oe.oe_payload) : Prop := ∃ as', Forall2 answers ps as' ∧ as' `sublist_of` rs.

Lemma answered_cons p ps rs rs' : Exists (answers p) rs → answered ps rs' → answered (p :: ps) (rs ++ rs').
Proof.
  intros (r & Hr & Ha)%Exists_exists (as' & Hall & Hsub). exists (r :: as'). split; [by constructor|].
  apply list_elem_of_split in Hr as (l1 & l2 & ->). rewrite <- app_assoc. apply sublist_inserts_l. simpl. apply sublist_skip.
  by apply sublist_inserts_l.
Qed.

Lemma process_requests_answers symbols ps : ∀ fuel seen b b',
  from_client b = ps → broker_inv seen b → symbols = dom (symbol_to_matching_engine b) → Forall (request_listed symbols) ps →
  process_requests fuel b = (Ret tt, b') →
  ∃ rs, to_client b' = to_client b ++ rs ∧ answered ps rs.
Proof.
  induction ps as [|p ps IH]; intros [|fuel] seen b b' Hq Hinv Hdom Hok Hrun; try discriminate Hrun;
    cbn [process_requests] in Hrun; (erewrite bind_ret in Hrun by reflexivity); cbn beta in Hrun; rewrite Hq in Hrun.
  { injection Hrun as <-. exists []. rewrite app_nil_r. split; [done|]. by exists []. }
  apply Forall_cons in Hok as [Hp Hok]. erewrite bind_ret in Hrun by reflexivity. cbn beta in Hrun.
  apply bind_inv in Hrun as ([] & b1 & Hh & Hrun). apply bind_inv in Hrun as ([] & b2 & Hf & Hrun).
  destruct (handle_answers seen symbols p b b1 Hinv Hdom Hp Hh) as (rs1 & Ht1 & Ha1).
  pose proof (handle_inv seen symbols p b Hinv Hdom Hp) as Hi. rewrite Hh in Hi. destruct Hi as [(_ & Hinv1 & Hdom1 & Hq1)|[[=]|[[=] _]]].
  pose proof (finishedPacket_frame (oe.symbol p) b1) as Hfr. rewrite Hf in Hfr. destruct Hfr as [(_ & Hl2 & Hq2 & Hi2 & Ht2)|[=]].
  erewrite bind_ret in Hrun by reflexivity. cbn beta in Hrun. erewrite bind_ret in Hrun by reflexivity. cbn beta in Hrun.
  destruct (IH fuel (seen_after seen p) (set_from_client (list.tail (from_client b2)) b2) b') as (rs2 & Ht & Ha2); [..|exact Hrun|]; simpl.
  - by rewrite Hq2, Hq1, Hq.
  - by eapply broker_inv_frame; [eapply (broker_inv_frame _ b1); [done|..]|..].
  - congruence.
  - done.
  - exists (rs1 ++ rs2). split; [by rewrite Ht; simpl; rewrite Ht2, Ht1, <- app_assoc|]. by apply answered_cons.
Qed.

Lemma process_answers symbols seen b b' :
  broker_inv seen b → symbols = dom (symbol_to_matching_engine b) → Forall (request_listed symbols) (from_client b) →
  process b = (Ret tt, b') → ∃ rs, to_client b' = to_client b ++ rs ∧ answered (from_client b) rs.
Proof.
  intros Hinv Hdom Hok Hrun. unfold process in Hrun. unfold nanotime at 1 in Hrun.
  erewrite bind_ret in Hrun by reflexivity. cbn beta in Hrun. erewrite bind_ret in Hrun by reflexivity. cbn beta in Hrun.
  apply bind_inv in Hrun as ([] & b1 & Hw & Hrun). erewrite bind_ret in Hrun by reflexivity. cbn beta in Hrun.
  set (b0 := count_reading b) in *.
  assert (symbol_to_matching_engine b1 = symbol_to_matching_engine b ∧ from_client b1 = from_client b ∧
    exch_order_id_to_client_id b1 = exch_order_id_to_client_id b ∧ to_client b1 = to_client b) as (Hl & Hq & Hi & Ht).
  { destruct (_ >? _) in Hw; cbn [when] in Hw; [|by injection Hw as <-].
    apply bind_inv in Hw as ([] & b2 & Hm & Hw). unfold on_md, zoom in Hm. destruct (MarketDataPublisher.publish_hearbeat _) as [r p1].
    injection Hm as -> <-. by injection Hw as <-. }
  rewrite <- Ht, <- Hq. eapply (process_requests_answers symbols (from_client b1)); [done| |congruence|by rewrite Hq|exact Hrun].
  by eapply broker_inv_frame.
Qed.
End engine.
