(* ===== verification/Validator.v ===== *)
(** * [order_entry/oe_validator.cpp]: the order entry validator

    Every new or modified order passes [validate_new_order] before it reaches
    the matching engine.  [exchange_symbols] is the table the matching engine's
    main program builds. *)
From S2P Require Import Prelude Protocol.

(** [symbols] is the map the validator was constructed with.  The order of the
    checks decides the reason a client is told.  A [%] by zero is undefined;
    [price % tick_size] mixes [int32_t] and [uint32_t] and is computed on
    unsigned integers. *)
Definition validate_new_order (symbols : gmap Z symbol_definition)
    (order_id symbol side quantity price flags : Z) : outcome Z :=
  match symbols !! symbol with
  | None => Ret oe.REJECT_REASON.UNKNOWN_SYMBOL
  | Some d =>
      if sym_min_lot_size d =? 0 then Throw (undefined_behaviour "quantity % 0")
      else if negb (quantity mod sym_min_lot_size d =? 0) then Ret oe.REJECT_REASON.INVALID_QUANTITY
      else if sym_tick_size d =? 0 then Throw (undefined_behaviour "price % 0")
      else if negb (u32 price mod sym_tick_size d =? 0) then Ret oe.REJECT_REASON.INVALID_PRICE
      else if sym_max_lot_size d <? quantity then Ret oe.REJECT_REASON.INVALID_QUANTITY
      else if (sym_max_price d <? price) || (price <? sym_min_price d) then Ret oe.REJECT_REASON.INVALID_PRICE
      else if quantity =? 0 then Ret oe.REJECT_REASON.INVALID_QUANTITY
      else Ret oe.REJECT_REASON.NONE
  end.

(** The symbols of [main] in [matching_engine/matching_engine.cpp]: 13 of them,
    in the order of the struct's fields. *)
Definition listed (symbol tick_size : Z) : symbol_definition :=
  Build_symbol_definition symbol tick_size 1 1000 10000000 0.

Definition exchange_symbols : list symbol_definition :=
  [listed 1 10; listed 2 5; listed 3 5; listed 4 5; listed 5 5; listed 6 5; listed 7 5;
   listed 8 5; listed 9 5; listed 10 5; listed 11 5; listed 12 5; listed 13 10].

(** [symbol_map[symbol.symbol] = symbol] for each of them. *)
Definition symbol_map (l : list symbol_definition) : gmap Z symbol_definition :=
  foldl (λ m d, <[sym_symbol d := d]> m) ∅ l.

(** ** What the checks amount to *)

(** A definition whose fields are in range for their types, with a lot and a
    tick to divide by. *)
Record symbol_ok (d : symbol_definition) : Prop := {
  so_tick : 0 < sym_tick_size d < 2 ^ 32;
  so_min_lot : 0 < sym_min_lot_size d < 2 ^ 32;
  so_max_lot : is_u32 (sym_max_lot_size d);
  so_max_price : is_s32 (sym_max_price d);
  so_min_price : is_s32 (sym_min_price d);
}.

(** The orders that are accepted. *)
Record acceptable (d : symbol_definition) (quantity price : Z) : Prop := {
  ac_positive : 0 < quantity;
  ac_lot : (sym_min_lot_size d | quantity);
  ac_max_lot : quantity <= sym_max_lot_size d;
  ac_price : sym_min_price d <= price <= sym_max_price d;
  ac_tick : (sym_tick_size d | u32 price);
}.

Definition symbols_ok (symbols : gmap Z symbol_definition) : Prop := ∀ y d, symbols !! y = Some d → symbol_ok d.

Lemma mod_divides k n : 0 < k → (n mod k =? 0) = true ↔ (k | n).
Proof. intros Hk. rewrite Z.eqb_eq. apply Z.mod_divide. lia. Qed.

(** The validator never divides by zero. *)
Lemma validate_total symbols id y side q p flags :
  symbols_ok symbols → ∃ r, validate_new_order symbols id y side q p flags = Ret r.
Proof.
  intros Hok. unfold validate_new_order. destruct (symbols !! y) as [d|] eqn:Hd; [|eauto].
  destruct (Hok _ _ Hd) as [Ht Hm _ _ _].
  replace (sym_min_lot_size d =? 0) with false by lia. replace (sym_tick_size d =? 0) with false by lia.
  repeat case_match; eauto.
Qed.

Lemma validate_NONE symbols id y side q p flags d :
  symbols !! y = Some d → symbol_ok d → 0 <= q →
  validate_new_order symbols id y side q p flags = Ret oe.REJECT_REASON.NONE ↔ acceptable d q p.
Proof.
  intros Hd [Ht Hm _ _ _] Hq. unfold validate_new_order. rewrite Hd.
  replace (sym_min_lot_size d =? 0) with false by lia. replace (sym_tick_size d =? 0) with false by lia.
  pose proof (mod_divides (sym_min_lot_size d) q ltac:(lia)) as Hl.
  pose proof (mod_divides (sym_tick_size d) (u32 p) ltac:(lia)) as Hp.
  destruct (q mod _ =? 0) eqn:E1; simpl.
  2:{ split; [done|]. intros [_ H _ _ _]. apply Hl in H. done. }
  destruct (u32 p mod _ =? 0) eqn:E2; simpl.
  2:{ split; [done|]. intros [_ _ _ _ H]. apply Hp in H. done. }
  split.
  - intros H. repeat case_match; try done. constructor; [lia|by apply Hl|lia|lia|by apply Hp].
  - intros [? _ ? ? _]. by replace (sym_max_lot_size d <? q) with false by lia;
      replace (sym_max_price d <? p) with false by lia; replace (p <? sym_min_price d) with false by lia;
      replace (q =? 0) with false by lia.
Qed.

Lemma validate_known symbols id y side q p flags :
  validate_new_order symbols id y side q p flags = Ret oe.REJECT_REASON.NONE → is_Some (symbols !! y).
Proof. unfold validate_new_order. destruct (symbols !! y); [eauto|done]. Qed.

Lemma validate_positive symbols id y side q p flags :
  symbols_ok symbols → 0 <= q → validate_new_order symbols id y side q p flags = Ret oe.REJECT_REASON.NONE → 0 < q.
Proof.
  intros Hok Hq H. destruct (validate_known _ _ _ _ _ _ _ H) as [d Hd].
  apply (validate_NONE _ _ _ _ _ _ _ d Hd (Hok _ _ Hd) Hq) in H. apply H.
Qed.

Lemma exchange_symbols_ok : symbols_ok (symbol_map exchange_symbols).
Proof.
  intros y d Hd.
  assert (map_Forall (λ _ d, 0 < sym_tick_size d ∧ sym_tick_size d < 2 ^ 32 ∧ d = listed (sym_symbol d) (sym_tick_size d))
    (symbol_map exchange_symbols)) as H.
  { unfold symbol_map, exchange_symbols. simpl. repeat apply map_Forall_insert_2; try apply map_Forall_empty; done. }
  destruct (H y d Hd) as (? & ? & ->). constructor; simpl; unfold is_u32, is_s32; lia.
Qed.

(** ** Properties *)

(** An order is accepted exactly when its symbol is listed,
    its quantity is a positive multiple of the minimum lot and at most the
    maximum, and its price is in the symbol's range and on its tick grid, as
    32-bit unsigned arithmetic sees the price; the check never divides by
    zero. *)
Theorem validator_accepts symbols id y side q p flags :
  symbols_ok symbols → is_u32 q →
  (∃ r, validate_new_order symbols id y side q p flags = Ret r) ∧
  (validate_new_order symbols id y side q p flags = Ret oe.REJECT_REASON.NONE ↔
   ∃ d, symbols !! y = Some d ∧ acceptable d q p).
Proof.
  intros Hok Hq. split; [by apply validate_total|]. split.
  - intros H. destruct (validate_known _ _ _ _ _ _ _ H) as [d Hd]. exists d. split; [done|].
    by apply (validate_NONE _ _ _ _ _ _ _ d Hd (Hok _ _ Hd) ltac:(apply Hq)) in H.
  - intros (d & Hd & Ha). by apply (validate_NONE _ _ _ _ _ _ _ d Hd (Hok _ _ Hd) ltac:(apply Hq)).
Qed.

Lemma validator_accepts_witness :
  symbols_ok (symbol_map exchange_symbols) ∧ is_u32 100 ∧
  ∃ d, symbol_map exchange_symbols !! 1 = Some d ∧ acceptable d 100 50.
Proof.
  split; [apply exchange_symbols_ok|]. split; [by_decide|].
  apply (validator_accepts (symbol_map exchange_symbols) 9 1 md.SIDE.BUY 100 50 0); [apply exchange_symbols_ok|by_decide|vm_compute; reflexivity].
Defined.

(** A negative price on the tick grid and in
    range is rejected as invalid, because the price is converted to unsigned
    before the remainder is taken — unless the tick divides [2^32]. *)
Theorem validator_rejects_negative_prices symbols id y side q p flags d :
  symbols !! y = Some d → symbol_ok d → (sym_min_lot_size d | q) →
  - 2 ^ 31 <= p < 0 → (sym_tick_size d | p) → ¬ (sym_tick_size d | 2 ^ 32) →
  validate_new_order symbols id y side q p flags = Ret oe.REJECT_REASON.INVALID_PRICE.
Proof.
  intros Hd [Ht Hm _ _ _] Hl Hp Hg Hn. unfold validate_new_order. rewrite Hd.
  replace (sym_min_lot_size d =? 0) with false by lia. replace (sym_tick_size d =? 0) with false by lia.
  apply mod_divides in Hl as ->; [|lia]. simpl.
  assert (u32 p = p + 2 ^ 32) as -> by words.
  destruct (_ mod _ =? 0) eqn:E; [|done].
  apply mod_divides in E; [|lia]. destruct Hn.
  replace (2 ^ 32) with (p + 2 ^ 32 - p) by lia. by apply Z.divide_sub_r.
Qed.

Lemma validator_rejects_negative_prices_witness :
  symbol_ok (Build_symbol_definition 7 10 1 1000 100 (-100)) ∧
  validate_new_order {[7 := Build_symbol_definition 7 10 1 1000 100 (-100)]} 1 7 md.SIDE.BUY 5 (-50) 0
    = Ret oe.REJECT_REASON.INVALID_PRICE.
Proof.
  assert (symbol_ok (Build_symbol_definition 7 10 1 1000 100 (-100))) as Hok
    by (constructor; simpl; unfold is_u32, is_s32; lia).
  split; [done|].
  apply (validator_rejects_negative_prices {[7 := Build_symbol_definition 7 10 1 1000 100 (-100)]} 1 7 md.SIDE.BUY 5 (-50) 0
    (Build_symbol_definition 7 10 1 1000 100 (-100))); simpl;
    [by rewrite lookup_singleton_eq|done|apply Z.divide_1_l|lia|by exists (-5)|intros [k Hk]; lia].
Defined.
