(* ===== verification/ClientHandler.v ===== *)
(** * [order_entry/oe_client_handler.cpp]: sessions, order ids and responses

    The handler keeps the sessions of the logged-in clients, gives every
    accepted order an exchange order id, forwards requests to the matching
    engine's queue and writes the engine's responses to the client's socket.
    The two queues are lists, sockets are numbers, and what happens to them is
    a log of events. *)
From Stdlib Require Import Init.Byte Strings.String.
From S2P Require Import Prelude Protocol Validator.

(** ** The handler's data *)

Record session_info := mk_session {
  session_id : Z;
  si_client_id : Z;
  last_seq_num : Z;
  exch_seq_num : Z;
}.

Record user_info := mk_user {
  ui_username : string;
  ui_password : string;
  ui_client_id : Z;
}.

Record open_order := mk_open { oo_exch_order_id : Z; oo_symbol : Z }.

Record exch_order := mk_exch { eo_client_id : Z; eo_order_id : Z }.

#[global] Instance session_info_eq_dec : EqDecision session_info.
Proof. solve_decision. Defined.
#[global] Instance open_order_eq_dec : EqDecision open_order.
Proof. solve_decision. Defined.
#[global] Instance exch_order_eq_dec : EqDecision exch_order.
Proof. solve_decision. Defined.

(** ** What the environment decides

    [::send] and [::write] accept some bytes or fail; [again] stands for
    [EAGAIN] (the same number as [EWOULDBLOCK] on Linux). *)
Inductive io_result :=
  | sent (n : Z)
  | again
  | not_a_socket
  | failed.

Inductive io_event :=
  | Wrote (fd : Z) (bs : list byte)
  | Shutdown (fd : Z)
  | Closed (fd : Z).

#[global] Instance io_result_eq_dec : EqDecision io_result.
Proof. solve_decision. Defined.
#[global] Instance io_event_eq_dec : EqDecision io_event.
Proof. solve_decision. Defined.

(** The answers may differ from call to call: every question of the handler is
    numbered.  [hw_walk] is the order in which a range-based [for] visits an
    [unordered_map]; [hw_fuel] bounds the attempts to send one message that the
    model follows. *)
Class HandlerWorld := {
  hw_clock : nat → Z;
  hw_random : nat → Z;
  hw_send : nat → Z → list byte → io_result;
  hw_write : nat → Z → list byte → io_result;
  hw_walk : nat → gmap Z open_order → list (Z * open_order);
  hw_walk_perm : ∀ n m, hw_walk n m ≡ₚ map_to_list m;
  hw_fuel : nat;
}.

(** The symbols of the validator and the users' file. *)
Class HandlerConfig := {
  hc_symbols : gmap Z symbol_definition;
  hc_users : gmap string user_info;
}.

(** A counting clock, sockets that take whatever they are given. *)
#[refine] Definition calm_handler_world : HandlerWorld := {|
  hw_clock := λ n, Z.of_nat n;
  hw_random := λ n, Z.of_nat n;
  hw_send := λ _ _ b, sent (Z.of_nat (length b));
  hw_write := λ _ _ b, sent (Z.of_nat (length b));
  hw_walk := λ _ m, map_to_list m;
  hw_fuel := 60;
|}.
Proof. done. Defined.

(** [std::string(p, strnlen(p, n))] of an [n]-byte array. *)
Fixpoint c_string (bs : list byte) : string :=
  match bs with
  | [] => EmptyString
  | b :: bs => if decide (b = x00) then EmptyString else String (Ascii.ascii_of_byte b) (c_string bs)
  end.

(** [strncpy(dst, s, n)]: the array's bytes, filled up with zeros. *)
Definition strncpy (n : nat) (s : string) : list byte := resize n x00 (String.list_byte_of_string s).

Module ClientHandler.

Record t := mk {
  sock_to_session_info : gmap Z session_info;
  client_to_sock_fd : gmap Z Z;
  client_to_open_orders : gmap Z (gmap Z open_order);
  exch_to_client_orders : gmap Z exch_order;
  to_matching_engine : list oe.oe_payload;
  from_matching_engine : list oe.oe_payload;
  calls : nat;
  io : list io_event;
}.

Definition initial : t := mk ∅ ∅ ∅ ∅ [] [] 0 [].

Definition on_sessions (f : gmap Z session_info → gmap Z session_info) (h : t) : t :=
  mk (f (sock_to_session_info h)) (client_to_sock_fd h) (client_to_open_orders h) (exch_to_client_orders h)
    (to_matching_engine h) (from_matching_engine h) (calls h) (io h).
Definition on_socks (f : gmap Z Z → gmap Z Z) (h : t) : t :=
  mk (sock_to_session_info h) (f (client_to_sock_fd h)) (client_to_open_orders h) (exch_to_client_orders h)
    (to_matching_engine h) (from_matching_engine h) (calls h) (io h).
Definition on_open_orders (f : gmap Z (gmap Z open_order) → gmap Z (gmap Z open_order)) (h : t) : t :=
  mk (sock_to_session_info h) (client_to_sock_fd h) (f (client_to_open_orders h)) (exch_to_client_orders h)
    (to_matching_engine h) (from_matching_engine h) (calls h) (io h).
Definition on_exch_orders (f : gmap Z exch_order → gmap Z exch_order) (h : t) : t :=
  mk (sock_to_session_info h) (client_to_sock_fd h) (client_to_open_orders h) (f (exch_to_client_orders h))
    (to_matching_engine h) (from_matching_engine h) (calls h) (io h).
Definition add_to_engine (ps : list oe.oe_payload) (h : t) : t :=
  mk (sock_to_session_info h) (client_to_sock_fd h) (client_to_open_orders h) (exch_to_client_orders h)
    (to_matching_engine h ++ ps) (from_matching_engine h) (calls h) (io h).
Definition set_from_engine (q : list oe.oe_payload) (h : t) : t :=
  mk (sock_to_session_info h) (client_to_sock_fd h) (client_to_open_orders h) (exch_to_client_orders h)
    (to_matching_engine h) q (calls h) (io h).
Definition count_call (h : t) : t :=
  mk (sock_to_session_info h) (client_to_sock_fd h) (client_to_open_orders h) (exch_to_client_orders h)
    (to_matching_engine h) (from_matching_engine h) (S (calls h)) (io h).
Definition add_io (es : list io_event) (h : t) : t :=
  mk (sock_to_session_info h) (client_to_sock_fd h) (client_to_open_orders h) (exch_to_client_orders h)
    (to_matching_engine h) (from_matching_engine h) (calls h) (io h ++ es).

(** [client_to_open_orders[c]]: an entry is made when there is none. *)
Definition on_orders_of (c : Z) (f : gmap Z open_order → gmap Z open_order) : t → t :=
  on_open_orders (λ m, <[c := f (default ∅ (m !! c))]> m).

(** [session_info.exch_seq_num++], and the assignment to [last_seq_num]. *)
Definition bump_exch_seq_num (s : session_info) : session_info :=
  mk_session (session_id s) (si_client_id s) (last_seq_num s) (u32 (exch_seq_num s + 1)).
Definition set_last_seq_num (n : Z) (s : session_info) : session_info :=
  mk_session (session_id s) (si_client_id s) n (exch_seq_num s).

Section ops.
Context `{HW : HandlerWorld} `{HC : HandlerConfig}.
Abbreviation HM := (M t).

(** A question to the environment. *)
Definition ask {A} (f : nat → A) : HM A :=
  n ← gets calls;
  modify count_call;;
  mret (f n).

Definition nanotime : HM Z := ts ← ask hw_clock; mret (clock_nanotime ts).

Definition record_io (fd : Z) (b : list byte) (r : io_result) : HM io_result :=
  match r with
  | sent n => modify (add_io [Wrote fd (take (Z.to_nat n) b)])
  | _ => mret tt
  end;;
  mret r.

Definition send (fd : Z) (b : list byte) : HM io_result := r ← ask (λ n, hw_send n fd b); record_io fd b r.
Definition write (fd : Z) (b : list byte) : HM io_result := r ← ask (λ n, hw_write n fd b); record_io fd b r.

(** [shutdown(fd, SHUT_RDWR); close(fd);] *)
Definition shutdown_close (fd : Z) : HM unit := modify (add_io [Shutdown fd; Closed fd]).

Definition emplace (p : oe.oe_payload) : HM unit := modify (add_to_engine [p]).

Definition get_sock_fd (client_id : Z) : HM Z :=
  m ← gets client_to_sock_fd;
  mret (default (-1) (m !! client_id)).

Definition validate_session (fd session client_id : Z) : HM bool :=
  m ← gets sock_to_session_info;
  mret match m !! fd with
       | None => false
       | Some s => (session_id s =? session) && (si_client_id s =? client_id)
       end.

Definition send_order_reject (fd seq_num client_id reason order_id : Z) : HM unit :=
  emplace (oe.mk_oe_payload oe.MSG_TYPE.REJECT order_id 0 seq_num client_id md.SIDE.BUY 0 0 reason).

Definition update_last_seq_num (fd seq_num : Z) : HM unit :=
  modify (on_sessions (alter (set_last_seq_num seq_num) fd)).

Definition cancel_all_client_orders (client_id : Z) : HM unit :=
  m ← gets client_to_open_orders;
  match m !! client_id with
  | None => mret tt
  | Some orders =>
      walk ← ask (λ n, hw_walk n orders);
      for_each walk (λ '(_, order),
        emplace (oe.mk_oe_payload oe.MSG_TYPE.DELETE_ORDER (oo_exch_order_id order) (oo_symbol order) 0 client_id
          md.SIDE.BUY 0 0 0));;
      modify (on_open_orders (delete client_id))
  end.

Definition on_socket_closed (fd : Z) : HM unit :=
  m ← gets sock_to_session_info;
  match m !! fd with
  | None => mret tt
  | Some s =>
      cancel_all_client_orders (si_client_id s);;
      modify (on_socks (delete (si_client_id s)));;
      modify (on_sessions (delete fd))
  end.

(** The [while] of [write_msg]: [bs] is the message, [sent_so_far] the bytes
    the socket took.  A socket that is not ready is tried again at once, before
    the time is looked at. *)
Fixpoint send_loop (fuel : nat) (fd : Z) (bs : list byte) (start sent_so_far : Z) : HM Z :=
  match fuel with
  | O => throw out_of_fuel
  | S fuel =>
      if sent_so_far <? Z.of_nat (length bs) then
        let rest := drop (Z.to_nat sent_so_far) bs in
        r ← send fd rest;
        r ← (if decide (r = not_a_socket) then write fd rest else mret r);
        match r with
        | again => send_loop fuel fd bs start sent_so_far
        | not_a_socket | failed => mret (-1)
        | sent n =>
            now ← nanotime;
            if u64 (now - start) >? 10000000 then mret (-1)
            else send_loop fuel fd bs start (sent_so_far + n)
        end
      else mret sent_so_far
  end.

(** [write_msg] fills in every header field but [msg_type], which its callers
    set; [mk] is the caller's message around its header. *)
Definition write_msg {Msg} (c : codec Msg) (mk : oe.oe_response_header → Msg) (msg_type fd : Z) : HM Z :=
  m ← gets sock_to_session_info;
  match m !! fd with
  | None => mret (-1)
  | Some s =>
      modify (on_sessions (alter bump_exch_seq_num fd));;
      let header := oe.Build_oe_response_header (Z.of_nat (c_size c)) msg_type oe.OE_PROTOCOL_VERSION
        (exch_seq_num s) (last_seq_num s) (si_client_id s) in
      start ← nanotime;
      send_loop hw_fuel fd (c_enc c (mk header)) start 0
  end.

Definition write_msg_to_client {Msg} (c : codec Msg) (mk : oe.oe_response_header → Msg) (msg_type : Z)
    (client_id last_seq : Z) : HM unit :=
  fd ← get_sock_fd client_id;
  if fd =? -1 then mret tt
  else
    update_last_seq_num fd last_seq;;
    len ← write_msg c mk msg_type fd;
    when (len =? -1) (on_socket_closed fd;; shutdown_close fd).

(** A refused login: the response and the end of the connection. *)
Definition refuse_login (fd : Z) (msg : oe.login) (status : Z) : HM unit :=
  let h := oe.lg_header msg in
  write fd (c_enc oe.c_login_response (oe.Build_login_response
    (oe.Build_oe_response_header (Z.of_nat (c_size oe.c_login_response)) oe.MSG_TYPE.LOGIN_RESPONSE oe.OE_PROTOCOL_VERSION
       (oe.rq_seq_num h) 0 (oe.rq_client_id h)) 0 status));;
  shutdown_close fd.

(** The first failing check of the credentials. *)
Definition check_credentials (msg : oe.login) : option Z :=
  match hc_users !! c_string (oe.lg_username msg) with
  | None => Some oe.LOGIN_STATUS.INVALID_USERNAME
  | Some u =>
      if negb (String.eqb (ui_password u) (c_string (oe.lg_password msg))) then Some oe.LOGIN_STATUS.INVALID_PASSWORD
      else if negb (ui_client_id u =? oe.rq_client_id (oe.lg_header msg)) then Some oe.LOGIN_STATUS.INVALID_CLIENT_ID
      else None
  end.

(** A login of a client that has a session on another socket ends both. *)
Definition duplicate_login (fd other_fd : Z) (msg : oe.login) : HM unit :=
  m ← gets sock_to_session_info;
  match m !! other_fd with
  | None => shutdown_close fd
  | Some _ =>
      refuse_login fd msg oe.LOGIN_STATUS.SESSION_ALREADY_ACTIVE;;
      write_msg oe.c_error_message (λ h, oe.Build_error_message h oe.REJECT_REASON.DUPLICATE_LOGIN 15
        (strncpy 32 "Duplicate login")) oe.MSG_TYPE.ERROR other_fd;;
      on_socket_closed other_fd;;
      shutdown_close other_fd
  end.

Definition on_login (fd : Z) (msg : oe.login) : HM unit :=
  match check_credentials msg with
  | Some status => refuse_login fd msg status
  | None =>
      let client_id := oe.rq_client_id (oe.lg_header msg) in
      socks ← gets client_to_sock_fd;
      match socks !! client_id with
      | Some other_fd => if other_fd =? fd then mret tt else duplicate_login fd other_fd msg
      | None =>
          id ← ask hw_random;
          modify (on_sessions (insert fd (mk_session (u64 id) client_id (oe.rq_seq_num (oe.lg_header msg)) 0)));;
          modify (on_socks (insert client_id fd));;
          len ← write_msg oe.c_login_response (λ h, oe.Build_login_response h (u64 id) oe.LOGIN_STATUS.SUCCESS)
            oe.MSG_TYPE.LOGIN_RESPONSE fd;
          when (len =? -1) (on_socket_closed fd;; shutdown_close fd)
      end
  end.

(** [validator.validate_new_order(…)] *)
Definition validate (order_id symbol side quantity price flags : Z) : HM Z :=
  λ h, (validate_new_order hc_symbols order_id symbol side quantity price flags, h).

Definition on_new_order (fd : Z) (msg : oe.new_order) : HM unit :=
  let h := oe.no_header msg in
  let id := oe.no_order_id msg in
  let client_id := oe.rq_client_id h in
  let reject reason := send_order_reject fd (oe.rq_seq_num h) client_id reason id in
  valid ← validate_session fd (oe.rq_session_id h) client_id;
  if negb valid then reject oe.REJECT_REASON.UNKNOWN_SESSION_ID
  else
    r ← validate id (oe.no_symbol msg) (oe.no_side msg) (oe.no_quantity msg) (oe.no_price msg) (oe.no_flags msg);
    if negb (r =? oe.REJECT_REASON.NONE) then reject r
    else
      modify (on_orders_of client_id (λ m, m));;
      m ← gets client_to_open_orders;
      if bool_decide (is_Some (default ∅ (m !! client_id) !! id)) then reject oe.REJECT_REASON.DUPLICATE_ORDER_ID
      else
        exch_order_id ← nanotime;
        modify (on_orders_of client_id (insert id (mk_open exch_order_id (oe.no_symbol msg))));;
        modify (on_exch_orders (insert exch_order_id (mk_exch client_id id)));;
        emplace (oe.mk_oe_payload oe.MSG_TYPE.NEW_ORDER exch_order_id (oe.no_symbol msg) (oe.rq_seq_num h) client_id
          (oe.no_side msg) (oe.no_quantity msg) (oe.no_price msg) (oe.no_flags msg)).

Definition on_delete_order (fd : Z) (msg : oe.delete_order) : HM unit :=
  let h := oe.do_header msg in
  let id := oe.do_order_id msg in
  let client_id := oe.rq_client_id h in
  let reject reason := send_order_reject fd (oe.rq_seq_num h) client_id reason id in
  valid ← validate_session fd (oe.rq_session_id h) client_id;
  if negb valid then reject oe.REJECT_REASON.UNKNOWN_SESSION_ID
  else
    m ← gets client_to_open_orders;
    match m !! client_id ≫= lookup id with
    | None => reject oe.REJECT_REASON.UKNOWN_ORDER_ID
    | Some order =>
        emplace (oe.mk_oe_payload oe.MSG_TYPE.DELETE_ORDER (oo_exch_order_id order) (oo_symbol order)
          (oe.rq_seq_num h) client_id md.SIDE.BUY 0 0 0)
    end.

Definition on_modify_order (fd : Z) (msg : oe.modify_order) : HM unit :=
  let h := oe.mo_header msg in
  let id := oe.mo_order_id msg in
  let client_id := oe.rq_client_id h in
  let reject reason := send_order_reject fd (oe.rq_seq_num h) client_id reason id in
  valid ← validate_session fd (oe.rq_session_id h) client_id;
  if negb valid then reject oe.REJECT_REASON.UNKNOWN_SESSION_ID
  else
    m ← gets client_to_open_orders;
    match m !! client_id ≫= lookup id with
    | None => reject oe.REJECT_REASON.UKNOWN_ORDER_ID
    | Some order =>
        r ← validate id (oo_symbol order) (oe.mo_side msg) (oe.mo_quantity msg) (oe.mo_price msg) 0;
        if negb (r =? oe.REJECT_REASON.NONE) then reject r
        else
          emplace (oe.mk_oe_payload oe.MSG_TYPE.MODIFY_ORDER (oo_exch_order_id order) (oo_symbol order)
            (oe.rq_seq_num h) client_id (oe.mo_side msg) (oe.mo_quantity msg) (oe.mo_price msg) 0)
    end.

(** The order is forgotten: [client_to_open_orders[c].erase(o)],
    [exch_to_client_orders.erase(x)]. *)
Definition erase_order (client_id order_id exch_order_id : Z) : HM unit :=
  modify (on_orders_of client_id (delete order_id));;
  modify (on_exch_orders (delete exch_order_id)).

(** One round of the loop of [process]. *)
Definition handle_response (p : oe.oe_payload) : HM unit :=
  let id := oe.exch_order_id p in
  let ty := oe.msg_type p in
  let seq := oe.client_seq p in
  if ty =? oe.MSG_TYPE.REJECT then
    fd ← get_sock_fd (oe.client_id p);
    if fd =? -1 then mret tt
    else write_msg_to_client oe.c_order_reject (λ h, oe.Build_order_reject h id (oe.flags p)) oe.MSG_TYPE.REJECT
           (oe.client_id p) seq
  else
    m ← gets exch_to_client_orders;
    match m !! id with
    | None => mret tt
    | Some (mk_exch client_id order_id) =>
        if ty =? oe.MSG_TYPE.ACK then
          write_msg_to_client oe.c_order_ack
            (λ h, oe.Build_order_ack h order_id id (oe.quantity p) (s32 (oe.price p))) oe.MSG_TYPE.ACK client_id seq
        else if ty =? oe.MSG_TYPE.FILL then
          write_msg_to_client oe.c_order_fill
            (λ h, oe.Build_order_fill h order_id (oe.quantity p) (s32 (oe.price p)) (oe.flags p)) oe.MSG_TYPE.FILL
            client_id seq;;
          when (negb (Z.land (oe.flags p) oe.FILL_FLAGS.CLOSED =? 0)) (erase_order client_id order_id id)
        else if ty =? oe.MSG_TYPE.CLOSE then
          write_msg_to_client oe.c_order_closed (λ h, oe.Build_order_closed h order_id) oe.MSG_TYPE.CLOSE client_id seq;;
          erase_order client_id order_id id
        else mret tt
    end.

(** [while (from_matching_engine.front())]: no operation of the handler adds
    to this queue. *)
Fixpoint process_responses (q : list oe.oe_payload) : HM unit :=
  match q with
  | [] => mret tt
  | p :: q => handle_response p;; modify (set_from_engine q);; process_responses q
  end.

Definition process : HM unit :=
  q ← gets from_matching_engine;
  process_responses q.
End ops.
End ClientHandler.
