(* ===== verification/HandlerInv.v ===== *)
(** * What every operation of the client handler preserves

    The sessions, the order maps and the requests put on the matching engine's
    queue: whatever clients send and however their sockets behave, every
    operation keeps [inv]. *)
From Stdlib Require Import Init.Byte.
From S2P Require Import Prelude Protocol MdStream OrderLadder LadderSpec LadderProps Broker BrokerRefine Validator ClientHandler.
Import ClientHandler.

Section inv.
Context `{HW : HandlerWorld} `{HC : HandlerConfig}.

(** The ids [xs], newest first, are what the clock showed at different calls,
    the latest of them before the [n]-th. *)
Definition readings_of (n : nat) (xs : list Z) : Prop :=
  ∃ ns, StronglySorted gt ns ∧ Forall (λ k, (k < n)%nat) ns ∧ xs = (λ k, clock_nanotime (hw_clock k)) <$> ns.

Lemma readings_of_le m n xs : (m ≤ n)%nat → readings_of m xs → readings_of n xs.
Proof. intros Hle (ns & Hs & Hn & ->). exists ns. split_and!; [done| |done]. eapply Forall_impl; [done|]. simpl. lia. Qed.

Lemma readings_of_cons n xs : readings_of n xs → readings_of (S n) (clock_nanotime (hw_clock n) :: xs).
Proof.
  intros (ns & Hs & Hn & ->). exists (n :: ns). split_and!; [|constructor; [lia|]|done].
  - constructor; [done|]. eapply Forall_impl; [done|]. simpl. lia.
  - eapply Forall_impl; [done|]. simpl. lia.
Qed.

(** An id given out twice: the clock showed the same at two calls. *)
Definition clock_tie (n : nat) (x : Z) : Prop :=
  ∃ i j, (i < j < n)%nat ∧ clock_nanotime (hw_clock i) = x ∧ clock_nanotime (hw_clock j) = x.

Lemma readings_twice n x xs : readings_of n xs → [x; x] `sublist_of` xs → clock_tie n x.
Proof.
  intros (ns & Hs & Hn & ->) (k1 & k2 & H1 & Hin%singleton_sublist_l)%sublist_cons_l.
  apply fmap_app_inv in H1 as (m1 & [|j m2] & -> & H1 & ->); [done|]. injection H1 as -> ->.
  apply list_elem_of_fmap in Hin as (i & He & Hi). exists i, j.
  apply Forall_app in Hn as [_ [Hj _]%Forall_cons].
  assert (StronglySorted gt (j :: m2)) as [_ Hf]%StronglySorted_inv by (clear -Hs; induction m1; [done|apply StronglySorted_inv in Hs as [? _]; auto]).
  rewrite Forall_forall in Hf. apply Hf in Hi. split; [lia|]. by split.
Qed.

(** [seen]: the ids the matching engine was given before its queue.  An open
    order is found under its exchange id, unless that id was given out twice. *)
Record inv (seen : list Z) (h : t) : Prop := {
  hi_session : ∀ fd s, sock_to_session_info h !! fd = Some s → client_to_sock_fd h !! si_client_id s = Some fd;
  hi_orders : ∀ c m o x y, client_to_open_orders h !! c = Some m → m !! o = Some (mk_open x y) →
    (exch_to_client_orders h !! x = Some (mk_exch c o) ∨ [x; x] `sublist_of` foldl seen_after seen (to_matching_engine h)) ∧
    y ∈ dom hc_symbols;
  hi_exch : ∀ x e, exch_to_client_orders h !! x = Some e → x ∈ foldl seen_after seen (to_matching_engine h);
  hi_readings : readings_of (calls h) (foldl seen_after seen (to_matching_engine h));
  hi_requests : Forall (request_listed (dom hc_symbols)) (to_matching_engine h);
}.

Definition same_exch (h h' : t) : Prop := exch_to_client_orders h' = exch_to_client_orders h.
#[global] Instance same_exch_preorder : PreOrder same_exch.
Proof. split; [by intros h; red|]. unfold same_exch. intros h1 h2 h3. congruence. Qed.

Lemma inv_initial : inv [] initial.
Proof. constructor; simpl; intros *; rewrite ?lookup_empty; try done. exists []. by repeat constructor. Qed.

Context (seen : list Z).
Abbreviation I := (inv seen).
Abbreviation stays m := (keeps I I same_exch m).

Lemma inv_count h : I h → I (count_call h).
Proof.
  intros [Hs Ho Hx Hn Hr]. constructor; simpl; [done..| |done]. eapply readings_of_le; [|done]. lia.
Qed.

Lemma inv_io es h : I h → I (add_io es h).
Proof. by intros [Hs Ho Hx Hn Hr]. Qed.

Lemma inv_emit p h : I h → request_listed (dom hc_symbols) p → is_new p = false → I (add_to_engine [p] h).
Proof.
  intros [Hs Ho Hx Hn Hr] Hp Hnew.
  assert (foldl seen_after seen (to_matching_engine h ++ [p]) = foldl seen_after seen (to_matching_engine h)) as He
    by (rewrite foldl_app; simpl; unfold seen_after at 1; by rewrite Hnew).
  constructor; simpl; rewrite ?He; [done..|]. apply Forall_app. split; [done|]. by constructor.
Qed.

Lemma stays_ask {A} (f : nat → A) : stays (ask f).
Proof.
  unfold ask. apply keeps_bind; [apply _|apply keeps_gets, _|]. intros n.
  apply keeps_bind; [apply _| |intros _; apply keeps_ret, _].
  apply keeps_modify. intros h Hh. split; [by apply inv_count|done].
Qed.

Lemma stays_io es : stays (modify (add_io es)).
Proof. apply keeps_modify. intros h Hh. split; [by apply inv_io|done]. Qed.

Lemma stays_emit p : is_new p = false → request_listed (dom hc_symbols) p → stays (emplace p).
Proof. intros Hn Hp. apply keeps_modify. intros h Hh. split; [|done]. by apply inv_emit. Qed.

(** One step of a program none of whose steps touches the invariant. *)
Ltac stays_step :=
  lazymatch goal with
  | |- keeps _ _ _ (mbind _ _) => apply keeps_bind; [apply _| |intros ?]
  | |- keeps _ _ _ (mret _) => apply keeps_ret, _
  | |- keeps _ _ _ (gets _) => apply keeps_gets, _
  | |- keeps _ _ _ (when _ _) => apply keeps_when; [apply _|]
  | |- keeps _ _ _ (ask _) => apply stays_ask
  | |- keeps _ _ _ (modify (add_io _)) => apply stays_io
  | |- keeps _ _ _ (throw _) => apply keeps_throw; [done]
  | |- keeps _ _ _ (match ?x with _ => _ end) => destruct x
  | |- keeps _ _ _ (if ?b then _ else _) => destruct b
  end.
Ltac stays := repeat stays_step.

Lemma stays_record_io fd b r : stays (record_io fd b r).
Proof. unfold record_io. stays. Qed.

Lemma stays_send fd b : stays (send fd b).
Proof. unfold send. stays. apply stays_record_io. Qed.

Lemma stays_write fd b : stays (write fd b).
Proof. unfold write. stays. apply stays_record_io. Qed.

Lemma stays_nanotime : stays nanotime.
Proof. unfold nanotime. stays. Qed.

Lemma stays_shutdown_close fd : stays (shutdown_close fd).
Proof. unfold shutdown_close. stays. Qed.

Lemma stays_send_loop fuel fd bs start n : stays (send_loop fuel fd bs start n).
Proof.
  revert n. induction fuel as [|fuel IH]; intros n; cbn [send_loop]; [stays; done|].
  stays; auto using stays_send, stays_write, stays_nanotime.
Qed.

(** The client of a session is never changed in place. *)
Lemma stays_session f fd :
  (∀ s, si_client_id (f s) = si_client_id s) → stays (modify (on_sessions (alter f fd))).
Proof.
  intros Hf. apply keeps_modify. intros h [Hs Ho Hx Hn Hr]. split; [|done]. constructor; simpl; try done.
  intros fd' s. rewrite lookup_alter. destruct (decide _) as [<-|]; [|apply Hs].
  intros (s0 & Hs0 & ->)%fmap_Some. rewrite Hf. by apply Hs.
Qed.

Lemma stays_write_msg {Msg} (c : codec Msg) mk ty fd : stays (write_msg c mk ty fd).
Proof.
  unfold write_msg. stays; [by apply stays_session|apply stays_nanotime|apply stays_send_loop].
Qed.

Lemma inv_orders_sub h f :
  I h → (∀ c m o x y, f (client_to_open_orders h) !! c = Some m → m !! o = Some (mk_open x y) →
    ∃ m', client_to_open_orders h !! c = Some m' ∧ m' !! o = Some (mk_open x y)) → I (on_open_orders f h).
Proof.
  intros [Hs Ho Hx Hn Hr] Hf. constructor; simpl; try done.
  intros c m o x y Hc Hm. destruct (Hf _ _ _ _ _ Hc Hm) as (m' & ? & ?). eauto.
Qed.

Lemma stays_cancel_all c : stays (cancel_all_client_orders c).
Proof.
  intros h Hh. unfold cancel_all_client_orders. apply wp_gets.
  destruct (client_to_open_orders h !! c) as [orders|] eqn:Hc; [|by apply (keeps_ret I I same_exch)].
  apply wp_bind. change (wp I (ask ?f) ?Q h) with (Q (f (calls h)) (count_call h)). cbn beta.
  set (h1 := count_call h). assert (I h1) as H1 by by apply inv_count.
  apply wp_bind. eapply wp_mono.
  { apply (keeps_for_each I I same_exch); [|done]. intros [o [x y]] Hin.
    rewrite hw_walk_perm, elem_of_map_to_list in Hin.
    apply stays_emit; [done|]. unfold request_listed. simpl.
    by apply (hi_orders _ _ Hh _ _ _ _ _ Hc Hin). }
  intros _ h2 [H2 He]. simpl. split; [|done]. apply inv_orders_sub; [done|].
  intros c' m o x y [_ Hm]%lookup_delete_Some. eauto.
Qed.

Lemma inv_session_gone fd s h :
  I h → sock_to_session_info h !! fd = Some s →
  I (on_sessions (delete fd) (on_socks (delete (si_client_id s)) h)).
Proof.
  intros [Hs Ho Hx Hn Hr] Hfd. constructor; simpl; try done.
  intros fd' s' [Hne Hs']%lookup_delete_Some. apply lookup_delete_Some. split; [|by apply Hs].
  intros He. apply Hs in Hfd, Hs'. congruence.
Qed.

(** [cancel_all_client_orders] leaves the sessions alone. *)
Lemma cancel_all_sessions c h :
  wp (λ _, True) (cancel_all_client_orders c) (λ _ h', sock_to_session_info h' = sock_to_session_info h) h.
Proof.
  unfold cancel_all_client_orders. apply wp_gets.
  destruct (client_to_open_orders h !! c) as [orders|]; [|done].
  apply wp_bind. change (wp _ (ask ?f) ?Q h) with (Q (f (calls h)) (count_call h)). cbn beta.
  assert (∀ xs f, (∀ x, x ∈ xs → keeps (λ _, True) (λ _, True) (λ a b, sock_to_session_info b = sock_to_session_info a) (f x)) →
    keeps (λ _, True) (λ _, True) (λ a b, sock_to_session_info b = sock_to_session_info a) (@for_each t (Z * open_order) xs f)) as Hfor.
  { intros xs f. apply keeps_for_each. split; [by intros ?|]. intros ??? H1 H2. congruence. }
  apply wp_bind. eapply wp_mono; [apply Hfor; [|done]; by intros [? ?] _ ? _|].
  by intros _ h2 [_ He].
Qed.

Lemma stays_on_socket_closed fd : stays (on_socket_closed fd).
Proof.
  intros h Hh. unfold on_socket_closed. apply wp_gets.
  destruct (sock_to_session_info h !! fd) as [s|] eqn:Hs; [|by apply (keeps_ret I I same_exch)].
  apply wp_bind. pose proof (stays_cancel_all (si_client_id s) h Hh) as H1.
  pose proof (cancel_all_sessions (si_client_id s) h) as H2. unfold wp in *.
  destruct (cancel_all_client_orders _ h) as [[[]|e] h1]; [|done]. simpl. destruct H1 as [H1 He].
  split; [|done]. apply inv_session_gone; [done|]. by rewrite H2.
Qed.

Lemma stays_write_msg_to_client {Msg} (c : codec Msg) mk ty client seq : stays (write_msg_to_client c mk ty client seq).
Proof.
  unfold write_msg_to_client, get_sock_fd. stays;
    auto using stays_write_msg, stays_on_socket_closed, stays_shutdown_close. by apply stays_session.
Qed.

Lemma stays_refuse_login fd msg status : stays (refuse_login fd msg status).
Proof. unfold refuse_login. stays; auto using stays_write, stays_shutdown_close. Qed.

Lemma stays_duplicate_login fd other msg : stays (duplicate_login fd other msg).
Proof.
  unfold duplicate_login.
  stays; auto using stays_refuse_login, stays_write_msg, stays_on_socket_closed, stays_shutdown_close.
Qed.

Lemma inv_new_session fd s h :
  I h → client_to_sock_fd h !! si_client_id s = None →
  I (on_socks (insert (si_client_id s) fd) (on_sessions (insert fd s) h)).
Proof.
  intros [Hs Ho Hx Hn Hr] Hc. constructor; simpl; try done.
  intros fd' s' [[<- <-]|[Hne Hs']]%lookup_insert_Some; [apply lookup_insert_eq|].
  apply Hs in Hs'. rewrite lookup_insert_ne; [done|]. intros He. congruence.
Qed.

Lemma stays_on_login fd msg : stays (on_login fd msg).
Proof.
  unfold on_login. destruct (check_credentials msg); [apply stays_refuse_login|].
  intros h Hh. apply wp_gets. destruct (client_to_sock_fd h !! _) as [other|] eqn:Hc.
  { revert h Hh Hc. destruct (other =? fd); intros h Hh _; [by apply (keeps_ret I I same_exch)|by apply stays_duplicate_login]. }
  apply wp_bind. change (wp I (ask ?f) ?Q h) with (Q (f (calls h)) (count_call h)). cbn beta.
  apply wp_modify, wp_modify. set (s := mk_session _ _ _ _).
  assert (I (on_socks (insert (si_client_id s) fd) (on_sessions (insert fd s) (count_call h)))) as H1.
  { apply inv_new_session; [by apply inv_count|done]. }
  assert (stays (len ← write_msg oe.c_login_response (λ x, oe.Build_login_response x (session_id s) oe.LOGIN_STATUS.SUCCESS)
    oe.MSG_TYPE.LOGIN_RESPONSE fd; when (len =? -1) (on_socket_closed fd;; shutdown_close fd))) as Hk.
  { stays; auto using stays_write_msg, stays_on_socket_closed, stays_shutdown_close. }
  exact (Hk _ H1).
Qed.

Lemma reject_ok p : oe.msg_type p = oe.MSG_TYPE.REJECT → request_listed (dom hc_symbols) p.
Proof. intros Hp. unfold request_listed, request_op. by rewrite Hp. Qed.

Lemma stays_reject fd seq c r id : stays (send_order_reject fd seq c r id).
Proof. apply stays_emit; [done|]. by apply reject_ok. Qed.

Lemma stays_validate_session fd s c : stays (validate_session fd s c).
Proof. unfold validate_session. stays. Qed.

(** What the invariant says about an order that a client may name. *)
Lemma inv_open h c id x y :
  I h → client_to_open_orders h !! c ≫= lookup id = Some (mk_open x y) →
  (exch_to_client_orders h !! x = Some (mk_exch c id) ∨ [x; x] `sublist_of` foldl seen_after seen (to_matching_engine h)) ∧
  y ∈ dom hc_symbols.
Proof. intros Hh (m & Hc & Hm)%bind_Some. by eapply hi_orders. Qed.

Lemma stays_on_delete_order fd msg : stays (on_delete_order fd msg).
Proof.
  unfold on_delete_order. stays_step; [apply stays_validate_session|]. destruct (negb _); [apply stays_reject|].
  intros h Hh. apply wp_gets. destruct (_ ≫= _) as [[x y]|] eqn:Ho; [|by apply stays_reject].
  apply stays_emit; [done| |done]. by apply (inv_open _ _ _ _ _ Hh Ho).
Qed.

Context (Hsym : symbols_ok hc_symbols).

Lemma stays_validate id y side q p flags : stays (validate id y side q p flags).
Proof.
  intros h Hh. unfold wp, validate.
  destruct (validate_total hc_symbols id y side q p flags Hsym) as [r ->]. by split.
Qed.

Lemma stays_on_modify_order fd msg : is_u32 (oe.mo_quantity msg) → stays (on_modify_order fd msg).
Proof.
  intros Hq. unfold on_modify_order. stays_step; [apply stays_validate_session|]. destruct (negb _); [apply stays_reject|].
  intros h Hh. apply wp_gets. destruct (_ ≫= _) as [[x y]|] eqn:Ho; [|by apply stays_reject].
  assert (∀ r, stays (if negb (r =? oe.REJECT_REASON.NONE)
    then send_order_reject fd (oe.rq_seq_num (oe.mo_header msg)) (oe.rq_client_id (oe.mo_header msg)) r (oe.mo_order_id msg)
    else emplace (oe.mk_oe_payload oe.MSG_TYPE.MODIFY_ORDER x y (oe.rq_seq_num (oe.mo_header msg))
      (oe.rq_client_id (oe.mo_header msg)) (oe.mo_side msg) (oe.mo_quantity msg) (oe.mo_price msg) 0))) as Hk.
  { intros r. destruct (negb _); [apply stays_reject|]. apply stays_emit; [done|]. split; [|done].
    by apply (inv_open _ _ _ _ _ Hh Ho). }
  apply wp_bind. eapply wp_mono; [by apply stays_validate|]. intros r h1 [H1 He]. simpl.
  eapply wp_mono; [by apply Hk|]. intros _ h2 [H2 He2]. split; [done|]. by etrans.
Qed.

(** The order maps after an accepted order: its id is a new reading. *)
Lemma inv_enter h c id y seq d q p fl :
  I h → y ∈ dom hc_symbols → 0 < q < 2 ^ 32 →
  let x := clock_nanotime (hw_clock (calls h)) in
  I (add_to_engine [oe.mk_oe_payload oe.MSG_TYPE.NEW_ORDER x y seq c d q p fl]
    (on_exch_orders (insert x (mk_exch c id)) (on_orders_of c (insert id (mk_open x y)) (count_call h)))).
Proof.
  intros Hh Hy Hq x. pose proof Hh as [Hs Ho Hx Hn Hr]. set (p0 := oe.mk_oe_payload _ _ _ _ _ _ _ _ _).
  assert (foldl seen_after seen (to_matching_engine h ++ [p0]) = x :: foldl seen_after seen (to_matching_engine h)) as He
    by by rewrite foldl_app.
  constructor; simpl; rewrite ?He; [done| | | |].
  - intros c' m o x' y' Hc Hm. rewrite lookup_insert_Some in Hc.
    assert ((c', o, x', y') = (c, id, x, y) ∨ ∃ m', client_to_open_orders h !! c' = Some m' ∧ m' !! o = Some (mk_open x' y')) as Hcase.
    { destruct Hc as [[<- <-]|[Hne Hc]]; [|eauto].
      rewrite lookup_insert_Some in Hm. destruct Hm as [[<- [= <- <-]]|[Hne Hm]]; [auto|].
      right. simpl in Hm. destruct (client_to_open_orders h !! c) as [m'|] eqn:Hc'; [simpl in Hm; eauto|].
      simpl in Hm. by rewrite lookup_empty in Hm. }
    destruct Hcase as [[= -> -> -> ->]|(m' & Hc' & Hm')]; [by rewrite lookup_insert_eq; auto|].
    destruct (Ho _ _ _ _ _ Hc' Hm') as [He' Hy']. split; [|done].
    destruct He' as [He'|Ht]; [|by right; apply sublist_cons].
    rewrite lookup_insert. destruct (decide (x = x')) as [<-|]; [right|by left].
    apply sublist_skip, singleton_sublist_l. by eapply Hx.
  - intros x' e [[<- <-]|[Hne He']]%lookup_insert_Some; [by constructor|]. constructor. by eapply Hx.
  - by apply readings_of_cons.
  - apply Forall_app. split; [done|]. constructor; [by split|constructor].
Qed.

Definition safe {A} (m : M t A) : Prop := ∀ h, I h → wp I m (λ _, I) h.

Lemma stays_safe {A} (m : M t A) : stays m → safe m.
Proof. intros Hm h Hh. eapply wp_mono; [by apply Hm|]. by intros a h' [? _]. Qed.

Lemma safe_bind {A B} (m : M t A) (k : A → M t B) : safe m → (∀ a, safe (k a)) → safe (mbind k m).
Proof. intros Hm Hk h Hh. apply wp_bind. eapply wp_mono; [by apply Hm|]. intros a h' H'. by apply Hk. Qed.

(** The only operation that reads the clock for an id. *)
Lemma safe_on_new_order fd msg : is_u32 (oe.no_quantity msg) → safe (on_new_order fd msg).
Proof.
  intros Hq h Hh.
  assert (∀ r h', I h' → wp I (send_order_reject fd (oe.rq_seq_num (oe.no_header msg)) (oe.rq_client_id (oe.no_header msg)) r
    (oe.no_order_id msg)) (λ _ h', I h') h') as Hrej.
  { intros r h' H'. eapply wp_mono; [by apply stays_reject|]. by intros ?? [? _]. }
  unfold on_new_order. apply wp_bind. eapply wp_mono; [by apply stays_validate_session|].
  intros valid h0 [H0 _]. clear h Hh. rename h0 into h, H0 into Hh. destruct (negb valid); [by apply Hrej|].
  apply wp_bind. unfold wp at 1, validate.
  destruct (validate_total hc_symbols (oe.no_order_id msg) (oe.no_symbol msg) (oe.no_side msg) (oe.no_quantity msg)
    (oe.no_price msg) (oe.no_flags msg) Hsym) as [r Hr]. rewrite Hr.
  destruct (Z.eqb_spec r oe.REJECT_REASON.NONE) as [->|]; [|by apply Hrej]. cbn [negb].
  apply wp_modify, wp_gets. set (c := oe.rq_client_id (oe.no_header msg)). set (h1 := on_orders_of c (λ m, m) h).
  assert (I h1) as H1.
  { apply inv_orders_sub; [done|]. intros c' m o x y [[<- <-]|[_ Hc]]%lookup_insert_Some Hm; [|eauto].
    destruct (client_to_open_orders h !! c) as [m'|] eqn:Hc'; [eauto|]. simpl in Hm. by rewrite lookup_empty in Hm. }
  case_bool_decide as Hdup; [by apply Hrej|].
  apply (inv_enter h1 c (oe.no_order_id msg)); [done| |].
  - apply elem_of_dom. by eapply validate_known.
  - split; [|apply Hq]. eapply validate_positive; [done|apply Hq|done].
Qed.

Lemma inv_erase h c o x :
  I h → exch_to_client_orders h !! x = Some (mk_exch c o) →
  I (on_exch_orders (delete x) (on_orders_of c (delete o) h)).
Proof.
  intros Hh Hx0. pose proof Hh as [Hs Ho Hx Hn Hr]. constructor; simpl; try done.
  - intros c' m o' x' y' Hc Hm.
    assert ((c', o') ≠ (c, o) ∧ ∃ m', client_to_open_orders h !! c' = Some m' ∧ m' !! o' = Some (mk_open x' y')) as (Hne & m' & Hc' & Hm').
    { apply lookup_insert_Some in Hc as [[<- <-]|[Hne Hc]]; [|split; [congruence|eauto]].
      apply lookup_delete_Some in Hm as [Hne Hm]. split; [congruence|].
      destruct (client_to_open_orders h !! c) as [m'|] eqn:Hc'; [eauto|]. simpl in Hm. by rewrite lookup_empty in Hm. }
    destruct (Ho _ _ _ _ _ Hc' Hm') as [[He|Ht] Hy]; (split; [|done]); [left|by right].
    apply lookup_delete_Some. split; [|done]. congruence.
  - intros x' e [_ He]%lookup_delete_Some. by eapply Hx.
Qed.

Lemma safe_handle_response p : safe (handle_response p).
Proof.
  intros h Hh. unfold handle_response. destruct (_ =? oe.MSG_TYPE.REJECT).
  { apply stays_safe; [|done]. stays; [unfold get_sock_fd; stays|apply stays_write_msg_to_client]. }
  apply wp_gets. destruct (exch_to_client_orders h !! oe.exch_order_id p) as [[c o]|] eqn:Hx;
    [|by apply stays_safe; [apply keeps_ret, _|]].
  assert (∀ {Msg} (cd : codec Msg) mk ty (k : M t unit), (∀ h', I h' → exch_to_client_orders h' !! oe.exch_order_id p = Some (mk_exch c o) →
      wp I k (λ _, I) h') → wp I (write_msg_to_client cd mk ty c (oe.client_seq p);; k) (λ _, I) h) as Hthen.
  { intros Msg cd mk ty k Hk. apply wp_bind. eapply wp_mono; [by apply stays_write_msg_to_client|].
    intros _ h' [H' He]. apply Hk; [done|]. by rewrite He. }
  assert (∀ h', I h' → exch_to_client_orders h' !! oe.exch_order_id p = Some (mk_exch c o) →
    wp I (erase_order c o (oe.exch_order_id p)) (λ _, I) h') as Herase.
  { intros h' H' He. by apply inv_erase. }
  destruct (_ =? oe.MSG_TYPE.ACK); [by apply stays_safe; [apply stays_write_msg_to_client|]|].
  destruct (_ =? oe.MSG_TYPE.FILL); [|destruct (_ =? oe.MSG_TYPE.CLOSE)].
  - apply Hthen. intros h' H' He. destruct (negb _); [by apply Herase|by apply stays_safe; [apply keeps_ret, _|]].
  - apply Hthen. intros h' H' He. by apply Herase.
  - by apply stays_safe; [apply keeps_ret, _|].
Qed.

Lemma inv_set_from_engine q h : I h → I (set_from_engine q h).
Proof. by intros [Hs Ho Hx Hn Hr]. Qed.

Lemma safe_process : safe process.
Proof.
  intros h Hh. apply wp_gets. generalize (from_matching_engine h) as q. intros q. revert h Hh.
  induction q as [|p q IH]; intros h Hh; cbn [process_responses]; [done|].
  apply wp_bind. eapply wp_mono; [by apply safe_handle_response|]. intros [] h' H'. apply wp_modify.
  apply IH. by apply inv_set_from_engine.
Qed.
End inv.
