(* ===== verification/HandlerTheorems.v ===== *)
(** * The properties of the client handler *)
From Stdlib Require Import Init.Byte.
From S2P Require Import Prelude Protocol MdStream OrderLadder LadderSpec LadderProps Broker BrokerRefine Validator ClientHandler HandlerInv.
Import ClientHandler.

(** What happens to the handler: a parsed message, a closed socket, or a turn
    of the server's loop. *)
Inductive event :=
  | Login (fd : Z) (msg : oe.login)
  | NewOrder (fd : Z) (msg : oe.new_order)
  | DeleteOrder (fd : Z) (msg : oe.delete_order)
  | ModifyOrder (fd : Z) (msg : oe.modify_order)
  | SocketClosed (fd : Z)
  | Process.

(** Quantities are [uint32_t]. *)
Definition event_ok (e : event) : Prop :=
  match e with
  | NewOrder _ msg => is_u32 (oe.no_quantity msg)
  | ModifyOrder _ msg => is_u32 (oe.mo_quantity msg)
  | _ => True
  end.

#[global] Instance event_ok_dec e : Decision (event_ok e).
Proof. destruct e; simpl; apply _. Defined.

Section events.
Context `{HW : HandlerWorld} `{HC : HandlerConfig}.

Definition run_event (e : event) : M t unit :=
  match e with
  | Login fd msg => on_login fd msg
  | NewOrder fd msg => on_new_order fd msg
  | DeleteOrder fd msg => on_delete_order fd msg
  | ModifyOrder fd msg => on_modify_order fd msg
  | SocketClosed fd => on_socket_closed fd
  | Process => process
  end.

(** The engine's answers arrive between events. *)
Definition answer (ps : list oe.oe_payload) (h : t) : t := set_from_engine (from_matching_engine h ++ ps) h.

Lemma run_event_inv seen e h :
  symbols_ok hc_symbols → event_ok e → inv seen h → inv seen (run_event e h).2.
Proof.
  intros Hs He Hh.
  assert (safe seen (run_event e)) as Hsafe.
  { destruct e; simpl in *; eauto using stays_safe, stays_on_login, stays_on_delete_order, stays_on_modify_order,
      stays_on_socket_closed, safe_process, safe_on_new_order. }
  specialize (Hsafe h Hh). unfold wp in Hsafe. by destruct (run_event e h) as [[|] ?].
Qed.

(** Events, each after some answers of the engine. *)
Definition run_events (es : list (list oe.oe_payload * event)) : M t unit :=
  for_each es (λ '(ps, e), modify (answer ps);; run_event e).

Lemma run_events_cons ps e es h :
  run_events ((ps, e) :: es) h = match run_event e (answer ps h) with
                                 | (Ret tt, h1) => run_events es h1
                                 | (Throw ex, h1) => (Throw ex, h1)
                                 end.
Proof. unfold run_events. simpl. unfold mbind, M_bind. simpl. by destruct (run_event e _) as [[[]|] ?]. Qed.

Lemma run_events_inv seen es h :
  symbols_ok hc_symbols → Forall (λ e, event_ok e.2) es → inv seen h → inv seen (run_events es h).2.
Proof.
  intros Hs. revert h. induction es as [|[ps e] es IH]; intros h Hok Hh; [done|].
  inversion_clear Hok as [|? ? He Hes].
  pose proof (run_event_inv seen e (answer ps h) Hs He (inv_set_from_engine seen _ h Hh)) as H1.
  rewrite run_events_cons. destruct (run_event e (answer ps h)) as [[[]|ex] h1]; [by apply (IH h1)|done].
Qed.

(** The ids of the new orders, oldest first, are readings of the clock at later
    and later calls. *)
Lemma inv_readings h : inv [] h →
  ∃ ns, StronglySorted lt ns ∧ Forall (λ n, (n < calls h)%nat) ns ∧
    new_ids (to_matching_engine h) = (λ n, clock_nanotime (hw_clock n)) <$> ns.
Proof.
  intros Hi. destruct (hi_readings _ _ Hi) as (ns & Hs & Hn & He). rewrite seen_after_all, app_nil_r in He.
  exists (reverse ns). split_and!; [|by apply Forall_reverse|by rewrite fmap_reverse, <- He, reverse_involutive].
  clear He Hi. induction Hs as [|n ns Hs IH Hlt]; [constructor|]. rewrite reverse_cons.
  apply Forall_cons in Hn as [_ Hn]. specialize (IH Hn).
  apply StronglySorted_app_2; [intros a b Ha ->%list_elem_of_singleton|done|by repeat constructor].
  rewrite elem_of_reverse in Ha. rewrite Forall_forall in Hlt. specialize (Hlt a Ha). lia.
Qed.

(** An id of two new orders comes from two calls that read the same. *)
Lemma inv_tie h x : inv [] h → issued_twice x (to_matching_engine h) → clock_tie (calls h) x.
Proof.
  intros Hi Ht. eapply readings_twice; [apply Hi|]. rewrite seen_after_all, app_nil_r. by apply reverse_twice.
Qed.
End events.

(** ** A concrete exchange of messages *)

Definition demo_config : HandlerConfig := {|
  hc_symbols := symbol_map exchange_symbols;
  hc_users := {["alice" := mk_user "alice" "secret" 10; "bob" := mk_user "bob" "hunter2" 20]};
|}.

Definition demo_login (user password : string) (client : Z) : oe.login :=
  oe.Build_login (oe.Build_oe_request_header 52 oe.MSG_TYPE.LOGIN 1 1 client 0) (strncpy 16 user) (strncpy 16 password).

Definition demo_new_order (client session id symbol side quantity price : Z) : oe.new_order :=
  oe.Build_new_order (oe.Build_oe_request_header 42 oe.MSG_TYPE.NEW_ORDER 1 2 client session) id symbol side quantity price 0.

Definition demo_events : list (list oe.oe_payload * event) :=
  [([], Login 5 (demo_login "alice" "secret" 10));
   ([], Login 6 (demo_login "bob" "hunter2" 20));
   ([], NewOrder 5 (demo_new_order 10 0 77 1 md.SIDE.BUY 100 50));
   ([], NewOrder 6 (demo_new_order 20 4 78 1 md.SIDE.SELL 100 50));
   ([], NewOrder 6 (demo_new_order 20 4 79 1 md.SIDE.SELL 100 53));
   ([oe.mk_oe_payload oe.MSG_TYPE.FILL 8 1 0 10 md.SIDE.BUY 100 50 2;
     oe.mk_oe_payload oe.MSG_TYPE.FILL 9 1 2 20 md.SIDE.SELL 100 50 2], Process);
   ([], SocketClosed 5)].


#[local] Existing Instance calm_handler_world.
#[local] Existing Instance demo_config.

(** ** The requests *)

(** C17 ([handler_requests_serveable]): whatever clients send and however their
    sockets behave, everything the handler puts on the matching engine's queue
    is something the engine can serve: orders name listed symbols, new orders
    have a positive quantity, and the rest are rejects.  The ids of the new
    orders are what [nanotime] returned at later and later calls, so they are
    fresh unless it returned the same value at two of these calls. *)
Theorem handler_requests_serveable (HW : HandlerWorld) (HC : HandlerConfig) es :
  symbols_ok hc_symbols → Forall (λ e, event_ok e.2) es →
  let h := (run_events es initial).2 in
  Forall (request_listed (dom hc_symbols)) (to_matching_engine h) ∧
  (∃ ns, StronglySorted lt ns ∧ Forall (λ n, (n < calls h)%nat) ns ∧
     new_ids (to_matching_engine h) = (λ n, clock_nanotime (hw_clock n)) <$> ns) ∧
  (requests_ok [] (dom hc_symbols) (to_matching_engine h) ∨
   ∃ x, issued_twice x (to_matching_engine h) ∧ clock_tie (calls h) x).
Proof.
  intros Hs He h. pose proof (run_events_inv [] es initial Hs He inv_initial) as Hi. fold h in Hi.
  split; [apply Hi|]. split; [by apply inv_readings|].
  destruct (requests_listed_ok (dom hc_symbols) (to_matching_engine h) [] (hi_requests _ _ Hi)) as [?|Hr]; [by left|right].
  apply (id_reused_twice _ []) in Hr as [x Hx]. exists x. split; [done|]. by apply inv_tie.
Qed.

(** The calm clock never shows the same twice. *)
Lemma calm_no_tie n x : (n ≤ 100)%nat → ¬ clock_tie n x.
Proof. intros Hn (i & j & Hij & Hi & Hj). simpl in Hi, Hj. rewrite clock_nanotime_id in Hi, Hj by lia. lia. Qed.

Lemma handler_requests_serveable_witness :
  symbols_ok hc_symbols ∧ requests_ok [] (dom hc_symbols) (to_matching_engine (run_events demo_events initial).2).
Proof.
  split; [apply exchange_symbols_ok|].
  destruct (handler_requests_serveable calm_handler_world demo_config demo_events) as (_ & _ & [H|(x & _ & H)]);
    [apply exchange_symbols_ok|by_decide|exact H|].
  exfalso. revert H. apply calm_no_tie. apply Nat.leb_le. vm_compute. reflexivity.
Defined.

(** C31 ([handler_tables_consistent]): a session is always the one its client's
    messages are sent to, no client has two sessions, and every open order is
    found under its exchange order id with the client and the order id it was
    entered under, so that an answer of the engine reaches the order it is about
    — unless [nanotime] returned that id at two calls and both orders carry it. *)
Theorem handler_tables_consistent (HW : HandlerWorld) (HC : HandlerConfig) es :
  symbols_ok hc_symbols → Forall (λ e, event_ok e.2) es →
  let h := (run_events es initial).2 in
  (∀ fd s, sock_to_session_info h !! fd = Some s → client_to_sock_fd h !! si_client_id s = Some fd) ∧
  (∀ fd1 fd2 s1 s2, sock_to_session_info h !! fd1 = Some s1 → sock_to_session_info h !! fd2 = Some s2 →
    si_client_id s1 = si_client_id s2 → fd1 = fd2) ∧
  (∀ c id x y, client_to_open_orders h !! c ≫= lookup id = Some (mk_open x y) →
    exch_to_client_orders h !! x = Some (mk_exch c id) ∨
    issued_twice x (to_matching_engine h) ∧ clock_tie (calls h) x).
Proof.
  intros Hs He h. pose proof (run_events_inv [] es initial Hs He inv_initial) as Hi. fold h in Hi.
  split; [apply Hi|]. split.
  - intros fd1 fd2 s1 s2 H1 H2 Heq. apply (hi_session _ _ Hi) in H1, H2. congruence.
  - intros c id x y Ho. destruct (inv_open _ _ _ _ _ _ Hi Ho) as [[?|Ht] _]; [by left|right].
    rewrite seen_after_all, app_nil_r, reverse_twice in Ht. split; [done|]. by apply inv_tie.
Qed.

Lemma handler_tables_consistent_witness :
  Forall (λ e, event_ok e.2) (take 5 demo_events) ∧
  exch_to_client_orders (run_events (take 5 demo_events) initial).2 !! 8 = Some (mk_exch 10 77).
Proof.
  split; [by_decide|].
  destruct (proj2 (proj2 (handler_tables_consistent calm_handler_world demo_config (take 5 demo_events) exchange_symbols_ok
    ltac:(by_decide))) 10 77 8 1) as [H|[_ H]]; [vm_compute; reflexivity|exact H|].
  exfalso. revert H. apply calm_no_tie. apply Nat.leb_le. vm_compute. reflexivity.
Defined.

(** ** The decisions *)

(** The open order of client [c] under [id]. *)
Definition find_order (h : t) (c id : Z) : option open_order := client_to_open_orders h !! c ≫= lookup id.

Definition session_valid (h : t) (fd : Z) (rq : oe.oe_request_header) : bool :=
  match sock_to_session_info h !! fd with
  | Some s => (session_id s =? oe.rq_session_id rq) && (si_client_id s =? oe.rq_client_id rq)
  | None => false
  end.

(** The part of the handler that requests do not touch. *)
Definition same_connections (h h' : t) : Prop :=
  sock_to_session_info h' = sock_to_session_info h ∧ client_to_sock_fd h' = client_to_sock_fd h ∧ io h' = io h.

Definition rejected (h h' : t) (rq : oe.oe_request_header) (reason id : Z) : Prop :=
  to_matching_engine h' = to_matching_engine h ++
    [oe.mk_oe_payload oe.MSG_TYPE.REJECT id 0 (oe.rq_seq_num rq) (oe.rq_client_id rq) md.SIDE.BUY 0 0 reason] ∧
  (∀ c o, find_order h' c o = find_order h c o) ∧ exch_to_client_orders h' = exch_to_client_orders h.

Section decisions.
Context `{HW : HandlerWorld} `{HC : HandlerConfig}.

(** Why a new order is refused, or [NONE]. *)
Definition new_order_verdict (h : t) (fd : Z) (msg : oe.new_order) : Z :=
  let rq := oe.no_header msg in
  if negb (session_valid h fd rq) then oe.REJECT_REASON.UNKNOWN_SESSION_ID
  else match validate_new_order hc_symbols (oe.no_order_id msg) (oe.no_symbol msg) (oe.no_side msg)
               (oe.no_quantity msg) (oe.no_price msg) (oe.no_flags msg) with
       | Ret r => if r =? oe.REJECT_REASON.NONE then
                    match find_order h (oe.rq_client_id rq) (oe.no_order_id msg) with
                    | Some _ => oe.REJECT_REASON.DUPLICATE_ORDER_ID
                    | None => oe.REJECT_REASON.NONE
                    end
                  else r
       | Throw _ => oe.REJECT_REASON.NONE
       end.

(** The same for a change of an open order: [check] validates it. *)
Definition change_verdict (h : t) (fd : Z) (rq : oe.oe_request_header) (id : Z) (check : open_order → outcome Z) : Z :=
  if negb (session_valid h fd rq) then oe.REJECT_REASON.UNKNOWN_SESSION_ID
  else match find_order h (oe.rq_client_id rq) id with
       | None => oe.REJECT_REASON.UKNOWN_ORDER_ID
       | Some o => match check o with Ret r => r | Throw _ => oe.REJECT_REASON.NONE end
       end.

Lemma run_validate_session fd rq h :
  validate_session fd (oe.rq_session_id rq) (oe.rq_client_id rq) h = (Ret (session_valid h fd rq), h).
Proof. unfold validate_session, session_valid. erewrite bind_ret by reflexivity. by destruct (_ !! fd). Qed.

Lemma find_order_touch h c c' o : find_order (on_orders_of c (λ m, m) h) c' o = find_order h c' o.
Proof.
  unfold find_order. simpl. rewrite lookup_insert. destruct (decide (c = c')) as [<-|]; [|done].
  by destruct (client_to_open_orders h !! c).
Qed.

Lemma find_order_insert h c id v c' o :
  find_order (on_orders_of c (insert id v) h) c' o = if decide ((c, id) = (c', o)) then Some v else find_order h c' o.
Proof.
  unfold find_order. simpl. rewrite lookup_insert. destruct (decide (c = c')) as [<-|Hne].
  2:{ rewrite decide_False; [done|congruence]. }
  simpl. rewrite lookup_insert. destruct (decide (id = o)) as [<-|Hne].
  { by rewrite decide_True. }
  rewrite decide_False by congruence. destruct (client_to_open_orders h !! c); simpl; [done|apply lookup_empty].
Qed.

Lemma run_reject fd rq r id h :
  ∃ h', send_order_reject fd (oe.rq_seq_num rq) (oe.rq_client_id rq) r id h = (Ret tt, h') ∧
    same_connections h h' ∧ rejected h h' rq r id.
Proof. eexists. split; [reflexivity|]. by split. Qed.
End decisions.

(** C32 ([new_order_decision]): a new order is forwarded — recorded in both maps under
    the reading of the clock that becomes its exchange order id — exactly when
    the session is the socket's, the validator accepts it and the client has no
    open order with its id; otherwise nothing is recorded and a reject with the
    first failing check's reason goes through the engine. *)
Theorem new_order_decision (HW : HandlerWorld) (HC : HandlerConfig) fd msg h :
  symbols_ok hc_symbols →
  let rq := oe.no_header msg in
  let v := new_order_verdict h fd msg in
  ∃ h', on_new_order fd msg h = (Ret tt, h') ∧ same_connections h h' ∧
    if decide (v = oe.REJECT_REASON.NONE) then
      let x := clock_nanotime (hw_clock (calls h)) in
      to_matching_engine h' = to_matching_engine h ++
        [oe.mk_oe_payload oe.MSG_TYPE.NEW_ORDER x (oe.no_symbol msg) (oe.rq_seq_num rq) (oe.rq_client_id rq)
           (oe.no_side msg) (oe.no_quantity msg) (oe.no_price msg) (oe.no_flags msg)] ∧
      (∀ c o, find_order h' c o =
         if decide ((oe.rq_client_id rq, oe.no_order_id msg) = (c, o)) then Some (mk_open x (oe.no_symbol msg)) else find_order h c o) ∧
      exch_to_client_orders h' = <[x := mk_exch (oe.rq_client_id rq) (oe.no_order_id msg)]> (exch_to_client_orders h)
    else rejected h h' rq v (oe.no_order_id msg).
Proof.
  intros Hs rq v. subst v. unfold on_new_order, new_order_verdict. erewrite bind_ret by apply run_validate_session.
  fold rq. destruct (session_valid h fd rq); cbn [negb]; [|apply run_reject].
  destruct (validate_total hc_symbols (oe.no_order_id msg) (oe.no_symbol msg) (oe.no_side msg) (oe.no_quantity msg)
    (oe.no_price msg) (oe.no_flags msg) Hs) as [r Hr]. rewrite Hr.
  erewrite bind_ret by (unfold validate; by rewrite Hr).
  destruct (Z.eqb_spec r oe.REJECT_REASON.NONE) as [->|Hne]; cbn [negb].
  2:{ cbv beta iota. destruct (decide (r = oe.REJECT_REASON.NONE)); [done|]. apply run_reject. }
  set (h1 := on_orders_of (oe.rq_client_id rq) (λ m, m) h).
  assert (∀ c o, find_order h1 c o = find_order h c o) as Hf by apply find_order_touch.
  erewrite bind_ret by reflexivity. erewrite bind_ret by reflexivity. cbn beta. fold h1.
  assert (default ∅ (client_to_open_orders h1 !! oe.rq_client_id rq) !! oe.no_order_id msg = find_order h (oe.rq_client_id rq) (oe.no_order_id msg)) as ->.
  { rewrite <-Hf. unfold find_order. by destruct (client_to_open_orders h1 !! _); [|apply lookup_empty]. }
  destruct (find_order h _ _) eqn:Hdup; cbv beta iota.
  - rewrite bool_decide_true by eauto.
    destruct (run_reject fd rq oe.REJECT_REASON.DUPLICATE_ORDER_ID (oe.no_order_id msg) h1) as (h' & Hrun & Hc & Hj & Ho & Hx).
    exists h'. split; [done|]. split; [done|]. split; [done|]. split; [|done].
    intros c' id'. by rewrite Ho.
  - rewrite bool_decide_false by (by intros []).
    eexists. split; [reflexivity|]. split; [done|]. split; [done|]. split; [|done].
    intros c' id'. rewrite <-Hf.
    exact (find_order_insert h1 (oe.rq_client_id rq) (oe.no_order_id msg) (mk_open (clock_nanotime (hw_clock (calls h))) (oe.no_symbol msg)) c' id').
Qed.

Lemma new_order_decision_witness :
  let h := (run_events (take 2 demo_events) initial).2 in
  symbols_ok hc_symbols ∧ ∃ h', on_new_order 5 (demo_new_order 10 0 77 1 md.SIDE.BUY 100 50) h = (Ret tt, h') ∧
    find_order h' 10 77 = Some (mk_open 8 1).
Proof.
  intros h. split; [apply exchange_symbols_ok|].
  destruct (new_order_decision calm_handler_world demo_config 5 (demo_new_order 10 0 77 1 md.SIDE.BUY 100 50) h exchange_symbols_ok) as (h' & Hrun & _ & H).
  exists h'. split; [done|].
  assert (new_order_verdict h 5 (demo_new_order 10 0 77 1 md.SIDE.BUY 100 50) = oe.REJECT_REASON.NONE) as Hv by (vm_compute; reflexivity).
  rewrite decide_True in H by done. destruct H as (_ & Hf & _). rewrite Hf. rewrite decide_True by done.
  vm_compute. reflexivity.
Defined.

(** A cancel or a modification is forwarded, with the exchange
    order id and the symbol the order was entered with, exactly when the session
    is the socket's, the client has the order open and — for a modification —
    the validator accepts the new values; otherwise a reject says why.  Neither
    changes what is open. *)
Theorem change_decision (HW : HandlerWorld) (HC : HandlerConfig) fd dmsg mmsg h :
  symbols_ok hc_symbols →
  (let rq := oe.do_header dmsg in
   let v := change_verdict h fd rq (oe.do_order_id dmsg) (λ _, Ret oe.REJECT_REASON.NONE) in
   ∃ h', on_delete_order fd dmsg h = (Ret tt, h') ∧ same_connections h h' ∧
    if decide (v = oe.REJECT_REASON.NONE) then
      ∃ o, find_order h (oe.rq_client_id rq) (oe.do_order_id dmsg) = Some o ∧
        h' = add_to_engine [oe.mk_oe_payload oe.MSG_TYPE.DELETE_ORDER (oo_exch_order_id o) (oo_symbol o)
          (oe.rq_seq_num rq) (oe.rq_client_id rq) md.SIDE.BUY 0 0 0] h
    else rejected h h' rq v (oe.do_order_id dmsg)) ∧
  (let rq := oe.mo_header mmsg in
   let v := change_verdict h fd rq (oe.mo_order_id mmsg) (λ o, validate_new_order hc_symbols (oe.mo_order_id mmsg) (oo_symbol o)
     (oe.mo_side mmsg) (oe.mo_quantity mmsg) (oe.mo_price mmsg) 0) in
   ∃ h', on_modify_order fd mmsg h = (Ret tt, h') ∧ same_connections h h' ∧
    if decide (v = oe.REJECT_REASON.NONE) then
      ∃ o, find_order h (oe.rq_client_id rq) (oe.mo_order_id mmsg) = Some o ∧
        h' = add_to_engine [oe.mk_oe_payload oe.MSG_TYPE.MODIFY_ORDER (oo_exch_order_id o) (oo_symbol o)
          (oe.rq_seq_num rq) (oe.rq_client_id rq) (oe.mo_side mmsg) (oe.mo_quantity mmsg) (oe.mo_price mmsg) 0] h
    else rejected h h' rq v (oe.mo_order_id mmsg)).
Proof.
  intros Hs. split.
  - intros rq v. subst v. unfold on_delete_order, change_verdict. erewrite bind_ret by apply run_validate_session.
    fold rq. destruct (session_valid h fd rq); cbn [negb]; [|apply run_reject]. erewrite bind_ret by reflexivity.
    fold (find_order h (oe.rq_client_id rq) (oe.do_order_id dmsg)). destruct (find_order h _ _) as [o|]; [|apply run_reject].
    cbv beta iota. eexists. split; [reflexivity|]. split; [done|]. destruct (decide _); [eauto|done].
  - intros rq v. subst v. unfold on_modify_order, change_verdict. erewrite bind_ret by apply run_validate_session.
    fold rq. destruct (session_valid h fd rq); cbn [negb]; [|apply run_reject]. erewrite bind_ret by reflexivity.
    fold (find_order h (oe.rq_client_id rq) (oe.mo_order_id mmsg)). destruct (find_order h _ _) as [o|]; [|apply run_reject].
    destruct (validate_total hc_symbols (oe.mo_order_id mmsg) (oo_symbol o) (oe.mo_side mmsg) (oe.mo_quantity mmsg)
      (oe.mo_price mmsg) 0 Hs) as [r Hr].
    erewrite bind_ret by (unfold validate; by rewrite Hr). rewrite Hr. cbv beta iota.
    destruct (Z.eqb_spec r oe.REJECT_REASON.NONE) as [->|Hne]; cbn [negb].
    + eexists. split; [reflexivity|]. split; [done|]. destruct (decide _); [eauto|done].
    + destruct (decide (r = oe.REJECT_REASON.NONE)); [done|]. apply run_reject.
Qed.

Lemma change_decision_witness :
  let h := (run_events (take 5 demo_events) initial).2 in
  let msg := oe.Build_delete_order (oe.Build_oe_request_header 28 oe.MSG_TYPE.DELETE_ORDER 1 3 10 0) 77 in
  symbols_ok hc_symbols ∧ ∃ h', on_delete_order 5 msg h = (Ret tt, h') ∧ same_connections h h'.
Proof.
  intros h msg. split; [apply exchange_symbols_ok|].
  destruct (change_decision calm_handler_world demo_config 5 msg
    (oe.Build_modify_order (oe.Build_oe_request_header 37 oe.MSG_TYPE.MODIFY_ORDER 1 3 10 0) 77 1 5 5) h exchange_symbols_ok)
    as [(h' & Hrun & Hc & _) _]. by exists h'.
Defined.

(** ** Sockets *)

Lemma run_cancels (xs : list (Z * open_order)) c h :
  for_each xs (λ '(_, order), emplace (oe.mk_oe_payload oe.MSG_TYPE.DELETE_ORDER (oo_exch_order_id order) (oo_symbol order) 0 c
    md.SIDE.BUY 0 0 0)) h =
  (Ret tt, add_to_engine ((λ x : Z * open_order, oe.mk_oe_payload oe.MSG_TYPE.DELETE_ORDER (oo_exch_order_id x.2) (oo_symbol x.2) 0 c
    md.SIDE.BUY 0 0 0) <$> xs) h).
Proof.
  revert h. induction xs as [|[o x] xs IH]; intros h; cbn [for_each].
  { destruct h. unfold add_to_engine. simpl. by rewrite app_nil_r. }
  unfold emplace at 1. erewrite bind_ret by reflexivity. cbn beta. rewrite IH. unfold add_to_engine. simpl. by rewrite <-app_assoc.
Qed.

(** When a session's socket closes, one cancel per
    open order of its client goes to the engine, the session, the client's
    socket and its open orders are forgotten, and the exchange order ids are
    kept until the engine has answered. *)
Theorem socket_closed_cancels_all (HW : HandlerWorld) fd s h :
  sock_to_session_info h !! fd = Some s →
  let c := si_client_id s in
  ∃ h' cancels, on_socket_closed fd h = (Ret tt, h') ∧
    to_matching_engine h' = to_matching_engine h ++ cancels ∧
    cancels ≡ₚ ((λ '(_, x), oe.mk_oe_payload oe.MSG_TYPE.DELETE_ORDER (oo_exch_order_id x) (oo_symbol x) 0 c md.SIDE.BUY 0 0 0)
                 <$> map_to_list (default ∅ (client_to_open_orders h !! c))) ∧
    sock_to_session_info h' = delete fd (sock_to_session_info h) ∧
    client_to_sock_fd h' = delete c (client_to_sock_fd h) ∧
    client_to_open_orders h' = delete c (client_to_open_orders h) ∧
    exch_to_client_orders h' = exch_to_client_orders h ∧ io h' = io h.
Proof.
  intros Hs c. unfold on_socket_closed. erewrite bind_ret by reflexivity. rewrite Hs. cbv beta iota. fold c.
  unfold cancel_all_client_orders. destruct (client_to_open_orders h !! c) as [orders|] eqn:Ho.
  - eexists _, _. split.
    { erewrite bind_ret.
      2:{ erewrite bind_ret by reflexivity. rewrite Ho. cbv beta iota. erewrite bind_ret by reflexivity. cbv beta.
          erewrite bind_ret by apply run_cancels. reflexivity. }
      reflexivity. }
    simpl. split; [done|]. split; [|done]. rewrite hw_walk_perm. apply Permutation_refl', list_fmap_ext. by intros ? [??].
  - eexists _, []. split.
    { erewrite bind_ret; [|erewrite bind_ret by reflexivity; by rewrite Ho]. reflexivity. }
    simpl. rewrite app_nil_r, (delete_id (client_to_open_orders h)), map_to_list_empty by done. done.
Qed.

Lemma socket_closed_cancels_all_witness :
  let h := (run_events (take 5 demo_events) initial).2 in
  ∃ h' cancels, on_socket_closed 5 h = (Ret tt, h') ∧ to_matching_engine h' = to_matching_engine h ++ cancels.
Proof.
  intros h. destruct (socket_closed_cancels_all calm_handler_world 5 (mk_session 0 10 1 1) h) as (h' & cs & Hrun & Ht & _);
    [vm_compute; reflexivity|]. by exists h', cs.
Defined.

Section write_msg.
Context `{HW : HandlerWorld}.






End write_msg.




(** On a socket that keeps answering "not ready" [write_msg]
    never comes back, however long it is followed: the time is looked at only
    after a successful send, so the timeout of 10 milliseconds cannot end the
    loop. *)
Theorem write_msg_spins (HW : HandlerWorld) {Msg} (c : codec Msg) (mk : oe.oe_response_header → Msg) ty fd s h :
  (∀ x, length (c_enc c (mk x)) = c_size c) → (0 < c_size c)%nat → sock_to_session_info h !! fd = Some s →
  (∀ n b, hw_send n fd b = again) → (write_msg c mk ty fd h).1 = Throw out_of_fuel.
Proof.
  intros Hc Hsz Hs Hsend. unfold write_msg. erewrite bind_ret by reflexivity. rewrite Hs. cbv beta iota.
  erewrite bind_ret by reflexivity. cbv beta. erewrite bind_ret by reflexivity. cbv beta.
  set (bs := c_enc c _). assert (length bs = c_size c) as Hlen by apply Hc.
  generalize (count_call (on_sessions (alter bump_exch_seq_num fd) h)) as h1. generalize (clock_nanotime (hw_clock (calls (on_sessions (alter bump_exch_seq_num fd) h)))) as start.
  intros start. induction hw_fuel as [|fuel IH]; intros h1; [done|]. cbn [send_loop].
  replace (0 <? Z.of_nat (length bs)) with true by lia. cbv zeta.
  unfold send, ask, record_io. erewrite bind_ret.
  2:{ repeat (erewrite bind_ret by reflexivity; cbv beta). rewrite Hsend. reflexivity. }
  cbv beta. erewrite bind_ret by (rewrite decide_False by done; reflexivity). cbv beta iota. apply IH.
Qed.

(** A world in which socket 5 is never ready. *)
#[refine] Definition stuck_world : HandlerWorld := {|
  hw_clock := λ n, Z.of_nat n * 1000000000; hw_random := λ n, Z.of_nat n;
  hw_send := λ _ _ _, again; hw_write := λ _ _ _, again; hw_walk := λ _ m, map_to_list m; hw_fuel := 60;
|}.
Proof. done. Defined.

Lemma write_msg_spins_witness :
  let h := (run_events (take 2 demo_events) initial).2 in
  (@write_msg stuck_world _ oe.c_order_closed (λ x, oe.Build_order_closed x 77) oe.MSG_TYPE.CLOSE 5 h).1 = Throw out_of_fuel.
Proof.
  intros h. apply (write_msg_spins stuck_world oe.c_order_closed (λ x, oe.Build_order_closed x 77) oe.MSG_TYPE.CLOSE 5 (mk_session 0 10 1 1) h);
    [done|apply Nat.ltb_lt; vm_compute; reflexivity|vm_compute; reflexivity|done].
Defined.

(** A socket that logs in as a second client
    takes the first client's session over but leaves its entry in
    [client_to_sock_fd] behind: after the socket has closed, the first client
    can never log in again — its connections are shut without an answer. *)
Theorem second_login_strands_first_client (HW : HandlerWorld) (HC : HandlerConfig) fd msg h other :
  check_credentials msg = None →
  client_to_sock_fd h !! oe.rq_client_id (oe.lg_header msg) = Some other → other ≠ fd →
  sock_to_session_info h !! other = None →
  on_login fd msg h = (Ret tt, add_io [Shutdown fd; Closed fd] h).
Proof.
  intros Hcr Hso Hne Hse. unfold on_login. rewrite Hcr. cbv zeta. erewrite bind_ret by reflexivity. rewrite Hso.
  cbv beta iota. replace (other =? fd) with false by lia. unfold duplicate_login.
  erewrite bind_ret by reflexivity. by rewrite Hse.
Qed.

Lemma second_login_strands_first_client_witness :
  let h := (run_events [([], Login 5 (demo_login "alice" "secret" 10)); ([], Login 5 (demo_login "bob" "hunter2" 20));
                        ([], SocketClosed 5)] initial).2 in
  sock_to_session_info h = ∅ ∧ client_to_open_orders h = ∅ ∧
  on_login 6 (demo_login "alice" "secret" 10) h = (Ret tt, add_io [Shutdown 6; Closed 6] h).
Proof.
  intros h. split; [vm_compute; reflexivity|]. split; [vm_compute; reflexivity|].
  apply (second_login_strands_first_client calm_handler_world demo_config 6 (demo_login "alice" "secret" 10) h 5);
    [vm_compute; reflexivity|vm_compute; reflexivity|done|vm_compute; reflexivity].
Defined.
