(* ===== verification/HandlerResponses.v ===== *)
(** * The responses a client receives *)
From Stdlib Require Import Init.Byte.
From S2P Require Import Prelude Protocol MdStream OrderLadder LadderSpec LadderProps Broker BrokerRefine Validator ClientHandler HandlerInv HandlerTheorems.
Import ClientHandler.



Definition is_response (p : oe.oe_payload) : Prop :=
  oe.msg_type p ∈ [oe.MSG_TYPE.ACK; oe.MSG_TYPE.REJECT; oe.MSG_TYPE.FILL; oe.MSG_TYPE.CLOSE].

#[global] Instance is_response_dec p : Decision (is_response p) := _.


Section responses.
Context `{HW : HandlerWorld}.









End responses.


#[local] Existing Instance demo_config.

