(* ===== verification/Exchange.v ===== *)
(** * The order entry side and the matching engine together

    The client handler and the broker run in two threads that share the two
    queues.  A step is an operation of one of them, or requests or responses
    becoming visible on the other side. *)
From Stdlib Require Import Init.Byte.
From S2P Require Import Prelude Protocol MdMcast MdStream Clearing OrderLadder LadderSpec LadderRep LadderProps Broker BrokerRefine BrokerAnswers Validator ClientHandler HandlerInv HandlerTheorems.
From stdpp Require Import relations.

#[local] Set Warnings "-clear-no-such-hyp".

(** ** The handler throws nothing of its own *)

Section throws.
Context `{HW : HandlerWorld} `{HC : HandlerConfig} (Hsym : symbols_ok hc_symbols).
Import ClientHandler.

Abbreviation fine m := (only_throws out_of_fuel m).

Lemma ask_fine {A} (f : nat → A) : fine (ask f).
Proof. unfold ask. throws. Qed.
Hint Resolve ask_fine : throws.
Lemma nanotime_fine : fine nanotime.
Proof. unfold nanotime. throws. Qed.
Lemma send_fine fd b : fine (send fd b).
Proof. unfold send, record_io. throws. Qed.
Lemma write_fine fd b : fine (write fd b).
Proof. unfold write, record_io. throws. Qed.
Hint Resolve nanotime_fine send_fine write_fine : throws.
Lemma send_loop_fine fuel fd bs start n : fine (send_loop fuel fd bs start n).
Proof. revert n. induction fuel as [|fuel IH]; intros n; cbn [send_loop]; throws. Qed.
Hint Resolve send_loop_fine : throws.
Lemma write_msg_fine {Msg} (c : codec Msg) mk ty fd : fine (write_msg c mk ty fd).
Proof. unfold write_msg. throws. Qed.
Lemma on_socket_closed_fine fd : fine (on_socket_closed fd).
Proof. unfold on_socket_closed, cancel_all_client_orders, emplace. throws. Qed.
Lemma reject_fine fd seq c r id : fine (send_order_reject fd seq c r id).
Proof. unfold send_order_reject, emplace. throws. Qed.
Lemma validate_session_fine fd s c : fine (validate_session fd s c).
Proof. unfold validate_session. throws. Qed.
Lemma validate_fine id y side q p flags : fine (validate id y side q p flags).
Proof. intros h e h'. unfold validate. by destruct (validate_total hc_symbols id y side q p flags Hsym) as [r ->]. Qed.
Lemma shutdown_close_fine fd : fine (shutdown_close fd).
Proof. unfold shutdown_close. throws. Qed.
Hint Resolve write_msg_fine on_socket_closed_fine reject_fine validate_session_fine validate_fine shutdown_close_fine : throws.
Lemma write_msg_to_client_fine {Msg} (c : codec Msg) mk ty client seq : fine (write_msg_to_client c mk ty client seq).
Proof. unfold write_msg_to_client, get_sock_fd, update_last_seq_num. throws. Qed.
Lemma refuse_login_fine fd msg status : fine (refuse_login fd msg status).
Proof. unfold refuse_login. throws. Qed.
Hint Resolve write_msg_to_client_fine refuse_login_fine : throws.
Lemma handle_response_fine p : fine (handle_response p).
Proof. unfold handle_response, get_sock_fd, erase_order. throws. Qed.
Hint Resolve handle_response_fine : throws.

Lemma run_event_fine e : fine (run_event e).
Proof.
  destruct e; simpl; unfold on_login, duplicate_login, on_new_order, on_delete_order, on_modify_order, emplace; throws.
  induction a as [|p q IH]; cbn [process_responses]; throws.
Qed.
End throws.

(** ** The system *)

Record exchange := mk_exchange { ex_handler : ClientHandler.t; ex_engine : MatchingEngineBroker.t }.

Section exchange.
Context `{HW : HandlerWorld} `{HC : HandlerConfig} `{BW : BrokerWorld}.

(** The matching engine's main program adds the listed symbols before it
    starts. *)
Definition start (symbols : list symbol_definition) : exchange :=
  mk_exchange ClientHandler.initial
    (for_each symbols (λ d, MatchingEngineBroker.add_symbol (sym_symbol d)) MatchingEngineBroker.initial).2.

(** The queued requests become visible to the engine. *)
Definition hand_requests (h : ClientHandler.t) (b : MatchingEngineBroker.t) : exchange :=
  mk_exchange (ClientHandler.mk (ClientHandler.sock_to_session_info h) (ClientHandler.client_to_sock_fd h)
      (ClientHandler.client_to_open_orders h) (ClientHandler.exch_to_client_orders h) []
      (ClientHandler.from_matching_engine h) (ClientHandler.calls h) (ClientHandler.io h))
    (MatchingEngineBroker.set_from_client
      (MatchingEngineBroker.from_client b ++ ClientHandler.to_matching_engine h) b).

Inductive step : exchange → exchange → Prop :=
  | step_event e h h' b :
      event_ok e → run_event e h = (Ret tt, h') → step (mk_exchange h b) (mk_exchange h' b)
  | step_requests h b : step (mk_exchange h b) (hand_requests h b)
  | step_engine h b b' :
      MatchingEngineBroker.process b = (Ret tt, b') → step (mk_exchange h b) (mk_exchange h b')
  | step_responses h b :
      step (mk_exchange h b)
        (mk_exchange (answer (MatchingEngineBroker.to_client b) h) (MatchingEngineBroker.set_to_client [] b)).

Record exchange_inv (seen : list Z) (s : exchange) : Prop := {
  xi_handler : inv (foldl seen_after seen (MatchingEngineBroker.from_client (ex_engine s))) (ex_handler s);
  xi_engine : broker_inv seen (ex_engine s);
  xi_symbols : dom (MatchingEngineBroker.symbol_to_matching_engine (ex_engine s)) = dom hc_symbols;
  xi_requests : Forall (request_listed (dom hc_symbols)) (MatchingEngineBroker.from_client (ex_engine s));
}.

Lemma start_engine symbols :
  let b := ex_engine (start symbols) in
  dom (MatchingEngineBroker.symbol_to_matching_engine b) = list_to_set (sym_symbol <$> symbols) ∧
  MatchingEngineBroker.from_client b = [] ∧ broker_inv [] b.
Proof.
  unfold start. simpl.
  assert (∀ b, MatchingEngineBroker.from_client b = [] → broker_inv [] b →
    let b' := (for_each symbols (λ d, MatchingEngineBroker.add_symbol (sym_symbol d)) b).2 in
    dom (MatchingEngineBroker.symbol_to_matching_engine b') =
      dom (MatchingEngineBroker.symbol_to_matching_engine b) ∪ list_to_set (sym_symbol <$> symbols) ∧
    MatchingEngineBroker.from_client b' = [] ∧ broker_inv [] b') as H.
  { induction symbols as [|d symbols IH]; intros b Hq Hb; cbn [for_each].
    - simpl. split; [set_solver|done].
    - unfold mbind, M_bind. simpl. destruct (IH (MatchingEngineBroker.set_ladder (sym_symbol d) (OrderLadder (sym_symbol d)) b)) as (H1 & H2 & H3).
      + done.
      + intros y L. simpl. rewrite lookup_insert_Some. intros [[<- <-]|[_ HL]]; [|exact (Hb y L HL)].
        exists (empty_book (sym_symbol d)). split; [apply rep_empty|]. by intros i ?%elem_of_nil.
      + split; [rewrite H1; simpl; set_solver|done]. }
  destruct (H MatchingEngineBroker.initial) as (H1 & H2 & H3); [done| |].
  - intros y L. simpl. by rewrite lookup_empty.
  - split; [rewrite H1; simpl; set_solver|done].
Qed.

(** A run with its history: the requests the engine has served and the responses
    the handler has received, in order. *)
Inductive history (symbols : list symbol_definition) : list oe.oe_payload → list oe.oe_payload → exchange → Prop :=
  | history_start : history symbols [] [] (start symbols)
  | history_event ps rs e h h' b :
      history symbols ps rs (mk_exchange h b) → event_ok e → run_event e h = (Ret tt, h') → history symbols ps rs (mk_exchange h' b)
  | history_requests ps rs h b : history symbols ps rs (mk_exchange h b) → history symbols ps rs (hand_requests h b)
  | history_engine ps rs h b b' :
      history symbols ps rs (mk_exchange h b) → MatchingEngineBroker.process b = (Ret tt, b') →
      history symbols (ps ++ MatchingEngineBroker.from_client b) rs (mk_exchange h b')
  | history_responses ps rs h b :
      history symbols ps rs (mk_exchange h b) →
      history symbols ps (rs ++ MatchingEngineBroker.to_client b) (mk_exchange (answer (MatchingEngineBroker.to_client b) h) (MatchingEngineBroker.set_to_client [] b)).

(** Every run has one. *)
Lemma history_of_run symbols s : rtc step (start symbols) s → ∃ ps rs, history symbols ps rs s.
Proof.
  revert s. apply rtc_ind_r; [eexists _, _; constructor|].
  intros _ _ _ [] (ps & rs & Hist); eexists _, _; [by eapply history_event|by eapply history_requests|by eapply history_engine|by eapply history_responses].
Qed.

Lemma history_inv symbols ps rs s :
  symbols_ok hc_symbols → dom hc_symbols = list_to_set (sym_symbol <$> symbols) →
  history symbols ps rs s → exchange_inv (foldl seen_after [] ps) s.
Proof.
  intros Hs Hd Hist.
  induction Hist as [|ps rs e h h' b _ IH He Hrun|ps rs h b _ IH|ps rs h b b' _ IH Hrun|ps rs h b _ IH].
  - destruct (start_engine symbols) as (H1 & H2 & H3). constructor; [|done|congruence|by rewrite H2].
    rewrite H2. apply inv_initial.
  - destruct IH as [Hh Hb Hdom Hr]. constructor; simpl; [|done..].
    pose proof (run_event_inv _ e h Hs He Hh) as H. by rewrite Hrun in H.
  - destruct IH as [Hh Hb Hdom Hr]. simpl in *. constructor; simpl; [|done|done|].
    + destruct Hh as [H1 H2 H3 H4 H5]. constructor; simpl; rewrite ?foldl_app; done.
    + apply Forall_app. split; [done|]. apply Hh.
  - destruct IH as [Hh Hb Hdom Hr]. simpl in *. rewrite foldl_app.
    pose proof (process_inv (dom hc_symbols) _ b Hb (eq_sym Hdom) Hr) as H. rewrite Hrun in H.
    destruct H as [(_ & Hq & Hinv & Hdom')|[[=]|[[=] _]]]. constructor; simpl; [by rewrite Hq|exact Hinv|done|by rewrite Hq].
  - destruct IH as [Hh Hb Hdom Hr]. constructor; simpl; [|done..]. by apply inv_set_from_engine.
Qed.

Lemma reachable_inv symbols s :
  symbols_ok hc_symbols → dom hc_symbols = list_to_set (sym_symbol <$> symbols) →
  rtc step (start symbols) s → ∃ seen, exchange_inv seen s.
Proof. intros Hs Hd (ps & rs & H)%history_of_run. eexists. by eapply history_inv. Qed.

(** Two new orders of [ps] were given one exchange order id: [nanotime] returned
    it at two calls. *)
Definition id_tie (h : ClientHandler.t) (ps : list oe.oe_payload) : Prop :=
  ∃ x, issued_twice x ps ∧ clock_tie (ClientHandler.calls h) x.

Lemma issued_twice_app x ps qs : issued_twice x ps → issued_twice x (ps ++ qs).
Proof. unfold issued_twice. rewrite new_ids_app. apply sublist_inserts_r. Qed.

Lemma history_tie symbols ps rs s x :
  symbols_ok hc_symbols → dom hc_symbols = list_to_set (sym_symbol <$> symbols) → history symbols ps rs s →
  issued_twice x (ps ++ MatchingEngineBroker.from_client (ex_engine s)) → clock_tie (ClientHandler.calls (ex_handler s)) x.
Proof.
  intros Hs Hd Hist Hx. pose proof (history_inv symbols ps rs s Hs Hd Hist) as [Hh _ _ _].
  eapply readings_twice; [apply Hh|]. rewrite <- !foldl_app, seen_after_all, app_nil_r, ?app_assoc.
  by apply reverse_twice, issued_twice_app.
Qed.

Lemma history_listed symbols ps rs s :
  symbols_ok hc_symbols → dom hc_symbols = list_to_set (sym_symbol <$> symbols) → history symbols ps rs s →
  Forall (request_listed (dom hc_symbols)) ps.
Proof.
  intros Hs Hd Hist. induction Hist as [| | |ps rs h b b' Hist IH _|]; [constructor|done|done| |done].
  apply Forall_app. split; [done|]. by destruct (history_inv symbols ps rs _ Hs Hd Hist).
Qed.

(** The requests served so far were serveable, each new order under a fresh id. *)
Lemma history_served symbols ps rs s :
  symbols_ok hc_symbols → dom hc_symbols = list_to_set (sym_symbol <$> symbols) → history symbols ps rs s →
  requests_ok [] (dom hc_symbols) ps ∨ id_tie (ex_handler s) ps.
Proof.
  intros Hs Hd Hist. pose proof (history_listed symbols ps rs s Hs Hd Hist) as Hl.
  destruct (requests_listed_ok (dom hc_symbols) ps [] Hl) as [?|Hr]; [by left|right].
  apply (id_reused_twice _ []) in Hr as [x Hx]. exists x. split; [done|].
  eapply history_tie; [done|done|done|]. by apply issued_twice_app.
Qed.

(** The broker's turn serves and answers the whole queue, in order, unless it
    ends the thread. *)
Definition served_all (b b' : MatchingEngineBroker.t) : Prop :=
  MatchingEngineBroker.from_client b' = [] ∧
  ∃ rs, MatchingEngineBroker.to_client b' = MatchingEngineBroker.to_client b ++ rs ∧
    answered (MatchingEngineBroker.from_client b) rs.

Lemma history_process symbols ps rs s :
  symbols_ok hc_symbols → dom hc_symbols = list_to_set (sym_symbol <$> symbols) → history symbols ps rs s →
  let '(r, b') := MatchingEngineBroker.process (ex_engine s) in
  r = Ret tt ∧ served_all (ex_engine s) b' ∨ r = Throw send_failed ∨
  r = Throw order_exists ∧ id_tie (ex_handler s) (ps ++ MatchingEngineBroker.from_client (ex_engine s)).
Proof.
  intros Hs Hd Hist. pose proof (history_inv symbols ps rs s Hs Hd Hist) as [Hh Hb Hdom Hreq].
  pose proof (process_inv (dom hc_symbols) _ (ex_engine s) Hb (eq_sym Hdom) Hreq) as H.
  pose proof (λ b1, process_answers (dom hc_symbols) _ (ex_engine s) b1 Hb (eq_sym Hdom) Hreq) as Ha.
  destruct (MatchingEngineBroker.process _) as [r b']. destruct H as [(-> & Hq & _)|[->|[-> Hre]]]; [left|auto|right; right].
  - split; [done|]. split; [done|]. by apply Ha.
  - split; [done|]. apply id_reused_twice in Hre as [x Hx]. exists x. split; [done|]. by eapply history_tie.
Qed.
End exchange.

(** ** Property *)

(** C2 ([exchange_never_stuck]): in every state the two threads can reach ([ps] are
    the requests served so far), whatever clients send: the broker's turn serves
    the whole queue and answers every request in it, in order, unless the
    network refuses a packet or two orders were accepted at calls of [nanotime]
    that returned the same value, so that the second one's id is already in the
    book; and an event at the handler is handled unless a socket is never ready
    again.  No request is for an unlisted symbol, no ladder is corrupted, no
    division by zero, dangling pointer or missing client is met. *)
Theorem exchange_never_stuck (HW : HandlerWorld) (HC : HandlerConfig) (BW : BrokerWorld) symbols ps rs s e :
  symbols_ok hc_symbols → dom hc_symbols = list_to_set (sym_symbol <$> symbols) → history symbols ps rs s →
  (let '(r, b') := MatchingEngineBroker.process (ex_engine s) in
   r = Ret tt ∧ served_all (ex_engine s) b' ∨ r = Throw send_failed ∨
   r = Throw order_exists ∧ id_tie (ex_handler s) (ps ++ MatchingEngineBroker.from_client (ex_engine s))) ∧
  ((run_event e (ex_handler s)).1 = Ret tt ∨ (run_event e (ex_handler s)).1 = Throw out_of_fuel).
Proof.
  intros Hs Hd Hist. split; [by eapply history_process|].
  pose proof (run_event_fine Hs e (ex_handler s)) as H. destruct (run_event e _) as [[[]|ex] h]; [by left|right].
  simpl. f_equal. by eapply H.
Qed.

Section witness.
#[local] Existing Instance calm_handler_world.
#[local] Existing Instance demo_config.
#[local] Existing Instance calm_broker_world.

(** Two clients log in and trade. *)
Definition demo_handler : ClientHandler.t := (run_events (take 4 demo_events) ClientHandler.initial).2.
Definition demo_exchange : exchange :=
  mk_exchange demo_handler (ex_engine (start exchange_symbols)).

Lemma demo_reachable : rtc step (start exchange_symbols) demo_exchange.
Proof.
  assert (∀ es h b, Forall (λ x, event_ok x.2 ∧ x.1 = []) es → ClientHandler.from_matching_engine h = [] →
    (∀ n, (run_events (take n es) h).1 = Ret tt ∧ ClientHandler.from_matching_engine (run_events (take n es) h).2 = []) →
    rtc step (mk_exchange h b) (mk_exchange (run_events es h).2 b)) as H.
  { induction es as [|[ps e] es IH]; intros h b Hok Hq Hret; [done|].
    inversion_clear Hok as [|? ? [He Hps] Hes]. simpl in *. subst ps.
    pose proof (Hret 1%nat) as [H1 Hq1]. simpl take in H1, Hq1. rewrite run_events_cons in H1, Hq1 |- *.
    assert (answer [] h = h) as Ha by (destruct h; unfold answer, ClientHandler.set_from_engine; simpl in *; by subst).
    rewrite Ha in H1, Hq1 |- *. destruct (run_event e h) as [[[]|ex] h1] eqn:Hrun; [|discriminate H1].
    eapply rtc_l; [by eapply step_event|]. apply IH; [done|done|].
    intros n. specialize (Hret (S n)). simpl in Hret. rewrite run_events_cons, Ha, Hrun in Hret. done. }
  apply H; [by_decide|done|].
  intros n. destruct (decide (4 ≤ n)%nat) as [Hn|Hn].
  - rewrite take_ge by done. split; vm_compute; reflexivity.
  - do 4 (destruct n as [|n]; [split; vm_compute; reflexivity|]). lia.
Qed.

(** The two orders are in the broker's queue. *)
Definition demo_queued : exchange := hand_requests (ex_handler demo_exchange) (ex_engine demo_exchange).

Lemma exchange_never_stuck_witness :
  length (MatchingEngineBroker.from_client (ex_engine demo_queued)) = 2%nat ∧
  (MatchingEngineBroker.process (ex_engine demo_queued)).1 = Ret tt ∧
  served_all (ex_engine demo_queued) (MatchingEngineBroker.process (ex_engine demo_queued)).2.
Proof.
  split; [vm_compute; reflexivity|].
  destruct (history_of_run exchange_symbols demo_queued) as (ps & rs & Hist); [eapply rtc_r; [apply demo_reachable|apply step_requests]|].
  destruct (exchange_never_stuck calm_handler_world demo_config calm_broker_world exchange_symbols ps rs demo_queued Process) as [H _];
    [apply exchange_symbols_ok|vm_compute; reflexivity|exact Hist|].
  assert ((MatchingEngineBroker.process (ex_engine demo_queued)).1 = Ret tt) as Hr by (vm_compute; reflexivity).
  destruct (MatchingEngineBroker.process (ex_engine demo_queued)) as [r b']. simpl in Hr. subst r. split; [reflexivity|].
  destruct H as [[_ H]|[[=]|[[=] _]]]. exact H.
Defined.

Lemma pair_fst {A B} (x : A * B) a : x.1 = a → x = (a, x.2).
Proof. intros <-. apply surjective_pairing. Qed.

(** Events of the handler, one after the other. *)
Lemma history_events symbols ps rs b es : ∀ h h',
  Forall event_ok es → for_each es run_event h = (Ret tt, h') →
  history symbols ps rs (mk_exchange h b) → history symbols ps rs (mk_exchange h' b).
Proof.
  induction es as [|e es IH]; intros h h' Hok Hrun H; cbn [for_each] in Hrun; [by injection Hrun as <-|].
  apply Forall_cons in Hok as [He Hok]. apply bind_inv in Hrun as ([] & h1 & H1 & Hrun).
  eapply IH; [done|exact Hrun|]. by eapply history_event.
Qed.

(** Two clients log in and send these orders; the engine serves them. *)
Definition trading_handler (orders : list event) : ClientHandler.t :=
  (for_each ([Login 5 (demo_login "alice" "secret" 10); Login 6 (demo_login "bob" "hunter2" 20)] ++ orders) run_event ClientHandler.initial).2.
Definition traded (orders : list event) : exchange :=
  let s := hand_requests (trading_handler orders) (ex_engine (start exchange_symbols)) in
  mk_exchange (ex_handler s) (MatchingEngineBroker.process (ex_engine s)).2.

Lemma traded_history orders :
  Forall event_ok orders →
  (for_each ([Login 5 (demo_login "alice" "secret" 10); Login 6 (demo_login "bob" "hunter2" 20)] ++ orders) run_event ClientHandler.initial).1 = Ret tt →
  (MatchingEngineBroker.process (ex_engine (hand_requests (trading_handler orders) (ex_engine (start exchange_symbols))))).1 = Ret tt →
  history exchange_symbols (ClientHandler.to_matching_engine (trading_handler orders)) [] (traded orders).
Proof.
  intros Hok H1 H2. unfold traded. set (h := trading_handler orders) in *. set (b0 := ex_engine (start exchange_symbols)).
  assert (history exchange_symbols [] [] (mk_exchange h b0)) as Hh.
  { eapply history_events; [|apply pair_fst; exact H1|constructor]. by repeat constructor. }
  apply history_requests in Hh.
  change (ClientHandler.to_matching_engine h) with ([] ++ MatchingEngineBroker.from_client (ex_engine (hand_requests h b0))).
  eapply history_engine; [exact Hh|]. by apply pair_fst.
Qed.
End witness.
