(* ===== verification/StreamParser.v ===== *)
(** * [order_entry/oe_stream_parser.H]: requests from a byte stream

    Bytes arrive in arbitrary pieces; the parser keeps what is not yet a whole
    message per socket and calls the handler with every whole one. *)
From Stdlib Require Import Init.Byte Strings.String.
From S2P Require Import Prelude Protocol Validator ClientHandler.

(** The parser is a template over its handler. *)
Class RequestHandler (H : Type) := {
  on_login : Z → oe.login → M H unit;
  on_new_order : Z → oe.new_order → M H unit;
  on_delete_order : Z → oe.delete_order → M H unit;
  on_modify_order : Z → oe.modify_order → M H unit;
  on_socket_closed : Z → M H unit;
}.

(** The program's handler. *)
#[global] Instance client_handler `{HandlerWorld} `{HandlerConfig} : RequestHandler ClientHandler.t := {|
  on_login := ClientHandler.on_login;
  on_new_order := ClientHandler.on_new_order;
  on_delete_order := ClientHandler.on_delete_order;
  on_modify_order := ClientHandler.on_modify_order;
  on_socket_closed := ClientHandler.on_socket_closed;
|}.

(** The clock, the result of [write], and the values of the two fields of an
    error message that [send_error_msg] does not set. *)
Class ParserWorld := {
  pw_clock : nat → Z;
  pw_write : nat → Z → list byte → io_result;
  pw_version : nat → Z;
  pw_last_seq_num : nat → Z;
}.

Definition calm_parser_world : ParserWorld :=
  {| pw_clock := Z.of_nat; pw_write := λ _ _ b, sent (Z.of_nat (length b)); pw_version := λ _, 0; pw_last_seq_num := λ _, 0 |}.

Module StreamParser.

Record t := mk {
  sock_to_partial_messages : gmap Z (list byte);
  sock_to_msg_timestamps : gmap Z (list Z);
  calls : nat;
  io : list io_event;
}.

Definition initial : t := mk ∅ ∅ 0 [].

Definition MAX_MSGS_PER_SECOND : Z := 1000.

(** [sock_to_partial_messages[fd]] and [sock_to_msg_timestamps[fd]]: an entry is
    made when there is none. *)
Definition partial (fd : Z) (p : t) : list byte := default [] (sock_to_partial_messages p !! fd).
Definition stamps (fd : Z) (p : t) : list Z := default [] (sock_to_msg_timestamps p !! fd).

Definition set_partial (fd : Z) (b : list byte) (p : t) : t :=
  mk (<[fd := b]> (sock_to_partial_messages p)) (sock_to_msg_timestamps p) (calls p) (io p).
Definition set_stamps (fd : Z) (ts : list Z) (p : t) : t :=
  mk (sock_to_partial_messages p) (<[fd := ts]> (sock_to_msg_timestamps p)) (calls p) (io p).
Definition count_call (p : t) : t :=
  mk (sock_to_partial_messages p) (sock_to_msg_timestamps p) (S (calls p)) (io p).
Definition add_io (es : list io_event) (p : t) : t :=
  mk (sock_to_partial_messages p) (sock_to_msg_timestamps p) (calls p) (io p ++ es).
Definition forget (fd : Z) (p : t) : t :=
  mk (delete fd (sock_to_partial_messages p)) (sock_to_msg_timestamps p) (calls p) (io p).

Section ops.
Context `{PW : ParserWorld} {H : Type} `{RH : !RequestHandler H}.
Abbreviation PM := (M (t * H)).

Definition getp {A} (f : t → A) : PM A := gets (λ s, f s.1).
Definition modp (f : t → t) : PM unit := modify (λ s, (f s.1, s.2)).
Definition callh (m : M H unit) : PM unit := zoom snd (λ h s, (s.1, h)) m.

Definition nanotime : PM Z :=
  n ← getp calls;
  modp count_call;;
  mret (clock_nanotime (pw_clock n)).

(** [timestamps.pop_front()] while the front is older than a second ([> 1e9],
    compared as doubles). *)
Fixpoint recent (now : Z) (ts : list Z) : list Z :=
  match ts with
  | [] => []
  | t0 :: ts' => if u64 (now - t0) >? 1000000000 then recent now ts' else ts
  end.

Definition send_error_msg (fd seq_num client_id reason : Z) (text : string) : PM unit :=
  n ← getp calls;
  modp count_call;;
  let msg := c_enc oe.c_error_message (oe.Build_error_message
    (oe.Build_oe_response_header (Z.of_nat (c_size oe.c_error_message)) oe.MSG_TYPE.ERROR (pw_version n)
       seq_num (pw_last_seq_num n) client_id)
    reason (Z.of_nat (String.length text)) (strncpy 32 text)) in
  match pw_write n fd msg with
  | sent k => modp (add_io [Wrote fd (take (Z.to_nat k) msg)])
  | _ => mret tt
  end;;
  modp (add_io [Shutdown fd; Closed fd]).

(** [*reinterpret_cast<A*>(partial_message.data())]: reading past the vector is
    undefined. *)
Definition read {A} (c : codec A) (b : list byte) : PM A :=
  if bool_decide (c_size c ≤ length b)%nat then mret (c_dec c b)
  else throw (undefined_behaviour "read past partial_message").

(** The [switch] over the message type; [false]: unknown. *)
Definition dispatch (fd : Z) (ty : Z) (b : list byte) : PM bool :=
  if ty =? oe.MSG_TYPE.NEW_ORDER then m ← read oe.c_new_order b; callh (on_new_order fd m);; mret true
  else if ty =? oe.MSG_TYPE.DELETE_ORDER then m ← read oe.c_delete_order b; callh (on_delete_order fd m);; mret true
  else if ty =? oe.MSG_TYPE.MODIFY_ORDER then m ← read oe.c_modify_order b; callh (on_modify_order fd m);; mret true
  else if ty =? oe.MSG_TYPE.LOGIN then m ← read oe.c_login b; callh (on_login fd m);; mret true
  else mret false.

(** The [while] of [parse]. *)
Fixpoint parse_loop (fuel : nat) (fd now : Z) : PM unit :=
  match fuel with
  | O => throw out_of_fuel
  | S fuel =>
      b ← getp (partial fd);
      if bool_decide (c_size oe.c_oe_request_header ≤ length b)%nat then
        let header := c_dec oe.c_oe_request_header b in
        let error text := send_error_msg fd (oe.rq_seq_num header) (oe.rq_client_id header) oe.REJECT_REASON.INVALID_ORDER text in
        if negb (oe.rq_version header =? oe.OE_PROTOCOL_VERSION) then error "Unknown protocol version"%string
        else if oe.rq_length header >? Z.of_nat oe.MAX_OE_MESSAGE_SIZE then error "Message too large"%string
        else if Z.of_nat (length b) <? oe.rq_length header then mret tt
        else
          known ← dispatch fd (oe.rq_msg_type header) b;
          if negb known then error "Unknown message type"%string
          else
            ts ← getp (stamps fd);
            modp (set_stamps fd (ts ++ [now]));;
            modp (set_partial fd (drop (Z.to_nat (oe.rq_length header)) b));;
            parse_loop fuel fd now
      else mret tt
  end.

(** A message of positive length is at least one byte of the buffer: one round
    per byte is enough unless a length is zero. *)
Definition parse (fd : Z) (buf : list byte) : PM unit :=
  now ← nanotime;
  ts ← getp (stamps fd);
  modp (set_stamps fd (recent now ts));;
  if Z.of_nat (length (recent now ts)) >? MAX_MSGS_PER_SECOND then
    send_error_msg fd 0 0 oe.REJECT_REASON.INVALID_ORDER "Too many messages per second"%string
  else
    b ← getp (partial fd);
    modp (set_partial fd (b ++ buf));;
    parse_loop (S (length (b ++ buf))) fd now.

Definition socket_closed (fd : Z) : PM unit :=
  modp (forget fd);;
  callh (on_socket_closed fd).

Definition new_socket (fd : Z) : PM unit :=
  modp (set_partial fd []);;
  modp (set_stamps fd []).
End ops.
End StreamParser.
