(* ===== verification/StreamTheorems.v ===== *)
(** * The properties of the stream parser *)
From Stdlib Require Import Init.Byte Strings.String.
From S2P Require Import Prelude Protocol Validator ClientHandler StreamParser.
Import StreamParser.

(** ** Requests as a client sends them *)

Inductive request :=
  | RNew (m : oe.new_order)
  | RDelete (m : oe.delete_order)
  | RModify (m : oe.modify_order)
  | RLogin (m : oe.login).

Definition req_bytes (r : request) : list byte :=
  match r with
  | RNew m => c_enc oe.c_new_order m
  | RDelete m => c_enc oe.c_delete_order m
  | RModify m => c_enc oe.c_modify_order m
  | RLogin m => c_enc oe.c_login m
  end.

Definition req_header (r : request) : oe.oe_request_header :=
  match r with
  | RNew m => oe.no_header m | RDelete m => oe.do_header m | RModify m => oe.mo_header m | RLogin m => oe.lg_header m
  end.

Definition req_size (r : request) : nat := match r with RNew _ => 42 | RDelete _ => 28 | RModify _ => 37 | RLogin _ => 52 end.

Definition req_type (r : request) : Z :=
  match r with
  | RNew _ => oe.MSG_TYPE.NEW_ORDER | RDelete _ => oe.MSG_TYPE.DELETE_ORDER
  | RModify _ => oe.MSG_TYPE.MODIFY_ORDER | RLogin _ => oe.MSG_TYPE.LOGIN
  end.

(** The fields fit their types and the header tells the truth. *)
Record well_formed (r : request) : Prop := {
  wf_fields : match r with
              | RNew m => c_ok oe.c_new_order m | RDelete m => c_ok oe.c_delete_order m
              | RModify m => c_ok oe.c_modify_order m | RLogin m => c_ok oe.c_login m
              end;
  wf_length : oe.rq_length (req_header r) = Z.of_nat (req_size r);
  wf_type : oe.rq_msg_type (req_header r) = req_type r;
  wf_version : oe.rq_version (req_header r) = oe.OE_PROTOCOL_VERSION;
}.

Lemma req_bytes_length r : well_formed r → length (req_bytes r) = req_size r.
Proof.
  intros [Hf _ _ _].
  destruct r; [apply (enc_length (c:=oe.c_new_order))|apply (enc_length (c:=oe.c_delete_order))
    |apply (enc_length (c:=oe.c_modify_order))|apply (enc_length (c:=oe.c_login))]; done.
Qed.

Lemma req_size_bounds r : (20 ≤ req_size r ≤ 52)%nat.
Proof. destruct r; simpl; lia. Qed.

(** Every request begins with its header. *)
Lemma req_bytes_split r : ∃ tail, req_bytes r = c_enc oe.c_oe_request_header (req_header r) ++ tail.
Proof.
  destruct r; eexists; cbn [req_bytes req_header c_enc c_iso oe.c_new_order oe.c_delete_order oe.c_modify_order oe.c_login c_pair fst snd
    oe.no_header oe.no_order_id oe.no_symbol oe.no_side oe.no_quantity oe.no_price oe.no_flags oe.do_header oe.do_order_id
    oe.mo_header oe.mo_order_id oe.mo_side oe.mo_quantity oe.mo_price oe.lg_header oe.lg_username oe.lg_password];
    rewrite <-?app_assoc; reflexivity.
Qed.

Lemma req_header_ok r : well_formed r → c_ok oe.c_oe_request_header (req_header r).
Proof.
  intros [Hf _ _ _]. destruct r; cbn [req_header];
    cbn [c_ok c_iso oe.c_new_order oe.c_delete_order oe.c_modify_order oe.c_login c_pair] in Hf; tauto.
Qed.

Lemma req_bytes_header r rest : well_formed r → c_dec oe.c_oe_request_header (req_bytes r ++ rest) = req_header r.
Proof.
  intros Hr. destruct (req_bytes_split r) as [tail ->]. rewrite <-app_assoc. apply dec_enc. by apply req_header_ok.
Qed.

Section parser.
Context `{PW : ParserWorld} {H : Type} `{RH : !RequestHandler H}.

Definition deliver (fd : Z) (r : request) : M H unit :=
  match r with
  | RNew m => on_new_order fd m
  | RDelete m => on_delete_order fd m
  | RModify m => on_modify_order fd m
  | RLogin m => on_login fd m
  end.

Lemma run_dispatch fd r rest P h h' :
  well_formed r → deliver fd r h = (Ret tt, h') →
  dispatch fd (req_type r) (req_bytes r ++ rest) (P, h) = (Ret true, (P, h')).
Proof.
  intros Hr Hd. pose proof (req_bytes_length r Hr) as Hl. destruct Hr as [Hf _ _ _].
  assert (∀ {A} (c : codec A) m, CodecOk c → c_ok c m → c_size c = req_size r → req_bytes r = c_enc c m →
    read c (req_bytes r ++ rest) (P, h) = (Ret m, (P, h))) as Hread.
  { intros A c m Hc Hm Hs Hb. unfold read. rewrite bool_decide_true by (rewrite length_app; lia).
    rewrite Hb, dec_enc by done. done. }
  destruct r as [m|m|m|m]; unfold dispatch; cbn [req_type];
    repeat match goal with |- context [?a =? ?b] => let x := eval vm_compute in (a =? b) in change (a =? b) with x end; cbv iota.
  - erewrite bind_ret by (apply (Hread _ oe.c_new_order m _ Hf eq_refl eq_refl)). unfold callh, zoom. cbn [deliver] in Hd.
    erewrite bind_ret by (simpl; rewrite Hd; reflexivity). done.
  - erewrite bind_ret by (apply (Hread _ oe.c_delete_order m _ Hf eq_refl eq_refl)). unfold callh, zoom. cbn [deliver] in Hd.
    erewrite bind_ret by (simpl; rewrite Hd; reflexivity). done.
  - erewrite bind_ret by (apply (Hread _ oe.c_modify_order m _ Hf eq_refl eq_refl)). unfold callh, zoom. cbn [deliver] in Hd.
    erewrite bind_ret by (simpl; rewrite Hd; reflexivity). done.
  - erewrite bind_ret by (apply (Hread _ oe.c_login m _ Hf eq_refl eq_refl)). unfold callh, zoom. cbn [deliver] in Hd.
    erewrite bind_ret by (simpl; rewrite Hd; reflexivity). done.
Qed.

(** The bytes are less than the next request. *)
Definition incomplete (b : list byte) (rs : list request) : Prop :=
  match rs with [] => b = [] | r :: _ => (length b < req_size r)%nat end.

Definition encoded (rs : list request) : list byte := concat (req_bytes <$> rs).

(** What the parser did for [n] requests on [fd]. *)
Record parsed (fd now : Z) (n : nat) (b : list byte) (P P' : t) : Prop := {
  ps_partial : partial fd P' = b;
  ps_stamps : stamps fd P' = stamps fd P ++ replicate n now;
  ps_other : ∀ fd', fd' ≠ fd → partial fd' P' = partial fd' P ∧ stamps fd' P' = stamps fd' P;
  ps_io : io P' = io P;
  ps_calls : calls P' = calls P;
}.

Lemma run_loop_incomplete fuel fd now b rest rs P h :
  Forall well_formed rs → b ++ rest = encoded rs → incomplete b rs → partial fd P = b →
  parse_loop (S fuel) fd now (P, h) = (Ret tt, (P, h)).
Proof.
  intros Hrs He Hi Hb. cbn [parse_loop]. unfold getp. erewrite bind_ret by reflexivity. cbv beta. cbn [fst]. rewrite Hb.
  case_bool_decide as Hlen; [|done]. destruct rs as [|r rs].
  { simpl in Hi. subst b. change (c_size oe.c_oe_request_header) with 20%nat in Hlen. simpl in Hlen. lia. }
  inversion_clear Hrs as [|? ? Hr Hrs']. simpl in Hi.
  assert (c_dec oe.c_oe_request_header b = req_header r) as ->.
  { rewrite <-(dec_app oe.c_oe_request_header b rest Hlen), He. unfold encoded. simpl. by apply req_bytes_header. }
  destruct Hr as [_ Hl _ Hv]. rewrite Hv, Hl. change (negb (_ =? oe.OE_PROTOCOL_VERSION)) with false. cbv iota.
  pose proof (req_size_bounds r). replace (Z.of_nat (req_size r) >? Z.of_nat oe.MAX_OE_MESSAGE_SIZE) with false.
  2:{ symmetry. rewrite Z.gtb_ltb. apply Z.ltb_ge. change oe.MAX_OE_MESSAGE_SIZE with 52%nat. lia. }
  by replace (Z.of_nat (length b) <? Z.of_nat (req_size r)) with true by lia.
Qed.

Lemma parsed_cons fd now n b b1 P P' :
  parsed fd now n b (set_partial fd b1 (set_stamps fd (stamps fd P ++ [now]) P)) P' → parsed fd now (S n) b P P'.
Proof.
  intros [H1 H2 H3 H4 H5]. constructor; [done| | |done|done].
  - rewrite H2. unfold stamps at 1. simpl. rewrite lookup_insert_eq. simpl. by rewrite <-app_assoc.
  - intros fd' Hne. destruct (H3 fd' Hne) as [-> ->]. unfold partial, stamps. simpl. by rewrite !lookup_insert_ne.
Qed.

(** The loop delivers the whole requests in the buffer and keeps the rest. *)
Lemma run_loop fd now rest rs : ∀ b,
  Forall well_formed rs → b ++ rest = encoded rs →
  ∃ rs1 rs2 b', rs = rs1 ++ rs2 ∧ b' ++ rest = encoded rs2 ∧ incomplete b' rs2 ∧
    ∀ fuel P h h', partial fd P = b → (length b < fuel)%nat → for_each rs1 (deliver fd) h = (Ret tt, h') →
      ∃ P', parse_loop fuel fd now (P, h) = (Ret tt, (P', h')) ∧ parsed fd now (length rs1) b' P P'.
Proof.
  assert (∀ rs b, Forall well_formed rs → b ++ rest = encoded rs → incomplete b rs →
    ∃ rs1 rs2 b', rs = rs1 ++ rs2 ∧ b' ++ rest = encoded rs2 ∧ incomplete b' rs2 ∧
      ∀ fuel P h h', partial fd P = b → (length b < fuel)%nat → for_each rs1 (deliver fd) h = (Ret tt, h') →
      ∃ P', parse_loop fuel fd now (P, h) = (Ret tt, (P', h')) ∧ parsed fd now (length rs1) b' P P') as Hstop.
  { intros rs0 b Hrs He Hi. exists [], rs0, b. split_and!; [done..|]. intros [|fuel] P h h' Hb Hf [= <-]; [lia|].
    exists P. split; [by eapply run_loop_incomplete|]. constructor; [done|by rewrite app_nil_r|done..]. }
  induction rs as [|r rs IH]; intros b Hrs He.
  { apply Hstop; [done|done|]. simpl. by apply app_eq_nil in He as [-> _]. }
  destruct (decide (length b < req_size r)%nat) as [Hlt|Hge]; [by apply Hstop|].
  inversion_clear Hrs as [|? ? Hr Hrs']. pose proof (req_bytes_length r Hr) as Hl. pose proof (req_size_bounds r).
  unfold encoded in He. simpl in He. fold (encoded rs) in He.
  assert (∃ b1, b = req_bytes r ++ b1 ∧ b1 ++ rest = encoded rs) as (b1 & -> & He1).
  { exists (drop (req_size r) b). assert (take (req_size r) b = req_bytes r) as Ht.
    { rewrite <-(take_app_le b rest) by lia. rewrite He. by apply take_app_length'. }
    rewrite <-Ht, take_drop. split; [done|].
    rewrite <-(take_drop (req_size r) b), Ht, <-app_assoc in He. by apply app_inv_head in He. }
  destruct (IH b1 Hrs' He1) as (rs1 & rs2 & b' & -> & He2 & Hi & Hrun). exists (r :: rs1), rs2, b'. split_and!; [done..|].
  intros [|fuel] P h h' Hb Hf Hd; [lia|]. cbn [for_each] in Hd. apply bind_inv in Hd as ([] & h1 & Hd1 & Hd2).
  rewrite length_app in Hf.
  assert (length b1 < fuel)%nat as Hf1 by lia.
  assert (partial fd (set_partial fd b1 (set_stamps fd (stamps fd P ++ [now]) P)) = b1) as Hb1
    by (unfold partial; simpl; by rewrite lookup_insert_eq).
  destruct (Hrun _ _ _ _ Hb1 Hf1 Hd2) as (P' & Hloop & Hp).
  exists P'. split; [|by eapply parsed_cons]. cbn [parse_loop]. unfold getp at 1. erewrite bind_ret by reflexivity.
  cbv beta. cbn [fst]. rewrite Hb. rewrite bool_decide_true.
  2:{ change (c_size oe.c_oe_request_header) with 20%nat. rewrite length_app. lia. }
  cbv zeta. rewrite req_bytes_header by done. pose proof Hr as [_ Hlen Hty Hv]. rewrite Hv, Hlen, Hty.
  change (negb (_ =? oe.OE_PROTOCOL_VERSION)) with false. cbv iota.
  replace (Z.of_nat (req_size r) >? Z.of_nat oe.MAX_OE_MESSAGE_SIZE) with false.
  2:{ symmetry. rewrite Z.gtb_ltb. apply Z.ltb_ge. change oe.MAX_OE_MESSAGE_SIZE with 52%nat. lia. }
  replace (Z.of_nat (length (req_bytes r ++ b1)) <? Z.of_nat (req_size r)) with false.
  2:{ symmetry. apply Z.ltb_ge. rewrite length_app, Hl. lia. }
  cbv iota. erewrite bind_ret by (by apply run_dispatch). cbv beta. cbn [negb]. cbv iota.
  unfold getp. erewrite bind_ret by reflexivity. cbv beta. cbn [fst].
  unfold modp. erewrite bind_ret by reflexivity. cbv beta. erewrite bind_ret by reflexivity. cbv beta.
  cbn [fst snd]. rewrite Nat2Z.id, <-Hl, drop_app_length. exact Hloop.
Qed.

Lemma recent_length now ts : (length (recent now ts) ≤ length ts)%nat.
Proof. induction ts as [|t0 ts IH]; simpl; [lia|]. destruct (_ >? _); simpl; lia. Qed.

Lemma encoded_app rs1 rs2 : encoded (rs1 ++ rs2) = encoded rs1 ++ encoded rs2.
Proof. unfold encoded. by rewrite fmap_app, concat_app. Qed.

(** The bytes of requests [rs] and of a last one that has not arrived whole. *)
Record ending (tail : list byte) (next : list request) : Prop := {
  en_next : Forall well_formed next;
  en_tail : tail `prefix_of` encoded next;
  en_short : incomplete tail next;
}.

(** The whole requests of a piece are among [rs]. *)
Lemma split_before_next rs next rs1 rs2 b b' c chunks tail rest :
  ending tail next → rs1 ++ rs2 = rs ++ next → (b ++ c) ++ concat chunks = encoded rs ++ tail → encoded next = tail ++ rest →
  b' ++ concat chunks ++ rest = encoded rs2 →
  ∃ rs2', rs = rs1 ++ rs2' ∧ rs2 = rs2' ++ next ∧ b' ++ concat chunks = encoded rs2' ++ tail.
Proof.
  intros [Hwf _ Hi] Hsplit He Hnext Hb'.
  assert (∃ l, rs = rs1 ++ l ∧ rs2 = l ++ next) as (l & -> & ->).
  { apply app_eq_inv in Hsplit as [(l & -> & ->)|(l & -> & ->)]; [|by exists l].
    destruct l as [|r l]; [exists []; by rewrite !app_nil_r|exfalso].
    assert (b ++ c = encoded (rs ++ r :: l) ++ b') as Hbc.
    { apply (app_inv_tail (concat chunks ++ rest)). rewrite <- !app_assoc, Hb', <- encoded_app, <- app_assoc, encoded_app, Hnext.
      by rewrite (app_assoc b), (app_assoc (b ++ c)), He, <- app_assoc. }
    apply (f_equal length) in He. rewrite Hbc, encoded_app in He. inversion_clear Hwf as [|? ? Hr _].
    unfold encoded in He. cbn [fmap list_fmap concat] in He. rewrite !length_app, (req_bytes_length r Hr) in He. simpl in Hi. lia. }
  exists l. split; [done|]. split; [done|]. rewrite encoded_app, Hnext in Hb'. rewrite !app_assoc in Hb'. by apply app_inv_tail in Hb'.
Qed.

(** A run of [parse] over pieces of an encoding, from a partial message and to
    one. *)
Lemma run_pieces fd next tail chunks : ∀ rs b P h h',
  Forall well_formed rs → ending tail next → b ++ concat chunks = encoded rs ++ tail → incomplete b (rs ++ next) → partial fd P = b →
  (length (stamps fd P) + length rs ≤ 1000)%nat → for_each rs (deliver fd) h = (Ret tt, h') →
  ∃ P', for_each chunks (parse fd) (P, h) = (Ret tt, (P', h')) ∧ partial fd P' = tail ∧ io P' = io P ∧
    ∀ fd', fd' ≠ fd → partial fd' P' = partial fd' P ∧ stamps fd' P' = stamps fd' P.
Proof.
  induction chunks as [|c chunks IH]; intros rs b P h h' Hrs Hend He Hi Hb Hn Hd.
  { simpl in He. rewrite app_nil_r in He. assert (rs = []) as ->.
    { destruct rs as [|r rs]; [done|]. inversion_clear Hrs as [|? ? Hr _]. simpl in Hi. rewrite He in Hi. unfold encoded in Hi.
      simpl in Hi. rewrite !length_app, (req_bytes_length r Hr) in Hi. lia. }
    injection Hd as <-. exists P. by rewrite Hb, He. }
  cbn [for_each]. simpl in He. rewrite app_assoc in He.
  pose proof Hend as [Hwf [rest Hnext] _].
  set (now := clock_nanotime (pw_clock (calls P))).
  destruct (run_loop fd now (concat chunks ++ rest) (rs ++ next) (b ++ c)) as (rs1 & rs2 & b' & Hsplit & He2 & Hi2 & Hrun).
  { by apply Forall_app. }
  { by rewrite app_assoc, He, encoded_app, Hnext, app_assoc. }
  destruct (split_before_next rs next rs1 rs2 b b' c chunks tail rest Hend (eq_sym Hsplit) He Hnext He2) as (rs2' & -> & -> & He3).
  rewrite for_each_app in Hd. apply bind_inv in Hd as ([] & h1 & Hd1 & Hd2).
  set (P0 := set_partial fd (b ++ c) (set_stamps fd (recent now (stamps fd P)) (count_call P))).
  destruct (Hrun (S (length (b ++ c))) P0 h h1) as (P1 & Hloop & [Hq1 Hq2 Hq3 Hq4 Hq5]); [|lia|done|].
  { unfold partial, P0. simpl. by rewrite lookup_insert_eq. }
  rewrite length_app in Hn. pose proof (recent_length now (stamps fd P)) as Hrec.
  assert (parse fd c (P, h) = (Ret tt, (P1, h1))) as Hparse.
  { unfold parse, nanotime. erewrite bind_ret by reflexivity. cbv beta. unfold getp at 1. erewrite bind_ret by reflexivity. cbv beta.
    unfold modp at 1. erewrite bind_ret by reflexivity. cbv beta. cbn [fst snd]. fold now.
    change (stamps fd (count_call P)) with (stamps fd P).
    replace (Z.of_nat (length (recent now (stamps fd P))) >? MAX_MSGS_PER_SECOND) with false.
    2:{ symmetry. rewrite Z.gtb_ltb. apply Z.ltb_ge. unfold MAX_MSGS_PER_SECOND. lia. }
    unfold getp. erewrite bind_ret by reflexivity. cbv beta. cbn [fst].
    change (partial fd (set_stamps fd (recent now (stamps fd P)) (count_call P))) with (partial fd P). rewrite Hb.
    unfold modp. erewrite bind_ret by reflexivity. cbv beta. cbn [fst snd]. exact Hloop. }
  apply Forall_app in Hrs as [_ Hrs2].
  destruct (IH rs2' b' P1 h1 h' Hrs2 Hend He3 Hi2 Hq1) as (P' & Hrest & Hpart & Hio & Hother); [|done|].
  { rewrite Hq2, length_app, length_replicate. unfold stamps at 1, P0. simpl. rewrite lookup_insert_eq. simpl. lia. }
  exists P'. split; [by erewrite bind_ret by exact Hparse|]. split; [done|]. split; [by rewrite Hio, Hq4|].
  intros fd' Hne. destruct (Hother fd' Hne) as [-> ->]. destruct (Hq3 fd' Hne) as [-> ->].
  unfold partial, stamps, P0. simpl. by rewrite !lookup_insert_ne.
Qed.

Lemma ending_nil : ending [] [].
Proof. by split. Qed.

(** Nothing has arrived yet of requests. *)
Lemma incomplete_nil rs : incomplete [] rs.
Proof. destruct rs as [|r rs]; [done|]. simpl. pose proof (req_size_bounds r). lia. Qed.

Lemma run_parses fd chunks rs b P h h' :
  Forall well_formed rs → b ++ concat chunks = encoded rs → incomplete b rs → partial fd P = b →
  (length (stamps fd P) + length rs ≤ 1000)%nat → for_each rs (deliver fd) h = (Ret tt, h') →
  ∃ P', for_each chunks (parse fd) (P, h) = (Ret tt, (P', h')) ∧ partial fd P' = [] ∧ io P' = io P ∧
    ∀ fd', fd' ≠ fd → partial fd' P' = partial fd' P ∧ stamps fd' P' = stamps fd' P.
Proof.
  intros Hrs He Hi. apply (run_pieces fd [] [] chunks rs b); [done|apply ending_nil|by rewrite app_nil_r|by rewrite app_nil_r].
Qed.
End parser.

(** ** Properties *)

(** C20 ([stream_reassembly]): however the bytes of well-formed requests are cut into
    pieces on their way, the handler is called with exactly these requests, in
    order, and nothing is left over; other sockets are not affected.  (At most
    1000 requests, the limit per second.) *)
Theorem stream_reassembly (PW : ParserWorld) {H} (RH : RequestHandler H) fd rs chunks P h h' :
  Forall well_formed rs → concat chunks = encoded rs → partial fd P = [] →
  (length (stamps fd P) + length rs ≤ 1000)%nat →
  for_each rs (deliver fd) h = (Ret tt, h') →
  ∃ P', for_each chunks (parse fd) (P, h) = (Ret tt, (P', h')) ∧ partial fd P' = [] ∧ io P' = io P ∧
    ∀ fd', fd' ≠ fd → partial fd' P' = partial fd' P ∧ stamps fd' P' = stamps fd' P.
Proof.
  intros Hrs He Hb Hn Hd. apply (run_parses fd chunks rs [] P h h'); try done. apply incomplete_nil.
Qed.

(** A handler that records what it is called with. *)
Inductive called := Got (fd : Z) (r : request) | Gone (fd : Z).

#[local] Instance recording_handler : RequestHandler (list called) := {|
  on_login := λ fd m, modify (λ l, l ++ [Got fd (RLogin m)]);
  on_new_order := λ fd m, modify (λ l, l ++ [Got fd (RNew m)]);
  on_delete_order := λ fd m, modify (λ l, l ++ [Got fd (RDelete m)]);
  on_modify_order := λ fd m, modify (λ l, l ++ [Got fd (RModify m)]);
  on_socket_closed := λ fd, modify (λ l, l ++ [Gone fd]);
|}.

Definition demo_request_header (length ty : Z) : oe.oe_request_header := oe.Build_oe_request_header length ty 1 3 10 99.
Definition demo_requests : list request :=
  [RLogin (oe.Build_login (demo_request_header 52 99) (strncpy 16 "alice") (strncpy 16 "secret"));
   RNew (oe.Build_new_order (demo_request_header 42 1) 7 1 1 100 (-50) 0);
   RDelete (oe.Build_delete_order (demo_request_header 28 2) 7)].

(** Three bytes at a time. *)
Fixpoint pieces (fuel : nat) (b : list byte) : list (list byte) :=
  match fuel, b with
  | S fuel, _ :: _ => take 3 b :: pieces fuel (drop 3 b)
  | _, _ => []
  end.

Lemma demo_well_formed : Forall well_formed demo_requests.
Proof. repeat constructor; vm_compute; repeat split; try done; intros [=]. Qed.

Lemma stream_reassembly_witness :
  let chunks := pieces 100 (encoded demo_requests) in
  length chunks = 41%nat ∧
  ∃ P', for_each chunks (@parse calm_parser_world _ recording_handler 5) (initial, []) = (Ret tt, (P', Got 5 <$> demo_requests)).
Proof.
  intros chunks. split; [vm_compute; reflexivity|].
  destruct (stream_reassembly calm_parser_world recording_handler 5 demo_requests chunks initial [] (Got 5 <$> demo_requests))
    as (P' & Hrun & _); [apply demo_well_formed|vm_compute; reflexivity|reflexivity|apply Nat.leb_le; vm_compute; reflexivity|reflexivity|].
  by exists P'.
Defined.

(** A new order whose header says length zero is
    delivered again and again: [parse] never comes back, whatever the rest of
    the bytes. *)
Theorem zero_length_never_ends (PW : ParserWorld) {H} (RH : RequestHandler H) fuel fd now P h :
  let header := c_dec oe.c_oe_request_header (partial fd P) in
  (c_size oe.c_new_order ≤ length (partial fd P))%nat →
  oe.rq_version header = oe.OE_PROTOCOL_VERSION → oe.rq_msg_type header = oe.MSG_TYPE.NEW_ORDER → oe.rq_length header = 0 →
  (∀ m h, ∃ h', on_new_order fd m h = (Ret tt, h')) →
  (parse_loop fuel fd now (P, h)).1 = Throw out_of_fuel.
Proof.
  intros header Hlen Hv Hty Hl Hh. remember (partial fd P) as b eqn:Hb. symmetry in Hb. revert P h Hb.
  induction fuel as [|fuel IH]; intros P h Hb; [done|]. cbn [parse_loop].
  unfold getp at 1. erewrite bind_ret by reflexivity. cbv beta. cbn [fst]. rewrite Hb.
  rewrite bool_decide_true by (etrans; [|exact Hlen]; by apply Nat.leb_le).
  cbv zeta. fold header. rewrite Hv, Hl, Hty. change (negb (_ =? oe.OE_PROTOCOL_VERSION)) with false. cbv iota.
  replace (0 >? Z.of_nat oe.MAX_OE_MESSAGE_SIZE) with false by (change oe.MAX_OE_MESSAGE_SIZE with 52%nat; done).
  assert (Z.of_nat (length b) <? 0 = false) as -> by (apply Z.ltb_ge, Zle_0_nat). cbv iota.
  destruct (Hh (c_dec oe.c_new_order b) h) as [h' Hh'].
  erewrite bind_ret.
  2:{ unfold dispatch. change (oe.MSG_TYPE.NEW_ORDER =? oe.MSG_TYPE.NEW_ORDER) with true. cbv iota.
      erewrite bind_ret by (unfold read; rewrite bool_decide_true by done; reflexivity). cbv beta.
      unfold callh, zoom. erewrite bind_ret by (cbn [snd fst]; rewrite Hh'; reflexivity). reflexivity. }
  cbv beta. cbn [negb]. cbv iota. unfold getp. erewrite bind_ret by reflexivity. cbv beta. cbn [fst].
  unfold modp. erewrite bind_ret by reflexivity. cbv beta. erewrite bind_ret by reflexivity. cbv beta. cbn [fst snd].
  change (Z.to_nat 0) with 0%nat. rewrite drop_0. apply IH. unfold partial. simpl. by rewrite lookup_insert_eq.
Qed.

Lemma zero_length_never_ends_witness :
  let P := set_partial 5 (c_enc oe.c_new_order (oe.Build_new_order (demo_request_header 0 1) 7 1 1 100 50 0)) initial in
  (@parse_loop calm_parser_world _ recording_handler 1000 5 0 (P, [])).1 = Throw out_of_fuel.
Proof.
  intros P. apply (zero_length_never_ends calm_parser_world recording_handler 1000 5 0 P []);
    [apply Nat.leb_le; vm_compute; reflexivity|vm_compute; reflexivity|vm_compute; reflexivity|vm_compute; reflexivity|].
  intros m h. eexists. reflexivity.
Defined.

(** A request with an unknown protocol version gets the connection closed by the
    parser itself, and the handler is not told: the server has to find out by its
    next read from the closed descriptor. *)
Theorem parse_error_keeps_session (PW : ParserWorld) {H} (RH : RequestHandler H) fd b P h :
  partial fd P = [] → Z.of_nat (length (stamps fd P)) <= MAX_MSGS_PER_SECOND →
  (c_size oe.c_oe_request_header ≤ length b)%nat →
  oe.rq_version (c_dec oe.c_oe_request_header b) ≠ oe.OE_PROTOCOL_VERSION →
  ∃ P' es, parse fd b (P, h) = (Ret tt, (P', h)) ∧ io P' = io P ++ es ++ [Shutdown fd; Closed fd].
Proof.
  intros Hb Hn Hlen Hv. unfold parse, nanotime, getp, modp.
  erewrite bind_ret by reflexivity. cbv beta. erewrite bind_ret by reflexivity. cbv beta.
  erewrite bind_ret by reflexivity. cbv beta. cbn [fst snd].
  set (now := clock_nanotime _). pose proof (recent_length now (stamps fd P)) as Hrec. change (stamps fd (count_call P)) with (stamps fd P).
  replace (Z.of_nat (length (recent now (stamps fd P))) >? MAX_MSGS_PER_SECOND) with false
    by (symmetry; rewrite Z.gtb_ltb; apply Z.ltb_ge; lia).
  erewrite bind_ret by reflexivity. cbv beta. cbn [fst].
  change (partial fd (set_stamps fd (recent now (stamps fd P)) (count_call P))) with (partial fd P). rewrite Hb.
  change ([] ++ b) with b. erewrite bind_ret by reflexivity. cbv beta. cbn [fst snd].
  set (P1 := set_partial fd b _). assert (partial fd P1 = b) as Hb1 by (unfold partial; simpl; by rewrite lookup_insert_eq).
  cbn [parse_loop]. unfold getp. erewrite bind_ret by reflexivity. cbv beta. cbn [fst]. rewrite Hb1, bool_decide_true by done.
  cbv zeta. replace (oe.rq_version (c_dec oe.c_oe_request_header b) =? oe.OE_PROTOCOL_VERSION) with false by lia. cbv iota. cbn [negb].
  unfold send_error_msg, getp, modp. erewrite bind_ret by reflexivity. cbv beta. erewrite bind_ret by reflexivity. cbv beta zeta.
  set (msg := c_enc oe.c_error_message _). change (calls (fst (P1, h))) with (calls P1). cbn [fst snd].
  destruct (pw_write (calls P1) fd msg) as [k| | |]; (erewrite bind_ret by reflexivity); cbv beta.
  - eexists _, [Wrote fd (take (Z.to_nat k) msg)]. split; [reflexivity|]. simpl. by rewrite <-app_assoc.
  - by eexists _, [].
  - by eexists _, [].
  - by eexists _, [].
Qed.

(** Alice is logged in on socket 5 and sends a request with version 2: the
    socket is closed, her session still points to it. *)
Lemma parse_error_keeps_session_witness :
  let s := ClientHandler.on_sessions (insert 5 (mk_session 0 10 1 1)) (ClientHandler.on_socks (insert 10 5) ClientHandler.initial) in
  let users := {| hc_symbols := ∅; hc_users := ∅ |} in
  ∃ P' es,
    @parse calm_parser_world _ (@client_handler calm_handler_world users) 5
      (c_enc oe.c_delete_order (oe.Build_delete_order (oe.Build_oe_request_header 28 2 2 3 10 0) 7)) (initial, s) = (Ret tt, (P', s)) ∧
    io P' = es ++ [Shutdown 5; Closed 5] ∧ (ClientHandler.get_sock_fd 10 s).1 = Ret 5.
Proof.
  intros s users.
  destruct (parse_error_keeps_session calm_parser_world (@client_handler calm_handler_world users) 5
    (c_enc oe.c_delete_order (oe.Build_delete_order (oe.Build_oe_request_header 28 2 2 3 10 0) 7)) initial s) as (P' & es & Hrun & Hio);
    [reflexivity|vm_compute; discriminate|apply Nat.leb_le; vm_compute; reflexivity|vm_compute; discriminate|].
  exists P', es. split; [exact Hrun|]. split; [exact Hio|reflexivity].
Defined.
