(* ===== verification/BotBook.v ===== *)
(** * [bots/order_book.cpp]: the order book a bot builds from the feed

    Orders by id and, per side, the total quantity of every price. *)
From S2P Require Import Prelude Protocol OrderLadder.

(** The two level maps are ordered as the ladder's are. *)
Definition side_of (buy : bool) : Levels := if buy then buy_levels else sell_levels.

Module OrderBook.

Record Order := mkOrder { side : Z; price : Z; quantity : Z }.

#[global] Instance Order_eq_dec : EqDecision Order.
Proof. solve_decision. Defined.

Record PriceLevel := mkLevel { level_price : Z; level_quantity : Z }.

Record t := mk {
  orders : gmap Z Order;
  buy_levels : gmap Z Z;
  sell_levels : gmap Z Z;
}.

Definition initial : t := mk ∅ ∅ ∅.

Definition levels (buy : bool) (b : t) : gmap Z Z := if buy then buy_levels b else sell_levels b.
Definition on_levels (buy : bool) (f : gmap Z Z → gmap Z Z) (b : t) : t :=
  if buy then mk (orders b) (f (buy_levels b)) (sell_levels b) else mk (orders b) (buy_levels b) (f (sell_levels b)).
Definition on_orders (f : gmap Z Order → gmap Z Order) (b : t) : t := mk (f (orders b)) (buy_levels b) (sell_levels b).

Definition is_buy (side : Z) : bool := side =? md.SIDE.BUY.

(** [levels[price] += quantity], [levels[price] -= quantity] on [uint32_t]; a
    missing level is made with quantity zero. *)
Definition add_quantity (price quantity : Z) (l : gmap Z Z) : gmap Z Z := <[price := u32 (default 0 (l !! price) + quantity)]> l.
Definition sub_quantity (price quantity : Z) (l : gmap Z Z) : gmap Z Z := <[price := u32 (default 0 (l !! price) - quantity)]> l.
Definition erase_if_zero (price : Z) (l : gmap Z Z) : gmap Z Z := if default 0 (l !! price) =? 0 then delete price l else l.

(** [emplace] keeps an order that is already there; the level is changed all
    the same. *)
Definition new_order (order_id side quantity price flags : Z) (b : t) : t :=
  let b := on_orders (λ m, match m !! order_id with Some _ => m | None => <[order_id := mkOrder side price quantity]> m end) b in
  on_levels (is_buy side) (add_quantity price quantity) b.

Definition delete_order_from_levels (order_id : Z) (buy : bool) (b : t) : t :=
  match orders b !! order_id with
  | None => b
  | Some order =>
      match levels buy b !! price order with
      | None => b
      | Some q =>
          if q <? quantity order then b
          else if u32 (q - quantity order) =? 0 then on_levels buy (delete (price order)) b
          else on_levels buy (insert (price order) (u32 (q - quantity order))) b
      end
  end.

Definition delete_order (order_id : Z) (b : t) : t :=
  match orders b !! order_id with
  | None => b
  | Some order =>
      if quantity order =? 0 then on_orders (delete order_id) b
      else on_orders (delete order_id) (delete_order_from_levels order_id (is_buy (side order)) b)
  end.

Definition modify_order (order_id new_side new_quantity new_price : Z) (b : t) : t :=
  match orders b !! order_id with
  | None => b
  | Some order =>
      let b := delete_order_from_levels order_id (is_buy (side order)) b in
      let b := on_levels (is_buy new_side) (add_quantity new_price new_quantity) b in
      on_orders (insert order_id (mkOrder new_side new_price new_quantity)) b
  end.

(** When the trade takes the whole order, the order is erased first and its
    side and price are then read through the dangling reference: [freed o] is
    what the memory of the erased order [o] reads as. *)
Definition order_trade (freed : Order → Order) (order_id traded trade_price : Z) (b : t) : t :=
  match orders b !! order_id with
  | None => b
  | Some order =>
      if quantity order <? traded then b
      else
        let left := u32 (quantity order - traded) in
        if left =? 0 then
          let b := on_orders (delete order_id) b in
          let order := freed order in
          on_levels (is_buy (side order)) (erase_if_zero (price order) ∘ sub_quantity (price order) traded) b
        else
          let b := on_orders (insert order_id (mkOrder (side order) (price order) left)) b in
          on_levels (is_buy (side order)) (sub_quantity (price order) traded) b
  end.

(** [levels.begin()]: the highest bid, the lowest ask. *)
Definition best (buy : bool) (b : t) : PriceLevel :=
  match begin (side_of buy) (levels buy b) with
  | None => mkLevel 0 0
  | Some (p, q) => mkLevel p q
  end.

Definition get_best_bid (b : t) : PriceLevel := best true b.
Definition get_best_ask (b : t) : PriceLevel := best false b.
End OrderBook.
