(* ===== verification/BotBookTheorems.v ===== *)
(** * A bot's order book is the aggregate of its orders *)
From S2P Require Import Prelude Protocol OrderLadder LadderMatch BotBook.
Import BotBook.OrderBook.

(** ** Totals per side and price *)

Definition here (buy : bool) (p : Z) (o : Order) : Z :=
  if Bool.eqb (is_buy (side o)) buy && (price o =? p) then quantity o else 0.

Definition total_at (buy : bool) (p : Z) (m : gmap Z Order) : Z := map_fold (λ _ o z, here buy p o + z) 0 m.

Lemma total_insert buy p m id o :
  m !! id = None → total_at buy p (<[id := o]> m) = here buy p o + total_at buy p m.
Proof.
  intros H. unfold total_at. rewrite (map_fold_insert_L (λ _ o z, here buy p o + z) 0 id o m); [done| |done]. intros. lia.
Qed.

Lemma total_delete buy p m id o :
  m !! id = Some o → total_at buy p m = here buy p o + total_at buy p (delete id m).
Proof.
  intros H. rewrite <-(insert_delete_id m id o H) at 1. apply total_insert. apply lookup_delete_eq.
Qed.

Lemma total_replace buy p m id o o' :
  m !! id = Some o → total_at buy p (<[id := o']> m) = total_at buy p m - here buy p o + here buy p o'.
Proof.
  intros H. rewrite (total_delete buy p m id o H), <-insert_delete_eq, total_insert by apply lookup_delete_eq. lia.
Qed.

Definition all_positive (m : gmap Z Order) : Prop := ∀ id o, m !! id = Some o → 0 < quantity o < 2 ^ 32.

Lemma total_nonneg buy p m : all_positive m → 0 <= total_at buy p m.
Proof.
  induction m as [|id o m Hid IH] using map_ind; intros Hm; [done|]. rewrite total_insert by done.
  assert (0 < quantity o < 2 ^ 32) by (eapply Hm; apply lookup_insert_eq).
  assert (0 <= total_at buy p m).
  { apply IH. intros id' o' Ho. apply (Hm id' o'). rewrite lookup_insert_ne; [done|]. intros ->. congruence. }
  unfold here. destruct (_ && _); lia.
Qed.

(** ** The abstract book: the orders only *)

Inductive book_op :=
  | BNew (id side quantity price flags : Z)
  | BDelete (id : Z)
  | BModify (id side quantity price : Z)
  | BTrade (id quantity price : Z).

Definition run_book (freed : Order → Order) (o : book_op) : t → t :=
  match o with
  | BNew id d q p fl => new_order id d q p fl
  | BDelete id => delete_order id
  | BModify id d q p => modify_order id d q p
  | BTrade id q p => order_trade freed id q p
  end.

Definition spec_book (o : book_op) (m : gmap Z Order) : gmap Z Order :=
  match o with
  | BNew id d q p _ => <[id := mkOrder d p q]> m
  | BDelete id => delete id m
  | BModify id d q p => match m !! id with Some _ => <[id := mkOrder d p q]> m | None => m end
  | BTrade id q _ =>
      match m !! id with
      | Some o => if quantity o =? q then delete id m else <[id := mkOrder (side o) (price o) (quantity o - q)]> m
      | None => m
      end
  end.

(** What a feed sends: new orders under new ids, positive 32-bit quantities, trades
    within the order; and the totals of the result fit 32 bits. *)
Definition op_fits (o : book_op) (m : gmap Z Order) : Prop :=
  match o with
  | BNew id _ q _ _ => m !! id = None ∧ 0 < q < 2 ^ 32
  | BDelete _ => True
  | BModify _ _ q _ => 0 < q < 2 ^ 32
  | BTrade id q _ => 0 < q ∧ ∀ o, m !! id = Some o → q <= quantity o
  end.
Definition bounded (m : gmap Z Order) : Prop := ∀ buy p, total_at buy p m < 2 ^ 32.

Fixpoint ops_fit (os : list book_op) (m : gmap Z Order) : Prop :=
  match os with [] => True | o :: os => op_fits o m ∧ bounded (spec_book o m) ∧ ops_fit os (spec_book o m) end.

(** A level of quantity zero is not there. *)
Definition level (q : Z) : option Z := if q =? 0 then None else Some q.

Record aggregates (b : t) (m : gmap Z Order) : Prop := {
  mi_orders : orders b = m;
  mi_levels : ∀ buy p, levels buy b !! p = level (total_at buy p m);
  mi_positive : all_positive m;
  mi_bounded : bounded m;
}.

Lemma levels_on_levels buy buy' f b :
  levels buy' (on_levels buy f b) = if Bool.eqb buy buy' then f (levels buy b) else levels buy' b.
Proof. by destruct buy, buy'. Qed.
Lemma orders_on_levels buy f b : orders (on_levels buy f b) = orders b.
Proof. by destruct buy. Qed.
Lemma levels_on_orders buy f b : levels buy (on_orders f b) = levels buy b.
Proof. by destruct buy. Qed.

Lemma level_some q : q ≠ 0 → level q = Some q.
Proof. intros H. unfold level. by rewrite (proj2 (Z.eqb_neq q 0) H). Qed.

(** Adding to and taking from one level, as the totals see it. *)
Lemma lookup_add l tot p q p' :
  (∀ x, l !! x = level (tot x)) → 0 <= tot p → 0 < q → tot p + q < 2 ^ 32 →
  add_quantity p q l !! p' = level (tot p' + if p =? p' then q else 0).
Proof.
  intros Hl Ht Hq Hb. unfold add_quantity. rewrite lookup_insert. destruct (decide (p = p')) as [<-|Hne].
  - rewrite Z.eqb_refl, Hl, (level_some (tot p + q)) by lia. f_equal.
    assert (default 0 (level (tot p)) = tot p) as -> by (unfold level; destruct (Z.eqb_spec (tot p) 0) as [E|E]; simpl; congruence).
    apply u32_id. unfold is_u32. lia.
  - rewrite (proj2 (Z.eqb_neq p p') Hne), Z.add_0_r. apply Hl.
Qed.

Lemma lookup_taken (l : gmap Z Z) tot p q p' :
  (∀ x, l !! x = level (tot x)) → 0 < q <= tot p → tot p < 2 ^ 32 →
  (if u32 (tot p - q) =? 0 then delete p l else <[p := u32 (tot p - q)]> l) !! p' = level (tot p' - if p =? p' then q else 0).
Proof.
  intros Hl Hq Hb. rewrite u32_id by (unfold is_u32; lia). destruct (Z.eqb_spec (tot p - q) 0) as [E|E].
  - rewrite lookup_delete. destruct (decide (p = p')) as [<-|Hne].
    + by rewrite Z.eqb_refl, E.
    + by rewrite (proj2 (Z.eqb_neq p p') Hne), Z.sub_0_r.
  - rewrite lookup_insert. destruct (decide (p = p')) as [<-|Hne].
    + by rewrite Z.eqb_refl, level_some.
    + by rewrite (proj2 (Z.eqb_neq p p') Hne), Z.sub_0_r.
Qed.

Lemma here_eq buy p o : here buy p o = if Bool.eqb (is_buy (side o)) buy then if price o =? p then quantity o else 0 else 0.
Proof. unfold here. by destruct (Bool.eqb _ _). Qed.

Lemma total_has b m id o :
  aggregates b m → m !! id = Some o →
  0 < quantity o <= total_at (is_buy (side o)) (price o) m ∧ total_at (is_buy (side o)) (price o) m < 2 ^ 32.
Proof.
  intros [_ _ Hp Hb] Ho. split; [|apply Hb]. rewrite (total_delete _ _ m id o Ho), here_eq, eqb_reflx, Z.eqb_refl.
  pose proof (Hp id o Ho). assert (0 <= total_at (is_buy (side o)) (price o) (delete id m)); [|lia].
  apply total_nonneg. intros id' o' [_ Ho']%lookup_delete_Some. by eapply Hp.
Qed.

(** Taking an order out of the levels. *)
Lemma taken_out b m id o buy p :
  aggregates b m → m !! id = Some o →
  levels buy (delete_order_from_levels id (is_buy (side o)) b) !! p = level (total_at buy p m - here buy p o).
Proof.
  intros Hm Ho. pose proof (total_has b m id o Hm Ho) as [Hq Hb]. destruct Hm as [Hor Hl Hp _].
  unfold delete_order_from_levels. rewrite Hor, Ho, Hl, level_some by lia.
  replace (total_at (is_buy (side o)) (price o) m <? quantity o) with false by lia.
  pose proof (lookup_taken _ _ (price o) (quantity o) p (Hl (is_buy (side o))) Hq Hb) as Ht.
  rewrite here_eq. destruct (u32 _ =? 0); rewrite levels_on_levels; destruct (Bool.eqb (is_buy (side o)) buy) eqn:E;
    try (apply Bool.eqb_prop in E as <-; exact Ht); by rewrite Z.sub_0_r.
Qed.

Lemma orders_taken_out b id buy : orders (delete_order_from_levels id buy b) = orders b.
Proof.
  unfold delete_order_from_levels. destruct (_ !! id) as [o|]; [|done]. destruct (_ !! price o); [|done].
  destruct (_ <? _); [done|]. destruct (_ =? 0); apply orders_on_levels.
Qed.

(** ** Every operation keeps the aggregate *)

Lemma positive_insert m id o : all_positive m → 0 < quantity o < 2 ^ 32 → all_positive (<[id := o]> m).
Proof. intros Hm Ho id' o' [[_ <-]|[_ H]]%lookup_insert_Some; [done|by eapply Hm]. Qed.

Lemma positive_delete m id : all_positive m → all_positive (delete id m).
Proof. intros Hm id' o' [_ H]%lookup_delete_Some. by eapply Hm. Qed.

Lemma aggregates_new b m id d q p fl :
  aggregates b m → op_fits (BNew id d q p fl) m → bounded (spec_book (BNew id d q p fl) m) →
  aggregates (new_order id d q p fl b) (spec_book (BNew id d q p fl) m).
Proof.
  intros [Ho Hl Hp Hb] [Hid Hq] Hb'. unfold new_order. cbn [spec_book] in *. constructor; [| | |done].
  - rewrite orders_on_levels. simpl. by rewrite Ho, Hid.
  - intros buy p'. rewrite total_insert by done. rewrite levels_on_levels, levels_on_orders, here_eq. simpl side. simpl price. simpl quantity.
    destruct (Bool.eqb (is_buy d) buy) eqn:E; [|by rewrite levels_on_orders, Z.add_0_l, Hl].
    apply Bool.eqb_prop in E as <-. rewrite Z.add_comm. apply (lookup_add _ (λ x, total_at (is_buy d) x m)); [apply Hl|by apply total_nonneg|lia|].
    specialize (Hb' (is_buy d) p). rewrite total_insert, here_eq in Hb' by done. simpl in Hb'. rewrite eqb_reflx, Z.eqb_refl in Hb'. lia.
  - by apply positive_insert.
Qed.

Lemma aggregates_delete b m id : aggregates b m → aggregates (delete_order id b) (spec_book (BDelete id) m).
Proof.
  intros Hm. pose proof Hm as [Ho Hl Hp Hb]. unfold delete_order. simpl. rewrite Ho. destruct (m !! id) as [o|] eqn:Hid.
  2:{ by rewrite delete_id. }
  pose proof (Hp id o Hid). replace (quantity o =? 0) with false by lia.
  constructor; [| |by apply positive_delete|].
  - simpl. by rewrite orders_taken_out, Ho.
  - intros buy p. rewrite levels_on_orders, (taken_out b m id o) by done. f_equal. rewrite (total_delete buy p m id o Hid). lia.
  - intros buy p. specialize (Hb buy p). rewrite (total_delete buy p m id o Hid) in Hb. unfold here in Hb. destruct (_ && _); lia.
Qed.

Lemma aggregates_modify b m id d q p :
  aggregates b m → op_fits (BModify id d q p) m → bounded (spec_book (BModify id d q p) m) →
  aggregates (modify_order id d q p b) (spec_book (BModify id d q p) m).
Proof.
  intros Hm Hq Hb'. pose proof Hm as [Ho Hl Hp Hb]. unfold modify_order. cbn [spec_book op_fits] in *. rewrite Ho.
  destruct (m !! id) as [o|] eqn:Hid; [|done].
  assert (all_positive (delete id m)) as Hpd by by apply positive_delete.
  constructor; [| |by apply positive_insert|done].
  - simpl. by rewrite orders_on_levels, orders_taken_out, Ho.
  - intros buy p'. rewrite levels_on_orders, levels_on_levels.
    assert (∀ buy p', levels buy (delete_order_from_levels id (is_buy (side o)) b) !! p' = level (total_at buy p' (delete id m))) as Ht.
    { intros buy0 p0. rewrite (taken_out b m id o) by done. f_equal. rewrite (total_delete buy0 p0 m id o Hid). lia. }
    rewrite <-insert_delete_eq, total_insert, here_eq by apply lookup_delete_eq. simpl side. simpl price. simpl quantity.
    destruct (Bool.eqb (is_buy d) buy) eqn:E; [|by rewrite Z.add_0_l, Ht].
    apply Bool.eqb_prop in E as <-. rewrite Z.add_comm. apply (lookup_add _ (λ x, total_at (is_buy d) x (delete id m))); [apply Ht|by apply total_nonneg|lia|].
    specialize (Hb' (is_buy d) p). rewrite <-insert_delete_eq, total_insert, here_eq in Hb' by apply lookup_delete_eq.
    simpl in Hb'. rewrite eqb_reflx, Z.eqb_refl in Hb'. lia.
Qed.

Lemma aggregates_trade freed b m id q p :
  (∀ o, freed o = o) → aggregates b m → op_fits (BTrade id q p) m →
  aggregates (order_trade freed id q p b) (spec_book (BTrade id q p) m).
Proof.
  intros Hf Hm [Hq Hle]. pose proof Hm as [Ho Hl Hp Hb]. unfold order_trade. simpl. rewrite Ho.
  destruct (m !! id) as [o|] eqn:Hid; [|done]. specialize (Hle o eq_refl).
  replace (quantity o <? q) with false by lia.
  pose proof (total_has b m id o Hm Hid) as [Hqt Hbt].
  assert (is_u32 (quantity o - q)) as Hw by (unfold is_u32; lia). rewrite (u32_id _ Hw).
  assert (∀ p', sub_quantity (price o) q (levels (is_buy (side o)) b) !! p' =
    if price o =? p' then Some (total_at (is_buy (side o)) p' m - q) else level (total_at (is_buy (side o)) p' m)) as Hsub.
  { intros p'. unfold sub_quantity. rewrite lookup_insert. destruct (decide (price o = p')) as [<-|Hne].
    - rewrite Z.eqb_refl, Hl, level_some by lia. simpl. f_equal. apply u32_id. unfold is_u32. lia.
    - by rewrite (proj2 (Z.eqb_neq _ _) Hne). }
  destruct (Z.eqb_spec (quantity o - q) 0) as [E|E].
  - assert (quantity o = q) as Hoq by lia. rewrite Hoq, Z.eqb_refl, Hf.
    constructor; [| |by apply positive_delete|].
    + rewrite orders_on_levels. simpl. by rewrite Ho.
    + intros buy p'. rewrite levels_on_levels, levels_on_orders.
      pose proof (total_delete buy p' m id o Hid) as Hd. rewrite here_eq in Hd.
      destruct (Bool.eqb (is_buy (side o)) buy) eqn:Es; [|rewrite levels_on_orders, Hl; f_equal; lia].
      apply Bool.eqb_prop in Es as <-. unfold erase_if_zero, compose. rewrite Hsub, Z.eqb_refl. simpl.
      destruct (Z.eqb_spec (total_at (is_buy (side o)) (price o) m - q) 0) as [Ez|Ez]; [rewrite lookup_delete; destruct (decide (price o = p')) as [<-|Hne]|].
      * rewrite Z.eqb_refl in Hd. replace (total_at _ _ (delete id m)) with 0 by lia. done.
      * rewrite Hsub, (proj2 (Z.eqb_neq _ _) Hne). rewrite (proj2 (Z.eqb_neq _ _) Hne) in Hd. f_equal. lia.
      * rewrite Hsub. destruct (Z.eqb_spec (price o) p') as [Ep|Ep].
        { rewrite <-Ep in *. replace (total_at _ _ (delete id m)) with (total_at (is_buy (side o)) (price o) m - q) by lia.
          by rewrite level_some. }
        f_equal. lia.
    + intros buy p'. specialize (Hb buy p'). rewrite (total_delete buy p' m id o Hid) in Hb. unfold here in Hb. destruct (_ && _); lia.
  - replace (quantity o =? q) with false by lia.
    assert (∀ buy p', total_at buy p' (<[id := mkOrder (side o) (price o) (quantity o - q)]> m) =
      if Bool.eqb (is_buy (side o)) buy then if price o =? p' then total_at buy p' m - q else total_at buy p' m else total_at buy p' m) as Ht.
    { intros buy p'. rewrite (total_replace buy p' m id o) by done. rewrite !here_eq. simpl.
      destruct (Bool.eqb _ _), (price o =? p'); lia. }
    constructor; [| | |].
    + rewrite orders_on_levels. simpl. by rewrite Ho.
    + intros buy p'. rewrite levels_on_levels, levels_on_orders, Ht.
      destruct (Bool.eqb (is_buy (side o)) buy) eqn:Es; [|by rewrite levels_on_orders].
      apply Bool.eqb_prop in Es as <-. rewrite Hsub. destruct (Z.eqb_spec (price o) p') as [<-|Hne]; [by rewrite level_some by lia|done].
    + apply positive_insert; [done|simpl; lia].
    + intros buy p'. rewrite Ht. specialize (Hb buy p'). destruct (Bool.eqb _ _), (price o =? p'); lia.
Qed.

Lemma aggregates_initial : aggregates initial ∅.
Proof.
  constructor; [done| |intros id o H; by rewrite lookup_empty in H|by intros buy p].
  intros buy p. unfold total_at. rewrite map_fold_empty. destruct buy; apply lookup_empty.
Qed.

Lemma aggregates_run freed os : ∀ b m,
  (∀ o, freed o = o) → aggregates b m → ops_fit os m →
  aggregates (foldl (λ b o, run_book freed o b) b os) (foldl (λ m o, spec_book o m) m os).
Proof.
  induction os as [|o os IH]; intros b m Hf Hm Hfit; [done|]. destruct Hfit as (Ho & Hb & Hos). simpl. apply IH; [done| |done].
  destruct o; simpl run_book;
    [by apply aggregates_new|by apply aggregates_delete|by apply aggregates_modify|by apply aggregates_trade].
Qed.

(** The orders alone do not depend on what erased memory reads as. *)
Lemma orders_run freed o b m :
  orders b = m → all_positive m → op_fits o m → orders (run_book freed o b) = spec_book o m ∧ all_positive (spec_book o m).
Proof.
  intros <- Hp Ho. destruct o as [i d q p f|i|i d q p|i q p]; simpl in *.
  - destruct Ho as [Hi Hq]. unfold new_order. rewrite orders_on_levels. simpl. rewrite Hi. split; [done|by apply positive_insert].
  - split; [|by apply positive_delete]. unfold delete_order. destruct (orders b !! i) as [o|] eqn:Hi; [|by rewrite delete_id].
    destruct (_ =? 0); [done|]. simpl. by rewrite orders_taken_out.
  - unfold modify_order. destruct (orders b !! i) as [o|] eqn:Hi; [|done]. simpl. rewrite orders_on_levels, orders_taken_out.
    split; [done|by apply positive_insert].
  - unfold order_trade. destruct Ho as [Hq Hle]. destruct (orders b !! i) as [o|] eqn:Hi; [|done]. specialize (Hle o eq_refl).
    replace (quantity o <? q) with false by lia.
    destruct (Z.eqb_spec (quantity o) q) as [E|E].
    + rewrite E, Z.sub_diag. change (u32 0 =? 0) with true. cbv iota. rewrite orders_on_levels.
      split; [done|by apply positive_delete].
    + pose proof (Hp i o Hi). rewrite u32_id by (unfold is_u32; lia). replace (quantity o - q =? 0) with false by lia.
      replace (quantity o =? q) with false by lia. rewrite orders_on_levels. simpl.
      split; [done|]. apply positive_insert; [done|simpl; lia].
Qed.

(** A book holds the orders [m]; as far as [P] holds it is their aggregate. *)
Record mirrors (P : Prop) (b : t) (m : gmap Z Order) : Prop := {
  mr_orders : orders b = m;
  mr_positive : all_positive m;
  mr_levels : P → aggregates b m;
}.

Lemma mirrors_initial P : mirrors P initial ∅.
Proof. split; [done|by intros id o H; rewrite lookup_empty in H|intros _; apply aggregates_initial]. Qed.

Lemma mirrors_step (P : Prop) freed o b m :
  (P → ∀ o, freed o = o) → mirrors P b m → op_fits o m → (P → bounded (spec_book o m)) →
  mirrors P (run_book freed o b) (spec_book o m).
Proof.
  intros Hf [Ho Hp Hl] Hfit Hb. destruct (orders_run freed o b m Ho Hp Hfit). split; [done|done|]. intros HP.
  specialize (Hf HP). specialize (Hl HP). specialize (Hb HP).
  destruct o; simpl run_book; [by apply aggregates_new|by apply aggregates_delete|by apply aggregates_modify|by apply aggregates_trade].
Qed.

(** The best price of a side, of the orders themselves. *)
Definition has_best (buy : bool) (m : gmap Z Order) (pl : PriceLevel) : Prop :=
  (pl = mkLevel 0 0 ∧ ∀ id o, m !! id = Some o → is_buy (side o) ≠ buy) ∨
  (level_quantity pl = total_at buy (level_price pl) m ∧ 0 < level_quantity pl ∧
   ∀ id o, m !! id = Some o → is_buy (side o) = buy → better (side_of buy) (price o) (level_price pl) = false).

Lemma aggregates_best buy b m : aggregates b m → has_best buy m (best buy b).
Proof.
  intros Hm. pose proof Hm as [Ho Hl Hp Hb]. unfold best, has_best.
  assert (∀ id o, m !! id = Some o → is_buy (side o) = buy → is_Some (levels buy b !! price o)) as Hin.
  { intros id o Hid <-. pose proof (total_has b m id o Hm Hid) as [? _]. rewrite Hl, level_some by lia. eauto. }
  pose proof (begin_spec (side_of buy) (levels buy b)) as Hbe. destruct (begin _ _) as [[p q]|].
  - right. destruct Hbe as [Hpq Hbest]. simpl. rewrite Hl in Hpq. unfold level in Hpq.
    destruct (Z.eqb_spec (total_at buy p m) 0) as [|Hne]; [done|]. injection Hpq as Hpq.
    pose proof (total_nonneg buy p m Hp). split; [done|]. split; [lia|]. eauto.
  - left. split; [done|]. intros id o Hid Hs. destruct (Hin id o Hid Hs) as [q Hq]. by rewrite Hbe, lookup_empty in Hq.
Qed.

(** ** Properties *)

(** As long as what was erased can still be read, the
    book of a bot that is fed any sequence of new orders, cancels,
    modifications and trades holds exactly the orders these leave, and at every
    price of either side their total quantity — with no level for a total of
    zero — and its best bid and ask are the best prices of its orders. *)
Theorem bot_book_aggregates freed os :
  (∀ o, freed o = o) → ops_fit os ∅ →
  let b := foldl (λ b o, run_book freed o b) initial os in
  let m := foldl (λ m o, spec_book o m) ∅ os in
  orders b = m ∧ (∀ buy p, levels buy b !! p = level (total_at buy p m)) ∧
  has_best true m (get_best_bid b) ∧ has_best false m (get_best_ask b).
Proof.
  intros Hf Hfit b m. pose proof (aggregates_run freed os initial ∅ Hf aggregates_initial Hfit) as Hm. fold b m in Hm.
  split; [apply Hm|]. split; [apply Hm|]. split; by apply aggregates_best.
Qed.

(** Fewer orders, smaller totals. *)
Lemma positive_mono m m' : m ⊆ m' → all_positive m' → all_positive m.
Proof. intros Hs Hp id o Ho. eapply Hp. by eapply lookup_weaken. Qed.

Lemma bounded_mono m m' : m ⊆ m' → all_positive m' → bounded m' → bounded m.
Proof.
  intros Hs Hp Hb buy p. eapply Z.le_lt_trans; [|apply (Hb buy p)]. clear Hb. revert m' Hs Hp.
  induction m as [|i o m Hi IH] using map_ind; intros m' Hs Hp; [by apply total_nonneg|].
  assert (m' !! i = Some o) as Hi' by (eapply lookup_weaken; [apply lookup_insert_eq|done]).
  rewrite total_insert by done. rewrite (total_delete buy p m' i o Hi').
  assert (total_at buy p m <= total_at buy p (delete i m')); [|lia].
  apply IH; [|by apply positive_delete]. apply map_subseteq_spec. intros j x Hj.
  assert (j ≠ i) as Hne by congruence. rewrite lookup_delete_ne by done. eapply lookup_weaken; [|exact Hs].
  by rewrite lookup_insert_ne.
Qed.

(** Totals fit when all quantities together do. *)
Definition sum_quantity (m : gmap Z Order) : Z := map_fold (λ _ o z, quantity o + z) 0 m.

Lemma total_le_sum buy p m : all_positive m → total_at buy p m <= sum_quantity m.
Proof.
  unfold sum_quantity. induction m as [|i o m Hi IH] using map_ind; intros Hp; [done|].
  rewrite total_insert by done. rewrite (map_fold_insert_L (λ _ o z, quantity o + z)) by (done || intros; lia).
  assert (0 < quantity o < 2 ^ 32) by (eapply Hp; apply lookup_insert_eq).
  assert (total_at buy p m <= map_fold (λ _ o z, quantity o + z) 0 m).
  { apply IH. intros i' o' Ho. apply (Hp i' o'). rewrite lookup_insert_ne; [done|]. intros ->. congruence. }
  unfold here. destruct (_ && _); lia.
Qed.

Lemma bounded_sum m : sum_quantity m < 2 ^ 32 → map_Forall (λ _ o, 0 < quantity o < 2 ^ 32) m → bounded m.
Proof. intros Hm Hp buy p. eapply Z.le_lt_trans; [by apply total_le_sum|done]. Qed.

Definition demo_ops : list book_op :=
  [BNew 1 md.SIDE.BUY 100 50 0; BNew 2 md.SIDE.BUY 30 50 0; BNew 3 md.SIDE.SELL 20 55 0; BTrade 1 40 50;
   BModify 2 md.SIDE.BUY 10 51; BTrade 3 20 55; BDelete 9].

Lemma bot_book_aggregates_witness :
  ops_fit demo_ops ∅ ∧ orders (foldl (λ b o, run_book id o b) initial demo_ops) = foldl (λ m o, spec_book o m) ∅ demo_ops.
Proof.
  assert (ops_fit demo_ops ∅) as Hfit.
  { unfold demo_ops. cbn [ops_fit op_fits spec_book].
    repeat match goal with
    | |- _ ∧ _ => split
    | |- bounded _ => apply bounded_sum; [vm_compute; reflexivity|by_decide]
    | |- True => exact I
    | |- ∀ _, _ → _ => intros o Ho; vm_compute in Ho; injection Ho as <-; simpl; lia
    | |- _ = None => vm_compute; reflexivity
    | |- _ < _ => lia
    end. }
  split; [done|]. apply (bot_book_aggregates id demo_ops); [done|exact Hfit].
Defined.

(** [order_trade] takes the traded quantity off the
    level that the erased order's memory names: if that memory has been given
    another price by then, the order's own level keeps the quantity although no
    order is left in it. *)
Theorem trade_reads_erased_order freed id o b p :
  orders b = {[id := o]} → buy_levels b = {[price o := quantity o]} → side o = md.SIDE.BUY → is_u32 (quantity o) → 0 < quantity o →
  side (freed o) = md.SIDE.BUY → price (freed o) = p → p ≠ price o →
  let b' := order_trade freed id (quantity o) (price o) b in
  orders b' = ∅ ∧ buy_levels b' !! price o = Some (quantity o).
Proof.
  intros Hor Hlv Hs Hw Hpos Hfs Hfp Hne b'. subst b'. unfold order_trade. rewrite Hor, lookup_singleton_eq.
  rewrite Z.ltb_irrefl, Z.sub_diag. change (u32 0 =? 0) with true. cbv iota zeta. rewrite Hfs, Hfp.
  change (is_buy md.SIDE.BUY) with true. simpl. rewrite Hor, Hlv. split; [by rewrite delete_singleton_eq|].
  unfold erase_if_zero, sub_quantity. destruct (_ =? 0); rewrite ?lookup_delete_ne by done; rewrite lookup_insert_ne by done; apply lookup_singleton_eq.
Qed.

Lemma trade_reads_erased_order_witness :
  let o := mkOrder md.SIDE.BUY 50 100 in
  let b := new_order 1 md.SIDE.BUY 100 50 0 initial in
  let b' := order_trade (λ _, mkOrder md.SIDE.BUY 0 0) 1 100 50 b in
  orders b' = ∅ ∧ get_best_bid b' = mkLevel 50 100.
Proof.
  intros o b b'.
  destruct (trade_reads_erased_order (λ _, mkOrder md.SIDE.BUY 0 0) 1 o b 0) as [H _];
    [vm_compute; reflexivity|vm_compute; reflexivity|done|by_decide|done|done|done|done|].
  split; [exact H|vm_compute; reflexivity].
Defined.
