(* ===== verification/SnapshotWriter.v ===== *)
(** * [market_data/snapshot_writer.cpp]: the snapshots of the open orders

    The writer applies the queued feed messages to the open orders it keeps and
    every half second writes them to the snapshot multicast group. *)
From Stdlib Require Import Init.Byte.
From S2P Require Import Prelude Protocol MdStream SnapshotClient.

(** Besides the clock and the socket: [std::sort] leaves the order of orders at
    the same price open, and so does the walk over an [unordered_map]. *)
Definition price_le (bids : bool) (a b : md.new_order) : Prop :=
  if bids then md.no_price b <= md.no_price a else md.no_price a <= md.no_price b.

Class SnapshotWorld := {
  sn_world : World;
  sn_sort : nat → bool → list md.new_order → list md.new_order;
  sn_sort_perm : ∀ n bids l, sn_sort n bids l ≡ₚ l;
  sn_sort_sorted : ∀ n bids l, Sorted (price_le bids) (sn_sort n bids l);
  sn_walk : nat → gmap Z (list md.new_order) → list Z;
  sn_walk_perm : ∀ n m, sn_walk n m ≡ₚ (map_to_list m).*1;
}.

Module SnapshotWriter.

(** [readings] numbers the questions to the clock, the sort and the walk. *)
Record t := mk {
  buffer : list byte;
  last_md_seq_num : Z;
  last_snapshot_ts : Z;
  queue : list md_payload;
  symbol_to_bids : gmap Z (list md.new_order);
  symbol_to_asks : gmap Z (list md.new_order);
  order_to_symbol : gmap Z Z;
  readings : nat;
  sends : nat;
  packets : list (list byte);
}.

Definition BUFFER_SIZE : Z := 1460.
Definition SNAPSHOT_INTERVAL : Z := 500000000.

(** The constructor lists symbols 1 and 2. *)
Definition initial : t := mk [] 0 0 [] {[1 := []; 2 := []]} {[1 := []; 2 := []]} ∅ 0 0 [].

Definition set_buffer (b : list byte) (w : t) : t :=
  mk b (last_md_seq_num w) (last_snapshot_ts w) (queue w) (symbol_to_bids w) (symbol_to_asks w) (order_to_symbol w) (readings w) (sends w) (packets w).
Definition set_last_md_seq_num (n : Z) (w : t) : t :=
  mk (buffer w) n (last_snapshot_ts w) (queue w) (symbol_to_bids w) (symbol_to_asks w) (order_to_symbol w) (readings w) (sends w) (packets w).
Definition set_last_snapshot_ts (ts : Z) (w : t) : t :=
  mk (buffer w) (last_md_seq_num w) ts (queue w) (symbol_to_bids w) (symbol_to_asks w) (order_to_symbol w) (readings w) (sends w) (packets w).
Definition set_queue (q : list md_payload) (w : t) : t :=
  mk (buffer w) (last_md_seq_num w) (last_snapshot_ts w) q (symbol_to_bids w) (symbol_to_asks w) (order_to_symbol w) (readings w) (sends w) (packets w).
Definition set_bids (m : gmap Z (list md.new_order)) (w : t) : t :=
  mk (buffer w) (last_md_seq_num w) (last_snapshot_ts w) (queue w) m (symbol_to_asks w) (order_to_symbol w) (readings w) (sends w) (packets w).
Definition set_asks (m : gmap Z (list md.new_order)) (w : t) : t :=
  mk (buffer w) (last_md_seq_num w) (last_snapshot_ts w) (queue w) (symbol_to_bids w) m (order_to_symbol w) (readings w) (sends w) (packets w).
Definition set_order_to_symbol (m : gmap Z Z) (w : t) : t :=
  mk (buffer w) (last_md_seq_num w) (last_snapshot_ts w) (queue w) (symbol_to_bids w) (symbol_to_asks w) m (readings w) (sends w) (packets w).
Definition count_reading (w : t) : t :=
  mk (buffer w) (last_md_seq_num w) (last_snapshot_ts w) (queue w) (symbol_to_bids w) (symbol_to_asks w) (order_to_symbol w) (S (readings w)) (sends w) (packets w).
Definition count_send (w : t) : t :=
  mk (buffer w) (last_md_seq_num w) (last_snapshot_ts w) (queue w) (symbol_to_bids w) (symbol_to_asks w) (order_to_symbol w) (readings w) (S (sends w)) (packets w).
Definition add_packet (b : list byte) (w : t) : t :=
  mk (buffer w) (last_md_seq_num w) (last_snapshot_ts w) (queue w) (symbol_to_bids w) (symbol_to_asks w) (order_to_symbol w) (readings w) (sends w) (packets w ++ [b]).

(** [symbol_to_bids[symbol]], [symbol_to_asks[symbol]]. *)
Definition bids (symbol : Z) (w : t) : list md.new_order := default [] (symbol_to_bids w !! symbol).
Definition asks (symbol : Z) (w : t) : list md.new_order := default [] (symbol_to_asks w !! symbol).
Definition put_bids (symbol : Z) (l : list md.new_order) (w : t) : t := set_bids (<[symbol := l]> (symbol_to_bids w)) w.
Definition put_asks (symbol : Z) (l : list md.new_order) (w : t) : t := set_asks (<[symbol := l]> (symbol_to_asks w)) w.

(** ** The open orders *)

(** The message a new order is kept as. *)
Definition entry (order_id symbol side quantity price flags : Z) : md.new_order :=
  md.Build_new_order (md.Build_md_header 0 (Z.of_nat (c_size md.c_new_order)) 0 0 md.MSG_TYPE.NEW_ORDER)
    order_id symbol side quantity price flags.

(** [std::find_if] by order id; [erase] and assignment at the iterator. *)
Fixpoint find_order (id : Z) (l : list md.new_order) : option md.new_order :=
  match l with
  | [] => None
  | o :: l => if md.no_order_id o =? id then Some o else find_order id l
  end.
Fixpoint erase_order (id : Z) (l : list md.new_order) : list md.new_order :=
  match l with
  | [] => []
  | o :: l => if md.no_order_id o =? id then l else o :: erase_order id l
  end.
Fixpoint assign_order (id : Z) (f : md.new_order → md.new_order) (l : list md.new_order) : list md.new_order :=
  match l with
  | [] => []
  | o :: l => if md.no_order_id o =? id then f o :: l else o :: assign_order id f l
  end.

(** [erase(remove_if(…), end())] *)
Definition remove_orders (id : Z) (l : list md.new_order) : list md.new_order := filter (λ o, md.no_order_id o ≠ id) l.

Definition set_values (quantity price flags : Z) (o : md.new_order) : md.new_order :=
  md.Build_new_order (md.no_header o) (md.no_order_id o) (md.no_symbol o) (md.no_side o) quantity price flags.
Definition set_quantity (quantity : Z) (o : md.new_order) : md.new_order :=
  set_values quantity (md.no_price o) (md.no_flags o) o.

(** Trading against a found order: [None] when the quantity exceeds it. *)
Definition traded (id quantity : Z) (o : md.new_order) (l : list md.new_order) : option (list md.new_order) :=
  if md.no_quantity o <? quantity then None
  else
    let left := u32 (md.no_quantity o - quantity) in
    let l := assign_order id (set_quantity left) l in
    Some (if left =? 0 then erase_order id l else l).

Definition apply_payload (p : md_payload) (w : t) : t :=
  let ty := mp_msg_type p in
  let id := mp_order_id p in
  if ty =? md.MSG_TYPE.NEW_ORDER then
    let symbol := mp_symbol p in
    match symbol_to_bids w !! symbol with
    | None => w
    | Some _ =>
        let o := entry id symbol (mp_side p) (mp_quantity p) (mp_price p) (mp_flags p) in
        let w := if mp_side p =? md.SIDE.BUY then put_bids symbol (bids symbol w ++ [o]) w
                 else put_asks symbol (asks symbol w ++ [o]) w in
        set_order_to_symbol (<[id := symbol]> (order_to_symbol w)) w
    end
  else if ty =? md.MSG_TYPE.DELETE_ORDER then
    match order_to_symbol w !! id with
    | None => w
    | Some symbol =>
        let w := put_bids symbol (remove_orders id (bids symbol w)) w in
        let w := put_asks symbol (remove_orders id (asks symbol w)) w in
        set_order_to_symbol (delete id (order_to_symbol w)) w
    end
  else if ty =? md.MSG_TYPE.MODIFY_ORDER then
    match order_to_symbol w !! id with
    | None => w
    | Some symbol =>
        let bs := bids symbol w in
        let as_ := asks symbol w in
        let o := entry id symbol (mp_side p) (mp_quantity p) (mp_price p) (mp_flags p) in
        let change := set_values (mp_quantity p) (mp_price p) (mp_flags p) in
        match find_order id bs with
        | Some _ =>
            if mp_side p =? md.SIDE.BUY then put_bids symbol (assign_order id change bs) w
            else put_asks symbol (as_ ++ [o]) (put_bids symbol (erase_order id bs) w)
        | None =>
            match find_order id as_ with
            | Some _ =>
                if mp_side p =? md.SIDE.SELL then put_asks symbol (assign_order id change as_) w
                else put_bids symbol (bs ++ [o]) (put_asks symbol (erase_order id as_) w)
            | None => w
            end
        end
    end
  else if ty =? md.MSG_TYPE.TRADE then
    match order_to_symbol w !! id with
    | None => w
    | Some symbol =>
        match find_order id (bids symbol w) with
        | Some o => match traded id (mp_quantity p) o (bids symbol w) with Some l => put_bids symbol l w | None => w end
        | None =>
            match find_order id (asks symbol w) with
            | Some o => match traded id (mp_quantity p) o (asks symbol w) with Some l => put_asks symbol l w | None => w end
            | None => w
            end
        end
    end
  else w.

(** [while (queue.front())] *)
Fixpoint apply_queue (q : list md_payload) (w : t) : t :=
  match q with
  | [] => w
  | p :: q => apply_queue q (set_queue q (apply_payload p (set_last_md_seq_num (mp_seq_num p) w)))
  end.

(** ** The snapshot *)

Section ops.
Context `{SW : SnapshotWorld}.
Abbreviation WM := (M t).

Definition ask {A} (f : nat → A) : WM A :=
  n ← gets readings;
  modify count_reading;;
  mret (f n).
Definition nanotime : WM Z := ts ← ask (@nanotime_at sn_world); mret (clock_nanotime ts).

Definition send : WM unit :=
  b ← gets buffer;
  n ← gets sends;
  modify count_send;;
  let rc := @sendto_rc sn_world n b in
  if rc <? 0 then throw (runtime_error "Failed to send snapshot")
  else
    modify (add_packet (take (Z.to_nat rc) b));;
    if negb (rc =? Z.of_nat (length b)) then throw (runtime_error "Partial send")
    else modify (set_buffer []).

(** [write_order] and [write_snapshot_info]: the bytes of the message, then the
    header fields assigned over them. *)
Definition stamp (ts msg_type : Z) (body : list byte) : list byte :=
  let h := c_dec md.c_md_header body in
  c_enc md.c_md_header (md.Build_md_header md.SNAPSHOT_MAGIC_NUMBER (md.length h) 0 ts msg_type)
    ++ drop (c_size md.c_md_header) body.

Definition write_struct {Msg} (c : codec Msg) (h : md.md_header) (msg_type : Z) (msg : Msg) : WM unit :=
  b ← gets buffer;
  when (BUFFER_SIZE <? Z.of_nat (length b) + md.length h) send;;
  ts ← nanotime;
  b ← gets buffer;
  modify (set_buffer (b ++ stamp ts msg_type (take (Z.to_nat (md.length h)) (c_enc c msg)))).

Definition write_order (order : md.new_order) : WM unit :=
  write_struct md.c_new_order (md.no_header order) (md.msg_type (md.no_header order)) order.
Definition write_snapshot_info (info : md.snapshot_info) : WM unit :=
  write_struct md.c_snapshot_info (md.si_header info) md.MSG_TYPE.SNAPSHOT_INFO info.

(** [for (auto& [symbol, l] : m) std::sort(l.begin(), l.end(), …)] *)
Definition sort_side (is_bids : bool) (m : gmap Z (list md.new_order)) : WM (gmap Z (list md.new_order)) :=
  ask (λ n, sn_sort n is_bids <$> m).

Definition write_symbol (symbol : Z) : WM unit :=
  w ← gets id;
  write_snapshot_info (md.Build_snapshot_info
    (md.Build_md_header 0 (Z.of_nat (c_size md.c_snapshot_info)) 0 0 md.MSG_TYPE.SNAPSHOT_INFO)
    symbol (u32 (Z.of_nat (length (bids symbol w)))) (u32 (Z.of_nat (length (asks symbol w)))) (last_md_seq_num w));;
  for_each (bids symbol w) write_order;;
  for_each (asks symbol w) write_order;;
  send.

Definition write_snapshot : WM unit :=
  w ← gets id;
  bs ← sort_side true (symbol_to_bids w);
  modify (set_bids bs);;
  as_ ← sort_side false (symbol_to_asks w);
  modify (set_asks as_);;
  symbols ← ask (λ n, sn_walk n bs);
  for_each symbols write_symbol.

Definition process : WM unit :=
  q ← gets queue;
  modify (apply_queue q);;
  now ← nanotime;
  last ← gets last_snapshot_ts;
  when (u64 (now - last) >? SNAPSHOT_INTERVAL)
    (ts ← nanotime; modify (set_last_snapshot_ts ts);; write_snapshot).
End ops.
End SnapshotWriter.
