(* ===== verification/SnapshotTheorems.v ===== *)
(** * The properties of the snapshot writer *)
From Stdlib Require Import Init.Byte.
From S2P Require Import Prelude Protocol MdMcast MdStream SnapshotClient SnapshotWriter.
Import SnapshotWriter.

(** ** Lists of orders with distinct ids *)

Abbreviation oid := md.no_order_id.
Definition oids (l : list md.new_order) : list Z := oid <$> l.

Lemma find_order_spec id l : NoDup (oids l) →
  match find_order id l with
  | Some o => o ∈ l ∧ oid o = id
  | None => id ∉ oids l
  end.
Proof.
  induction l as [|o l IH]; simpl; [intros _; apply not_elem_of_nil|]. intros [Ho Hl]%NoDup_cons.
  destruct (Z.eqb_spec (oid o) id) as [<-|Hne]; [split; [constructor|done]|].
  specialize (IH Hl). destruct (find_order id l) as [o'|].
  - destruct IH as [? ?]. split; [by constructor|done].
  - intros [He|?]%elem_of_cons; [congruence|done].
Qed.

Lemma elem_of_oids o l : o ∈ l → oid o ∈ oids l.
Proof. apply list_elem_of_fmap_2. Qed.

Lemma elem_of_erase id l o : NoDup (oids l) → o ∈ erase_order id l ↔ o ∈ l ∧ oid o ≠ id.
Proof.
  induction l as [|o' l IH]; simpl; [intros _; rewrite elem_of_nil; tauto|]. intros [Ho Hl]%NoDup_cons.
  destruct (Z.eqb_spec (oid o') id) as [<-|Hne].
  - rewrite elem_of_cons. split; [intros Hin; split; [auto|]|intros [[->|?] ?]; [done|done]].
    intros He. apply Ho. rewrite <-He. by apply elem_of_oids.
  - rewrite !elem_of_cons, (IH Hl). split; [intros [->|[? ?]]; auto|intros [[->|?] ?]; auto].
Qed.

Lemma oids_erase id l : sublist (oids (erase_order id l)) (oids l).
Proof.
  induction l as [|o l IH]; simpl; [done|]. destruct (_ =? _); [by apply sublist_cons|by apply sublist_skip].
Qed.

Lemma oids_assign id f l : (∀ o, oid (f o) = oid o) → oids (assign_order id f l) = oids l.
Proof. intros Hf. induction l as [|o l IH]; simpl; [done|]. destruct (_ =? _); simpl; [by rewrite Hf|by rewrite IH]. Qed.

Lemma elem_of_assign id f l o : NoDup (oids l) →
  o ∈ assign_order id f l ↔ (o ∈ l ∧ oid o ≠ id) ∨ ∃ o', o' ∈ l ∧ oid o' = id ∧ o = f o'.
Proof.
  induction l as [|o' l IH]; simpl.
  { intros _. rewrite elem_of_nil. split; [done|]. intros [[? _]|(? & Hin & _)]; [done|by apply elem_of_nil in Hin]. }
  intros [Ho Hl]%NoDup_cons. destruct (Z.eqb_spec (oid o') id) as [<-|Hne]; rewrite elem_of_cons.
  - split.
    + intros [->|Hin]; [right; exists o'; split; [constructor|done]|left]. split; [by constructor|].
      intros He. apply Ho. rewrite <-He. by apply elem_of_oids.
    + intros [[[->|?]%elem_of_cons ?]|(o2 & [->|Hin]%elem_of_cons & He & ->)]; auto; [done|].
      destruct Ho. rewrite <-He. by apply elem_of_oids.
  - rewrite (IH Hl). split.
    + intros [->|[[? ?]|(o2 & ? & ? & ?)]]; [left; split; [constructor|done]|left; split; [by constructor|done]|].
      right. exists o2. split; [by constructor|done].
    + intros [[[->|?]%elem_of_cons ?]|(o2 & [->|Hin]%elem_of_cons & He & ->)]; auto; [done|]. right. right. eauto.
Qed.

Lemma elem_of_remove id l o : o ∈ remove_orders id l ↔ o ∈ l ∧ oid o ≠ id.
Proof. unfold remove_orders. rewrite list_elem_of_filter. tauto. Qed.

Lemma oids_remove id l : sublist (oids (remove_orders id l)) (oids l).
Proof. apply fmap_sublist. apply sublist_filter. Qed.

(** ** The open orders the feed describes *)

Record open := mk_open { op_symbol : Z; op_side : Z; op_quantity : Z; op_price : Z; op_flags : Z }.
#[global] Instance open_eq_dec : EqDecision open.
Proof. solve_decision. Defined.
Abbreviation book := (gmap Z open).

Definition as_order (id : Z) (v : open) : md.new_order :=
  entry id (op_symbol v) (op_side v) (op_quantity v) (op_price v) (op_flags v).

Definition tracked (symbol : Z) : bool := (symbol =? 1) || (symbol =? 2).

(** A queued message read as a change of the open orders. *)
Definition apply_spec (m : book) (p : md_payload) : book :=
  let id := mp_order_id p in
  let ty := mp_msg_type p in
  if ty =? md.MSG_TYPE.NEW_ORDER then
    if tracked (mp_symbol p) then <[id := mk_open (mp_symbol p) (mp_side p) (mp_quantity p) (mp_price p) (mp_flags p)]> m else m
  else if ty =? md.MSG_TYPE.DELETE_ORDER then delete id m
  else if ty =? md.MSG_TYPE.MODIFY_ORDER then
    match m !! id with
    | Some v => <[id := mk_open (op_symbol v) (mp_side p) (mp_quantity p) (mp_price p) (mp_flags p)]> m
    | None => m
    end
  else if ty =? md.MSG_TYPE.TRADE then
    match m !! id with
    | Some v =>
        if op_quantity v <? mp_quantity p then m
        else if op_quantity v =? mp_quantity p then delete id m
        else <[id := mk_open (op_symbol v) (op_side v) (op_quantity v - mp_quantity p) (op_price v) (op_flags v)]> m
    | None => m
    end
  else m.

(** What the matching engine's feed guarantees: new orders have fresh ids, the
    sides are sides and the quantities fit their field. *)
Definition is_side (d : Z) : Prop := d = md.SIDE.BUY ∨ d = md.SIDE.SELL.
Definition payload_ok (m : book) (p : md_payload) : Prop :=
  0 ≤ mp_quantity p < 2 ^ 32 ∧ is_side (mp_side p) ∧
  (mp_msg_type p = md.MSG_TYPE.NEW_ORDER → m !! mp_order_id p = None).

Fixpoint feed_ok (m : book) (q : list md_payload) : Prop :=
  match q with
  | [] => True
  | p :: q => payload_ok m p ∧ feed_ok (apply_spec m p) q
  end.

(** ** One list of the writer against the open orders *)

(** [l] holds exactly the open orders that satisfy [P], once each. *)
Definition lists (m : book) (P : open → bool) (l : list md.new_order) : Prop :=
  NoDup (oids l) ∧ ∀ o, o ∈ l ↔ ∃ v, m !! oid o = Some v ∧ P v = true ∧ o = as_order (oid o) v.

Section lists.
Context (m : book) (P : open → bool) (l : list md.new_order) (L : lists m P l).

Lemma lists_find id :
  find_order id l = (v ← m !! id; if P v then Some (as_order id v) else None).
Proof.
  destruct L as [Hnd Hl]. pose proof (find_order_spec id l Hnd) as F. destruct (find_order id l) as [o|].
  - destruct F as [Ho <-]. apply Hl in Ho as (v & -> & Hv & ->). simpl. by rewrite Hv.
  - destruct (m !! id) as [v|] eqn:Hm; [|done]. simpl. destruct (P v) eqn:Hv; [|done].
    destruct F. apply (elem_of_oids (as_order id v)). apply Hl. exists v. by split.
Qed.

Lemma lists_same m' id :
  (∀ j, j ≠ id → m' !! j = m !! j) → (∀ v, m !! id = Some v → P v = false) → (∀ v, m' !! id = Some v → P v = false) →
  lists m' P l.
Proof.
  intros Hj Hm Hm'. destruct L as [Hnd Hl]. split; [done|]. intros o. rewrite Hl.
  destruct (decide (oid o = id)) as [<-|Hne]; [|by rewrite Hj].
  split; intros (v & Hv & HP & _); exfalso; [apply Hm in Hv|apply Hm' in Hv]; congruence.
Qed.

Lemma lists_add id v : m !! id = None → P v = true → lists (<[id := v]> m) P (l ++ [as_order id v]).
Proof.
  intros Hm Hv. destruct L as [Hnd Hl]. split.
  - unfold oids. rewrite fmap_app. apply NoDup_app. split; [done|]. split; [|apply NoDup_singleton].
    intros i Hi [= ->]%list_elem_of_singleton. apply list_elem_of_fmap in Hi as (o & Hi & Ho).
    apply Hl in Ho as (v' & Ho & _). simpl in *. congruence.
  - intros o. rewrite elem_of_app, list_elem_of_singleton, Hl. destruct (decide (oid o = id)) as [He|Hne].
    + split; [|intros (v' & Hv' & _ & ->); right; rewrite He, lookup_insert_eq in Hv'; rewrite He; congruence].
      intros [(v' & Hv' & _)| ->]; [congruence|]. exists v. by rewrite lookup_insert_eq.
    + rewrite lookup_insert_ne by done. split; [|by left]. intros [?| ->]; [done|by destruct Hne].
Qed.

Lemma lists_delete id : lists (delete id m) P (erase_order id l).
Proof.
  destruct L as [Hnd Hl]. split; [eapply sublist_NoDup; [done|apply oids_erase]|].
  intros o. rewrite elem_of_erase, Hl by done. destruct (decide (oid o = id)) as [->|Hne].
  - rewrite lookup_delete_eq. naive_solver.
  - rewrite lookup_delete_ne by done. naive_solver.
Qed.

Lemma lists_remove id : lists (delete id m) P (remove_orders id l).
Proof.
  destruct L as [Hnd Hl]. split; [eapply sublist_NoDup; [done|apply oids_remove]|].
  intros o. rewrite elem_of_remove, Hl. destruct (decide (oid o = id)) as [->|Hne].
  - rewrite lookup_delete_eq. naive_solver.
  - rewrite lookup_delete_ne by done. naive_solver.
Qed.

Lemma lists_assign id f v v' :
  m !! id = Some v → P v = true → P v' = true → (∀ o, oid (f o) = oid o) → f (as_order id v) = as_order id v' →
  lists (<[id := v']> m) P (assign_order id f l).
Proof.
  intros Hm Hv Hv' Hf Hfv. destruct L as [Hnd Hl]. split; [by rewrite oids_assign|].
  intros o. rewrite elem_of_assign, Hl by done. destruct (decide (oid o = id)) as [He|Hne].
  - rewrite He, lookup_insert_eq. split.
    + intros [[_ ?]|(o' & Ho' & Hid & ->)]; [done|]. apply Hl in Ho' as (v1 & Hv1 & _ & Ho').
      rewrite Hid in *. rewrite Hm in Hv1. injection Hv1 as <-. exists v'. by rewrite Ho'.
    + intros (v1 & [= <-] & _ & Ho). right. exists (as_order id v). rewrite Hl, Hfv. simpl. naive_solver.
  - rewrite lookup_insert_ne by done. split; [|naive_solver].
    intros [[? _]|(o' & _ & Hid & ->)]; [done|]. by rewrite Hf in Hne.
Qed.
End lists.

Lemma erase_assign id f l : (∀ o, oid (f o) = oid o) → erase_order id (assign_order id f l) = erase_order id l.
Proof.
  intros Hf. induction l as [|o l IH]; simpl; [done|].
  destruct (oid o =? id) eqn:He; simpl; rewrite ?Hf, He; [done|by rewrite IH].
Qed.

(** ** The writer against the open orders *)

Definition mine (symbol side : Z) (v : open) : bool := (op_symbol v =? symbol) && (op_side v =? side).
Definition open_ok (v : open) : Prop := is_side (op_side v) ∧ 0 ≤ op_quantity v < 2 ^ 32.

Record tracks (m : book) (w : t) : Prop := {
  tr_bids_dom : ∀ y, is_Some (symbol_to_bids w !! y) ↔ tracked y = true;
  tr_asks_dom : ∀ y, is_Some (symbol_to_asks w !! y) ↔ tracked y = true;
  tr_bids : ∀ y, lists m (mine y md.SIDE.BUY) (bids y w);
  tr_asks : ∀ y, lists m (mine y md.SIDE.SELL) (asks y w);
  tr_index : ∀ id v, m !! id = Some v → order_to_symbol w !! id = Some (op_symbol v);
  tr_known : ∀ id y, order_to_symbol w !! id = Some y → tracked y = true;
  tr_ok : ∀ id v, m !! id = Some v → open_ok v;
}.

Lemma lists_empty P : lists ∅ P [].
Proof. split; [constructor|]. intros o. rewrite elem_of_nil, lookup_empty. naive_solver. Qed.

Lemma tracked_dom y : is_Some (({[1 := []; 2 := []]} : gmap Z (list md.new_order)) !! y) ↔ tracked y = true.
Proof.
  unfold tracked. destruct (Z.eqb_spec y 1) as [->|H1]; [by rewrite lookup_insert_eq|].
  rewrite lookup_insert_ne by done. destruct (Z.eqb_spec y 2) as [->|H2]; [by rewrite lookup_singleton_eq|].
  rewrite lookup_singleton_ne by done. simpl. split; [by intros []|done].
Qed.

Lemma tracks_initial : tracks ∅ initial.
Proof.
  assert (∀ y, default [] (({[1 := []; 2 := []]} : gmap Z (list md.new_order)) !! y) = []) as He.
  { intros y. destruct (decide (y = 1)) as [->|]; [done|]. rewrite lookup_insert_ne by done.
    destruct (decide (y = 2)) as [->|]; [done|]. by rewrite lookup_singleton_ne. }
  split; try apply tracked_dom; try (intros y; unfold bids, asks; simpl; rewrite He; apply lists_empty); try done.
Qed.

(** The lists of symbol [y] and the index replaced. *)
Definition update (y : Z) (lb la : list md.new_order) (ix : gmap Z Z) (w : t) : t :=
  set_order_to_symbol ix (put_asks y la (put_bids y lb w)).

Section update.
Context (m : book) (w : t) (T : tracks m w) (y : Z) (Hy : tracked y = true).

Lemma bids_some : symbol_to_bids w !! y = Some (bids y w).
Proof. unfold bids. by destruct (proj2 (tr_bids_dom _ _ T y) Hy) as [l ->]. Qed.
Lemma asks_some : symbol_to_asks w !! y = Some (asks y w).
Proof. unfold asks. by destruct (proj2 (tr_asks_dom _ _ T y) Hy) as [l ->]. Qed.

Lemma put_bids_update l : put_bids y l w = update y l (asks y w) (order_to_symbol w) w.
Proof.
  unfold update, put_asks, put_bids, set_bids, set_asks, set_order_to_symbol. simpl. f_equal.
  symmetry. apply insert_id, asks_some.
Qed.

Lemma put_asks_update l : put_asks y l w = update y (bids y w) l (order_to_symbol w) w.
Proof.
  unfold update, put_asks, put_bids, set_bids, set_asks, set_order_to_symbol. simpl. f_equal.
  symmetry. apply insert_id, bids_some.
Qed.

(** A change of order [id] of symbol [y] touches the lists of [y] only. *)
Lemma tracks_update m' id ix lb la :
  (∀ j, j ≠ id → m' !! j = m !! j ∧ ix !! j = order_to_symbol w !! j) →
  (∀ v, m !! id = Some v → op_symbol v = y) →
  (∀ v, m' !! id = Some v → op_symbol v = y ∧ open_ok v ∧ ix !! id = Some y) →
  (∀ z, ix !! id = Some z → tracked z = true) →
  lists m' (mine y md.SIDE.BUY) lb → lists m' (mine y md.SIDE.SELL) la →
  tracks m' (update y lb la ix w).
Proof using T Hy.
  intros Hj Hm Hm' Hk Lb La.
  assert (∀ z d, z ≠ y → (∀ v, m !! id = Some v → mine z d v = false) ∧ (∀ v, m' !! id = Some v → mine z d v = false)) as N.
  { intros z d Hne. unfold mine. split; intros v Hv; [rewrite (Hm v Hv)|destruct (Hm' v Hv) as [-> _]];
      by destruct (Z.eqb_spec y z). }
  split; simpl.
  - intros z. destruct (decide (z = y)) as [->|Hne]; [rewrite lookup_insert_eq; naive_solver|].
    rewrite lookup_insert_ne by done. apply (tr_bids_dom _ _ T).
  - intros z. destruct (decide (z = y)) as [->|Hne]; [rewrite lookup_insert_eq; naive_solver|].
    rewrite lookup_insert_ne by done. apply (tr_asks_dom _ _ T).
  - intros z. unfold bids. simpl. destruct (decide (z = y)) as [->|Hne]; [by rewrite lookup_insert_eq|].
    rewrite lookup_insert_ne by done. destruct (N z md.SIDE.BUY Hne). apply (lists_same m _ _ (tr_bids _ _ T z) _ id); naive_solver.
  - intros z. unfold asks. simpl. destruct (decide (z = y)) as [->|Hne]; [by rewrite lookup_insert_eq|].
    rewrite lookup_insert_ne by done. destruct (N z md.SIDE.SELL Hne). apply (lists_same m _ _ (tr_asks _ _ T z) _ id); naive_solver.
  - intros j v Hv. destruct (decide (j = id)) as [->|Hne]; [by destruct (Hm' v Hv) as (-> & _ & ?)|].
    destruct (Hj j Hne) as [Hmj ->]. apply (tr_index _ _ T). by rewrite <-Hmj.
  - intros j z. destruct (decide (j = id)) as [->|Hne]; [apply Hk|]. destruct (Hj j Hne) as [_ ->]. apply (tr_known _ _ T).
  - intros j v Hv. destruct (decide (j = id)) as [->|Hne]; [by apply Hm' in Hv as (_ & ? & _)|].
    destruct (Hj j Hne) as [Hmj _]. apply (tr_ok _ _ T j). by rewrite <-Hmj.
Qed.

Lemma index_some id v : order_to_symbol w !! id = Some y → m !! id = Some v → op_symbol v = y.
Proof using T. intros Hi Hv. apply (tr_index _ _ T) in Hv. congruence. Qed.

(** An order open on one side is not on the other. *)
Lemma other_side id v d m' l :
  lists m (mine y d) l → m !! id = Some v → op_side v ≠ d →
  (∀ j, j ≠ id → m' !! j = m !! j) → (∀ v, m' !! id = Some v → op_side v ≠ d) → lists m' (mine y d) l.
Proof.
  intros L Hv Hd Hj Hm'. eapply lists_same; [exact L|exact Hj|intros v' Hv'|intros v' Hv'; apply Hm' in Hv'];
    unfold mine; apply andb_false_iff; right; apply Z.eqb_neq; congruence.
Qed.
End update.

Lemma index_none m w id : tracks m w → order_to_symbol w !! id = None → m !! id = None.
Proof. intros T Hi. destruct (m !! id) as [v|] eqn:Hv; [|done]. apply (tr_index _ _ T) in Hv. congruence. Qed.

Ltac at_ne := let j := fresh "j" in intros j ?; rewrite ?lookup_insert_ne, ?lookup_delete_ne by done; eauto.

Lemma new_tracks m w p :
  tracks m w → payload_ok m p → mp_msg_type p = md.MSG_TYPE.NEW_ORDER → tracks (apply_spec m p) (apply_payload p w).
Proof.
  intros T (Hq & Hd & Hf) Hty. specialize (Hf Hty). unfold apply_spec, apply_payload. rewrite Hty. simpl.
  destruct (symbol_to_bids w !! mp_symbol p) as [l|] eqn:Hl.
  2: { destruct (tracked (mp_symbol p)) eqn:Ht; [|done]. apply (tr_bids_dom _ _ T) in Ht. rewrite Hl in Ht. by destruct Ht. }
  assert (tracked (mp_symbol p) = true) as Ht by (apply (tr_bids_dom _ _ T); eauto). rewrite Ht.
  set (v := mk_open _ _ _ _ _).
  assert (∀ d, mine (mp_symbol p) d v = (mp_side p =? d)) as Hv by (intros d; unfold mine; simpl; by rewrite Z.eqb_refl).
  assert (open_ok v) as Hok by (split; [exact Hd|exact Hq]).
  rewrite (put_bids_update m), (put_asks_update m) by done.
  change (entry (mp_order_id p) _ _ _ _ _) with (as_order (mp_order_id p) v).
  destruct Hd as [Hd|Hd]; rewrite Hd in Hv |- *; simpl;
    (apply (tracks_update m _ T _ Ht _ (mp_order_id p)); [at_ne|congruence|rewrite !lookup_insert_eq; naive_solver|rewrite lookup_insert_eq; naive_solver|..]).
  - by apply (lists_add _ _ _ (tr_bids _ _ T _)).
  - apply (lists_same m _ _ (tr_asks _ _ T _) _ (mp_order_id p)); [at_ne|congruence|]. rewrite lookup_insert_eq. naive_solver.
  - apply (lists_same m _ _ (tr_bids _ _ T _) _ (mp_order_id p)); [at_ne|congruence|]. rewrite lookup_insert_eq. naive_solver.
  - by apply (lists_add _ _ _ (tr_asks _ _ T _)).
Qed.

Lemma delete_tracks m w p :
  tracks m w → mp_msg_type p = md.MSG_TYPE.DELETE_ORDER → tracks (apply_spec m p) (apply_payload p w).
Proof.
  intros T Hty. unfold apply_spec, apply_payload. rewrite Hty. simpl.
  destruct (order_to_symbol w !! mp_order_id p) as [y|] eqn:Hi.
  2: { rewrite delete_id; [done|]. by eapply index_none. }
  assert (tracked y = true) as Ht by by eapply (tr_known _ _ T).
  apply (tracks_update m _ T _ Ht _ (mp_order_id p)); rewrite ?lookup_delete_eq; try done.
  - at_ne.
  - intros v. by apply (index_some m w T).
  - apply lists_remove, (tr_bids _ _ T).
  - apply lists_remove, (tr_asks _ _ T).
Qed.

(** A change of the order in place, and its move to the other side. *)
Section change.
Context (m : book) (w : t) (T : tracks m w) (id y : Z) (v v' : open).
Context (Hi : order_to_symbol w !! id = Some y) (Hv : m !! id = Some v) (Hy' : op_symbol v' = y) (Hok : open_ok v').

Lemma change_known : tracked y = true.
Proof using T Hi. by eapply (tr_known _ _ T). Qed.
Lemma change_symbol : op_symbol v = y.
Proof using T Hi Hv. by eapply index_some. Qed.
Lemma change_mine d : mine y d v = (op_side v =? d).
Proof using T Hi Hv. unfold mine. by rewrite change_symbol, Z.eqb_refl. Qed.
Lemma change_mine' d : mine y d v' = (op_side v' =? d).
Proof using Hy'. unfold mine. by rewrite Hy', Z.eqb_refl. Qed.

Lemma tracks_replace lb la :
  lists (<[id := v']> m) (mine y md.SIDE.BUY) lb → lists (<[id := v']> m) (mine y md.SIDE.SELL) la →
  tracks (<[id := v']> m) (update y lb la (order_to_symbol w) w).
Proof using T Hi Hv Hy' Hok.
  apply (tracks_update m w T y change_known _ id).
  - at_ne.
  - intros v0. by apply (index_some m w T).
  - intros v0. rewrite lookup_insert_eq. intros [= <-]. auto.
  - intros z. rewrite Hi. intros [= <-]. apply change_known.
Qed.

(** The order stays on its side, or moves to the end of the other. *)
Lemma replace_bids f :
  op_side v = md.SIDE.BUY → op_side v' = md.SIDE.BUY → (∀ o, oid (f o) = oid o) → f (as_order id v) = as_order id v' →
  tracks (<[id := v']> m) (put_bids y (assign_order id f (bids y w)) w).
Proof using T Hi Hv Hy' Hok.
  intros Hd Hd' Hf Hfv. rewrite (put_bids_update m) by eauto using change_known. apply tracks_replace.
  - eapply lists_assign; [apply (tr_bids _ _ T)|exact Hv|..]; rewrite ?change_mine, ?change_mine', ?Hd, ?Hd'; done.
  - eapply other_side; [apply (tr_asks _ _ T)|exact Hv|by rewrite Hd|at_ne|]. intros v0. rewrite lookup_insert_eq. intros [= <-]. by rewrite Hd'.
Qed.

Lemma replace_asks f :
  op_side v = md.SIDE.SELL → op_side v' = md.SIDE.SELL → (∀ o, oid (f o) = oid o) → f (as_order id v) = as_order id v' →
  tracks (<[id := v']> m) (put_asks y (assign_order id f (asks y w)) w).
Proof using T Hi Hv Hy' Hok.
  intros Hd Hd' Hf Hfv. rewrite (put_asks_update m) by eauto using change_known. apply tracks_replace.
  - eapply other_side; [apply (tr_bids _ _ T)|exact Hv|by rewrite Hd|at_ne|]. intros v0. rewrite lookup_insert_eq. intros [= <-]. by rewrite Hd'.
  - eapply lists_assign; [apply (tr_asks _ _ T)|exact Hv|..]; rewrite ?change_mine, ?change_mine', ?Hd, ?Hd'; done.
Qed.

(** An order gone from one list is added to the other. *)
Lemma moved_from d l : lists m (mine y d) l → op_side v' ≠ d → lists (<[id := v']> m) (mine y d) (erase_order id l).
Proof using Hy'.
  intros L Hd'. rewrite <-insert_delete_eq. eapply lists_same; [by apply lists_delete|at_ne| |].
  - intros v0. by rewrite lookup_delete_eq.
  - intros v0. rewrite lookup_insert_eq. intros [= <-]. rewrite change_mine'. by apply Z.eqb_neq.
Qed.

Lemma moved_to d l :
  lists m (mine y d) l → op_side v ≠ d → op_side v' = d → lists (<[id := v']> m) (mine y d) (l ++ [as_order id v']).
Proof using T Hi Hv Hy'.
  intros L Hd Hd'. rewrite <-insert_delete_eq. apply lists_add; [|apply lookup_delete_eq|rewrite change_mine'; by apply Z.eqb_eq].
  eapply other_side; [exact L|exact Hv|done|at_ne|]. intros v0. by rewrite lookup_delete_eq.
Qed.
End change.

(** An order traded away leaves its list; the index still names it. *)
Lemma tracks_gone m w id y v :
  tracks m w → order_to_symbol w !! id = Some y → m !! id = Some v →
  tracks (delete id m) (update y (if op_side v =? md.SIDE.BUY then erase_order id (bids y w) else bids y w)
    (if op_side v =? md.SIDE.BUY then asks y w else erase_order id (asks y w)) (order_to_symbol w) w).
Proof.
  intros T Hi Hv. assert (∀ v0, delete id m !! id = Some v0 → False) as Hd by (intros v0; by rewrite lookup_delete_eq).
  assert (tracked y = true) as Hy by by eapply (tr_known _ _ T).
  destruct (tr_ok _ _ T _ _ Hv) as [Hs _].
  apply (tracks_update m w T y Hy _ id); [at_ne|intros v0; by apply (index_some m w T)|intros v0 []%Hd|intros z; rewrite Hi; congruence|..];
    destruct Hs as [Hs|Hs]; rewrite Hs; simpl; try (apply lists_delete; apply T);
    (eapply other_side; [apply T|exact Hv|by rewrite Hs|at_ne|by intros v0 []%Hd]).
Qed.

Lemma modify_tracks m w p :
  tracks m w → payload_ok m p → mp_msg_type p = md.MSG_TYPE.MODIFY_ORDER → tracks (apply_spec m p) (apply_payload p w).
Proof.
  intros T (Hq & Hd & _) Hty. unfold apply_spec, apply_payload. rewrite Hty. simpl.
  destruct (order_to_symbol w !! mp_order_id p) as [y|] eqn:Hi; [|by rewrite (index_none m w)].
  rewrite (lists_find _ _ _ (tr_bids _ _ T y)), (lists_find _ _ _ (tr_asks _ _ T y)).
  destruct (m !! mp_order_id p) as [v|] eqn:Hv; [simpl|done].
  rewrite !(change_mine m w T _ _ _ Hi Hv). pose proof (index_some m w T _ _ _ Hi Hv) as Hy. subst y.
  set (v' := mk_open _ _ _ _ _). assert (open_ok v') as Hok by (split; [exact Hd|exact Hq]).
  assert (entry (mp_order_id p) (op_symbol v) (mp_side p) (mp_quantity p) (mp_price p) (mp_flags p) = as_order (mp_order_id p) v') as He by done.
  destruct (tr_ok _ _ T _ _ Hv) as [[Hs|Hs] _]; rewrite Hs; simpl; destruct Hd as [Hd|Hd]; rewrite ?He, Hd; simpl; assert (op_side v' = _) as Hd' by exact Hd.
  - apply (replace_bids m w T _ (op_symbol v) v v'); auto. unfold as_order, set_values; simpl; by rewrite Hs, Hd.
  - apply (tracks_replace m w T _ (op_symbol v) v v'); auto.
    + apply (moved_from m _ (op_symbol v)); [done|apply (tr_bids _ _ T)|by rewrite Hd'].
    + apply (moved_to m w T _ (op_symbol v) v); auto; [apply (tr_asks _ _ T)|by rewrite Hs].
  - apply (tracks_replace m w T _ (op_symbol v) v v'); auto.
    + apply (moved_to m w T _ (op_symbol v) v); auto; [apply (tr_bids _ _ T)|by rewrite Hs].
    + apply (moved_from m _ (op_symbol v)); [done|apply (tr_asks _ _ T)|by rewrite Hd'].
  - apply (replace_asks m w T _ (op_symbol v) v v'); auto. unfold as_order, set_values; simpl; by rewrite Hs, Hd.
Qed.

Lemma sub_eqb a b : (a - b =? 0) = (a =? b).
Proof. destruct (Z.eqb_spec a b); [apply Z.eqb_eq|apply Z.eqb_neq]; lia. Qed.

Lemma trade_tracks m w p :
  tracks m w → payload_ok m p → mp_msg_type p = md.MSG_TYPE.TRADE → tracks (apply_spec m p) (apply_payload p w).
Proof.
  intros T (Hq & _ & _) Hty. unfold apply_spec, apply_payload. rewrite Hty. simpl.
  destruct (order_to_symbol w !! mp_order_id p) as [y|] eqn:Hi; [|by rewrite (index_none m w)].
  rewrite (lists_find _ _ _ (tr_bids _ _ T y)), (lists_find _ _ _ (tr_asks _ _ T y)).
  destruct (m !! mp_order_id p) as [v|] eqn:Hv; [simpl|done].
  rewrite !(change_mine m w T _ _ _ Hi Hv). pose proof (index_some m w T _ _ _ Hi Hv) as Hy. subst y.
  destruct (tr_ok _ _ T _ _ Hv) as [Hs Hr]. unfold traded.
  assert (0 <= op_quantity v - mp_quantity p → u32 (op_quantity v - mp_quantity p) = op_quantity v - mp_quantity p) as Hu
    by (intros; apply Z.mod_small; lia).
  set (v' := mk_open (op_symbol v) (op_side v) (op_quantity v - mp_quantity p) (op_price v) (op_flags v)).
  destruct Hs as [Hs|Hs]; rewrite Hs; simpl;
    (destruct (Z.ltb_spec (op_quantity v) (mp_quantity p)) as [Hlt|Hge]; [exact T|]);
    rewrite Hu by lia; rewrite sub_eqb; (destruct (op_quantity v =? mp_quantity p) eqn:He; [apply Z.eqb_eq in He|apply Z.eqb_neq in He]).
  - rewrite erase_assign, (put_bids_update m) by eauto using change_known. pose proof (tracks_gone m w _ _ v T Hi Hv) as G. by rewrite Hs in G.
  - eapply (replace_bids m w T _ (op_symbol v) v v'); auto. split; [left|simpl]; auto; lia.
  - rewrite erase_assign, (put_asks_update m) by eauto using change_known. pose proof (tracks_gone m w _ _ v T Hi Hv) as G. by rewrite Hs in G.
  - eapply (replace_asks m w T _ (op_symbol v) v v'); auto. split; [right|simpl]; auto; lia.
Qed.


Lemma payload_tracks m w p : tracks m w → payload_ok m p → tracks (apply_spec m p) (apply_payload p w).
Proof.
  intros T Hp. destruct (decide (mp_msg_type p = md.MSG_TYPE.NEW_ORDER)); [by apply new_tracks|].
  destruct (decide (mp_msg_type p = md.MSG_TYPE.DELETE_ORDER)); [by apply delete_tracks|].
  destruct (decide (mp_msg_type p = md.MSG_TYPE.MODIFY_ORDER)); [by apply modify_tracks|].
  destruct (decide (mp_msg_type p = md.MSG_TYPE.TRADE)); [by apply trade_tracks|].
  unfold apply_spec, apply_payload. by rewrite !(proj2 (Z.eqb_neq _ _)) by done.
Qed.

(** What [tracks] reads of the writer. *)
Definition same_orders (w w' : t) : Prop :=
  symbol_to_bids w' = symbol_to_bids w ∧ symbol_to_asks w' = symbol_to_asks w ∧ order_to_symbol w' = order_to_symbol w.

Lemma tracks_same m w w' : same_orders w w' → tracks m w → tracks m w'.
Proof. intros (Hb & Ha & Hi) []. split; unfold bids, asks in *; rewrite ?Hb, ?Ha, ?Hi; assumption. Qed.

Lemma apply_payload_rest p w :
  let w' := apply_payload p w in
  last_md_seq_num w' = last_md_seq_num w ∧ last_snapshot_ts w' = last_snapshot_ts w ∧ buffer w' = buffer w ∧
  packets w' = packets w ∧ sends w' = sends w ∧ readings w' = readings w.
Proof. simpl. unfold apply_payload. repeat (case_match; try done). Qed.

Lemma apply_queue_spec q : ∀ m w, tracks m w → feed_ok m q →
  let w' := apply_queue q w in
  tracks (foldl apply_spec m q) w' ∧ queue w' = (if q then queue w else []) ∧
  last_md_seq_num w' = default (last_md_seq_num w) (mp_seq_num <$> last q) ∧
  last_snapshot_ts w' = last_snapshot_ts w ∧ buffer w' = buffer w ∧
  packets w' = packets w ∧ sends w' = sends w ∧ readings w' = readings w.
Proof.
  induction q as [|p q IH]; intros m w T; simpl; [intros _; by split_and!|]. intros [Hp Hq].
  set (w1 := set_last_md_seq_num (mp_seq_num p) w).
  assert (tracks m w1) as T1 by by apply (tracks_same m w).
  set (w2 := set_queue q (apply_payload p w1)).
  assert (tracks (apply_spec m p) w2) as T2 by (apply (tracks_same _ (apply_payload p w1)); [done|by apply payload_tracks]).
  destruct (IH _ w2 T2 Hq) as (? & Hqu & Hs & Ht & Hb & Hpk & Hsd & Hr).
  destruct (apply_payload_rest p w1) as (Hs1 & Ht1 & Hb1 & Hp1 & Hsd1 & Hr1).
  split_and!; [done|rewrite Hqu; by destruct q|rewrite Hs; subst w2; simpl; rewrite Hs1|..].
  2-6: subst w1 w2; simpl in *; congruence.
  subst w1. rewrite last_cons. by destruct (last q).
Qed.

(** ** What a snapshot looks like on the wire *)

(** The reader's view of a snapshot: a symbol's info, then its orders. *)
Inductive item :=
  | Info (symbol bid_count ask_count last_md_seq_num : Z)
  | Order (id : Z) (v : open).

Definition snap_header (len ts msg_type : Z) : md.md_header := md.Build_md_header md.SNAPSHOT_MAGIC_NUMBER len 0 ts msg_type.

Definition item_bytes (ts : Z) (i : item) : list byte :=
  match i with
  | Info y nb na s =>
      c_enc md.c_snapshot_info (md.Build_snapshot_info
        (snap_header (Z.of_nat (c_size md.c_snapshot_info)) ts md.MSG_TYPE.SNAPSHOT_INFO) y nb na s)
  | Order id v =>
      c_enc md.c_new_order (md.Build_new_order
        (snap_header (Z.of_nat (c_size md.c_new_order)) ts md.MSG_TYPE.NEW_ORDER)
        id (op_symbol v) (op_side v) (op_quantity v) (op_price v) (op_flags v))
  end.

Definition image (l : list (Z * item)) : list byte := concat ((λ '(ts, i), item_bytes ts i) <$> l).

Lemma stamp_split ts typ len typ' rest :
  is_u16 len → is_u8 typ' →
  stamp ts typ (c_enc md.c_md_header (MarketDataPublisher.header len typ') ++ rest)
  = c_enc md.c_md_header (snap_header len ts typ) ++ rest.
Proof.
  intros Hl Ht. pose proof (header_ok len typ' Hl Ht) as Hh. unfold stamp.
  rewrite dec_enc by done. rewrite drop_app_length' by by rewrite enc_length. done.
Qed.

(** The messages before they are stamped. *)
Definition struct_bytes (i : item) : list byte :=
  match i with
  | Info y nb na s => c_enc md.c_snapshot_info (md.Build_snapshot_info (MarketDataPublisher.header 39 md.MSG_TYPE.SNAPSHOT_INFO) y nb na s)
  | Order id v => c_enc md.c_new_order (as_order id v)
  end.
Definition item_size (i : item) : Z := match i with Info _ _ _ _ => 39 | Order _ _ => 45 end.
Definition item_tag (i : item) : Z := match i with Info _ _ _ _ => md.MSG_TYPE.SNAPSHOT_INFO | Order _ _ => md.MSG_TYPE.NEW_ORDER end.
Definition item_payload (i : item) : list byte :=
  match i with
  | Info y nb na s => c_enc U32 y ++ c_enc U32 nb ++ c_enc U32 na ++ c_enc U32 s
  | Order id v => c_enc U64 id ++ c_enc U32 (op_symbol v) ++ c_enc U8 (op_side v) ++ c_enc U32 (op_quantity v)
      ++ c_enc S32 (op_price v) ++ c_enc U8 (op_flags v)
  end.

Lemma struct_bytes_split i : struct_bytes i = c_enc md.c_md_header (MarketDataPublisher.header (item_size i) (item_tag i)) ++ item_payload i.
Proof.
  destruct i; cbn [struct_bytes item_payload c_enc c_iso md.c_new_order md.c_snapshot_info c_pair fst snd as_order entry
    md.no_header md.no_order_id md.no_symbol md.no_side md.no_quantity md.no_price md.no_flags
    md.si_header md.si_symbol md.si_bid_count md.si_ask_count md.si_last_md_seq_num]; rewrite <-?app_assoc; done.
Qed.

Lemma item_bytes_split ts i : item_bytes ts i = c_enc md.c_md_header (snap_header (item_size i) ts (item_tag i)) ++ item_payload i.
Proof.
  destruct i; cbn [item_bytes item_payload c_enc c_iso md.c_new_order md.c_snapshot_info c_pair fst snd
    md.no_header md.no_order_id md.no_symbol md.no_side md.no_quantity md.no_price md.no_flags
    md.si_header md.si_symbol md.si_bid_count md.si_ask_count md.si_last_md_seq_num]; rewrite <-?app_assoc; done.
Qed.

Lemma header_length h : length (c_enc md.c_md_header h) = 23%nat.
Proof. by destruct h. Qed.

Lemma payload_length i : Z.of_nat (23 + length (item_payload i)) = item_size i.
Proof. by destruct i. Qed.

Lemma item_length ts i : Z.of_nat (length (item_bytes ts i)) = item_size i.
Proof. by rewrite item_bytes_split, length_app, header_length, payload_length. Qed.

(** ** The writer's sends *)

Definition mtu (b : list byte) : Prop := Z.of_nat (length b) <= BUFFER_SIZE.

Lemma image_app l1 l2 : image (l1 ++ l2) = image l1 ++ image l2.
Proof. unfold image. by rewrite fmap_app, concat_app. Qed.

(** A packet holds whole items. *)
Definition packet_ok (c : list (Z * item)) : Prop := c ≠ [] ∧ mtu (image c) ∧ Forall (λ x, is_u64 x.1) c.

(** [its] went out or into the buffer, and nothing else happened. *)
Record emits (w : t) (its : list (Z * item)) (w' : t) : Prop := {
  em_orders : same_orders w w';
  em_seq : last_md_seq_num w' = last_md_seq_num w;
  em_ts : last_snapshot_ts w' = last_snapshot_ts w;
  em_queue : queue w' = queue w;
  em_packets : ∀ pre, buffer w = image pre → Forall (λ x, is_u64 x.1) pre →
    ∃ chunks post, packets w' = packets w ++ (image <$> chunks) ∧ Forall packet_ok chunks ∧
      concat chunks ++ post = pre ++ its ∧ buffer w' = image post ∧ Forall (λ x, is_u64 x.1) post;
  em_buffer : mtu (buffer w');
}.

Lemma emits_nil w : mtu (buffer w) → emits w [] w.
Proof.
  intros H. split; [by split_and!|done|done|done| |done]. intros pre Hp Hu. exists [], pre. by rewrite !app_nil_r.
Qed.

Lemma emits_app w b1 w1 b2 w2 : emits w b1 w1 → emits w1 b2 w2 → emits w (b1 ++ b2) w2.
Proof.
  intros [(O1 & O2 & O3) S1 T1 Q1 P1 B1] [(O4 & O5 & O6) S2 T2 Q2 P2 B2].
  split; [split_and!; congruence|congruence|congruence|congruence| |done].
  intros pre Hpre Hu. destruct (P1 pre Hpre Hu) as (c1 & post1 & Hp1 & F1 & C1 & E1 & U1).
  destruct (P2 post1 E1 U1) as (c2 & post2 & Hp2 & F2 & C2 & E2 & U2).
  exists (c1 ++ c2), post2. split; [by rewrite Hp2, Hp1, fmap_app, app_assoc|]. split; [by apply Forall_app|].
  split; [|done]. rewrite concat_app, <-app_assoc, C2, app_assoc, C1. by rewrite <-app_assoc.
Qed.

Section wire.
Context `{SW : SnapshotWorld}.

(** The network takes every packet whole. *)
Context (reliable : ∀ n b, @sendto_rc sn_world n b = Z.of_nat (length b)).

Lemma run_send w : mtu (buffer w) → buffer w ≠ [] → ∃ w', send w = (Ret tt, w') ∧ emits w [] w' ∧ buffer w' = [].
Proof using reliable.
  intros Hb Hne. exists (set_buffer [] (add_packet (buffer w) (count_send w))). split; [|split; [|done]].
  - unfold send. do 3 (erewrite bind_ret by reflexivity; cbn beta). cbv zeta. rewrite reliable.
    rewrite (proj2 (Z.ltb_ge _ 0)) by apply Nat2Z.is_nonneg.
    erewrite bind_ret by reflexivity; cbn beta. rewrite Z.eqb_refl. simpl.
    by rewrite Nat2Z.id, firstn_all.
  - split; [by split_and!|done|done|done| |unfold mtu; simpl; unfold BUFFER_SIZE; lia].
    intros pre Hpre Hu. exists [pre], []. simpl. rewrite Hpre, !app_nil_r. split; [done|]. split; [|done].
    constructor; [|done]. split; [intros ->; by rewrite Hpre in Hne|]. split; [by rewrite <-Hpre|done].
Qed.

Lemma image_size ts i : Z.of_nat (length (image [(ts, i)])) = item_size i.
Proof. unfold image. simpl. rewrite app_nil_r. apply item_length. Qed.

Lemma run_write_item {Msg} (c : codec Msg) msg i h w :
  c_enc c msg = struct_bytes i → h = MarketDataPublisher.header (item_size i) (item_tag i) → mtu (buffer w) →
  ∃ w' ts, write_struct c h (item_tag i) msg w = (Ret tt, w') ∧ emits w [(ts, i)] w' ∧ buffer w' ≠ [].
Proof using reliable.
  intros Hc -> Hb. unfold write_struct. erewrite bind_ret by reflexivity. cbn beta. cbn [md.length MarketDataPublisher.header].
  assert (∃ w1, when (BUFFER_SIZE <? Z.of_nat (length (buffer w)) + item_size i) send w = (Ret tt, w1) ∧
    emits w [] w1 ∧ Z.of_nat (length (buffer w1)) + item_size i <= BUFFER_SIZE) as (w1 & Hw & E & Hfit).
  { destruct (Z.ltb_spec BUFFER_SIZE (Z.of_nat (length (buffer w)) + item_size i)) as [Hlt|Hge]; simpl.
    - destruct (run_send w Hb) as (w1 & Hs & E & Hnil).
      { intros Hn. rewrite Hn in Hlt. destruct i; vm_compute in Hlt; discriminate. }
      exists w1. split_and!; [done..|]. rewrite Hnil. by destruct i.
    - exists w. split_and!; [done|by apply emits_nil|lia]. }
  erewrite bind_ret by exact Hw. cbn beta.
  set (ts := clock_nanotime (@nanotime_at sn_world (readings w1))).
  erewrite bind_ret by (instantiate (2 := ts); reflexivity). cbn beta. erewrite bind_ret by reflexivity. cbn beta.
  rewrite Hc. rewrite firstn_all2.
  2: { rewrite struct_bytes_split, length_app, header_length. pose proof (payload_length i). lia. }
  rewrite struct_bytes_split, stamp_split by (by destruct i). rewrite <-item_bytes_split.
  assert (item_bytes ts i = image [(ts, i)]) as -> by (unfold image; simpl; by rewrite app_nil_r).
  eexists _, ts. split; [reflexivity|]. split.
  2: { simpl. intros Hn%(f_equal length). rewrite length_app in Hn. pose proof (image_size ts i). destruct i; simpl in *; lia. }
  rewrite <-(app_nil_l [(ts, i)]). eapply emits_app; [exact E|].
  split; [by split_and!|done|done|done| |].
  - intros pre Hpre Hu. exists [], (pre ++ [(ts, i)]). simpl. rewrite app_nil_r, image_app, Hpre. split_and!; [done..|].
    apply Forall_app. split; [done|]. constructor; [apply clock_nanotime_range|done].
  - unfold mtu. simpl. rewrite length_app, Nat2Z.inj_add, image_size. lia.
Qed.

Definition open_of (o : md.new_order) : open := mk_open (md.no_symbol o) (md.no_side o) (md.no_quantity o) (md.no_price o) (md.no_flags o).
Definition item_of (o : md.new_order) : item := Order (oid o) (open_of o).
Definition symbol_items (w : t) (y : Z) : list item :=
  Info y (u32 (Z.of_nat (length (bids y w)))) (u32 (Z.of_nat (length (asks y w)))) (last_md_seq_num w)
    :: (item_of <$> bids y w) ++ (item_of <$> asks y w).

Lemma run_orders l : ∀ w, Forall (λ o, o = as_order (oid o) (open_of o)) l → mtu (buffer w) → buffer w ≠ [] →
  ∃ w' its, for_each l write_order w = (Ret tt, w') ∧ emits w its w' ∧ buffer w' ≠ [] ∧ its.*2 = item_of <$> l.
Proof using reliable.
  induction l as [|o l IH]; intros w Hl Hb Hne.
  { exists w, []. split_and!; [done|by apply emits_nil|done|done]. }
  apply Forall_cons in Hl as [Ho Hl].
  destruct (run_write_item md.c_new_order o (item_of o) (md.no_header o) w) as (w1 & ts & Hw & E1 & Hne1);
    [by rewrite Ho at 1|by rewrite Ho|done|].
  destruct (IH w1 Hl (em_buffer _ _ _ E1) Hne1) as (w' & its & Hr & E & Hne' & Hi).
  exists w', ((ts, item_of o) :: its). split_and!; [|by eapply (emits_app _ _ _ _ _ E1)|done|by rewrite !fmap_cons, Hi].
  assert (write_order o w = (Ret tt, w1)) as Hw' by (rewrite <-Hw; unfold write_order; by rewrite Ho).
  simpl. by erewrite bind_ret by exact Hw'.
Qed.

Lemma lists_shape m P l : lists m P l → Forall (λ o, o = as_order (oid o) (open_of o)) l.
Proof. intros [_ Hl]. apply Forall_forall. intros o (v & _ & _ & ->)%Hl. by destruct v. Qed.

Lemma run_write_symbol m w y : tracks m w → mtu (buffer w) →
  ∃ w' its, write_symbol y w = (Ret tt, w') ∧ emits w its w' ∧ buffer w' = [] ∧ its.*2 = symbol_items w y.
Proof using reliable.
  intros T Hb. unfold write_symbol. erewrite bind_ret by reflexivity. cbn beta.
  set (i := Info y (u32 (Z.of_nat (length (bids y w)))) (u32 (Z.of_nat (length (asks y w)))) (last_md_seq_num w)).
  set (h := MarketDataPublisher.header 39 md.MSG_TYPE.SNAPSHOT_INFO).
  destruct (run_write_item md.c_snapshot_info (md.Build_snapshot_info h y
    (u32 (Z.of_nat (length (bids y w)))) (u32 (Z.of_nat (length (asks y w)))) (last_md_seq_num w)) i h w) as (w1 & ts & Hw & E1 & Hne1);
    [reflexivity|done|done|].
  erewrite bind_ret by exact Hw. cbn beta.
  destruct (run_orders (bids y w) w1) as (w2 & itb & Hrb & E2 & Hne2 & Hib); [eapply lists_shape, T|apply E1|done|].
  erewrite bind_ret by exact Hrb. cbn beta.
  destruct (run_orders (asks y w) w2) as (w3 & ita & Hra & E3 & Hne3 & Hia); [eapply lists_shape, T|apply E2|done|].
  erewrite bind_ret by exact Hra. cbn beta.
  destruct (run_send w3 (em_buffer _ _ _ E3) Hne3) as (w4 & Hs & E4 & Hnil).
  exists w4, ((ts, i) :: itb ++ ita). split_and!; [done| |done|by rewrite fmap_cons, fmap_app, Hib, Hia].
  pose proof (emits_app _ _ _ _ _ E1 (emits_app _ _ _ _ _ E2 (emits_app _ _ _ _ _ E3 E4))) as E.
  rewrite app_nil_r in E. exact E.
Qed.

Lemma symbol_items_same w w' y : same_orders w w' → last_md_seq_num w' = last_md_seq_num w → symbol_items w' y = symbol_items w y.
Proof. intros (Hb & Ha & _) Hs. unfold symbol_items, bids, asks. by rewrite Hb, Ha, Hs. Qed.

Lemma run_write_symbols m ys : ∀ w, tracks m w → buffer w = [] →
  ∃ w' its, for_each ys write_symbol w = (Ret tt, w') ∧ emits w its w' ∧ buffer w' = [] ∧
    its.*2 = ys ≫= symbol_items w.
Proof using reliable.
  induction ys as [|y ys IH]; intros w T Hb.
  { exists w, []. split_and!; [done|apply emits_nil; by rewrite Hb|done|done]. }
  destruct (run_write_symbol m w y T) as (w1 & its1 & H1 & E1 & Hb1 & Hi1); [by rewrite Hb|].
  destruct (IH w1) as (w' & its & Hr & E & Hb' & Hi); [by eapply tracks_same, T; apply E1|done|].
  exists w', (its1 ++ its). split_and!; [|by eapply emits_app|done|].
  - simpl. by erewrite bind_ret by exact H1.
  - rewrite fmap_app, Hi1, Hi, bind_cons. f_equal. apply list_bind_ext; [|done]. intros z.
    apply symbol_items_same; apply E1.
Qed.

Lemma lists_perm m P l l' : l' ≡ₚ l → lists m P l → lists m P l'.
Proof.
  intros Hp [Hnd Hl]. split; [|intros o; by rewrite Hp]. unfold oids in *. by rewrite Hp.
Qed.

Lemma sorted_default n d (m : gmap Z (list md.new_order)) y :
  Sorted (price_le d) (default [] ((sn_sort n d <$> m) !! y)) ∧ default [] ((sn_sort n d <$> m) !! y) ≡ₚ default [] (m !! y).
Proof.
  rewrite lookup_fmap. destruct (m !! y) as [l|]; simpl; [|by split].
  split; [apply sn_sort_sorted|apply sn_sort_perm].
Qed.

Lemma tracks_sort_bids m w n : tracks m w → tracks m (set_bids (sn_sort n true <$> symbol_to_bids w) w).
Proof.
  intros []. split; try done; simpl.
  - intros y. rewrite lookup_fmap, fmap_is_Some. done.
  - intros y. eapply lists_perm; [apply sorted_default|done].
Qed.
Lemma tracks_sort_asks m w n : tracks m w → tracks m (set_asks (sn_sort n false <$> symbol_to_asks w) w).
Proof.
  intros []. split; try done; simpl.
  - intros y. rewrite lookup_fmap, fmap_is_Some. done.
  - intros y. eapply lists_perm; [apply sorted_default|done].
Qed.

Lemma tracks_symbols m w n : tracks m w → sn_walk n (symbol_to_bids w) ≡ₚ [1; 2].
Proof.
  intros T. rewrite sn_walk_perm. apply NoDup_Permutation; [apply NoDup_fst_map_to_list|by_decide|].
  intros y. rewrite !elem_of_cons, elem_of_nil, list_elem_of_fmap. split.
  - intros ([y' l] & -> & Hin). apply elem_of_map_to_list in Hin. simpl.
    assert (tracked y' = true) as Ht by (apply (tr_bids_dom _ _ T); eauto).
    unfold tracked in Ht. apply orb_prop in Ht as [Ht%Z.eqb_eq|Ht%Z.eqb_eq]; auto.
  - intros Hy. assert (tracked y = true) as Ht by (unfold tracked; by destruct Hy as [->|[->|Hn]]).
    apply (tr_bids_dom _ _ T) in Ht as [l Hl]. exists (y, l). by rewrite elem_of_map_to_list.
Qed.

(** A snapshot of the open orders [m]: the packets [ps] hold whole
    messages within the MTU: in the order of some walk of the symbols, each symbol's counts and its orders, bids from
    the highest price and asks from the lowest. *)
Definition snapshot_of (w : t) (ps : list (list byte)) : Prop :=
  (∀ y, Sorted (price_le true) (bids y w) ∧ Sorted (price_le false) (asks y w)) ∧
  ∃ ys chunks, ps = image <$> chunks ∧ Forall packet_ok chunks ∧ ys ≡ₚ [1; 2] ∧ (concat chunks).*2 = ys ≫= symbol_items w.

Lemma run_write_snapshot m w : tracks m w → buffer w = [] →
  ∃ w' ps, write_snapshot w = (Ret tt, w') ∧ tracks m w' ∧ buffer w' = [] ∧ queue w' = queue w ∧
    last_md_seq_num w' = last_md_seq_num w ∧ last_snapshot_ts w' = last_snapshot_ts w ∧
    packets w' = packets w ++ ps ∧ snapshot_of w' ps.
Proof using reliable.
  intros T Hb. unfold write_snapshot, sort_side, ask.
  set (w1 := set_bids (sn_sort (readings w) true <$> symbol_to_bids w) (count_reading w)).
  set (w2 := count_reading (set_asks (sn_sort (S (readings w)) false <$> symbol_to_asks w) (count_reading w1))).
  assert (tracks m w2) as T2.
  { apply (tracks_same m (set_asks (sn_sort (S (readings w)) false <$> symbol_to_asks w1) w1)); [done|].
    apply tracks_sort_asks. apply (tracks_same m (set_bids (sn_sort (readings w) true <$> symbol_to_bids w) w)); [done|].
    by apply tracks_sort_bids. }
  set (ys := sn_walk (S (S (readings w))) (symbol_to_bids w2)).
  destruct (run_write_symbols m ys w2 T2 Hb) as (w' & its & Hr & E & Hnil & Hi).
  destruct (em_packets _ _ _ E [] Hb (Forall_nil_2 _)) as (chunks & post & Hp & Hm & Hc & Hpost & _).
  exists w', (image <$> chunks). split; [exact Hr|]. split; [by eapply tracks_same, T2; apply E|]. split; [done|].
  split; [by rewrite (em_queue _ _ _ E)|]. split; [by rewrite (em_seq _ _ _ E)|]. split; [by rewrite (em_ts _ _ _ E)|].
  split; [by rewrite Hp|]. destruct (em_orders _ _ _ E) as (Ob & Oa & Oi). split.
  - intros y. unfold bids, asks. rewrite Ob, Oa. split; [apply (sorted_default _ true)|apply (sorted_default _ false)].
  - assert (post = []) as ->.
    { destruct post as [|[ts i] post]; [done|]. rewrite Hnil in Hpost. apply (f_equal length) in Hpost.
      change (image ((ts, i) :: post)) with (item_bytes ts i ++ image post) in Hpost. rewrite length_app in Hpost.
      pose proof (item_length ts i). destruct i; simpl in *; lia. }
    rewrite app_nil_r in Hc. simpl in Hc. exists ys, chunks. split_and!; [done|done|by eapply tracks_symbols|].
    rewrite Hc, Hi. apply list_bind_ext; [|done]. intros z. symmetry. apply symbol_items_same; apply E.
Qed.

(** When the clock reads at least the interval past the last snapshot. *)
Definition due (w : t) : bool := u64 (clock_nanotime (@nanotime_at sn_world (readings w)) - last_snapshot_ts w) >? SNAPSHOT_INTERVAL.
End wire.

(** ** The property *)

(** On a network that takes every packet, one call of
    [process] returns, empties the queue and leaves in the writer exactly the
    orders of symbols 1 and 2 the feed left open; and when the interval since
    the last snapshot has passed, and only then, it sends a snapshot of them:
    packets within the MTU that hold every symbol's counts, the sequence number
    of the last message applied, and its open orders in price order. *)
Theorem snapshot_mirrors_feed `{SW : SnapshotWorld} m w :
  (∀ n b, @sendto_rc sn_world n b = Z.of_nat (length b)) →
  tracks m w → buffer w = [] → feed_ok m (queue w) →
  ∃ w', process w = (Ret tt, w') ∧ tracks (foldl apply_spec m (queue w)) w' ∧ queue w' = [] ∧ buffer w' = [] ∧
    last_md_seq_num w' = default (last_md_seq_num w) (mp_seq_num <$> last (queue w)) ∧
    if due w then ∃ ps, packets w' = packets w ++ ps ∧ snapshot_of w' ps else packets w' = packets w.
Proof.
  intros Hr T Hb Hf. destruct (apply_queue_spec (queue w) m w T Hf) as (T1 & Hq & Hs & Ht & Hb1 & Hp & _ & Hrd).
  set (w1 := apply_queue (queue w) w) in *.
  assert (queue w1 = []) as Hq1 by (rewrite Hq; by destruct (queue w)). clear Hq.
  unfold process. erewrite bind_ret by reflexivity. cbn beta. erewrite bind_ret by reflexivity. cbn beta. fold w1.
  erewrite bind_ret by reflexivity. cbn beta. erewrite bind_ret by reflexivity. cbn beta.
  cbn [last_snapshot_ts count_reading]. rewrite Ht, Hrd. unfold due.
  destruct (u64 _ >? SNAPSHOT_INTERVAL); cbn [when].
  2: { exists (count_reading w1). split; [done|]. split; [by apply (tracks_same _ w1)|].
    split_and!; cbn; congruence. }
  set (w2 := set_last_snapshot_ts (clock_nanotime (@nanotime_at sn_world (readings (count_reading w1)))) (count_reading (count_reading w1))).
  destruct (run_write_snapshot Hr (foldl apply_spec m (queue w)) w2) as (w' & ps & Hrun & T' & Hnil & Hq' & Hs' & _ & Hp' & Hsnap);
    [by apply (tracks_same _ w1)|by rewrite <-Hb|].
  exists w'. split; [exact Hrun|]. split; [done|]. split; [by rewrite Hq'|]. split; [done|].
  split; [by rewrite Hs'|]. exists ps. split; [|done]. rewrite Hp'. by rewrite <-Hp.
Qed.

(** A world with the library's merge sort. *)
#[global] Instance price_le_dec d : RelDecision (price_le d).
Proof. intros a b. unfold price_le. destruct d; apply _. Defined.
#[global] Instance price_le_total d : Total (price_le d).
Proof. intros a b. unfold price_le. destruct d; lia. Qed.

Definition demo_world : SnapshotWorld := {|
  sn_world := {| nanotime_at := λ n, 1000000000 + Z.of_nat n; sendto_rc := λ _ b, Z.of_nat (length b) |};
  sn_sort := λ _ d, merge_sort (price_le d);
  sn_sort_perm := λ _ d, merge_sort_Permutation (price_le d);
  sn_sort_sorted := λ _ d, Sorted_merge_sort (price_le d);
  sn_walk := λ _ m, (map_to_list m).*1;
  sn_walk_perm := λ _ m, reflexivity _;
|}.

Definition demo_queue : list md_payload := [
  mk_md_payload md.MSG_TYPE.NEW_ORDER 7 100 1 md.SIDE.BUY 10 50 0;
  mk_md_payload md.MSG_TYPE.NEW_ORDER 8 101 1 md.SIDE.BUY 5 60 0;
  mk_md_payload md.MSG_TYPE.NEW_ORDER 9 102 3 md.SIDE.SELL 5 70 0;
  mk_md_payload md.MSG_TYPE.MODIFY_ORDER 10 100 0 md.SIDE.SELL 4 65 0;
  mk_md_payload md.MSG_TYPE.TRADE 11 101 0 md.SIDE.BUY 2 60 0].

Lemma snapshot_mirrors_feed_witness :
  due (SW := demo_world) (set_queue demo_queue initial) = true ∧
  foldl apply_spec ∅ demo_queue = {[100 := mk_open 1 md.SIDE.SELL 4 65 0; 101 := mk_open 1 md.SIDE.BUY 3 60 0]} ∧
  ∃ w', process (SW := demo_world) (set_queue demo_queue initial) = (Ret tt, w') ∧
    tracks (foldl apply_spec ∅ demo_queue) w' ∧ queue w' = [] ∧ buffer w' = [] ∧ last_md_seq_num w' = 11 ∧
    ∃ ps, packets w' = [] ++ ps ∧ snapshot_of w' ps.
Proof.
  split; [vm_compute; reflexivity|]. split; [by_decide|].
  apply (snapshot_mirrors_feed (SW := demo_world) ∅ (set_queue demo_queue initial)).
  - intros n b. reflexivity.
  - eapply tracks_same; [|apply tracks_initial]. split_and!; reflexivity.
  - reflexivity.
  - cbn -[apply_spec]. unfold payload_ok, is_side. split_and!; try lia; try (intros _; reflexivity); try (left; reflexivity); try (right; reflexivity); try exact I; vm_compute; discriminate || reflexivity.
Defined.
