(* ===== verification/MdSnapshots.v ===== *)
(** * [market_data/md_snapshots.cpp]: the snapshot program

    One thread reads the feed into a queue, the main thread applies the queue and
    sends snapshots.  The threads' turns and what the queue makes visible of one
    to the other come in any order. *)
From Stdlib Require Import Init.Byte.
From S2P Require Import Prelude Protocol MdStream SnapshotClient SnapshotWriter.

Module MdSnapshots.

(** The client thread ends when it sees [running] cleared or an exception; the
    main thread waits for it after an exception of the writer, and returns. *)
Inductive client_thread := Receiving | Ended (e : option exn).
Inductive main_thread := Writing | Joining (e : exn) | Returned (rc : Z).

Record t := mk {
  client : SnapshotClient.t;
  writer : SnapshotWriter.t;
  running : bool;
  receiving : client_thread;
  main : main_thread;
}.

Definition initial : t := mk SnapshotClient.initial SnapshotWriter.initial true Receiving Writing.

(** A turn of the client thread with what [recvfrom] answers, a turn of the main
    thread, or the next [n] payloads become visible to it. *)
Inductive action := ClientTurn (r : received) | MainTurn | HandOver (n : nat).

Definition client_turn (r : received) (p : t) : t :=
  match receiving p with
  | Receiving =>
      if running p then
        match SnapshotClient.process r (client p) with
        | (Ret _, c) => mk c (writer p) (running p) Receiving (main p)
        | (Throw e, c) => mk c (writer p) (running p) (Ended (Some e)) (main p)
        end
      else mk (client p) (writer p) (running p) (Ended None) (main p)
  | Ended _ => p
  end.

Definition set_queue (q : list md_payload) (c : SnapshotClient.t) : SnapshotClient.t :=
  SnapshotClient.mk (SnapshotClient.buf c) (SnapshotClient.last_seq_num c) q.

Definition hand_over (n : nat) (p : t) : t :=
  let q := SnapshotClient.queue (client p) in
  mk (set_queue (drop n q) (client p)) (SnapshotWriter.set_queue (SnapshotWriter.queue (writer p) ++ take n q) (writer p))
    (running p) (receiving p) (main p).

Section ops.
Context `{SW : SnapshotWorld}.

Definition main_turn (p : t) : t :=
  match main p with
  | Writing =>
      match SnapshotWriter.process (writer p) with
      | (Ret _, w) => mk (client p) w (running p) (receiving p) Writing
      | (Throw e, w) => mk (client p) w false (receiving p) (Joining e)
      end
  | Joining e =>
      match receiving p with
      | Ended _ => mk (client p) (writer p) (running p) (receiving p) (Returned 0)
      | Receiving => p
      end
  | Returned _ => p
  end.

Definition act (a : action) : t → t :=
  match a with ClientTurn r => client_turn r | MainTurn => main_turn | HandOver n => hand_over n end.

Definition run (acts : list action) (p : t) : t := foldl (λ p a, act a p) p acts.
End ops.
End MdSnapshots.
