(* ===== verification/MdSnapshotsTheorems.v ===== *)
(** * The snapshot program follows the feed *)
From Stdlib Require Import Init.Byte.
From S2P Require Import Prelude Protocol MdMcast MdStream SnapshotClient SnapshotWriter SnapshotTheorems MdSnapshots.
#[local] Open Scope Z_scope.

Import MdSnapshots.

(** What happens, in terms of the feed: a packet of it arrives, nothing arrives, the
    main thread takes its turn, or sees the next payloads. *)
Inductive event := Arrives (fs : list (Z * Z * md_msg)) | NothingArrives | Writes | Sees (n : nat).

Definition action_of (e : event) : action :=
  match e with
  | Arrives fs => ClientTurn (RecvPacket (enc_frames fs))
  | NothingArrives => ClientTurn RecvWouldBlock
  | Writes => MainTurn
  | Sees n => HandOver n
  end.

Definition event_ok (e : event) : Prop :=
  match e with
  | Arrives fs => Forall numbered_ok fs ∧ Z.of_nat (length (enc_frames fs)) <= MarketDataPublisher.BUFFER_SIZE
  | _ => True
  end.

#[global] Instance event_ok_dec e : Decision (event_ok e).
Proof. destruct e; simpl; apply _. Defined.

(** What has arrived so far. *)
Definition heard (es : list event) : list md_payload :=
  es ≫= λ e, match e with Arrives fs => payloads fs | _ => [] end.

Lemma feed_ok_app q1 q2 : ∀ m, feed_ok m (q1 ++ q2) ↔ feed_ok m q1 ∧ feed_ok (foldl apply_spec m q1) q2.
Proof. induction q1 as [|p q1 IH]; intros m; simpl; [tauto|]. rewrite IH. tauto. Qed.

(** A snapshot that was sent: of the orders that some part [pre] of what had been
    heard left open, with the number of its last message. *)
Definition snapshot_at (feed : list md_payload) (ps : list (list byte)) : Prop := ∃ pre w,
  pre `prefix_of` feed ∧ tracks (foldl apply_spec ∅ pre) w ∧ snapshot_of w ps ∧
  SnapshotWriter.last_md_seq_num w = default 0 (mp_seq_num <$> last pre).

Record in_step (feed done_ : list md_payload) (p : t) : Prop := {
  st_feed : done_ ++ SnapshotWriter.queue (writer p) ++ SnapshotClient.queue (client p) = feed;
  st_tracks : tracks (foldl apply_spec ∅ done_) (writer p);
  st_last : SnapshotWriter.last_md_seq_num (writer p) = default 0 (mp_seq_num <$> last done_);
  st_buffer : SnapshotWriter.buffer (writer p) = [];
  st_buf : length (SnapshotClient.buf (client p)) = SnapshotClient.BUF_SIZE;
  st_alive : running p = true ∧ receiving p = Receiving ∧ main p = Writing;
  st_sent : ∃ snaps, SnapshotWriter.packets (writer p) = concat snaps ∧ Forall (snapshot_at feed) snaps;
}.

Lemma snapshot_at_later feed more ps : snapshot_at feed ps → snapshot_at (feed ++ more) ps.
Proof. intros (pre & w & Hpre & H). exists pre, w. split; [by apply prefix_app_r|done]. Qed.

Lemma in_step_initial : in_step [] [] initial.
Proof. split; try done; [apply tracks_initial|by exists []]. Qed.

Section step.
Context `{SW : SnapshotWorld} (reliable : ∀ n b, @sendto_rc sn_world n b = Z.of_nat (length b)).

Lemma step_arrives feed done_ p fs : event_ok (Arrives fs) → in_step feed done_ p →
  in_step (feed ++ payloads fs) done_ (client_turn (RecvPacket (enc_frames fs)) p).
Proof.
  intros [Hok Hlen] [H1 H2 H3 H4 H5 (H6 & H7 & H8) (snaps & H9 & H10)].
  destruct (run_process fs (client p) Hok Hlen H5) as (c & Hrun & Hb & Hq & _).
  unfold client_turn. rewrite H7, H6, Hrun. split; simpl; try done.
  - rewrite Hq, <- H1, <- !app_assoc. done.
  - exists snaps. split; [done|]. eapply Forall_impl; [exact H10|]. intros ps. apply snapshot_at_later.
Qed.

Lemma step_sees feed done_ p n : in_step feed done_ p → in_step feed done_ (hand_over n p).
Proof.
  intros [H1 H2 H3 H4 H5 H6 H7]. split; try done; simpl.
  - rewrite <- app_assoc, take_drop. done.
  - eapply tracks_same, H2. done.
Qed.

Lemma step_writes feed done_ p : feed_ok ∅ feed → in_step feed done_ p →
  ∃ done', in_step feed done' (main_turn p) ∧ SnapshotWriter.queue (writer (main_turn p)) = [] ∧
    SnapshotClient.queue (client (main_turn p)) = SnapshotClient.queue (client p).
Proof using reliable.
  intros Hf [H1 H2 H3 H4 H5 (H6 & H7 & H8) (snaps & H9 & H10)]. rewrite <- H1 in Hf.
  apply feed_ok_app in Hf as [_ Hf]. apply feed_ok_app in Hf as [Hf _].
  destruct (snapshot_mirrors_feed _ (writer p) reliable H2 H4 Hf) as (w' & Hrun & T & Hq & Hb & Hl & Hd).
  exists (done_ ++ SnapshotWriter.queue (writer p)). unfold main_turn. rewrite H8, Hrun. split; [|done].
  assert (SnapshotWriter.last_md_seq_num w' = default 0 (mp_seq_num <$> last (done_ ++ SnapshotWriter.queue (writer p)))) as Hl'.
  { rewrite Hl, H3, last_app. by destruct (last (SnapshotWriter.queue (writer p))). }
  rewrite <- foldl_app in T. split; simpl; try done.
  - by rewrite Hq, <- app_assoc.
  - destruct (due (writer p)).
    + destruct Hd as (ps & Hp & Hs). exists (snaps ++ [ps]). rewrite concat_app, Hp, H9. simpl. rewrite app_nil_r. split; [done|].
      apply Forall_app. split; [done|]. apply Forall_cons. split; [|done]. exists (done_ ++ SnapshotWriter.queue (writer p)), w'.
      split; [|done]. rewrite <- H1, app_assoc. by apply prefix_app_r.
    + exists snaps. by rewrite Hd.
Qed.

Lemma run_events es : ∀ feed done_ p, Forall event_ok es → feed_ok ∅ (feed ++ heard es) → in_step feed done_ p →
  ∃ done', in_step (feed ++ heard es) done' (run (action_of <$> es) p).
Proof using reliable.
  induction es as [|e es IH]; intros feed dn p Hok Hf Hs; [exists dn; by rewrite app_nil_r|].
  apply Forall_cons in Hok as [He Hok]. unfold heard in *. rewrite bind_cons in *. rewrite app_assoc in *. fold (heard es) in *.
  pose proof (proj1 (feed_ok_app _ _ _) Hf) as [Hf1 _]. cbn [fmap list_fmap action_of run foldl]. fold (run (SW := SW)).
  destruct e as [fs| | |n]; cbn [action_of act].
  - apply (IH _ dn); [done|done|]. by apply step_arrives.
  - apply (IH _ dn); [done|done|]. rewrite app_nil_r. destruct Hs as [? ? ? ? ? (H6 & H7 & ?) ?]. unfold client_turn. by rewrite H7, H6.
  - rewrite app_nil_r in *. destruct (step_writes feed dn p Hf1 Hs) as (done' & Hs' & _). by apply (IH _ done').
  - apply (IH _ dn); [done|done|]. rewrite app_nil_r. by apply step_sees.
Qed.
End step.

(** ** The property *)

(** C10 ([snapshot_program_mirrors_feed]): on a network that takes every packet, and
    whatever the order of the two threads' turns and of what they see of each
    other, neither thread of the program ever ends; every snapshot it has sent is
    one of the orders of symbols 1 and 2 that some part of the feed heard so far
    left open, in price order, with that part's last sequence number; and once the
    main thread has seen all that was heard and taken a turn, its orders are those
    that the whole of it left open. *)
Theorem snapshot_program_mirrors_feed (SW : SnapshotWorld) es :
  (∀ n b, @sendto_rc sn_world n b = Z.of_nat (length b)) →
  Forall event_ok es → feed_ok ∅ (heard es) →
  let p := run (action_of <$> es) initial in
  (running p = true ∧ receiving p = Receiving ∧ main p = Writing) ∧
  (∃ snaps, SnapshotWriter.packets (writer p) = concat snaps ∧ Forall (snapshot_at (heard es)) snaps) ∧
  ∀ n, (length (heard es) ≤ n)%nat →
    let p' := run [HandOver n; MainTurn] p in
    tracks (foldl apply_spec ∅ (heard es)) (writer p') ∧
    SnapshotWriter.last_md_seq_num (writer p') = default 0 (mp_seq_num <$> last (heard es)).
Proof.
  intros Hr Hok Hf p. destruct (run_events Hr es [] [] initial Hok Hf in_step_initial) as (dn & Hs). fold p in Hs. simpl app in Hs.
  split; [apply Hs|]. split; [apply Hs|]. intros n Hn p'.
  destruct (step_writes Hr (heard es) dn (hand_over n p) Hf (step_sees _ _ p n Hs)) as (dn' & Hs' & Hq & Hc).
  assert (dn' = heard es) as ->; [|split; apply Hs'].
  rewrite <- (st_feed _ _ _ Hs'), Hq, Hc. cbn [hand_over client set_queue SnapshotClient.queue].
  rewrite drop_ge; [by rewrite !app_nil_r|]. pose proof (f_equal length (st_feed _ _ _ Hs)) as Hl. rewrite !length_app in Hl. lia.
Qed.

(** Three packets of the feed; the first turn of the main thread sends a snapshot of
    the first. *)
Definition demo_events : list event :=
  [Arrives [(1, 1, NewOrder 100 1 md.SIDE.SELL 10 65 0)]; Sees 1; Writes; NothingArrives;
   Arrives [(2, 2, Heartbeat); (3, 3, NewOrder 101 1 md.SIDE.BUY 5 60 0)]; Writes; Sees 1; Arrives [(4, 4, Trade 100 4 65)]].

Definition demo_program : t := run (SW := demo_world) (action_of <$> demo_events) initial.

Lemma snapshot_program_mirrors_feed_witness :
  length (SnapshotWriter.packets (writer demo_program)) = 2%nat ∧ length (heard demo_events) = 4%nat ∧
  (∃ snaps, SnapshotWriter.packets (writer demo_program) = concat snaps ∧ Forall (snapshot_at (heard demo_events)) snaps) ∧
  tracks (foldl apply_spec ∅ (heard demo_events)) (writer (run (SW := demo_world) [HandOver 9; MainTurn] demo_program)).
Proof.
  split; [vm_compute; reflexivity|]. split; [reflexivity|].
  destruct (snapshot_program_mirrors_feed demo_world demo_events) as (_ & H2 & H3).
  - done.
  - by_decide.
  - cbn -[apply_spec]. unfold payload_ok, is_side. split_and!; try done; try lia; try (by left); try (by right); by_decide.
  - split; [exact H2|]. apply (H3 9%nat). by_decide.
Defined.
