(* ===== verification/MdClient.v ===== *)
(** * [bots/md_client.cpp]: the bots' market data client

    The client joins the feed through a snapshot, replays what it buffered
    meanwhile and from then on keeps one order book per symbol. *)
From Stdlib Require Import Init.Byte.
From S2P Require Import Prelude Protocol MdStream SnapshotClient BotBook.

(** What the client does not decide: the answers of [recvfrom] on the two
    sockets and of [setsockopt], what the memory of an erased order reads as,
    and how long its waiting loop is followed. *)
Class FeedWorld := {
  fw_live : nat → received;
  fw_snapshot : nat → received;
  fw_leave : Z;
  fw_freed : OrderBook.Order → OrderBook.Order;
  fw_recover_on_drops : bool;
  fw_fuel : nat;
}.

Module MDClient.

Record trade_summary := mk_summary { sm_symbol : Z; sm_quantity : Z; sm_price : Z; sm_aggressor_side : Z }.

(** [summaries] is what the registered listener has been told. *)
Record t := mk {
  buf : list byte;
  symbol_to_order_book : gmap Z OrderBook.t;
  order_to_symbol : gmap Z Z;
  last_md_seq_num : Z;
  live_buffer : list byte;
  snapshot_buffer : gmap Z (list md.new_order);
  snapshot_complete : gmap Z bool;
  last_snapshot_seq_num : Z;
  trade_summary_listener : bool;
  summaries : list trade_summary;
  live_recvs : nat;
  snapshot_recvs : nat;
  unsubscribed : bool;
}.

Definition BUF_SIZE : nat := Z.to_nat 4096.
Definition UINT32_MAX : Z := 2 ^ 32 - 1.

Definition initial : t := mk (replicate BUF_SIZE x00) ∅ ∅ 0 [] ∅ ∅ 0 false [] 0 0 false.

(** The fields [process_message] works on, and the others. *)
Definition set_buf (b : list byte) (s : t) : t :=
  mk b (symbol_to_order_book s) (order_to_symbol s) (last_md_seq_num s) (live_buffer s) (snapshot_buffer s) (snapshot_complete s)
    (last_snapshot_seq_num s) (trade_summary_listener s) (summaries s) (live_recvs s) (snapshot_recvs s) (unsubscribed s).
Definition set_books (m : gmap Z OrderBook.t) (s : t) : t :=
  mk (buf s) m (order_to_symbol s) (last_md_seq_num s) (live_buffer s) (snapshot_buffer s) (snapshot_complete s)
    (last_snapshot_seq_num s) (trade_summary_listener s) (summaries s) (live_recvs s) (snapshot_recvs s) (unsubscribed s).
Definition set_order_to_symbol (m : gmap Z Z) (s : t) : t :=
  mk (buf s) (symbol_to_order_book s) m (last_md_seq_num s) (live_buffer s) (snapshot_buffer s) (snapshot_complete s)
    (last_snapshot_seq_num s) (trade_summary_listener s) (summaries s) (live_recvs s) (snapshot_recvs s) (unsubscribed s).
Definition set_last_md_seq_num (n : Z) (s : t) : t :=
  mk (buf s) (symbol_to_order_book s) (order_to_symbol s) n (live_buffer s) (snapshot_buffer s) (snapshot_complete s)
    (last_snapshot_seq_num s) (trade_summary_listener s) (summaries s) (live_recvs s) (snapshot_recvs s) (unsubscribed s).
Definition set_live_buffer (b : list byte) (s : t) : t :=
  mk (buf s) (symbol_to_order_book s) (order_to_symbol s) (last_md_seq_num s) b (snapshot_buffer s) (snapshot_complete s)
    (last_snapshot_seq_num s) (trade_summary_listener s) (summaries s) (live_recvs s) (snapshot_recvs s) (unsubscribed s).
Definition set_snapshot_buffer (m : gmap Z (list md.new_order)) (s : t) : t :=
  mk (buf s) (symbol_to_order_book s) (order_to_symbol s) (last_md_seq_num s) (live_buffer s) m (snapshot_complete s)
    (last_snapshot_seq_num s) (trade_summary_listener s) (summaries s) (live_recvs s) (snapshot_recvs s) (unsubscribed s).
Definition set_snapshot_complete (m : gmap Z bool) (s : t) : t :=
  mk (buf s) (symbol_to_order_book s) (order_to_symbol s) (last_md_seq_num s) (live_buffer s) (snapshot_buffer s) m
    (last_snapshot_seq_num s) (trade_summary_listener s) (summaries s) (live_recvs s) (snapshot_recvs s) (unsubscribed s).
Definition set_last_snapshot_seq_num (n : Z) (s : t) : t :=
  mk (buf s) (symbol_to_order_book s) (order_to_symbol s) (last_md_seq_num s) (live_buffer s) (snapshot_buffer s) (snapshot_complete s)
    n (trade_summary_listener s) (summaries s) (live_recvs s) (snapshot_recvs s) (unsubscribed s).
Definition register_trade_summary_listener (s : t) : t :=
  mk (buf s) (symbol_to_order_book s) (order_to_symbol s) (last_md_seq_num s) (live_buffer s) (snapshot_buffer s) (snapshot_complete s)
    (last_snapshot_seq_num s) true (summaries s) (live_recvs s) (snapshot_recvs s) (unsubscribed s).
Definition on_trade_summary (x : trade_summary) (s : t) : t :=
  mk (buf s) (symbol_to_order_book s) (order_to_symbol s) (last_md_seq_num s) (live_buffer s) (snapshot_buffer s) (snapshot_complete s)
    (last_snapshot_seq_num s) (trade_summary_listener s) (summaries s ++ [x]) (live_recvs s) (snapshot_recvs s) (unsubscribed s).
Definition count_live (s : t) : t :=
  mk (buf s) (symbol_to_order_book s) (order_to_symbol s) (last_md_seq_num s) (live_buffer s) (snapshot_buffer s) (snapshot_complete s)
    (last_snapshot_seq_num s) (trade_summary_listener s) (summaries s) (S (live_recvs s)) (snapshot_recvs s) (unsubscribed s).
Definition count_snapshot (s : t) : t :=
  mk (buf s) (symbol_to_order_book s) (order_to_symbol s) (last_md_seq_num s) (live_buffer s) (snapshot_buffer s) (snapshot_complete s)
    (last_snapshot_seq_num s) (trade_summary_listener s) (summaries s) (live_recvs s) (S (snapshot_recvs s)) (unsubscribed s).
Definition unsubscribe (s : t) : t :=
  mk (buf s) (symbol_to_order_book s) (order_to_symbol s) (last_md_seq_num s) (live_buffer s) (snapshot_buffer s) (snapshot_complete s)
    (last_snapshot_seq_num s) (trade_summary_listener s) (summaries s) (live_recvs s) (snapshot_recvs s) true.

(** [reinterpret_cast<A*>(data + off)], dereferenced. *)
Definition read {A} (c : codec A) (data : list byte) (off : nat) : M t A :=
  if bool_decide (off + c_size c ≤ length data)%nat then mret (c_dec c (drop off data))
  else throw (undefined_behaviour "read past the end of the buffer").

(** ** One message *)

(** [symbol_to_order_book[symbol]], made when missing, then [new_order]; and
    the entry in [order_to_symbol]. *)
Definition add_order (o : md.new_order) (s : t) : t :=
  let y := md.no_symbol o in
  let b := default OrderBook.initial (symbol_to_order_book s !! y) in
  let b := OrderBook.new_order (md.no_order_id o) (md.no_side o) (md.no_quantity o) (md.no_price o) (md.no_flags o) b in
  set_order_to_symbol (<[md.no_order_id o := y]> (order_to_symbol s)) (set_books (<[y := b]> (symbol_to_order_book s)) s).

Definition on_book (y : Z) (b : OrderBook.t) (s : t) : t := set_books (<[y := b]> (symbol_to_order_book s)) s.

(** [order_to_symbol[order_id]]: [operator[]] makes the entry 0 for an id it
    does not know. *)
Definition symbol_of (order_id : Z) : M t Z :=
  m ← gets order_to_symbol;
  match m !! order_id with
  | Some y => mret y
  | None => modify (set_order_to_symbol (<[order_id := 0]> m));; mret 0
  end.

(** Run an operation of the book of a symbol, or give up on the packet. *)
Definition with_book (y : Z) (f : OrderBook.t → OrderBook.t) : M t bool :=
  m ← gets symbol_to_order_book;
  match m !! y with
  | None => mret false
  | Some b => modify (on_book y (f b));; mret true
  end.

Section ops.
Context `{FeedWorld}.

(** The [switch]: the boolean says whether the loop goes on. *)
Definition apply_message (data : list byte) (off : nat) (len : Z) (ty : Z) : M t bool :=
  let sized {A} (c : codec A) (k : A → M t bool) : M t bool :=
    if len <? Z.of_nat (c_size c) then mret false else m ← read c data off; k m in
  if ty =? md.MSG_TYPE.NEW_ORDER then
    sized md.c_new_order (λ m, modify (add_order m);; mret true)
  else if ty =? md.MSG_TYPE.DELETE_ORDER then
    sized md.c_delete_order (λ m, y ← symbol_of (md.do_order_id m); with_book y (OrderBook.delete_order (md.do_order_id m)))
  else if ty =? md.MSG_TYPE.MODIFY_ORDER then
    sized md.c_modify_order (λ m, y ← symbol_of (md.mo_order_id m);
      with_book y (OrderBook.modify_order (md.mo_order_id m) (md.mo_side m) (md.mo_quantity m) (md.mo_price m)))
  else if ty =? md.MSG_TYPE.TRADE then
    sized md.c_trade (λ m,
      ids ← gets order_to_symbol;
      match ids !! md.tr_order_id m with
      | None => mret false
      | Some y => with_book y (OrderBook.order_trade fw_freed (md.tr_order_id m) (md.tr_quantity m) (md.tr_price m))
      end)
  else if ty =? md.MSG_TYPE.TRADE_SUMMARY then
    sized md.c_trade_summary (λ m,
      books ← gets symbol_to_order_book;
      match books !! md.ts_symbol m with
      | None => mret false
      | Some _ =>
          listener ← gets trade_summary_listener;
          when listener (modify (on_trade_summary
            (mk_summary (md.ts_symbol m) (md.ts_total_quantity m) (md.ts_last_price m) (md.ts_aggressor_side m))));;
          mret true
      end)
  else if ty =? md.MSG_TYPE.HEARTBEAT then mret true
  else mret false.

(** What a gap throws away before the recovery. *)
Definition restart (s : t) : t :=
  set_last_snapshot_seq_num 0 (set_snapshot_complete ∅ (set_snapshot_buffer ∅ (set_live_buffer []
    (set_order_to_symbol ∅ (set_books ∅ s))))).

(** [process_message(buf, len)]: [recover] is [wait_for_snapshot].  [len] is a
    [size_t]. *)
Fixpoint process_message (recover : M t unit) (fuel : nat) (data : list byte) (off : nat) (len : Z) : M t unit :=
  match fuel with
  | O => throw out_of_fuel
  | S fuel =>
      if len >? 0 then
        if len <? Z.of_nat (c_size md.c_md_header) then mret tt
        else
          header ← read md.c_md_header data off;
          let next := process_message recover fuel data (off + Z.to_nat (md.length header)) (u64 (len - md.length header)) in
          if negb (md.magic_number header =? md.MAGIC_NUMBER) then mret tt
          else
            last ← gets last_md_seq_num;
            if md.seq_num header >? u32 (last + 1) then
              when fw_recover_on_drops (modify restart;; recover)
            else if md.seq_num header <=? last then next
            else
              modify (set_last_md_seq_num (md.seq_num header));;
              go ← apply_message data off len (md.msg_type header);
              if (go : bool) then next else mret tt
      else mret tt
  end.

(** ** Receiving *)

(** [recvfrom] into [buf]: the number of bytes, or nothing when it would
    block. *)
Definition receive (r : received) (error : string) : M t (option nat) :=
  match r with
  | RecvWouldBlock => mret None
  | RecvError => throw (runtime_error error)
  | RecvPacket pkt =>
      let pkt := take BUF_SIZE pkt in
      b ← gets buf;
      modify (set_buf (pkt ++ drop (length pkt) b));;
      mret (Some (length pkt))
  end.

Definition receive_live : M t (option nat) :=
  n ← gets live_recvs;
  modify count_live;;
  receive (fw_live n) "Failed to receive message".
Definition receive_snapshot : M t (option nat) :=
  n ← gets snapshot_recvs;
  modify count_snapshot;;
  receive (fw_snapshot n) "Failed to receive snapshot".

Definition get_first_live_seq_num : M t Z :=
  b ← gets live_buffer;
  if bool_decide (b = []) then mret UINT32_MAX
  else header ← read md.c_md_header b 0; mret (md.seq_num header).

(** ** The snapshot *)

(** [symbol_to_bid_orders] and [symbol_to_ask_orders], the orders still to
    come. *)
Record counts := mk_counts { bid_orders : gmap Z Z; ask_orders : gmap Z Z }.
Definition bid_count (y : Z) (c : counts) : Z := default 0 (bid_orders c !! y).
Definition ask_count (y : Z) (c : counts) : Z := default 0 (ask_orders c !! y).
Definition no_counts : counts := mk_counts {[1 := -1; 2 := -1]} {[1 := -1; 2 := -1]}.

Definition complete_if_done (y : Z) (c : counts) (s : t) : t :=
  if (bid_count y c =? 0) && (ask_count y c =? 0) then set_snapshot_complete (<[y := true]> (snapshot_complete s)) s else s.

Definition take_order (o : md.new_order) (c : counts) : counts :=
  let y := md.no_symbol o in
  if md.no_side o =? md.SIDE.BUY then mk_counts (<[y := bid_count y c - 1]> (bid_orders c)) (ask_orders c)
  else mk_counts (bid_orders c) (<[y := ask_count y c - 1]> (ask_orders c)).

Definition push_order (o : md.new_order) (s : t) : t :=
  set_snapshot_buffer (<[md.no_symbol o := default [] (snapshot_buffer s !! md.no_symbol o) ++ [o]]> (snapshot_buffer s)) s.

(** [while (snapshot_len > 0)]: the messages of one packet, of which [len]
    bytes are left. *)
Fixpoint snapshot_loop (fuel : nat) (off : nat) (len : Z) (c : counts) : M t counts :=
  match fuel with
  | O => throw out_of_fuel
  | S fuel =>
      if len >? 0 then
        if len <? Z.of_nat (c_size md.c_md_header) then throw (runtime_error "Snapshot message too short")
        else
          data ← gets buf;
          header ← read md.c_md_header data off;
          if negb (md.magic_number header =? md.SNAPSHOT_MAGIC_NUMBER) then throw (runtime_error "Invalid magic number")
          else
            let next := snapshot_loop fuel (off + Z.to_nat (md.length header)) (len - md.length header) in
            if md.msg_type header =? md.MSG_TYPE.SNAPSHOT_INFO then
              info ← read md.c_snapshot_info data off;
              first ← get_first_live_seq_num;
              if md.si_last_md_seq_num info <=? first then mret c
              else
                let y := md.si_symbol info in
                let c := mk_counts (<[y := md.si_bid_count info]> (bid_orders c)) (<[y := md.si_ask_count info]> (ask_orders c)) in
                modify (set_last_snapshot_seq_num (md.si_last_md_seq_num info));;
                modify (λ s, set_snapshot_buffer (<[y := []]> (snapshot_buffer s)) s);;
                modify (complete_if_done y c);;
                next c
            else if md.msg_type header =? md.MSG_TYPE.NEW_ORDER then
              o ← read md.c_new_order data off;
              let c := take_order o c in
              modify (push_order o);;
              modify (complete_if_done (md.no_symbol o) c);;
              next c
            else next c
      else mret c
  end.

Definition is_complete (y : Z) (s : t) : bool := default false (snapshot_complete s !! y).

(** [while (!snapshot_complete[1] || !snapshot_complete[2])]: one packet of each
    feed per turn; a [continue] starts the next turn. *)
Fixpoint receive_loop (fuel : nat) (c : counts) : M t unit :=
  match fuel with
  | O => throw out_of_fuel
  | S fuel =>
      ready ← gets (λ s, is_complete 1 s && is_complete 2 s);
      if (ready : bool) then mret tt
      else
        live ← receive_live;
        match live with
        | None => receive_loop fuel c
        | Some n =>
            modify (λ s, set_live_buffer (live_buffer s ++ take n (buf s)) s);;
            snap ← receive_snapshot;
            match snap with
            | None => receive_loop fuel c
            | Some n => c ← snapshot_loop (S n) 0 (Z.of_nat n) c; receive_loop fuel c
            end
        end
  end.

Definition apply_snapshot (y : Z) : M t unit :=
  m ← gets snapshot_buffer;
  for_each (default [] (m !! y)) (λ o, modify (add_order o)).

(** [live_buffer.erase(begin, begin + n)] *)
Definition erase_live (n : Z) : M t unit :=
  b ← gets live_buffer;
  if Z.of_nat (length b) <? n then throw (undefined_behaviour "erase past the end of live_buffer")
  else modify (set_live_buffer (drop (Z.to_nat n) b)).

(** [while (!live_buffer.empty())].  [header] points into the buffer: when
    [process_message] restarted the recovery, it is read again after the buffer
    has been cleared. *)
Fixpoint live_loop (recover : M t unit) (fuel : nat) : M t unit :=
  match fuel with
  | O => throw out_of_fuel
  | S fuel =>
      b ← gets live_buffer;
      if bool_decide (b = []) then mret tt
      else
        header ← read md.c_md_header b 0;
        from ← gets last_snapshot_seq_num;
        if md.seq_num header <=? from then erase_live (md.length header);; live_loop recover fuel
        else
          process_message recover (S (length b)) b 0 (Z.of_nat (length b));;
          b ← gets live_buffer;
          if bool_decide (b = []) then throw (undefined_behaviour "header of a cleared buffer")
          else erase_live (md.length header);; live_loop recover fuel
  end.

Definition leave_group : M t unit :=
  if fw_leave <? 0 then throw (runtime_error "Failed to leave multicast group") else modify unsubscribe.

(** [depth] bounds the nesting of recoveries. *)
Fixpoint wait_for_snapshot (depth : nat) : M t unit :=
  match depth with
  | O => throw out_of_fuel
  | S depth =>
      modify (λ s, set_snapshot_complete (<[2 := false]> (<[1 := false]> (snapshot_complete s))) s);;
      receive_loop fw_fuel no_counts;;
      apply_snapshot 1;;
      apply_snapshot 2;;
      modify (λ s, set_last_md_seq_num (last_snapshot_seq_num s) s);;
      b ← gets live_buffer;
      live_loop (wait_for_snapshot depth) (S (length b));;
      when (negb fw_recover_on_drops) leave_group
  end.

Definition process : M t unit :=
  live ← receive_live;
  match live with
  | None => mret tt
  | Some n =>
      b ← gets buf;
      process_message (wait_for_snapshot fw_fuel) (S (length b)) b 0 (Z.of_nat n)
  end.
End ops.

Definition get_best_bid (y : Z) (s : t) : OrderBook.PriceLevel :=
  match symbol_to_order_book s !! y with None => OrderBook.mkLevel 0 0 | Some b => OrderBook.get_best_bid b end.
Definition get_best_ask (y : Z) (s : t) : OrderBook.PriceLevel :=
  match symbol_to_order_book s !! y with None => OrderBook.mkLevel 0 0 | Some b => OrderBook.get_best_ask b end.

#[global] Arguments BUF_SIZE : simpl never.
End MDClient.
