(* ===== verification/MdClientTheorems.v ===== *)
(** * A bot's market data client mirrors the feed

    The abstract market: the open orders by id with their symbol, and the
    symbols seen.  Every message moves it; the client's books are the
    aggregates of the market's orders. *)
From Stdlib Require Import Init.Byte.
From S2P Require Import Prelude Protocol MdMcast MdStream SnapshotClient BotBook BotBookTheorems MdClient.
Import BotBook.OrderBook MDClient.

(** ** The market *)

Record market := mk_market { mk_orders : gmap Z (Z * Order); mk_symbols : gset Z }.

Definition no_market : market := mk_market ∅ ∅.

Definition market_step (M : market) (m : md_msg) : market :=
  let G := mk_orders M in
  match m with
  | NewOrder i y d q p f => mk_market (<[i := (y, mkOrder d p q)]> G) ({[y]} ∪ mk_symbols M)
  | DeleteOrder i => mk_market (delete i G) (mk_symbols M)
  | ModifyOrder i d q p =>
      match G !! i with
      | Some (y, _) => mk_market (<[i := (y, mkOrder d p q)]> G) (mk_symbols M)
      | None => M
      end
  | Trade i q p =>
      match G !! i with
      | Some (y, o) =>
          mk_market (if quantity o =? q then delete i G
                     else <[i := (y, mkOrder (side o) (price o) (quantity o - q))]> G) (mk_symbols M)
      | None => M
      end
  | TradeSummary _ _ _ _ | Heartbeat => M
  end.

(** The orders of one symbol. *)
Definition book_of (y : Z) (G : gmap Z (Z * Order)) : gmap Z Order :=
  omap (λ '(y', o), if bool_decide (y' = y) then Some o else None) G.

(** What a feed says: new ids, orders that are open, trades within the order,
    summaries of symbols seen. *)
Definition msg_says (M : market) (m : md_msg) : Prop :=
  match m with
  | NewOrder i _ _ q _ _ => mk_orders M !! i = None ∧ 0 < q < 2 ^ 32
  | DeleteOrder i => is_Some (mk_orders M !! i)
  | ModifyOrder i _ q _ => is_Some (mk_orders M !! i) ∧ 0 < q < 2 ^ 32
  | Trade i q _ => 0 < q ∧ ∃ y o, mk_orders M !! i = Some (y, o) ∧ q <= quantity o
  | TradeSummary y _ _ _ => y ∈ mk_symbols M
  | Heartbeat => True
  end.

Fixpoint feed_says (M : market) (ms : list md_msg) : Prop :=
  match ms with [] => True | m :: ms => msg_says M m ∧ feed_says (market_step M m) ms end.

Lemma feed_says_app M ms ns : feed_says M (ms ++ ns) ↔ feed_says M ms ∧ feed_says (foldl market_step M ms) ns.
Proof. revert M. induction ms as [|m ms IH]; intros M; simpl; [tauto|]. rewrite IH. tauto. Qed.

(** The totals of every price fit 32 bits after every message. *)
Definition totals_fit (M : market) (ms : list md_msg) : Prop :=
  ∀ k y, bounded (book_of y (mk_orders (foldl market_step M (take k ms)))).

Lemma lookup_book_of y G i : book_of y G !! i = (G !! i ≫= λ '(y', o), if bool_decide (y' = y) then Some o else None).
Proof. apply lookup_omap. Qed.

Lemma book_of_insert y y' G i o :
  (∀ z o', G !! i = Some (z, o') → z = y') →
  book_of y (<[i := (y', o)]> G) = if bool_decide (y' = y) then <[i := o]> (book_of y G) else book_of y G.
Proof.
  intros Hi. apply map_eq. intros j. rewrite lookup_book_of. destruct (decide (j = i)) as [->|Hne].
  - rewrite lookup_insert_eq. simpl. case_bool_decide as Hy; [by rewrite lookup_insert_eq|].
    rewrite lookup_book_of. destruct (G !! i) as [[z o']|] eqn:Hz; [|done]. simpl.
    rewrite (Hi z o' eq_refl). by rewrite bool_decide_false.
  - rewrite lookup_insert_ne by done. case_bool_decide; rewrite ?lookup_insert_ne, lookup_book_of by done; done.
Qed.

Lemma book_of_delete y G i : book_of y (delete i G) = delete i (book_of y G).
Proof.
  apply map_eq. intros j. rewrite lookup_book_of. destruct (decide (j = i)) as [->|Hne].
  - by rewrite !lookup_delete_eq.
  - by rewrite !lookup_delete_ne, lookup_book_of by done.
Qed.

(** ** The client *)

(** What does not hold of the client's books in every environment — that the
    quantities of their levels add up — is relative to [P]: that memory reads
    the same after it has been freed, and that totals fit 32 bits. *)
Section client.
Context (P : Prop).

Definition msg_fits (M : market) (m : md_msg) : Prop :=
  msg_says M m ∧ (P → ∀ y, bounded (book_of y (mk_orders (market_step M m)))).

Fixpoint feed_fits (M : market) (ms : list md_msg) : Prop :=
  match ms with [] => True | m :: ms => msg_fits M m ∧ feed_fits (market_step M m) ms end.

Lemma says_fits ms : ∀ M, feed_says M ms → (P → totals_fit M ms) → feed_fits M ms.
Proof.
  induction ms as [|m ms IH]; intros M Hs Hb; [done|]. destruct Hs as [Hm Hs]. split.
  - split; [done|]. intros HP y. apply (Hb HP 1%nat y).
  - apply IH; [done|]. intros HP k y. apply (Hb HP (S k) y).
Qed.

Record keeps_market (M : market) (s : t) : Prop := {
  km_index : ∀ i y o, mk_orders M !! i = Some (y, o) → order_to_symbol s !! i = Some y;
  km_seen : ∀ i y o, mk_orders M !! i = Some (y, o) → y ∈ mk_symbols M;
  km_dom : dom (symbol_to_order_book s) = mk_symbols M;
  km_books : ∀ y b, symbol_to_order_book s !! y = Some b → mirrors P b (book_of y (mk_orders M));
}.

(** What one message leaves alone. *)
Definition same_rest (s s' : t) : Prop :=
  buf s' = buf s ∧ last_md_seq_num s' = last_md_seq_num s ∧ live_buffer s' = live_buffer s ∧
  last_snapshot_seq_num s' = last_snapshot_seq_num s ∧ live_recvs s' = live_recvs s ∧
  trade_summary_listener s' = trade_summary_listener s.

Lemma keeps_same M s s' :
  symbol_to_order_book s' = symbol_to_order_book s → order_to_symbol s' = order_to_symbol s → keeps_market M s → keeps_market M s'.
Proof. intros Hb Hi []. split; rewrite ?Hb, ?Hi; done. Qed.

Lemma keeps_initial : keeps_market no_market initial.
Proof. split; [done|done|done|]. intros y b. simpl. by rewrite lookup_empty. Qed.

Context `{FW : FeedWorld}.
Context (faithful : P → ∀ o, fw_freed o = o).

(** The operation of a symbol's book a message is. *)
Definition book_op_of (m : md_msg) : option book_op :=
  match m with
  | NewOrder i _ d q p f => Some (BNew i d q p f)
  | DeleteOrder i => Some (BDelete i)
  | ModifyOrder i d q p => Some (BModify i d q p)
  | Trade i q p => Some (BTrade i q p)
  | TradeSummary _ _ _ _ | Heartbeat => None
  end.

(** Where the order of a message is. *)
Definition symbol_in (M : market) (m : md_msg) : option Z :=
  match m with
  | NewOrder _ y _ _ _ _ => Some y
  | DeleteOrder i | ModifyOrder i _ _ _ | Trade i _ _ => fst <$> mk_orders M !! i
  | TradeSummary _ _ _ _ | Heartbeat => None
  end.

(** The books after a message, and after a feed. *)
Definition books_after (M : market) (m : md_msg) (books : gmap Z OrderBook.t) : gmap Z OrderBook.t :=
  match book_op_of m, symbol_in M m with
  | Some o, Some y => <[y := run_book fw_freed o (default OrderBook.initial (books !! y))]> books
  | _, _ => books
  end.

Fixpoint feed_books (M : market) (ms : list md_msg) (books : gmap Z OrderBook.t) : gmap Z OrderBook.t :=
  match ms with [] => books | m :: ms => feed_books (market_step M m) ms (books_after M m books) end.

Lemma feed_books_app M ms ns books :
  feed_books M (ms ++ ns) books = feed_books (foldl market_step M ms) ns (feed_books M ms books).
Proof. revert M books. induction ms as [|m ms IH]; intros M books; [done|]. apply IH. Qed.

Lemma book_of_step M m o y z :
  msg_fits M m → book_op_of m = Some o → symbol_in M m = Some y →
  book_of z (mk_orders (market_step M m)) = if bool_decide (y = z) then spec_book o (book_of z (mk_orders M)) else book_of z (mk_orders M).
Proof.
  intros [Hm _] Ho Hy. destruct m as [|i y' d q p f|i|i d q p|i q p|]; simplify_eq/=.
  - destruct Hm as [Hi _]. rewrite book_of_insert by (intros ? ?; by rewrite Hi). done.
  - apply fmap_Some in Hy as ([y' o] & Hi & ->). rewrite book_of_delete. simpl. case_bool_decide as Hz; [done|].
    apply delete_id. rewrite lookup_book_of, Hi. simpl. by rewrite bool_decide_false.
  - apply fmap_Some in Hy as ([y' o] & Hi & ->). rewrite Hi. simpl.
    rewrite book_of_insert by (intros ? ?; rewrite Hi; by intros [= -> ->]). case_bool_decide as Hz; [|done].
    rewrite lookup_book_of, Hi. simpl. by rewrite bool_decide_true.
  - apply fmap_Some in Hy as ([y' o] & Hi & ->). rewrite Hi. simpl. rewrite lookup_book_of, Hi. simpl.
    destruct (quantity o =? q) eqn:Hq.
    + rewrite book_of_delete. case_bool_decide as Hz; [by rewrite Hq|].
      apply delete_id. rewrite lookup_book_of, Hi. simpl. by rewrite bool_decide_false.
    + rewrite book_of_insert by (intros ? ?; rewrite Hi; by intros [= -> ->]).
      case_bool_decide as Hz; [by rewrite Hq|done].
Qed.

Lemma op_fits_of M m o y :
  msg_fits M m → book_op_of m = Some o → symbol_in M m = Some y → op_fits o (book_of y (mk_orders M)).
Proof.
  intros [Hm _] Ho Hy. destruct m as [|i y' d q p f|i|i d q p|i q p|]; simplify_eq/=.
  - destruct Hm as [Hi Hq]. split; [|done]. by rewrite lookup_book_of, Hi.
  - done.
  - tauto.
  - destruct Hm as (Hq & y' & o & Hi & Hle). split; [done|]. intros o'. rewrite lookup_book_of, Hi. simpl.
    case_bool_decide; [by intros [= <-]|done].
Qed.

(** A symbol's book after the message's operation. *)
Lemma keeps_step M m o y s b :
  keeps_market M s → msg_fits M m → book_op_of m = Some o → symbol_in M m = Some y →
  mirrors P b (book_of y (mk_orders M)) → y ∈ mk_symbols (market_step M m) →
  ∀ s', symbol_to_order_book s' = <[y := run_book fw_freed o b]> (symbol_to_order_book s) →
  (∀ i z o', mk_orders (market_step M m) !! i = Some (z, o') → order_to_symbol s' !! i = Some z) →
  keeps_market (market_step M m) s'.
Proof using faithful.
  intros K Hm Ho Hy Hb Hin s' Hs' Hix. pose proof (op_fits_of M m o y Hm Ho Hy) as Hfit.
  pose proof (λ z, book_of_step M m o y z Hm Ho Hy) as Hbook. destruct Hm as [Hm Hbd].
  assert (mk_symbols (market_step M m) = {[y]} ∪ mk_symbols M) as Hsy.
  { assert (∀ z, z ∈ mk_symbols M → {[z]} ∪ mk_symbols M = mk_symbols M) as Hu by set_solver.
    destruct m as [|i y' d q p f|i|i d q p|i q p|]; simplify_eq/=; [done|..];
      apply fmap_Some in Hy as ([y' o'] & Hi & ->); rewrite ?Hi; simpl; rewrite Hu; try done; by eapply (km_seen M s K). }
  split.
  - exact Hix.
  - intros i z o' Hi. rewrite Hsy. destruct (decide (z = y)) as [->|Hne]; [set_solver|].
    assert (book_of z (mk_orders M) !! i = Some o') as Hz.
    { specialize (Hbook z). rewrite bool_decide_false in Hbook by done.
      rewrite <-Hbook, lookup_book_of, Hi. simpl. by rewrite bool_decide_true. }
    rewrite lookup_book_of in Hz. destruct (mk_orders M !! i) as [[z' o2]|] eqn:Hi2; [|done]. simpl in Hz.
    case_bool_decide as Hzz; [|done]. subst z'. apply (km_seen M s K) in Hi2. set_solver.
  - rewrite Hs', dom_insert_L, (km_dom M s K). done.
  - intros z bz. rewrite Hs', Hbook. destruct (decide (y = z)) as [<-|Hne].
    + rewrite lookup_insert_eq, bool_decide_true by done. intros [= <-].
      apply mirrors_step; [exact faithful|done|done|]. intros HP. specialize (Hbd HP y). by rewrite Hbook, bool_decide_true in Hbd.
    + rewrite lookup_insert_ne, bool_decide_false by done. apply (km_books M s K).
Qed.

(** ** One message of a packet *)

Lemma run_read_at {A} (c : codec A) `{!CodecOk c} data pre a rest s :
  data = pre ++ c_enc c a ++ rest → c_ok c a → read c data (length pre) s = (Ret a, s).
Proof.
  intros -> Ha. unfold read. rewrite bool_decide_true by (rewrite !length_app, enc_length by done; lia).
  by rewrite drop_app_length, dec_enc.
Qed.

Lemma run_with_book y f s b :
  symbol_to_order_book s !! y = Some b → with_book y f s = (Ret true, on_book y (f b) s).
Proof. intros Hb. unfold with_book. erewrite bind_ret by reflexivity. cbn beta. by rewrite Hb. Qed.

Lemma run_symbol_of i y s : order_to_symbol s !! i = Some y → symbol_of i s = (Ret y, s).
Proof. intros Hi. unfold symbol_of. erewrite bind_ret by reflexivity. cbn beta. by rewrite Hi. Qed.

(** The book of an open order. *)
Lemma book_open M s i y o :
  keeps_market M s → mk_orders M !! i = Some (y, o) →
  ∃ b, symbol_to_order_book s !! y = Some b ∧ mirrors P b (book_of y (mk_orders M)).
Proof.
  intros K Hi. assert (y ∈ dom (symbol_to_order_book s)) as Hy by (rewrite (km_dom _ _ K); by eapply km_seen).
  apply elem_of_dom in Hy as [b Hb]. exists b. split; [done|by eapply km_books].
Qed.

(** The book of a symbol a new order is for. *)
Lemma book_new M s y :
  keeps_market M s → mirrors P (default OrderBook.initial (symbol_to_order_book s !! y)) (book_of y (mk_orders M)).
Proof.
  intros K. destruct (symbol_to_order_book s !! y) as [b|] eqn:Hb; [by eapply km_books|].
  assert (book_of y (mk_orders M) = ∅) as ->; [|apply mirrors_initial].
  apply map_eq. intros i. rewrite lookup_book_of, lookup_empty. destruct (mk_orders M !! i) as [[z o]|] eqn:Hi; [|done].
  simpl. case_bool_decide as Hz; [|done]. subst z. destruct (book_open M s i y o K Hi) as (b & Hb2 & _). congruence.
Qed.

Lemma keeps_add_order M s h i y d q p f :
  keeps_market M s → msg_fits M (NewOrder i y d q p f) →
  keeps_market (market_step M (NewOrder i y d q p f)) (add_order (md.Build_new_order h i y d q p f) s).
Proof using faithful.
  intros K Hm.
  eapply (keeps_step M (NewOrder i y d q p f) (BNew i d q p f) y); [exact K|exact Hm|done|done|by apply book_new|set_solver|done|].
  simpl. intros j z o'. destruct (decide (j = i)) as [->|Hne]; [rewrite !lookup_insert_eq; congruence|].
  rewrite !lookup_insert_ne by done. by eapply km_index.
Qed.

Ltac books_done :=
  unfold books_after; simpl;
  repeat match goal with
  | Hi : mk_orders _ !! _ = Some _ |- _ => rewrite Hi; simpl; clear Hi
  | Hb : symbol_to_order_book _ !! _ = Some _ |- _ => rewrite Hb; simpl; clear Hb
  end; reflexivity.

Lemma run_message M s seq ts m data pre rest len :
  keeps_market M s → msg_fits M m → data = pre ++ frame seq ts m ++ rest → is_u32 seq → is_u64 ts → msg_ok m →
  Z.of_nat (msg_size m) <= len →
  ∃ s', apply_message data (length pre) len (msg_tag m) s = (Ret true, s') ∧ keeps_market (market_step M m) s' ∧ same_rest s s' ∧
    symbol_to_order_book s' = books_after M m (symbol_to_order_book s).
Proof using faithful.
  intros K Hm Hd Hs Ht Hok Hl. pose proof (struct_ok seq ts m Hs Ht Hok) as Hst. unfold frame in Hd.
  pose proof Hm as [Hm' _].
  destruct m as [|i y d q p f|i|i d q p|i q p|y d q p]; unfold apply_message; cbn [msg_tag];
    repeat match goal with |- context [?a =? ?b] => change (a =? b) with true || change (a =? b) with false end; cbn iota zeta;
    try (rewrite (proj2 (Z.ltb_ge len _)) by exact Hl);
    [|erewrite bind_ret by (eapply run_read_at; [apply _|exact Hd|exact Hst]); cbn beta..];
    cbn [md.do_order_id md.mo_order_id md.mo_side md.mo_quantity md.mo_price md.tr_order_id md.tr_quantity md.tr_price
         md.ts_symbol md.ts_aggressor_side md.ts_total_quantity md.ts_last_price].
  - exists s. by split_and!.
  - eexists. split; [reflexivity|]. split; [|split; [by split_and!|books_done]].
    by apply keeps_add_order.
  - destruct Hm' as [[y o] Hi]. destruct (book_open M s i y o K Hi) as (b & Hb & Hmir).
    erewrite bind_ret by (eapply run_symbol_of, km_index; done). cbn beta.
    erewrite run_with_book by exact Hb. eexists. split; [reflexivity|]. split; [|split; [by split_and!|books_done]].
    eapply (keeps_step M (DeleteOrder i) (BDelete i) y); [exact K|exact Hm|done|by simpl; rewrite Hi|exact Hmir|exact (km_seen _ _ K _ _ _ Hi)|done|].
    simpl. intros j z o' [_ Hj]%lookup_delete_Some. by eapply km_index.
  - destruct Hm' as [[[y o] Hi] Hq]. destruct (book_open M s i y o K Hi) as (b & Hb & Hmir).
    erewrite bind_ret by (eapply run_symbol_of, km_index; done). cbn beta.
    erewrite run_with_book by exact Hb. eexists. split; [reflexivity|]. split; [|split; [by split_and!|books_done]].
    eapply (keeps_step M (ModifyOrder i d q p) (BModify i d q p) y); [exact K|exact Hm|done|by simpl; rewrite Hi|exact Hmir| |done|];
      simpl; rewrite Hi; simpl; [exact (km_seen _ _ K _ _ _ Hi)|].
    intros j z o' [[<- [= <- <-]]|[_ Hj]]%lookup_insert_Some; by eapply km_index.
  - destruct Hm' as (Hq & y & o & Hi & Hle). destruct (book_open M s i y o K Hi) as (b & Hb & Hmir).
    erewrite bind_ret by reflexivity. cbn beta. rewrite (km_index _ _ K _ _ _ Hi).
    erewrite run_with_book by exact Hb. eexists. split; [reflexivity|]. split; [|split; [by split_and!|books_done]].
    eapply (keeps_step M (Trade i q p) (BTrade i q p) y); [exact K|exact Hm|done|by simpl; rewrite Hi|exact Hmir| |done|];
      simpl; rewrite Hi; simpl; [exact (km_seen _ _ K _ _ _ Hi)|].
    intros j z o'. destruct (quantity o =? q); [intros [_ Hj]%lookup_delete_Some; by eapply km_index|].
    intros [[<- [= <- <-]]|[_ Hj]]%lookup_insert_Some; by eapply km_index.
  - erewrite bind_ret by reflexivity. cbn beta. simpl in Hm'. rewrite <-(km_dom _ _ K) in Hm'. apply elem_of_dom in Hm' as [b Hb]. rewrite Hb.
    erewrite bind_ret by reflexivity. cbn beta.
    destruct (trade_summary_listener s) eqn:Hlis; cbn [when]; (erewrite bind_ret by reflexivity; cbn beta); eexists;
      (split; [reflexivity|]); (split; [by eapply keeps_same; [| |exact K]|split; [by split_and!|done]]).
Qed.

(** ** A packet *)

(** Frames numbered on from [n]. *)
Fixpoint numbered_from (n : Z) (fs : list (Z * Z * md_msg)) : Prop :=
  match fs with [] => True | (s, _, _) :: fs => s = n ∧ numbered_from (n + 1) fs end.

Lemma run_frames recover fs : ∀ fuel M s data pre stale,
  keeps_market M s → feed_fits M (fs.*2) → data = pre ++ enc_frames fs ++ stale → Forall numbered_ok fs →
  numbered_from (last_md_seq_num s + 1) fs → (length fs < fuel)%nat → Z.of_nat (length (enc_frames fs)) < 2 ^ 64 →
  ∃ s', process_message recover fuel data (length pre) (Z.of_nat (length (enc_frames fs))) s = (Ret tt, s') ∧
    keeps_market (foldl market_step M (fs.*2)) s' ∧ buf s' = buf s ∧ live_recvs s' = live_recvs s ∧
    live_buffer s' = live_buffer s ∧ last_snapshot_seq_num s' = last_snapshot_seq_num s ∧
    last_md_seq_num s' = last_md_seq_num s + Z.of_nat (length fs) ∧
    symbol_to_order_book s' = feed_books M (fs.*2) (symbol_to_order_book s).
Proof using faithful.
  induction fs as [|[[seq ts] m] fs IH]; intros [|fuel] M s data pre stale K Hfit Hd Hok Hnum Hfuel Hlen; simpl in Hfuel; try lia.
  { exists s. simpl. rewrite Z.add_0_r. by split_and!. }
  apply Forall_cons in Hok as [(Hs & Ht & Hm) Hok]. cbn [fst snd] in *. destruct Hnum as [Hseq Hnum]. destruct Hfit as [Hf Hfit].
  change (enc_frames ((seq, ts, m) :: fs)) with (frame seq ts m ++ enc_frames fs) in *.
  rewrite length_app, frame_length in * by done. rewrite <-!app_assoc in Hd.
  pose proof (msg_size_bound m) as Hsz.
  cbn [process_message]. rewrite (proj2 (Z.gtb_gt _ 0)) by lia. rewrite (proj2 (Z.ltb_ge _ (Z.of_nat (c_size md.c_md_header)))) by (change (c_size md.c_md_header) with 23%nat; lia).
  erewrite bind_ret.
  2: { eapply (run_read_at md.c_md_header data pre (wire_header seq ts m)); [|by apply wire_header_ok].
       rewrite Hd. unfold frame. rewrite msg_bytes_split, <-app_assoc. done. }
  cbn beta zeta. change (md.magic_number (wire_header seq ts m)) with md.MAGIC_NUMBER. rewrite Z.eqb_refl. cbn [negb].
  erewrite bind_ret by reflexivity. cbn beta. cbn [md.seq_num wire_header md.msg_type md.length].
  assert (u32 (last_md_seq_num s + 1) = seq) as -> by (rewrite Hseq; apply u32_id; by rewrite <-Hseq).
  rewrite Z.gtb_ltb, Z.ltb_irrefl. rewrite (proj2 (Z.leb_gt seq _)) by lia.
  erewrite bind_ret by reflexivity. cbn beta.
  destruct (run_message M (set_last_md_seq_num seq s) seq ts m data pre (enc_frames fs ++ stale)
    (Z.of_nat (msg_size m + length (enc_frames fs)))) as (s1 & Hrun & K1 & (Hb1 & Hl1 & Hv1 & Hn1 & Hr1 & _) & Hbk1); [by apply (keeps_same M s)|done..|lia|].
  erewrite bind_ret by exact Hrun. cbn beta iota.
  assert (u64 (Z.of_nat (msg_size m + length (enc_frames fs)) - Z.of_nat (msg_size m)) = Z.of_nat (length (enc_frames fs))) as ->
    by (rewrite u64_id; unfold is_u64; lia).
  assert (length pre + Z.to_nat (Z.of_nat (msg_size m)) = length (pre ++ frame seq ts m))%nat as ->
    by (rewrite length_app, frame_length by done; lia).
  simpl in Hb1, Hl1, Hv1, Hn1, Hr1.
  destruct (IH fuel (market_step M m) s1 data (pre ++ frame seq ts m) stale) as (s' & Hrun' & K' & Hb' & Hr' & Hv' & Hn' & Hl' & Hbk');
    [done|done|by rewrite Hd, <-app_assoc|done|by rewrite Hl1, Hseq|lia|lia|].
  exists s'. split; [exact Hrun'|]. split; [done|]. split_and!; try congruence.
  - rewrite Hl', Hl1, Hseq. simpl length. lia.
  - rewrite Hbk', Hbk1. done.
Qed.

Lemma run_receive_live s pkt :
  fw_live (live_recvs s) = RecvPacket pkt → (length pkt ≤ BUF_SIZE)%nat →
  receive_live s = (Ret (Some (length pkt)), set_buf (pkt ++ drop (length pkt) (buf s)) (count_live s)).
Proof.
  intros Hw Hl. unfold receive_live. erewrite bind_ret by reflexivity. cbn beta. erewrite bind_ret by reflexivity. cbn beta.
  rewrite Hw. unfold receive. rewrite firstn_all2 by done. reflexivity.
Qed.

Definition mtu (fs : list (Z * Z * md_msg)) : Prop := Z.of_nat (length (enc_frames fs)) <= MarketDataPublisher.BUFFER_SIZE.

Lemma mtu_fits fs : mtu fs → (length (enc_frames fs) ≤ BUF_SIZE)%nat.
Proof. unfold mtu, MarketDataPublisher.BUFFER_SIZE. assert (Z.of_nat BUF_SIZE = 4096) by done. lia. Qed.

Lemma run_process_packet M s fs :
  keeps_market M s → length (buf s) = BUF_SIZE → fw_live (live_recvs s) = RecvPacket (enc_frames fs) → mtu fs →
  Forall numbered_ok fs → numbered_from (last_md_seq_num s + 1) fs → feed_fits M (fs.*2) →
  ∃ s', process s = (Ret tt, s') ∧ keeps_market (foldl market_step M (fs.*2)) s' ∧ length (buf s') = BUF_SIZE ∧
    live_recvs s' = S (live_recvs s) ∧ last_md_seq_num s' = last_md_seq_num s + Z.of_nat (length fs) ∧
    symbol_to_order_book s' = feed_books M (fs.*2) (symbol_to_order_book s).
Proof using faithful.
  intros K Hb Hw Hm Hok Hnum Hfit. unfold process.
  erewrite bind_ret by (eapply run_receive_live; [exact Hw|by apply mtu_fits]). cbn beta iota.
  erewrite bind_ret by reflexivity. cbn beta.
  pose proof (mtu_fits fs Hm) as Hfits. assert (Z.of_nat BUF_SIZE = 4096) as HB by done. revert HB Hfits Hb.
  generalize BUF_SIZE as n. intros n HB Hfits Hb.
  pose proof (enc_frames_length fs Hok) as Hn.
  set (s1 := set_buf _ (count_live s)).
  edestruct (run_frames (wait_for_snapshot fw_fuel) fs (S (length (buf s1))) M s1 (buf s1) [] (drop (length (enc_frames fs)) (buf s)))
    as (s' & Hrun & K' & Hb' & Hr' & _ & _ & Hl' & Hbk');
    [by apply (keeps_same M s)|done|done|done|exact Hnum|simpl; rewrite length_app; lia|lia|].
  exists s'. split; [exact Hrun|]. split; [done|]. split; [|by rewrite Hr', Hl', Hbk'].
  rewrite Hb'. simpl. rewrite length_app, length_drop. lia.
Qed.

Lemma numbered_from_app n fs gs :
  numbered_from n (fs ++ gs) ↔ numbered_from n fs ∧ numbered_from (n + Z.of_nat (length fs)) gs.
Proof.
  revert n. induction fs as [|[[q ts] m] fs IH]; intros n; [rewrite Z.add_0_r; simpl; tauto|].
  cbn [numbered_from app]. rewrite IH. replace (n + Z.of_nat (length ((q, ts, m) :: fs))) with (n + 1 + Z.of_nat (length fs)) by (simpl length; lia). tauto.
Qed.

Lemma feed_fits_app M ms ns : feed_fits M (ms ++ ns) ↔ feed_fits M ms ∧ feed_fits (foldl market_step M ms) ns.
Proof. revert M. induction ms as [|m ms IH]; intros M; simpl; [tauto|]. rewrite IH. tauto. Qed.

Lemma run_feed fss : ∀ M s,
  keeps_market M s → length (buf s) = BUF_SIZE →
  (∀ k fs, fss !! k = Some fs → fw_live (live_recvs s + k) = RecvPacket (enc_frames fs)) → Forall mtu fss →
  Forall numbered_ok (concat fss) → numbered_from (last_md_seq_num s + 1) (concat fss) → feed_fits M ((concat fss).*2) →
  ∃ s', for_each fss (λ _, process) s = (Ret tt, s') ∧ keeps_market (foldl market_step M ((concat fss).*2)) s' ∧
    last_md_seq_num s' = last_md_seq_num s + Z.of_nat (length (concat fss)) ∧
    symbol_to_order_book s' = feed_books M ((concat fss).*2) (symbol_to_order_book s).
Proof using faithful.
  induction fss as [|fs fss IH]; intros M s K Hb Hw Hm Hok Hnum Hfit.
  { exists s. simpl. rewrite Z.add_0_r. done. }
  simpl concat in *. apply Forall_app in Hok as [Hok1 Hok]. apply Forall_cons in Hm as [Hm1 Hm].
  rewrite fmap_app in *. apply numbered_from_app in Hnum as [Hn1 Hn]. apply feed_fits_app in Hfit as [Hf1 Hf].
  destruct (run_process_packet M s fs K Hb) as (s1 & Hrun & K1 & Hb1 & Hr1 & Hl1 & Hbk1);
    [by rewrite <-(Nat.add_0_r (live_recvs s)); apply Hw|done..|].
  destruct (IH (foldl market_step M (fs.*2)) s1 K1 Hb1) as (s' & Hrun' & K' & Hl' & Hbk'); [|done|done|by rewrite Hl1, <-Z.add_assoc, (Z.add_comm (Z.of_nat _)), Z.add_assoc|done|].
  { intros k gs Hk. rewrite Hr1, Nat.add_succ_comm. by apply (Hw (S k)). }
  exists s'. split; [simpl; by erewrite bind_ret by exact Hrun|]. rewrite foldl_app. split; [done|].
  split; [rewrite Hl', Hl1, length_app; lia|]. by rewrite Hbk', Hbk1, feed_books_app.
Qed.

(** A feed that has jumped past the next message. *)
Definition jumped (n : Z) (fs : list (Z * Z * md_msg)) : Prop :=
  mtu fs ∧ Forall numbered_ok fs ∧ ∃ q ts m fs', fs = (q, ts, m) :: fs' ∧ u32 (n + 1) < q.

Lemma run_process_gap s fs :
  fw_recover_on_drops = false → length (buf s) = BUF_SIZE → fw_live (live_recvs s) = RecvPacket (enc_frames fs) →
  jumped (last_md_seq_num s) fs →
  process s = (Ret tt, set_buf (enc_frames fs ++ drop (length (enc_frames fs)) (buf s)) (count_live s)).
Proof.
  intros Hrec Hb Hw (Hm & Hok & q & ts & m & fs' & -> & Hq). unfold process.
  erewrite bind_ret by (eapply run_receive_live; [exact Hw|by apply mtu_fits]). cbn beta iota.
  erewrite bind_ret by reflexivity. cbn beta. set (s1 := set_buf _ (count_live s)).
  apply Forall_cons in Hok as [(Hs & Ht & Hmk) Hok]. cbn [fst snd] in *.
  change (enc_frames ((q, ts, m) :: fs')) with (frame q ts m ++ enc_frames fs') in *.
  pose proof (msg_size_bound m) as Hsz. cbn [process_message].
  rewrite length_app, frame_length by done.
  rewrite (proj2 (Z.gtb_gt _ 0)) by lia. rewrite (proj2 (Z.ltb_ge _ (Z.of_nat (c_size md.c_md_header)))) by (change (c_size md.c_md_header) with 23%nat; lia).
  erewrite bind_ret.
  2: { eapply (run_read_at md.c_md_header _ [] (wire_header q ts m)); [|by apply wire_header_ok].
       simpl. unfold frame. rewrite msg_bytes_split, <-!app_assoc. done. }
  cbn beta zeta. change (md.magic_number (wire_header q ts m)) with md.MAGIC_NUMBER. rewrite Z.eqb_refl. cbn [negb].
  erewrite bind_ret by reflexivity. cbn beta. cbn [md.seq_num wire_header].
  rewrite (proj2 (Z.gtb_gt q _)) by (simpl; lia). by rewrite Hrec.
Qed.
End client.

(** ** Properties *)

(** The client's orders are the market's, and the levels of its books add up. *)
Definition keeps_orders : market → t → Prop := keeps_market False.
Definition keeps_levels (M : market) (s : t) : Prop :=
  ∀ y b, symbol_to_order_book s !! y = Some b → aggregates b (book_of y (mk_orders M)).

Lemma keeps_both (P : Prop) M s : keeps_orders M s → (P → keeps_levels M s) → keeps_market P M s.
Proof. intros [Hi Hs Hd Hb] Hl. split; try done. intros y b Hy. destruct (Hb y b Hy) as [Ho Hp _]. split; [done|done|]. intros HP. by apply Hl. Qed.

Lemma keeps_market_orders P M s : keeps_market P M s → keeps_orders M s.
Proof. intros [Hi Hs Hd Hb]. split; try done. intros y b Hy. by destruct (Hb y b Hy). Qed.

Lemma keeps_market_levels (P : Prop) M s : P → keeps_market P M s → keeps_levels M s.
Proof. intros HP K y b Hy. destruct (km_books _ _ _ K y b Hy) as [_ _ Hl]. by apply Hl. Qed.

Lemma keeps_best M s y :
  keeps_orders M s → keeps_levels M s → y ∈ mk_symbols M →
  has_best true (book_of y (mk_orders M)) (MDClient.get_best_bid y s) ∧
  has_best false (book_of y (mk_orders M)) (MDClient.get_best_ask y s).
Proof.
  intros K Hl Hy. rewrite <-(km_dom _ _ _ K) in Hy. apply elem_of_dom in Hy as [b Hb].
  unfold MDClient.get_best_bid, MDClient.get_best_ask. rewrite Hb. split; by apply aggregates_best, Hl.
Qed.

(** C12 ([client_mirrors_feed]): a client in step with the market that polls its socket
    once per packet of the feed — whole frames, numbered on from its last
    message, of at most 1460 bytes — never fails, and afterwards every symbol's
    book holds exactly the market's open orders of that symbol; its last
    sequence number is the feed's.  If, moreover, an order's memory reads the
    same after a full trade has freed it (the code reads it then) and the total
    of every price fits 32 bits, then every level is the total of its orders,
    as it was before, and the best bid and ask are those of the orders. *)
Theorem client_mirrors_feed (FW : FeedWorld) M s fss :
  keeps_orders M s → length (buf s) = BUF_SIZE →
  (∀ k fs, fss !! k = Some fs → fw_live (live_recvs s + k) = RecvPacket (enc_frames fs)) → Forall mtu fss →
  Forall numbered_ok (concat fss) → numbered_from (last_md_seq_num s + 1) (concat fss) → feed_says M ((concat fss).*2) →
  let M' := foldl market_step M ((concat fss).*2) in
  ∃ s', for_each fss (λ _, process) s = (Ret tt, s') ∧ keeps_orders M' s' ∧
    last_md_seq_num s' = last_md_seq_num s + Z.of_nat (length (concat fss)) ∧
    ((∀ o, fw_freed o = o) → totals_fit M ((concat fss).*2) → keeps_levels M s →
     keeps_levels M' s' ∧ ∀ y, y ∈ mk_symbols M' →
      has_best true (book_of y (mk_orders M')) (MDClient.get_best_bid y s') ∧
      has_best false (book_of y (mk_orders M')) (MDClient.get_best_ask y s')).
Proof.
  intros K Hb Hw Hm Hok Hnum Hsays M'.
  set (P := (∀ o, fw_freed o = o) ∧ totals_fit M ((concat fss).*2) ∧ keeps_levels M s).
  destruct (run_feed P ltac:(by intros [? _]) fss M s) as (s' & Hrun & K' & Hl & _); [|done..| |].
  { apply keeps_both; [done|]. by intros (_ & _ & ?). }
  { apply says_fits; [done|]. by intros (_ & ? & _). }
  exists s'. split; [exact Hrun|]. split; [by eapply keeps_market_orders|]. split; [exact Hl|]. intros H1 H2 H3.
  assert (keeps_levels M' s') as HL by by exact (keeps_market_levels P M' s' (conj H1 (conj H2 H3)) K'). split; [done|].
  intros y Hy. apply keeps_best; [by eapply keeps_market_orders|done..].
Qed.

(** *** Examples *)

Lemma sum_book_of y G : map_Forall (λ _ x, 0 < quantity x.2 < 2 ^ 32) G →
  all_positive (book_of y G) ∧ sum_quantity (book_of y G) <= map_fold (λ _ x z, quantity x.2 + z) 0 G.
Proof.
  induction G as [|i [y' o] G Hi IH] using map_ind; intros Hp; [by split|].
  apply map_Forall_insert in Hp as [Ho Hp]; [|done]. destruct (IH Hp) as [Hpos Hs].
  rewrite (map_fold_insert_L (λ _ (x : Z * Order) z, quantity x.2 + z)) by (done || intros; lia).
  rewrite book_of_insert by (intros ? ?; by rewrite Hi). simpl in *. case_bool_decide; [|split; [done|lia]].
  split; [by apply positive_insert|]. unfold sum_quantity. rewrite (map_fold_insert_L (λ _ o z, quantity o + z)); [|intros; lia|].
  - unfold sum_quantity in Hs. lia.
  - rewrite lookup_book_of, Hi. done.
Qed.

Lemma market_bounded G : map_fold (λ _ x z, quantity x.2 + z) 0 G < 2 ^ 32 → map_Forall (λ _ x, 0 < quantity x.2 < 2 ^ 32) G →
  ∀ y, bounded (book_of y G).
Proof.
  intros Hs Hp y. destruct (sum_book_of y G Hp) as [Hpos Hle]. intros buy p.
  eapply Z.le_lt_trans; [by apply total_le_sum|lia].
Qed.

Definition demo_frames : list (list (Z * Z * md_msg)) := [
  [(1, 5, NewOrder 10 1 md.SIDE.BUY 100 50 0); (2, 6, NewOrder 11 2 md.SIDE.SELL 7 80 0)];
  [(3, 7, Trade 10 40 50); (4, 7, TradeSummary 1 md.SIDE.SELL 40 50); (5, 8, ModifyOrder 11 md.SIDE.BUY 9 70)];
  [(6, 9, Heartbeat); (7, 9, DeleteOrder 11)]].

(** A feed's messages, one by one. *)
Ltac says_done :=
  repeat match goal with
  | |- _ ∧ _ => split
  | |- msg_says _ _ => unfold msg_says; cbv beta iota
  | |- True => exact I
  | |- _ ∈ _ => by_decide
  | |- _ = None => vm_compute; reflexivity
  | |- is_Some _ => vm_compute; eexists; reflexivity
  | |- ∃ _, _ => do 2 eexists; split; [vm_compute; reflexivity|vm_compute; discriminate]
  | |- _ < _ => lia
  end.

Lemma demo_feed_says : feed_says no_market ((concat demo_frames).*2).
Proof. cbn [concat demo_frames fmap list_fmap app snd feed_says]. says_done. Qed.

Lemma demo_totals_fit : totals_fit no_market ((concat demo_frames).*2).
Proof.
  cbn [concat demo_frames fmap list_fmap app snd].
  do 7 (intros k; destruct k as [|k]; [intros ?; apply market_bounded; [vm_compute; reflexivity|by_decide]|revert k]).
  intros k ?. rewrite (firstn_all2 (n := 7 + k)) by (simpl; lia). apply market_bounded; [vm_compute; reflexivity|by_decide].
Qed.

Definition demo_world : FeedWorld := {|
  fw_live := λ n, match demo_frames !! n with Some fs => RecvPacket (enc_frames fs) | None => RecvWouldBlock end;
  fw_snapshot := λ _, RecvWouldBlock;
  fw_leave := 0;
  fw_freed := λ o, o;
  fw_recover_on_drops := false;
  fw_fuel := 10;
|}.

Lemma client_mirrors_feed_witness :
  let M' := foldl market_step no_market ((concat demo_frames).*2) in
  mk_orders M' = {[10 := (1, mkOrder md.SIDE.BUY 50 60)]} ∧
  ∃ s', for_each demo_frames (λ _, process (H := demo_world)) initial = (Ret tt, s') ∧ keeps_orders M' s' ∧
    last_md_seq_num s' = 0 + Z.of_nat (length (concat demo_frames)) ∧
    ∀ y, y ∈ mk_symbols M' →
      has_best true (book_of y (mk_orders M')) (MDClient.get_best_bid y s') ∧
      has_best false (book_of y (mk_orders M')) (MDClient.get_best_ask y s').
Proof.
  split; [by_decide|].
  destruct (client_mirrors_feed demo_world no_market initial demo_frames) as (s' & Hrun & K & Hl & Hlv).
  - apply keeps_initial.
  - reflexivity.
  - intros k fs Hk. unfold fw_live, demo_world. simpl plus. by rewrite Hk.
  - unfold mtu. by_decide.
  - unfold numbered_ok. by_decide.
  - simpl. tauto.
  - apply demo_feed_says.
  - exists s'. split; [exact Hrun|]. split; [exact K|]. split; [exact Hl|].
    apply Hlv; [done|apply demo_totals_fit|]. intros y b Hy. simpl in Hy. by rewrite lookup_empty in Hy.
Defined.

(** A client that does not recover from drops ignores every
    packet from the first gap on: whatever the packets that have jumped past the
    message it waits for, its books and its sequence number never change again. *)
Theorem gap_stalls_client (FW : FeedWorld) fss s :
  fw_recover_on_drops = false → length (buf s) = BUF_SIZE →
  (∀ k fs, fss !! k = Some fs → fw_live (live_recvs s + k) = RecvPacket (enc_frames fs)) →
  Forall (jumped (last_md_seq_num s)) fss →
  ∃ s', for_each fss (λ _, process) s = (Ret tt, s') ∧ symbol_to_order_book s' = symbol_to_order_book s ∧
    order_to_symbol s' = order_to_symbol s ∧ last_md_seq_num s' = last_md_seq_num s ∧ summaries s' = summaries s.
Proof.
  intros Hrec. revert s. induction fss as [|fs fss IH]; intros s Hb Hw Hj; [by exists s|].
  apply Forall_cons in Hj as [Hj1 Hj].
  pose proof (run_process_gap s fs Hrec Hb) as Hrun. rewrite <-(Nat.add_0_r (live_recvs s)) in Hrun at 1.
  specialize (Hrun (Hw 0%nat fs eq_refl) Hj1). set (s1 := set_buf _ (count_live s)) in Hrun.
  destruct (IH s1) as (s' & Hrun' & H1 & H2 & H3 & H4).
  - subst s1. simpl. destruct Hj1 as [Hm _]. apply mtu_fits in Hm. rewrite length_app, length_drop. lia.
  - intros k gs Hk. change (live_recvs s1) with (S (live_recvs s)). rewrite Nat.add_succ_comm. by apply (Hw (S k)).
  - done.
  - exists s'. split; [simpl; by erewrite bind_ret by exact Hrun|done].
Qed.

Definition lossy_world : FeedWorld := {|
  fw_live := λ n, match drop 1 demo_frames !! n with Some fs => RecvPacket (enc_frames fs) | None => RecvWouldBlock end;
  fw_snapshot := λ _, RecvWouldBlock;
  fw_leave := 0;
  fw_freed := λ o, o;
  fw_recover_on_drops := false;
  fw_fuel := 10;
|}.

Lemma gap_stalls_client_witness :
  ∃ s', for_each (drop 1 demo_frames) (λ _, process (H := lossy_world)) initial = (Ret tt, s') ∧
    symbol_to_order_book s' = ∅ ∧ order_to_symbol s' = ∅ ∧ last_md_seq_num s' = 0 ∧ summaries s' = [].
Proof.
  apply (gap_stalls_client lossy_world (drop 1 demo_frames) initial).
  - reflexivity.
  - reflexivity.
  - intros k fs Hk. unfold fw_live, lossy_world. simpl plus. by rewrite Hk.
  - assert (∀ q ts m fs', mtu ((q, ts, m) :: fs') → Forall numbered_ok ((q, ts, m) :: fs') → 1 < q → jumped 0 ((q, ts, m) :: fs')) as Hj.
    { intros q ts m fs' H1 H2 H3. split; [done|]. split; [done|]. by exists q, ts, m, fs'. }
    constructor; [apply Hj; [unfold mtu; by_decide|unfold numbered_ok; by_decide|lia]|].
    constructor; [apply Hj; [unfold mtu; by_decide|unfold numbered_ok; by_decide|lia]|constructor].
Defined.
