(* ===== verification/BboPrinter.v ===== *)
(** * [viewer/bbo_printer.cpp]: the order books of a captured feed

    The program reads a capture of the market data feed and keeps the bots' order
    books from the messages it finds in order. *)
From Stdlib Require Import Init.Byte.
From S2P Require Import Prelude Protocol BotBook.

(** The lines that this printer and [pcap_printer.cpp] write to [std::cout] and
    [std::cerr]. *)
Inductive line :=
  | invalid_magic_number (magic : Z)
  | too_short (msg_type len : Z)
  | order_not_found (order_id : Z)
  | book_not_found (symbol : Z)
  | summary_title
  | summary (symbol last_price total_quantity : Z)
  | heartbeat
  | found_start (tv_sec : Z)
  | caplen_left (len : Z)
  | live_stored (seq_num length : Z)
  | snapshot_message (seq_num : Z)
  | snapshot_info_line (symbol last_md_seq_num bid_count ask_count : Z)
  | missing_seq_num (last seq_num : Z)
  | bbo_line (seconds seq_num symbol bid bid_quantity ask ask_quantity : Z)
  | count_not_found (symbol : Z)
  | snapshot_new_order (symbol side quantity price : Z)
  | snapshot_counts (symbol bid_count ask_count : Z)
  | snapshot_done (last_seq_num : Z)
  | live_message (seq_num : Z)
  | playing (seq_num len : Z)
  | len_left (len : Z)
  | done_playing
  | unknown_type (msg_type : Z).

#[global] Instance line_eq_dec : EqDecision line.
Proof. solve_decision. Defined.

Module BboPrinter.

(** [order_books] holds the books behind the pointers. *)
Record t := mk {
  order_books : gmap Z OrderBook.t;
  order_to_symbol : gmap Z Z;
  last_seq_num : Z;
  output : list line;
}.

Definition initial : t := mk ∅ ∅ 0 [].

Definition set_books (m : gmap Z OrderBook.t) (s : t) : t := mk m (order_to_symbol s) (last_seq_num s) (output s).
Definition set_order_to_symbol (m : gmap Z Z) (s : t) : t := mk (order_books s) m (last_seq_num s) (output s).
Definition set_last_seq_num (n : Z) (s : t) : t := mk (order_books s) (order_to_symbol s) n (output s).
Definition add_line (l : line) (s : t) : t := mk (order_books s) (order_to_symbol s) (last_seq_num s) (output s ++ [l]).

Definition print (l : line) : M t unit := modify (add_line l).

(** A captured packet is [data], of which [packet] points at offset [off]; what
    lies behind it is not the program's to read. *)
Definition read {A} (c : codec A) (data : list byte) (off : nat) : M t A :=
  if bool_decide (off + c_size c ≤ length data)%nat then mret (c_dec c (drop off data))
  else throw (undefined_behaviour "read past the end of the packet").

Section ops.
Context (freed : OrderBook.Order → OrderBook.Order).

(** [order_books[symbol]], made when missing, and its [new_order]. *)
Definition add_order (o : md.new_order) (s : t) : t :=
  let y := md.no_symbol o in
  let b := default OrderBook.initial (order_books s !! y) in
  let b := OrderBook.new_order (md.no_order_id o) (md.no_side o) (md.no_quantity o) (md.no_price o) (md.no_flags o) b in
  set_order_to_symbol (<[md.no_order_id o := y]> (order_to_symbol s)) (set_books (<[y := b]> (order_books s)) s).

(** [order_to_symbol.find(id)], then [order_books.find(symbol)], and the
    operation on the book; [k] follows it. *)
Definition with_book (order_id : Z) (f : OrderBook.t → OrderBook.t) (k : M t unit) : M t unit :=
  ids ← gets order_to_symbol;
  match ids !! order_id with
  | None => print (order_not_found order_id)
  | Some y =>
      books ← gets order_books;
      match books !! y with
      | None => print (book_not_found y)
      | Some b => modify (λ s, set_books (<[y := f b]> (order_books s)) s);; k
      end
  end.

(** The [switch]: [false] is a [return], which leaves [packet] and [len] as they
    are.  This printer is [chatty]; that of [pcap_printer.cpp] has a copy of the
    function that says nothing of summaries and heartbeats. *)
Definition apply_live_message (chatty : bool) (data : list byte) (off : nat) (len ty : Z) : M t bool :=
  let sized {A} (c : codec A) (k : A → M t unit) : M t bool :=
    if len <? Z.of_nat (c_size c) then print (too_short ty len);; mret false
    else m ← read c data off; k m;; mret true in
  if ty =? md.MSG_TYPE.NEW_ORDER then sized md.c_new_order (λ m, modify (add_order m))
  else if ty =? md.MSG_TYPE.DELETE_ORDER then
    sized md.c_delete_order (λ m, with_book (md.do_order_id m) (OrderBook.delete_order (md.do_order_id m))
      (modify (λ s, set_order_to_symbol (delete (md.do_order_id m) (order_to_symbol s)) s)))
  else if ty =? md.MSG_TYPE.MODIFY_ORDER then
    sized md.c_modify_order (λ m, with_book (md.mo_order_id m)
      (OrderBook.modify_order (md.mo_order_id m) (md.mo_side m) (md.mo_quantity m) (md.mo_price m)) (mret tt))
  else if ty =? md.MSG_TYPE.TRADE then
    sized md.c_trade (λ m, with_book (md.tr_order_id m)
      (OrderBook.order_trade freed (md.tr_order_id m) (md.tr_quantity m) (md.tr_price m)) (mret tt))
  else if ty =? md.MSG_TYPE.TRADE_SUMMARY then
    sized md.c_trade_summary (λ m, when chatty (print summary_title;;
      print (summary (md.ts_symbol m) (md.ts_last_price m) (md.ts_total_quantity m))))
  else if ty =? md.MSG_TYPE.HEARTBEAT then when chatty (print heartbeat);; mret true
  else mret true.

(** [packet] and [len] are references: the result is their new values. *)
Definition parse_and_apply_live_message (chatty : bool) (data : list byte) (off : nat) (len : Z) : M t (nat * Z) :=
  header ← read md.c_md_header data off;
  if negb (md.magic_number header =? md.MAGIC_NUMBER) then
    print (invalid_magic_number (md.magic_number header));; mret (off, len)
  else
    go ← apply_live_message chatty data off len (md.msg_type header);
    mret (if (go : bool) then ((off + Z.to_nat (md.length header))%nat, u32 (len - md.length header)) else (off, len)).

(** [while (header.caplen > 0)] *)
Fixpoint packet_loop (fuel : nat) (tv_sec : Z) (data : list byte) (off : nat) (caplen : Z) : M t unit :=
  match fuel with
  | O => throw out_of_fuel
  | S fuel =>
      if caplen >? 0 then
        header ← read md.c_md_header data off;
        let skip := packet_loop fuel tv_sec data (off + Z.to_nat (md.length header)) (u32 (caplen - md.length header)) in
        if md.magic_number header =? md.SNAPSHOT_MAGIC_NUMBER then skip
        else if negb (md.magic_number header =? md.MAGIC_NUMBER) then mret tt
        else
          last ← gets last_seq_num;
          if negb (md.seq_num header =? u32 (last + 1)) then
            modify (set_last_seq_num 0);; skip
          else
            when (md.seq_num header =? 1) (print (found_start tv_sec));;
            modify (set_last_seq_num (md.seq_num header));;
            next ← parse_and_apply_live_message true data off caplen;
            print (caplen_left next.2);;
            packet_loop fuel tv_sec data next.1 next.2
      else mret tt
  end.

(** A packet of the capture: its time and its bytes, from the ethernet header
    on.  Every round but one that rejects a message moves by its length, which is
    not zero on the feed, and the round after a rejected message does. *)
Definition packet (p : Z * list byte) : M t unit :=
  let caplen := u32 (u32 (Z.of_nat (length p.2) - 14) - 28) in
  packet_loop (S (2 * length p.2)) p.1 p.2 (14 + 28) caplen.

(** [while (pcap_next(...))]: [main] with a capture that can be opened. *)
Definition print_capture (packets : list (Z * list byte)) : M t unit := for_each packets packet.
End ops.
End BboPrinter.
