(* ===== verification/BboPrinterTheorems.v ===== *)
(** * The capture printer's books *)
From Stdlib Require Import Init.Byte.
From S2P Require Import Prelude Protocol MdMcast MdStream SnapshotClient BotBook BotBookTheorems MdClient MdClientTheorems BboPrinter.
Import BboPrinter.

Section printer.
Context `{FW : FeedWorld}.

(** Every open order's symbol is known, and has a book. *)
Definition shows (M : market) (s : t) : Prop := ∀ i y o, mk_orders M !! i = Some (y, o) →
  order_to_symbol s !! i = Some y ∧ is_Some (order_books s !! y).

Lemma run_capture_read {A} (cd : codec A) `{!CodecOk cd} data pre a rest s :
  data = pre ++ c_enc cd a ++ rest → c_ok cd a → read cd data (length pre) s = (Ret a, s).
Proof.
  intros -> Ha. unfold read. rewrite bool_decide_true by (rewrite !length_app, enc_length by done; lia).
  by rewrite drop_app_length, dec_enc.
Qed.

Lemma run_with_known_book i y b f k s :
  order_to_symbol s !! i = Some y → order_books s !! y = Some b →
  with_book i f k s = k (set_books (<[y := f b]> (order_books s)) s).
Proof.
  intros Hi Hb. unfold with_book. erewrite bind_ret by reflexivity. cbn beta. rewrite Hi.
  erewrite bind_ret by reflexivity. cbn beta. by rewrite Hb.
Qed.

(** The symbols of the open orders after a message. *)
Lemma market_step_symbols M m i y o :
  mk_orders (market_step M m) !! i = Some (y, o) →
  (∃ o', mk_orders M !! i = Some (y, o')) ∨ ∃ d q p f, m = NewOrder i y d q p f.
Proof.
  destruct m as [|j z d q p f|j|j d q p|j q p|]; simpl; try (intros H; left; by eexists).
  - intros [[<- [= <- <-]]|[_ Hj]]%lookup_insert_Some; [right; by eexists _, _, _, _|left; by eexists].
  - intros [_ Hj]%lookup_delete_Some. left. by eexists.
  - destruct (mk_orders M !! j) as [[z o']|] eqn:Hj; simpl; [|intros H; left; by eexists].
    intros [[<- [= <- <-]]|[_ Hi]]%lookup_insert_Some; left; by eexists.
  - destruct (mk_orders M !! j) as [[z o']|] eqn:Hj; simpl; [|intros H; left; by eexists].
    case_match; [intros [_ Hi]%lookup_delete_Some; left; by eexists|].
    intros [[<- [= <- <-]]|[_ Hi]]%lookup_insert_Some; left; by eexists.
Qed.

Lemma books_after_some M m books y : is_Some (books !! y) → is_Some (books_after M m books !! y).
Proof.
  unfold books_after. destruct (book_op_of m), (symbol_in M m) as [z|]; try done.
  rewrite lookup_insert. by case_decide.
Qed.

(** One message. *)
Lemma run_live_message chatty M s seq ts m data pre rest len :
  shows M s → msg_says M m → data = pre ++ frame seq ts m ++ rest →
  is_u32 seq → is_u64 ts → msg_ok m → Z.of_nat (msg_size m) <= len →
  ∃ s', apply_live_message fw_freed chatty data (length pre) len (msg_tag m) s = (Ret true, s') ∧
    last_seq_num s' = last_seq_num s ∧ order_books s' = books_after M m (order_books s) ∧ shows (market_step M m) s'.
Proof.
  intros Hsh Hm Hd Hs Ht Hok Hl. pose proof (struct_ok seq ts m Hs Ht Hok) as Hst. unfold frame in Hd.
  assert (∀ s', order_books s' = books_after M m (order_books s) →
    (∀ i y o, mk_orders (market_step M m) !! i = Some (y, o) → order_to_symbol s' !! i = Some y) → shows (market_step M m) s') as Hshows.
  { intros s' Hb Hi i y o Hio. split; [by eapply Hi|]. rewrite Hb.
    apply market_step_symbols in Hio as [[o' Ho']|(d & q & p & f & ->)]; [by eapply books_after_some, Hsh|].
    unfold books_after. simpl. by rewrite lookup_insert_eq. }
  assert (∀ i y o, mk_orders M !! i = Some (y, o) → order_to_symbol s !! i = Some y) as Hix by (intros; by eapply Hsh).
  assert (∀ i y o, mk_orders (market_step M m) !! i = Some (y, o) → (∀ y d q p f, m ≠ NewOrder i y d q p f) → order_to_symbol s !! i = Some y) as Hix'.
  { intros i y o [[o' Ho']|(d & q & p & f & ->)]%market_step_symbols Hne; [by eapply Hix|by destruct (Hne y d q p f)]. }
  destruct m as [|i y d q p f|i|i d q p|i q p|y d q p]; unfold apply_live_message; cbn [msg_tag];
    repeat match goal with |- context [?a =? ?b] => change (a =? b) with true || change (a =? b) with false end; cbn iota zeta;
    try (rewrite (proj2 (Z.ltb_ge len _)) by exact Hl);
    [|erewrite bind_ret by (eapply run_capture_read; [apply _|exact Hd|exact Hst]); cbn beta..];
    cbn [md.do_order_id md.mo_order_id md.mo_side md.mo_quantity md.mo_price md.tr_order_id md.tr_quantity md.tr_price
         md.ts_symbol md.ts_aggressor_side md.ts_total_quantity md.ts_last_price].
  - destruct chatty; (eexists; split; [reflexivity|]; split; [done|]; split; [done|]; by apply Hshows).
  - eexists. split; [reflexivity|]. split; [done|]. split; [done|]. apply Hshows; [done|]. simpl. intros j z o'.
    destruct (decide (j = i)) as [->|Hne]; [rewrite !lookup_insert_eq; congruence|]. rewrite !lookup_insert_ne by done. apply Hix.
  - destruct Hm as [[y o] Hi]. destruct (Hsh i y o Hi) as [Hy [b Hb]].
    eexists. split; [erewrite bind_ret; [reflexivity|by erewrite run_with_known_book by done]|].
    split; [done|]. assert (order_books s !! y = Some b → books_after M (DeleteOrder i) (order_books s) =
      <[y := run_book fw_freed (BDelete i) b]> (order_books s)) as Hba by (intros E; unfold books_after; simpl; rewrite Hi; simpl; by rewrite E).
    split; [by rewrite Hba|]. apply Hshows; [by rewrite Hba|].
    simpl. intros j z o' [Hne Hj]%lookup_delete_Some. rewrite lookup_delete_ne by done. by eapply Hix.
  - destruct Hm as [[[y o] Hi] _]. destruct (Hsh i y o Hi) as [Hy [b Hb]].
    eexists. split; [erewrite bind_ret; [reflexivity|by erewrite run_with_known_book by done]|]. split; [done|].
    split; [unfold books_after; simpl; rewrite Hi; simpl; by rewrite Hb|].
    apply Hshows; [unfold books_after; simpl; rewrite Hi; simpl; by rewrite Hb|]. intros j z o' Hj. by eapply Hix'.
  - destruct Hm as (_ & y & o & Hi & _). destruct (Hsh i y o Hi) as [Hy [b Hb]].
    eexists. split; [erewrite bind_ret; [reflexivity|by erewrite run_with_known_book by done]|]. split; [done|].
    split; [unfold books_after; simpl; rewrite Hi; simpl; by rewrite Hb|].
    apply Hshows; [unfold books_after; simpl; rewrite Hi; simpl; by rewrite Hb|]. intros j z o' Hj. by eapply Hix'.
  - destruct chatty; (eexists; split; [reflexivity|]; split; [done|]; split; [done|]; by apply Hshows).
Qed.

(** ** A packet of the capture *)

Lemma run_packet_loop tv_sec fs : ∀ fuel M s data pre,
  shows M s → feed_says M (fs.*2) → data = pre ++ enc_frames fs → Forall numbered_ok fs →
  numbered_from (last_seq_num s + 1) fs → (length fs < fuel)%nat → Z.of_nat (length (enc_frames fs)) < 2 ^ 32 →
  ∃ s', packet_loop fw_freed fuel tv_sec data (length pre) (Z.of_nat (length (enc_frames fs))) s = (Ret tt, s') ∧
    shows (foldl market_step M (fs.*2)) s' ∧ last_seq_num s' = last_seq_num s + Z.of_nat (length fs) ∧
    order_books s' = feed_books M (fs.*2) (order_books s).
Proof.
  induction fs as [|[[seq ts] m] fs IH]; intros [|fuel] M s data pre Hsh Hfit Hd Hok Hnum Hfuel Hlen; simpl in Hfuel; try lia.
  { exists s. simpl. rewrite Z.add_0_r. by split_and!. }
  apply Forall_cons in Hok as [(Hs & Ht & Hm) Hok]. cbn [fst snd] in *. destruct Hnum as [Hseq Hnum]. destruct Hfit as [Hf Hfit].
  change (enc_frames ((seq, ts, m) :: fs)) with (frame seq ts m ++ enc_frames fs) in *.
  rewrite length_app, frame_length in * by done. pose proof (msg_size_bound m) as Hsz.
  cbn [packet_loop]. rewrite (proj2 (Z.gtb_gt _ 0)) by lia.
  assert (∀ s, read md.c_md_header data (length pre) s = (Ret (wire_header seq ts m), s)) as Hread.
  { intros s0. eapply (run_capture_read md.c_md_header data pre (wire_header seq ts m)); [|by apply wire_header_ok].
    rewrite Hd. unfold frame. rewrite msg_bytes_split, <-app_assoc. done. }
  erewrite bind_ret by apply Hread. cbn beta zeta.
  change (md.magic_number (wire_header seq ts m)) with md.MAGIC_NUMBER.
  replace (md.MAGIC_NUMBER =? md.SNAPSHOT_MAGIC_NUMBER) with false by reflexivity.
  rewrite Z.eqb_refl. cbn [negb].
  erewrite bind_ret by reflexivity. cbn beta. cbn [md.seq_num wire_header md.msg_type md.length].
  assert (u32 (last_seq_num s + 1) = seq) as -> by (rewrite Hseq; apply u32_id; by rewrite <-Hseq).
  rewrite Z.eqb_refl. cbn [negb].
  set (s0 := if seq =? 1 then add_line (found_start tv_sec) s else s).
  erewrite (bind_ret _ _ _ tt s0) by (unfold s0; by destruct (seq =? 1)). erewrite bind_ret by reflexivity. cbn beta.
  assert (shows M (set_last_seq_num seq s0)) as Hsh0 by (unfold s0; by destruct (seq =? 1)).
  destruct (run_live_message true M (set_last_seq_num seq s0) seq ts m data pre (enc_frames fs)
    (Z.of_nat (msg_size m + length (enc_frames fs)))) as (s1 & Hrun & Hl1 & Hb1 & Hsh1); [done..|lia|].
  erewrite bind_ret.
  2: { unfold parse_and_apply_live_message. erewrite bind_ret by apply Hread. cbn beta.
       change (md.magic_number (wire_header seq ts m)) with md.MAGIC_NUMBER. rewrite Z.eqb_refl. cbn [negb md.msg_type wire_header].
       erewrite bind_ret by exact Hrun. cbn beta iota. reflexivity. }
  cbn beta. cbn [fst snd md.length wire_header]. erewrite bind_ret by reflexivity. cbn beta.
  assert (u32 (Z.of_nat (msg_size m + length (enc_frames fs)) - Z.of_nat (msg_size m)) = Z.of_nat (length (enc_frames fs))) as ->
    by (rewrite u32_id; unfold is_u32; lia).
  assert (length pre + Z.to_nat (Z.of_nat (msg_size m)) = length (pre ++ frame seq ts m))%nat as ->
    by (rewrite length_app, frame_length by done; lia).
  match goal with |- context [packet_loop _ fuel _ _ _ _ ?s2] => set (s2' := s2) end.
  destruct (IH fuel (market_step M m) s2' data (pre ++ frame seq ts m)) as (s' & Hrun' & Hsh' & Hl' & Hb');
    [done|done|by rewrite Hd, <-app_assoc|done| |lia|lia|].
  { change (last_seq_num s2') with (last_seq_num s1). rewrite Hl1. simpl. by rewrite Hseq. }
  exists s'. split; [exact Hrun'|]. split; [done|].
  change (last_seq_num s2') with (last_seq_num s1) in Hl'. change (order_books s2') with (order_books s1) in Hb'.
  split; [rewrite Hl', Hl1; cbn [last_seq_num set_last_seq_num]; rewrite Hseq; simpl length; lia|].
  rewrite Hb', Hb1. unfold s0. by destruct (seq =? 1).
Qed.

(** A captured packet: the ethernet, ip and udp headers and the frames. *)
Definition captured (head : list byte) (tv_sec : Z) (fs : list (Z * Z * md_msg)) : Z * list byte := (tv_sec, head ++ enc_frames fs).

Lemma run_packet M s head tv_sec fs :
  length head = (14 + 28)%nat → shows M s → mtu fs → feed_says M (fs.*2) → Forall numbered_ok fs →
  numbered_from (last_seq_num s + 1) fs →
  ∃ s', packet fw_freed (captured head tv_sec fs) s = (Ret tt, s') ∧ shows (foldl market_step M (fs.*2)) s' ∧
    last_seq_num s' = last_seq_num s + Z.of_nat (length fs) ∧ order_books s' = feed_books M (fs.*2) (order_books s).
Proof.
  intros Hh Hsh Hm Hfit Hok Hnum. pose proof (enc_frames_length fs Hok) as Hn. unfold mtu, MarketDataPublisher.BUFFER_SIZE in Hm.
  unfold packet, captured. cbn [fst snd]. rewrite length_app, Hh.
  assert (u32 (u32 (Z.of_nat (14 + 28 + length (enc_frames fs)) - 14) - 28) = Z.of_nat (length (enc_frames fs))) as ->
    by (rewrite (u32_id (_ - 14)) by (unfold is_u32; lia); rewrite u32_id by (unfold is_u32; lia); lia).
  pose proof (run_packet_loop tv_sec fs (S (2 * (14 + 28 + length (enc_frames fs)))) M s (head ++ enc_frames fs) head) as H.
  rewrite Hh in H. apply H; try done; lia.
Qed.

Lemma run_capture caps : ∀ M s,
  shows M s → Forall (λ '(head, _, _), length head = (14 + 28)%nat) caps →
  let fss := (λ c : list byte * Z * list (Z * Z * md_msg), c.2) <$> caps in
  Forall mtu fss → feed_says M ((concat fss).*2) → Forall numbered_ok (concat fss) →
  numbered_from (last_seq_num s + 1) (concat fss) →
  ∃ s', print_capture fw_freed ((λ '(head, tv_sec, fs), captured head tv_sec fs) <$> caps) s = (Ret tt, s') ∧
    shows (foldl market_step M ((concat fss).*2)) s' ∧ last_seq_num s' = last_seq_num s + Z.of_nat (length (concat fss)) ∧
    order_books s' = feed_books M ((concat fss).*2) (order_books s).
Proof.
  induction caps as [|[[head tv_sec] fs] caps IH]; intros M s Hsh Hheads fss Hm Hfit Hok Hnum; subst fss; simpl in *.
  { exists s. rewrite Z.add_0_r. by split_and!. }
  apply Forall_cons in Hheads as [Hh Hheads]. apply Forall_cons in Hm as [Hm1 Hm]. apply Forall_app in Hok as [Hok1 Hok].
  rewrite fmap_app in *. apply numbered_from_app in Hnum as [Hn1 Hn]. apply feed_says_app in Hfit as [Hf1 Hf].
  destruct (run_packet M s head tv_sec fs Hh Hsh Hm1 Hf1 Hok1 Hn1) as (s1 & Hrun & Hsh1 & Hl1 & Hb1).
  destruct (IH (foldl market_step M (fs.*2)) s1 Hsh1 Hheads Hm Hf Hok) as (s' & Hrun' & Hsh' & Hl' & Hb').
  { rewrite Hl1. by replace (last_seq_num s + Z.of_nat (length fs) + 1) with (last_seq_num s + 1 + Z.of_nat (length fs)) by lia. }
  exists s'. split; [unfold print_capture; simpl; erewrite bind_ret by exact Hrun; exact Hrun'|]. rewrite foldl_app. split; [done|].
  split; [by rewrite Hl', Hl1, length_app, Nat2Z.inj_add, Z.add_assoc|]. by rewrite Hb', Hb1, feed_books_app.
Qed.
End printer.

(** ** A gap *)

(** After a gap the printer waits for a message numbered 1 and drops all others. *)
Lemma gap_stops_printer (freed : OrderBook.Order → OrderBook.Order) fuel tv_sec q ts m pre s :
  is_u32 q → is_u64 ts → msg_ok m → q ≠ 1 → q ≠ u32 (last_seq_num s + 1) →
  packet_loop freed (S (S fuel)) tv_sec (pre ++ frame q ts m) (length pre) (Z.of_nat (msg_size m)) s = (Ret tt, set_last_seq_num 0 s).
Proof.
  intros Hq Ht Hm Hne Hgap. pose proof (msg_size_bound m) as Hsz.
  cbn [packet_loop]. rewrite (proj2 (Z.gtb_gt _ 0)) by lia.
  erewrite bind_ret.
  2: { eapply (run_capture_read md.c_md_header _ pre (wire_header q ts m)); [|by apply wire_header_ok].
       unfold frame. by rewrite msg_bytes_split. }
  cbn beta zeta. change (md.magic_number (wire_header q ts m)) with md.MAGIC_NUMBER.
  replace (md.MAGIC_NUMBER =? md.SNAPSHOT_MAGIC_NUMBER) with false by reflexivity. rewrite Z.eqb_refl. cbn [negb].
  erewrite bind_ret by reflexivity. cbn beta. cbn [md.seq_num wire_header md.length].
  rewrite (proj2 (Z.eqb_neq q _)) by done. cbn [negb]. erewrite bind_ret by reflexivity. cbn beta.
  rewrite Z.sub_diag. reflexivity.
Qed.
