(* ===== verification/WebData.v ===== *)
(** * [web_data/web_data.cpp]: the web page's data

    The program follows the market data and the clearing feed and sends, ten times
    a second, the best prices and every client's position and profit to the
    connected browsers as one JSON text.  The profits are [double]s, in units of
    2^-56, of which every double the program makes here is a multiple; each operation
    rounds.  How a stream writes one, with six significant digits, is a parameter. *)
From Stdlib Require Import Init.Byte Strings.Ascii Strings.String.
From stdpp Require Import pretty.
From S2P Require Import Prelude Protocol SnapshotClient BotBook MdClient Clearing.

(** The characters of a number in a text. *)
Definition number_char (c : ascii) : bool :=
  bool_decide (c ∈ ["0"; "1"; "2"; "3"; "4"; "5"; "6"; "7"; "8"; "9"; "-"; "+"; "."; "e"]%char).
Fixpoint all_chars (P : ascii → bool) (s : string) : bool :=
  match s with EmptyString => true | String c s => P c && all_chars P s end.
Definition number_token (s : string) : Prop := s ≠ EmptyString ∧ all_chars number_char s = true.

(** The order in which the [n]-th page walks a hash map, the clock in nanoseconds
    and its reading in the [n]-th page, the clearing feed, whether a connection is
    open when the [n]-th page is sent ([None]: the library throws), and the text of
    a finite [double] given in units of 2^-56. *)
Class PageWorld := {
  pg_walk : nat → table → list Z;
  pg_walk_perm n m : pg_walk n m ≡ₚ (map_to_list m).*1;
  pg_clock : nat → Z;
  pg_timestamp : nat → Z;
  pg_clearing : nat → received;
  pg_open : nat → Z → option bool;
  pg_double : Z → string;
  pg_double_number z : number_token (pg_double z);
  pg_double_zero : pg_double 0 = "0";
}.

(** [m.find(c)->second.find(y)] *)
Definition entry (m : table) (c y : Z) : option Z := m !! c ≫= λ r, r !! y.

Module WebData.

Record quote := mk_quote { q_symbol : Z; best_bid : Z; best_ask : Z }.

(** [pnl] in units of 2^-56. *)
Record row := mk_row { client_id : Z; symbol : Z; position : Z; pnl : Z; volume : Z }.

Record page := mk_page { snapshot : list quote; rows : list row }.

Definition page_symbols : list Z := [1; 2].

Section page.
Context {St : Type}.

(** Overflow of a signed integer is undefined. *)
Definition int32 (z : Z) : M St Z :=
  if bool_decide (is_s32 z) then mret z else throw (undefined_behaviour "signed overflow").

(** [m.at(c).at(y)] *)
Definition at_ (m : table) (c y : Z) : M St Z :=
  match entry m c y with Some z => mret z | None => throw (runtime_error "out_of_range") end.

(** A long position is marked at the bid, a short one at the ask. *)
Definition mark (bid ask position : Z) : Z := if 0 <=? position then bid else ask.

(** One, and the [double] that is written 0.05, in units of 2^-56. *)
Definition one : Z := 2^56.
Definition fee : Z := 3602879701896397.

(** [double pnl = gross; pnl -= volume * 0.05] *)
Definition profit (gross volume : Z) : Z := to_double (gross * one - to_double (volume * fee)).

Definition client_row (clearing : ClearingClient.t) (bid ask y c : Z) : M St row :=
  match entry (ClearingClient.get_positions clearing) c y with
  | Some p =>
      raw ← at_ (ClearingClient.get_raw_pnl clearing) c y;
      value ← int32 (mark bid ask p * p);
      gross ← int32 (raw + value);
      v ← at_ (ClearingClient.get_volume clearing) c y;
      mret (mk_row c y p (profit gross v) v)
  | None => mret (mk_row c y 0 0 0)
  end.

Definition quote_of (md_client : MDClient.t) (y : Z) : quote :=
  mk_quote y (OrderBook.level_price (MDClient.get_best_bid y md_client)) (OrderBook.level_price (MDClient.get_best_ask y md_client)).

Context `{PG : PageWorld}.

Definition jsonify_snapshot (n : nat) (md_client : MDClient.t) (clearing : ClearingClient.t) : M St page :=
  rows ← mapM (λ y,
    let q := quote_of md_client y in
    mapM (client_row clearing (best_bid q) (best_ask q) y) (pg_walk n (ClearingClient.get_positions clearing))) page_symbols;
  mret (mk_page (quote_of md_client <$> page_symbols) (concat rows)).
End page.

(** ** The text *)

(** Names are quoted; the double quote has the code 34. *)
Definition quote_mark : string := String "034" EmptyString.
Definition field (name value : string) : string := quote_mark +:+ name +:+ quote_mark +:+ ": " +:+ value.

(** [if (!first) json_stream << ","] before each. *)
Fixpoint streamed (first : bool) (xs : list string) : string :=
  match xs with [] => EmptyString | x :: xs => (if first then EmptyString else ",") +:+ x +:+ streamed false xs end.

Section text.
Context `{PG : PageWorld}.

Definition quote_text (q : quote) : string :=
  "{" +:+ field "symbol" (pretty (q_symbol q)) +:+ ", " +:+ field "best_bid" (pretty (best_bid q))
    +:+ ", " +:+ field "best_ask" (pretty (best_ask q)) +:+ "}".

(** A client without an entry gets zeros. *)
Definition row_text (r : row) : string :=
  "{" +:+ field "client_id" (pretty (client_id r)) +:+ ", " +:+ field "symbol" (pretty (symbol r))
    +:+ ", " +:+ field "position" (pretty (position r)) +:+ ", " +:+ field "pnl" (pg_double (pnl r))
    +:+ ", " +:+ field "volume" (pretty (volume r)) +:+ "}".

Definition page_text (timestamp : Z) (p : page) : string :=
  "{ " +:+ field "timestamp" (pretty timestamp) +:+ ","
    +:+ " " +:+ field "snapshot" ("[" +:+ streamed true (quote_text <$> snapshot p)) +:+ "]"
    +:+ ", " +:+ field "positions" ("[" +:+ streamed true (row_text <$> rows p)) +:+ "]" +:+ "}".
End text.

(** ** The program *)

(** [connections]: handles in the order of their owners.  [sent]: to which
    connection which text.  [output]: the handlers' lines. *)
Record t := mk {
  md_client : MDClient.t;
  clearing_client : ClearingClient.t;
  last_published_ts : Z;
  turns : nat;
  pages : nat;
  connections : list Z;
  sent : list (Z * string);
  output : list string;
}.

Definition set_md_client (d : MDClient.t) (s : t) : t :=
  mk d (clearing_client s) (last_published_ts s) (turns s) (pages s) (connections s) (sent s) (output s).
Definition set_clearing_client (c : ClearingClient.t) (s : t) : t :=
  mk (md_client s) c (last_published_ts s) (turns s) (pages s) (connections s) (sent s) (output s).
Definition set_last_published_ts (now : Z) (s : t) : t :=
  mk (md_client s) (clearing_client s) now (turns s) (pages s) (connections s) (sent s) (output s).
Definition publish (now : Z) (ps : list (Z * string)) (s : t) : t :=
  mk (md_client s) (clearing_client s) now (turns s) (S (pages s)) (connections s) (sent s ++ ps) (output s).
Definition count_turn (s : t) : t :=
  mk (md_client s) (clearing_client s) (last_published_ts s) (S (turns s)) (pages s) (connections s) (sent s) (output s).
Definition set_connections (line : string) (cs : list Z) (s : t) : t :=
  mk (md_client s) (clearing_client s) (last_published_ts s) (turns s) (pages s) cs (sent s) (output s ++ [line]).

Definition initial : t := mk MDClient.initial ClearingClient.initial 0 0 0 [] [] [].

(** [std::set::insert] and [erase] *)
Fixpoint insert_handle (h : Z) (cs : list Z) : list Z :=
  match cs with
  | [] => [h]
  | c :: cs' => if h <? c then h :: cs else if h =? c then cs else c :: insert_handle h cs'
  end.
Definition erase_handle (h : Z) (cs : list Z) : list Z := filter (λ c, c ≠ h) cs.

(** The handlers, which the server's thread runs. *)
Definition open_handler (h : Z) (s : t) : t := set_connections "New connection opened" (insert_handle h (connections s)) s.
Definition close_handler (h : Z) (s : t) : t := set_connections "Connection closed" (erase_handle h (connections s)) s.
Definition message_handler (payload : string) (s : t) : t :=
  set_connections ("Received message: " +:+ payload) (connections s) s.
Definition validate_handler (h : Z) : bool := true.

Section program.
Context `{FW : FeedWorld} `{PG : PageWorld}.

(** Waiting for the snapshot; the first reading of the clock. *)
Definition start : M t unit :=
  zoom md_client set_md_client (MDClient.wait_for_snapshot fw_fuel);;
  modify (set_last_published_ts (pg_clock 0)).

(** The connections that are open get the text; an exception for one is caught. *)
Definition send_all (n : nat) (text : string) (cs : list Z) : list (Z * string) :=
  omap (λ c, match pg_open n c with Some true => Some (c, text) | _ => None end) cs.

(** One turn of the loop. *)
Definition turn : M t unit :=
  zoom md_client set_md_client MDClient.process;;
  n ← gets turns;
  modify count_turn;;
  zoom clearing_client set_clearing_client (ClearingClient.process (pg_clearing n));;
  let now := pg_clock (S n) in
  last ← gets last_published_ts;
  when (Z.quot (now - last) 1000000 >? 100)
    (s ← gets id;
     p ← jsonify_snapshot (pages s) (md_client s) (clearing_client s);
     modify (publish now (send_all (pages s) (page_text (pg_timestamp (pages s)) p) (connections s)))).

(** [main]: an exception leaves it and ends the process.  Its turns and those of
    the server's thread come in any order. *)
Inductive main_thread := Waiting | Looping | Returned (rc : Z) | Terminated (e : exn).
Inductive action := Opened (h : Z) | Closed (h : Z) | Message (h : Z) (payload : string) | MainTurn.
Record program := mk_program { web : t; main : main_thread }.

Definition launch (argc : Z) : program := mk_program initial (if negb (argc =? 5) then Returned 1 else Waiting).

Definition served (f : t → t) (p : program) : program :=
  match main p with
  | Waiting | Looping => mk_program (f (web p)) (main p)
  | _ => p
  end.

Definition main_turn (p : program) : program :=
  let step (m : M t unit) :=
    match m (web p) with
    | (Ret _, s) => mk_program s Looping
    | (Throw e, s) => mk_program s (Terminated e)
    end in
  match main p with Waiting => step start | Looping => step turn | _ => p end.

Definition act (p : program) (a : action) : program :=
  match a with
  | Opened h => if validate_handler h then served (open_handler h) p else p
  | Closed h => served (close_handler h) p
  | Message _ payload => served (message_handler payload) p
  | MainTurn => main_turn p
  end.

Definition run (acts : list action) (p : program) : program := foldl act p acts.
End program.
End WebData.
