(* ===== verification/WebJson.v ===== *)
(** * The text of the web page is JSON

    A reader of JSON (objects, arrays and numbers, the names quoted), and what it
    makes of the text that [web_data.cpp] sends. *)
From Stdlib Require Import Init.Byte Strings.Ascii Strings.String.
From S2P Require Import Prelude Protocol SnapshotClient BotBook MdClient Clearing WebData.

(** A number is kept as it is written. *)
Inductive json := JNum (token : string) | JArr (values : list json) | JObj (members : list (string * json)).

Module Json.
Import WebData.

Fixpoint spaces (s : string) : string :=
  match s with String " " s' => spaces s' | _ => s end.

Fixpoint span (P : ascii → bool) (s : string) : string * string :=
  match s with
  | String c s' => if P c then let '(a, b) := span P s' in (String c a, b) else (EmptyString, s)
  | EmptyString => (EmptyString, EmptyString)
  end.

Definition name_char (c : ascii) : bool := negb (bool_decide (c = "034"%char)) && negb (bool_decide (c = "\"%char)).

(** The text behind a character at its head, or behind spaces and the character. *)
Definition char (c : ascii) (s : string) : option string :=
  match s with String c' s' => if decide (c' = c) then Some s' else None | EmptyString => None end.
Definition expect (c : ascii) (s : string) : option string := char c (spaces s).

(** A quoted name and its colon. *)
Definition name (s : string) : option (string * string) :=
  s1 ← expect "034" s;
  let '(k, s2) := span name_char s1 in
  s3 ← char "034" s2; s4 ← expect ":" s3; Some (k, s4).

(** The value at the head of a text, and the text behind it; the members of an
    object up to its bracket; the elements of an array up to its bracket. *)
Fixpoint value (fuel : nat) (s : string) : option (json * string) :=
  match fuel with
  | O => None
  | S fuel =>
      match expect "{" s, expect "[" s with
      | Some s', _ => '(ms, r) ← members fuel s'; Some (JObj ms, r)
      | _, Some s' => '(vs, r) ← elements fuel true s'; Some (JArr vs, r)
      | None, None => match span number_char (spaces s) with (EmptyString, _) => None | (tok, r) => Some (JNum tok, r) end
      end
  end
with members (fuel : nat) (s : string) : option (list (string * json) * string) :=
  match fuel with
  | O => None
  | S fuel =>
      '(k, s1) ← name s; '(v, s2) ← value fuel s1;
      match expect "," s2 with
      | Some s3 => '(ms, r) ← members fuel s3; Some ((k, v) :: ms, r)
      | None => r ← expect "}" s2; Some ([(k, v)], r)
      end
  end
with elements (fuel : nat) (first : bool) (s : string) : option (list json * string) :=
  match fuel with
  | O => None
  | S fuel =>
      match (if first then expect "]" s else None) with
      | Some r => Some ([], r)
      | None =>
          '(v, s1) ← value fuel s;
          match expect "," s1 with
          | Some s2 => '(vs, r) ← elements fuel false s2; Some (v :: vs, r)
          | None => r ← expect "]" s1; Some ([v], r)
          end
      end
  end.

(** The whole text is one value; every call looks at a shorter text. *)
Definition read (s : string) : option json :=
  match value (String.length s) s with Some (j, EmptyString) => Some j | _ => None end.

(** ** Texts that read as a value *)

(** A number ends before [rest]. *)
Definition ends (rest : string) : bool := match rest with String c _ => negb (number_char c) | EmptyString => true end.

Definition reads (s : string) (j : json) : Prop := ∀ fuel rest,
  (String.length s ≤ fuel)%nat → ends rest = true → value fuel (s +:+ rest) = Some (j, rest).
Definition members_read (s : string) (ms : list (string * json)) : Prop := ∀ fuel rest,
  (String.length s ≤ fuel)%nat → members fuel (s +:+ rest) = Some (ms, rest).
Definition elements_read (first : bool) (s : string) (vs : list json) : Prop := ∀ fuel rest,
  (String.length s ≤ fuel)%nat → elements fuel first (s +:+ rest) = Some (vs, rest).

Lemma span_app P s rest : all_chars P s = true → match rest with String c _ => P c = false | EmptyString => True end →
  span P (s +:+ rest) = (s, rest).
Proof.
  intros Hs Hr. induction s as [|c s IH]; simpl in Hs |- *.
  - change (EmptyString +:+ rest) with rest. destruct rest as [|c r]; [done|]. simpl. by rewrite Hr.
  - apply andb_true_iff in Hs as [Hc Hs]. by rewrite Hc, (IH Hs).
Qed.

(** A number's first character is no space and no bracket. *)
Lemma number_head c s : number_char c = true →
  spaces (String c s) = String c s ∧ ∀ c', number_char c' = false → char c' (String c s) = None.
Proof.
  intros Hc. split.
  - unfold number_char in Hc. rewrite bool_decide_eq_true, !elem_of_cons in Hc.
    repeat destruct Hc as [->|Hc]; [done..|]. by apply elem_of_nil in Hc.
  - intros c' Hc'. simpl. rewrite decide_False; [done|]. by intros ->; rewrite Hc in Hc'.
Qed.

Lemma reads_number tok : number_token tok → reads tok (JNum tok).
Proof.
  intros [Hne Hok] fuel rest Hf He. destruct tok as [|c tok]; [done|]. destruct fuel as [|fuel]; [simpl in Hf; lia|].
  pose proof Hok as Hc. simpl in Hc. apply andb_true_iff in Hc as [Hc _].
  assert (span number_char (String c tok +:+ rest) = (String c tok, rest)) as Hspan.
  { apply span_app; [done|]. destruct rest; [done|]. by apply negb_true_iff in He. }
  destruct (number_head c (tok +:+ rest) Hc) as [Hsp Hhead].
  change (String c tok +:+ rest) with (String c (tok +:+ rest)) in *. cbn [value]. unfold expect. rewrite Hsp, !Hhead by done.
  by rewrite Hspan.
Qed.

Lemma expect_here c s : c ≠ " "%char → expect c (String c s) = Some s.
Proof.
  intros Hc. unfold expect. assert (spaces (String c s) = String c s) as ->.
  { destruct c as [[] [] [] [] [] [] [] []]; done. }
  simpl. by rewrite decide_True.
Qed.

Lemma reads_object s ms : members_read s ms → reads ("{" +:+ s) (JObj ms).
Proof.
  intros Hs fuel rest Hf _. rewrite string_length_app in Hf. simpl in Hf. destruct fuel as [|fuel]; [lia|].
  change (("{" +:+ s) +:+ rest) with (String "{" (s +:+ rest)). cbn [value]. rewrite expect_here, Hs by (done || lia). done.
Qed.

Lemma reads_array s vs : elements_read true s vs → reads ("[" +:+ s) (JArr vs).
Proof.
  intros Hs fuel rest Hf _. rewrite string_length_app in Hf. simpl in Hf. destruct fuel as [|fuel]; [lia|].
  change (("[" +:+ s) +:+ rest) with (String "[" (s +:+ rest)). cbn [value].
  change (expect "{" (String "[" (s +:+ rest))) with (@None string). rewrite expect_here, Hs by (done || lia). done.
Qed.

Lemma value_space fuel s : value fuel (String " " s) = value fuel s.
Proof. by destruct fuel. Qed.

Lemma name_field k v rest : all_chars name_char k = true → name (field k v +:+ rest) = Some (k, " " +:+ v +:+ rest).
Proof.
  intros Hk. unfold field, quote_mark, name. rewrite !string_app_assoc.
  change (String "034" EmptyString +:+ k +:+ ?x) with (String "034" (k +:+ x)). rewrite expect_here by done. cbn [mbind option_bind].
  rewrite (span_app name_char k) by done. done.
Qed.

Lemma members_last k v j : all_chars name_char k = true → reads v j → members_read (field k v +:+ "}") [(k, j)].
Proof.
  intros Hk Hv fuel rest Hf. unfold field, quote_mark in Hf. rewrite !string_length_app in Hf. simpl in Hf.
  destruct fuel as [|fuel]; [lia|]. cbn [members]. rewrite string_app_assoc, name_field by done. cbn [mbind option_bind].
  change (" " +:+ ?x) with (String " " x). rewrite value_space, Hv by (done || lia). done.
Qed.

Lemma members_more k v j s ms :
  all_chars name_char k = true → reads v j → members_read s ms → members_read (field k v +:+ "," +:+ s) ((k, j) :: ms).
Proof.
  intros Hk Hv Hs fuel rest Hf. unfold field, quote_mark in Hf. rewrite !string_length_app in Hf. simpl in Hf.
  destruct fuel as [|fuel]; [lia|]. cbn [members]. rewrite string_app_assoc, name_field by done. cbn [mbind option_bind].
  change (" " +:+ ?x) with (String " " x). rewrite value_space, Hv by (done || lia). rewrite string_app_assoc.
  change ("," +:+ ?x) with (String "," x). cbn [mbind option_bind]. rewrite expect_here, Hs by (done || lia). done.
Qed.

Lemma members_space s ms : members_read s ms → members_read (" " +:+ s) ms.
Proof.
  intros Hs fuel rest Hf. rewrite string_length_app in Hf. simpl in Hf. rewrite <- (Hs fuel rest) by lia.
  change ((" " +:+ s) +:+ rest) with (String " " (s +:+ rest)). destruct fuel; [done|]. cbn [members]. by unfold name, expect.
Qed.

(** The elements as the page streams them: objects. *)
Section elements.
Context {A} (text : A → string) (meaning : A → json).

Definition object_text (x : A) : Prop := reads (text x) (meaning x) ∧ ∃ s, text x = "{" +:+ s.

Lemma elements_more xs : ∀ x first, object_text x → Forall object_text xs →
  elements_read first (text x +:+ streamed false (text <$> xs) +:+ "]") (meaning x :: (meaning <$> xs)).
Proof.
  induction xs as [|y xs IH]; intros x first [Hx [s Hs]] Hxs fuel rest Hf; rewrite string_length_app in Hf;
    assert (∀ r, (if first then expect "]" (text x +:+ r) else None) = None) as Hn by (intros r; rewrite Hs; by destruct first).
  - destruct fuel as [|fuel]; [simpl in Hf; lia|]. rewrite !string_app_assoc. cbn [elements].
    rewrite Hn, Hx by (done || simpl in Hf; lia). done.
  - apply Forall_cons in Hxs as [Hy Hxs]. rewrite fmap_cons in Hf |- *. cbn [streamed] in Hf |- *.
    rewrite !string_length_app in Hf. cbn [String.length] in Hf. destruct fuel as [|fuel]; [lia|].
    rewrite !string_app_assoc. cbn [elements]. rewrite Hn, Hx by (done || lia). cbn [mbind option_bind].
    change ("," +:+ ?x) with (String "," x). rewrite expect_here by done. specialize (IH y false Hy Hxs fuel rest).
    rewrite !string_length_app, !string_app_assoc in IH. cbn [String.length] in IH. rewrite IH by lia. done.
Qed.

Lemma elements_streamed xs : Forall object_text xs →
  elements_read true (streamed true (text <$> xs) +:+ "]") (meaning <$> xs).
Proof.
  intros Hxs. destruct xs as [|x xs].
  - intros [|fuel] rest Hf; [simpl in Hf; lia|]. done.
  - apply Forall_cons in Hxs as [Hx Hxs]. rewrite fmap_cons. cbn [streamed]. rewrite !string_app_assoc. by apply elements_more.
Qed.
End elements.

Lemma read_reads s j : reads s j → read s = Some j.
Proof. intros Hs. unfold read. rewrite <- (string_app_nil_r s) at 2. by rewrite Hs. Qed.
End Json.

(** ** What the page says *)

Section page.
Import WebData Json.
Context `{PG : PageWorld}.

Definition number (z : Z) : json := JNum (pretty z).

Definition quote_json (q : quote) : json :=
  JObj [("symbol", number (q_symbol q)); ("best_bid", number (best_bid q)); ("best_ask", number (best_ask q))].

Definition row_json (r : row) : json :=
  JObj [("client_id", number (client_id r)); ("symbol", number (symbol r)); ("position", number (position r));
        ("pnl", JNum (pg_double (pnl r))); ("volume", number (volume r))].

Definition page_json (timestamp : Z) (p : page) : json :=
  JObj [("timestamp", number timestamp); ("snapshot", JArr (quote_json <$> snapshot p)); ("positions", JArr (row_json <$> rows p))].

Lemma digit_number x : (x < 10)%N → number_char (pretty_N_char x) = true.
Proof.
  intros Hx. assert (x ∈ [0;1;2;3;4;5;6;7;8;9]%N) as Hin by (rewrite !elem_of_cons; lia).
  by repeat (apply elem_of_cons in Hin as [->|Hin]; [reflexivity|]); apply elem_of_nil in Hin.
Qed.

Lemma number_pretty_go x : ∀ s, number_token s → number_token (pretty_N_go x s).
Proof.
  induction (N.lt_wf_0 x) as [x _ IH]. intros s [Hne Hs]. destruct (decide (x = 0)%N) as [->|Hx]; [done|].
  rewrite pretty_N_go_step by lia. apply IH; [apply N.div_lt; lia|]. split; [done|]. simpl.
  by rewrite digit_number, Hs by (apply N.mod_lt; lia).
Qed.

Lemma number_pretty_N (n : N) : number_token (pretty n).
Proof.
  unfold pretty, pretty_N. case_decide as Hn; [done|]. rewrite pretty_N_go_step by lia. apply number_pretty_go.
  split; [done|]. simpl. by rewrite digit_number by (apply N.mod_lt; lia).
Qed.

Lemma number_pretty (z : Z) : number_token (pretty z).
Proof. destruct z as [|p|p]; [done|apply (number_pretty_N (Npos p))|]. split; [done|]. apply (number_pretty_N (Npos p)). Qed.

Lemma reads_pretty (z : Z) : reads (pretty z) (number z).
Proof. apply reads_number, number_pretty. Qed.

Ltac reads_members := repeat first
  [ apply members_last; [done|apply reads_pretty]
  | apply members_more; [done|first [apply reads_pretty|apply reads_number, pg_double_number]|apply members_space] ].

Lemma quote_text_reads q : object_text quote_text quote_json q.
Proof. split; [|by eexists]. apply reads_object. reads_members. Qed.

Lemma row_text_reads r : object_text row_text row_json r.
Proof. split; [|by eexists]. apply reads_object. reads_members. Qed.

Lemma page_text_reads ts p : read (page_text ts p) = Some (page_json ts p).
Proof.
  apply read_reads. apply (reads_object (" " +:+ _)), members_space, members_more; [done|apply reads_pretty|]. apply members_space.
  assert (∀ k v r, field k v +:+ "]" +:+ r = field k (v +:+ "]") +:+ r) as Hf by (intros; unfold field; by rewrite !string_app_assoc).
  rewrite Hf, string_app_assoc. apply members_more; [done| |].
  - apply reads_array, elements_streamed, Forall_true, quote_text_reads.
  - rewrite Hf, string_app_assoc. apply (members_space (field _ _ +:+ "}")), members_last; [done|].
    apply reads_array, elements_streamed, Forall_true, row_text_reads.
Qed.

(** The whole part and the first decimal: a way to write a [double]. *)
Definition demo_double (z : Z) : string :=
  if decide (z = 0) then "0"
  else (if z <? 0 then "-" else EmptyString) +:+ pretty (Z.abs z / one) +:+ "." +:+ pretty (Z.abs z mod one * 10 / one).

Lemma all_chars_app P a b : all_chars P (a +:+ b) = all_chars P a && all_chars P b.
Proof. induction a as [|c a IH]; [done|]. rewrite append_cons. simpl. by rewrite IH, andb_assoc. Qed.

Lemma demo_double_number z : number_token (demo_double z).
Proof.
  unfold demo_double. destruct (decide (z = 0)); [done|].
  destruct (number_pretty (Z.abs z / one)) as [_ H1], (number_pretty (Z.abs z mod one * 10 / one)) as [_ H2].
  split; [|by rewrite !all_chars_app, H1, H2; destruct (z <? 0)].
  intros H%(f_equal String.length). rewrite !string_length_app in H. simpl in H. lia.
Qed.
End page.
