(* ===== verification/WebDataTheorems.v ===== *)
(** * The properties of the web page's data *)
From Stdlib Require Import Init.Byte Strings.String.
From S2P Require Import Prelude Protocol MdMcast SnapshotClient BotBook MdClient Clearing ClearingTheorems WebData WebJson.
#[local] Open Scope Z_scope.

(** ** The tables have entries for the same clients and symbols *)

Lemma entry_set2 m c y z c' y' :
  entry (set2 m c y z) c' y' = if decide ((c', y') = (c, y)) then Some z else entry m c' y'.
Proof.
  unfold entry, set2. destruct (decide ((c', y') = (c, y))) as [[= -> ->]|Hne].
  - by rewrite lookup_insert_eq; simpl; rewrite lookup_insert_eq.
  - destruct (decide (c' = c)) as [->|]; [|by rewrite lookup_insert_ne]. rewrite lookup_insert_eq. simpl.
    rewrite lookup_insert_ne by congruence. by destruct (m !! c).
Qed.

Lemma get2_entry m c y : get2 m c y = default 0 (entry m c y).
Proof. unfold get2, entry. by destruct (m !! c) as [r|]. Qed.

(** The clients and symbols of the fills, and no other, have entries. *)
Definition covers (m : table) (fs : list fill_info) : Prop := ∀ c y,
  is_Some (entry m c y) ↔ (c, y) ∈ (λ f, (fi_client f, fi_symbol f)) <$> fs.

Record entries_of (s : ClearingClient.t) (fs : list fill_info) : Prop := {
  en_positions : covers (ClearingClient.positions s) fs;
  en_pnl : covers (ClearingClient.raw_pnl s) fs;
  en_volume : covers (ClearingClient.volume s) fs;
  en_clients c : is_Some (ClearingClient.positions s !! c) ↔ c ∈ fi_client <$> fs;
}.

Lemma covers_set2 m fs f z : covers m fs → covers (set2 m (fi_client f) (fi_symbol f) z) (fs ++ [f]).
Proof.
  intros H c y. rewrite entry_set2, fmap_app, elem_of_app, <- (H c y). cbn [fmap list_fmap]. rewrite list_elem_of_singleton.
  case_decide as E; [rewrite E; naive_solver|]. naive_solver.
Qed.

Lemma entries_apply n s fs f : entries_of s fs → entries_of (ClearingClient.apply_fill (fill_struct n f) s) (fs ++ [f]).
Proof.
  intros [H1 H2 H3 H4]. split; try by apply covers_set2. intros c. simpl. rewrite fmap_app, elem_of_app, <- (H4 c).
  cbn [fmap list_fmap]. rewrite list_elem_of_singleton. unfold set2. destruct (decide (c = fi_client f)) as [->|Hne].
  - rewrite lookup_insert_eq. naive_solver.
  - rewrite lookup_insert_ne by congruence. naive_solver.
Qed.

(** ** The page of a clearing client that has the fills *)

Definition books_fills (s : ClearingClient.t) (fs : list fill_info) : Prop := tallied s fs ∧ entries_of s fs.

Lemma run_books_fills fs : Forall fill_ok fs → Z.of_nat (length fs) < 2^32 →
  ∃ s, for_each (fill_packets 1 fs) (λ pkt, ClearingClient.process (RecvPacket pkt)) ClearingClient.initial = (Ret tt, s) ∧ books_fills s fs.
Proof.
  intros Hok Hl. destruct (run_process_fills_keep books_fills) with (fs := fs) (n := 0) (s := ClearingClient.initial) (done_ := @nil fill_info)
    as (s & Hrun & Hs & _); try done; [| |by exists s].
  - intros n b s gs f Hf [H1 H2]. split; [by apply (tallied_apply n (ClearingClient.set_last_seq_num n (ClearingClient.set_buf b s)))|].
    by apply (entries_apply n (ClearingClient.set_last_seq_num n (ClearingClient.set_buf b s))); destruct H2.
  - split; [apply tallied_initial|]. split; intros c; try intros y; (split; [by intros [? ?]|intros H; by apply elem_of_nil in H]).
Qed.

(** ** Profits as doubles

    The double 0.05 is a little above a twentieth, and the product and the
    difference are rounded: twenty times the profit is within 2^39 units of 2^-56 of
    what it would be without rounding, so the profit is within 0.0000004. *)
Lemma profit_error g v : is_s32 g → is_u32 v →
  Z.abs (20 * WebData.profit g v - WebData.one * (20 * g - v)) ≤ 2^39.
Proof.
  unfold WebData.profit, WebData.fee, WebData.one, is_s32, is_u32. intros Hg Hv.
  pose proof (to_double_error (v * 3602879701896397)) as Hf. set (f := to_double (v * 3602879701896397)) in *.
  pose proof (to_double_error (g * 2^56 - f)) as Hd. set (d := to_double (g * 2^56 - f)) in *. lia.
Qed.

Section page.
Import WebData.
Context (fs : list fill_info) (bid ask y : Z).

(** What the page is to show of a client: its position and its cash, with the
    position at the price it can be closed at, less the fee, the product and the
    difference rounded to a [double]. *)
Definition net_position (c : Z) : Z := s32 (sum_fills bought c y fs - sum_fills sold c y fs).
Definition net_cash (c : Z) : Z := s32 (sum_fills received_for c y fs - sum_fills paid c y fs).
Definition traded (c : Z) : Z := u32 (sum_fills fi_quantity c y fs).
Definition marked (c : Z) : Z := mark bid ask (net_position c) * net_position c.

Definition row_of (c : Z) : row :=
  mk_row c y (net_position c) (to_double ((net_cash c + marked c) * one - to_double (traded c * fee))) (traded c).

Definition fits_int32 (c : Z) : Prop := is_s32 (marked c) ∧ is_s32 (net_cash c + marked c).
#[export] Instance fits_int32_dec c : Decision (fits_int32 c).
Proof. unfold fits_int32. apply _. Defined.

Lemma run_int32 {St} z (st : St) : is_s32 z → int32 z st = (Ret z, st).
Proof. intros Hz. unfold int32. by rewrite bool_decide_true. Qed.

Lemma run_at {St} m c z (st : St) : entry m c y = Some z → at_ m c y st = (Ret z, st).
Proof. intros Hm. unfold at_. by rewrite Hm. Qed.

Lemma run_client_row {St} s c (st : St) : books_fills s fs → fits_int32 c → client_row s bid ask y c st = (Ret (row_of c), st).
Proof.
  intros [Ht [H1 H2 H3 _]] [Hm Hg]. destruct (Ht c y) as (Hp & Hv & _ & _ & Hr).
  specialize (H1 c y). specialize (H2 c y). specialize (H3 c y). rewrite <- H1 in H2, H3. unfold client_row.
  rewrite get2_entry in Hp, Hv, Hr. unfold row_of, marked, net_cash, net_position, traded in *.
  rewrite <- Hp in *. rewrite <- Hv in *. rewrite <- Hr in *. clear H1. unfold ClearingClient.get_positions, ClearingClient.get_raw_pnl, ClearingClient.get_volume.
  destruct (entry (ClearingClient.positions s) c y) as [p|].
  - destruct (proj2 H2 ltac:(eauto)) as [raw Hraw]. destruct (proj2 H3 ltac:(eauto)) as [v Hvol]. rewrite Hraw, Hvol in *. cbn [default id] in *.
    erewrite bind_ret by (by apply run_at). cbn beta. erewrite bind_ret by (by apply run_int32). cbn beta.
    erewrite bind_ret by (by apply run_int32). cbn beta. erewrite bind_ret by (by apply run_at). done.
  - destruct (entry (ClearingClient.raw_pnl s) c y); [by destruct (proj1 H2 ltac:(eauto))|].
    destruct (entry (ClearingClient.volume s) c y); [by destruct (proj1 H3 ltac:(eauto))|]. simpl. rewrite Z.mul_0_r. reflexivity.
Qed.
End page.

Section whole_page.
Import WebData.
Context `{PG : PageWorld}.

Lemma run_mapM {St A B} (f : A → M St B) g xs (st : St) :
  (∀ x, x ∈ xs → f x st = (Ret (g x), st)) → mapM f xs st = (Ret (g <$> xs), st).
Proof.
  induction xs as [|x xs IH]; intros Hf; [done|]. simpl. erewrite bind_ret by (apply Hf; constructor). cbn beta.
  erewrite bind_ret by (apply IH; intros z Hz; apply Hf; by constructor). done.
Qed.

(** Every client that has traded, once. *)
Lemma walk_clients n s fs : books_fills s fs → pg_walk n (ClearingClient.get_positions s) ≡ₚ remove_dups (fi_client <$> fs).
Proof.
  intros [_ [_ _ _ Hc]]. rewrite pg_walk_perm. apply NoDup_Permutation; [apply NoDup_fst_map_to_list|apply NoDup_remove_dups|].
  intros c. rewrite elem_of_remove_dups, <- Hc, list_elem_of_fmap. split.
  - intros ([c' r] & -> & H%elem_of_map_to_list). by exists r.
  - intros [r Hr]. exists (c, r). by rewrite elem_of_map_to_list.
Qed.

Definition fits_page (fs : list fill_info) (d : MDClient.t) : Prop := Forall (λ y,
  Forall (fits_int32 fs (best_bid (quote_of d y)) (best_ask (quote_of d y)) y) (remove_dups (fi_client <$> fs))) page_symbols.

(** The page of these fills, clients in this order. *)
Definition page_of (fs : list fill_info) (d : MDClient.t) (clients : list Z) : page :=
  mk_page (quote_of d <$> page_symbols)
    (concat ((λ y, row_of fs (best_bid (quote_of d y)) (best_ask (quote_of d y)) y <$> clients) <$> page_symbols)).

Lemma run_jsonify {St} n d s fs (st : St) : books_fills s fs → fits_page fs d →
  jsonify_snapshot n d s st = (Ret (page_of fs d (pg_walk n (ClearingClient.get_positions s))), st).
Proof.
  intros Hs Hf. unfold jsonify_snapshot, page_of. erewrite bind_ret; [reflexivity|]. apply run_mapM. intros y Hy. apply run_mapM. intros c Hc.
  apply run_client_row; [exact Hs|]. rewrite (walk_clients n s fs Hs) in Hc.
  exact (proj1 (Forall_forall _ _) (proj1 (Forall_forall _ _) Hf y Hy) c Hc).
Qed.
End whole_page.

(** ** What the clients have together *)

Section together.
Import WebData.
Context (ts : list trade_info) (cs : list Z) (bid ask y : Z).
Abbreviation fs := (ts ≫= trade_fills).
Context (trades_ok : Forall trade_ok ts) (distinct : NoDup cs) (all_clients : Forall (λ f, fi_client f ∈ cs) fs).

(** Sums that need all of their bits. *)
Definition exact (c : Z) : Prop :=
  is_s32 (sum_fills bought c y fs - sum_fills sold c y fs) ∧ is_s32 (sum_fills received_for c y fs - sum_fills paid c y fs) ∧
  is_u32 (sum_fills fi_quantity c y fs).
#[export] Instance exact_dec c : Decision (exact c).
Proof. unfold exact. apply _. Defined.

(** The units held long, and the units traded. *)
Definition open_interest : Z := sum_over (λ c, Z.max 0 (net_position fs y c)) cs.
Definition units_traded : Z := sum_over (λ t, if decide (y = t_symbol t) then t_quantity t else 0) ts.

Lemma sum_over_mul {A} k (g : A → Z) xs : sum_over (λ x, k * g x) xs = k * sum_over g xs.
Proof. unfold sum_over. induction xs as [|x xs IH]; simpl; lia. Qed.

Lemma sum_over_ext {A} (g h : A → Z) xs : (∀ x, x ∈ xs → g x = h x) → sum_over g xs = sum_over h xs.
Proof.
  unfold sum_over. induction xs as [|x xs IH]; intros Hg; simpl; [done|]. rewrite Hg by constructor. f_equal. apply IH.
  intros z Hz. apply Hg. by constructor.
Qed.

Lemma sum_over_fmap {A B} (f : A → B) g xs : sum_over g (f <$> xs) = sum_over (λ x, g (f x)) xs.
Proof. induction xs as [|x xs IH]; [done|]. unfold sum_over in *. simpl. f_equal. exact IH. Qed.

Lemma sum_over_perm {A} (g : A → Z) xs ys : xs ≡ₚ ys → sum_over g xs = sum_over g ys.
Proof. unfold sum_over. induction 1; simpl; lia. Qed.

Lemma sum_over_error {A} b (g h : A → Z) xs : (∀ x, x ∈ xs → Z.abs (g x - h x) ≤ b) →
  Z.abs (sum_over g xs - sum_over h xs) ≤ b * Z.of_nat (length xs).
Proof.
  unfold sum_over. induction xs as [|x xs IH]; intros Hx; cbn [foldr length]; [simpl; lia|].
  assert (Z.abs (g x - h x) ≤ b) as H1 by (apply Hx; constructor).
  assert (∀ z, z ∈ xs → Z.abs (g z - h z) ≤ b) as H2 by (intros; apply Hx; by constructor). specialize (IH H2). lia.
Qed.

Lemma balanced g h : (∀ t, trade_ok t → sum_over (λ f, g f - h f) (trade_fills t) = 0) →
  sum_over (λ c, sum_fills g c y fs - sum_fills h c y fs) cs = 0.
Proof using trades_ok distinct all_clients.
  intros Hb. rewrite (sum_over_ext _ (λ c, sum_fills g c y fs + - sum_fills h c y fs)) by (intros; lia).
  rewrite sum_over_add, sum_over_opp, !sum_over_clients by done. rewrite (trades_balance g h y ts); [lia|].
  intros t Ht. apply Hb. by eapply Forall_forall in trades_ok.
Qed.

Lemma volume_of_trades : sum_over (λ c, sum_fills fi_quantity c y fs) cs = 2 * units_traded.
Proof using distinct all_clients.
  rewrite sum_over_clients by done. unfold units_traded. clear. induction ts as [|t l IH]; [done|]. rewrite bind_cons.
  unfold sum_over in *. simpl. rewrite IH. case_decide; lia.
Qed.

(** What a client has without rounding, in twentieths. *)
Definition worth (c : Z) : Z := 20 * (net_cash fs y c + marked fs bid ask y c) - traded fs y c.

Lemma worth_together : (∀ c, c ∈ cs → exact c) →
  sum_over worth cs = - (20 * ((ask - bid) * open_interest) + 2 * units_traded).
Proof using trades_ok distinct all_clients.
  intros Hx. pose proof (balanced bought sold balance_bought_sold) as Hpos. pose proof (balanced received_for paid balance_paid) as Hcash.
  pose proof volume_of_trades as Hvol. unfold open_interest.
  rewrite (sum_over_ext _ (λ c, 20 * (sum_fills received_for c y fs - sum_fills paid c y fs) +
    (- (20 * (ask - bid)) * Z.max 0 (net_position fs y c) + (20 * ask * (sum_fills bought c y fs - sum_fills sold c y fs) + - sum_fills fi_quantity c y fs)))).
  { rewrite !sum_over_add, sum_over_opp, !sum_over_mul, Hpos, Hcash, Hvol. lia. }
  intros c Hc. destruct (Hx c Hc) as (H1 & H2 & H3). unfold worth, marked, mark, net_cash, traded, net_position.
  rewrite !s32_id, u32_id by done. destruct (Z.leb_spec 0 (sum_fills bought c y fs - sum_fills sold c y fs)); [rewrite Z.max_r by lia|rewrite Z.max_l by lia]; ring.
Qed.

Lemma pnl_together : (∀ c, c ∈ cs → exact c ∧ fits_int32 fs bid ask y c) →
  Z.abs (20 * sum_over (λ c, pnl (row_of fs bid ask y c)) cs + one * (20 * ((ask - bid) * open_interest) + 2 * units_traded))
    ≤ 2^39 * Z.of_nat (length cs).
Proof using trades_ok distinct all_clients.
  intros Hx. pose proof (worth_together (λ c Hc, proj1 (Hx c Hc))) as Hw.
  assert (Z.abs (sum_over (λ c, 20 * pnl (row_of fs bid ask y c)) cs - sum_over (λ c, one * worth c) cs) ≤ 2^39 * Z.of_nat (length cs)) as He.
  { apply sum_over_error. intros c Hc. destruct (Hx c Hc) as [_ [_ Hg]]. apply profit_error; [exact Hg|apply u32_range]. }
  rewrite !sum_over_mul, Hw in He. lia.
Qed.
End together.

(** ** Properties *)

Section page_total.
Import WebData.

Lemma page_of_symbol fs d cs y : y ∈ page_symbols →
  filter (λ r, symbol r = y) (rows (page_of fs d cs)) = row_of fs (best_bid (quote_of d y)) (best_ask (quote_of d y)) y <$> cs.
Proof.
  assert (∀ bid ask y', filter (λ r, symbol r = y) (row_of fs bid ask y' <$> cs) = if decide (y' = y) then row_of fs bid ask y' <$> cs else []) as H.
  { intros bid ask y'. induction cs as [|c cs' IH]; [by case_decide|]. rewrite fmap_cons, filter_cons. simpl. rewrite IH. by repeat case_decide. }
  intros Hy. unfold page_of, page_symbols. cbn [rows fmap list_fmap concat]. rewrite app_nil_r, filter_app, !H.
  apply elem_of_cons in Hy as [->|Hy%list_elem_of_singleton]; [by rewrite app_nil_r|by subst y].
Qed.
End page_total.

(** C29 ([page_shows_clearing]): what the page shows is what was published: when the
    clearing publisher's sends succeed and the values fit 32 bits, making the page
    never fails to find a client or symbol, it quotes the best prices of the market
    data client, and it shows every client that has traded, and no other, once
    per symbol with its net position, its volume and its profit: the cash of its
    fills, the position at the price it can be closed at, less the fee. *)
Theorem page_shows_clearing (W : World) (PG : PageWorld) fs p d n (st : WebData.t) :
  Forall fill_ok fs → Z.of_nat (length fs) < 2^32 → fits_page fs d →
  for_each fs publish ClearingPublisher.initial = (Ret tt, p) →
  ∃ s clients,
    for_each (ClearingPublisher.packets p) (λ pkt, ClearingClient.process (RecvPacket pkt)) ClearingClient.initial = (Ret tt, s) ∧
    WebData.jsonify_snapshot n d s st = (Ret (page_of fs d clients), st) ∧
    clients ≡ₚ remove_dups (fi_client <$> fs).
Proof.
  intros Hok Hl Hfit Hrun. apply publish_fills_packets in Hrun; [|done|done|done]. rewrite Hrun.
  destruct (run_books_fills fs Hok Hl) as (s & Hs & Hb). eexists s, _. split; [exact Hs|].
  split; [by apply run_jsonify|by apply walk_clients].
Qed.

(** C30 ([page_pays_spread]): together the clients on the page have lost the spread on
    every unit they hold long and a fee of 0.05 a unit to each side of every trade:
    whatever was traded, at whatever prices, the page creates no profit out of
    nothing.  The profits are the doubles of the page, in units of 2^-56: rounding
    moves their sum by at most 2^39 / 20 of these units, 0.0000004, a client.  This
    is for the doubles, of which the text shows six digits, when the clearing
    publisher's sends succeed and 32 bits hold each client's position, cash, volume,
    value at the quoted prices ([exact], [fits_page]). *)
Theorem page_pays_spread (W : World) (PG : PageWorld) ts p d n y (st : WebData.t) :
  let fs := ts ≫= trade_fills in
  let q := WebData.quote_of d y in
  Forall trade_ok ts → Z.of_nat (length fs) < 2^32 → fits_page fs d → y ∈ WebData.page_symbols →
  Forall (exact ts y) (remove_dups (fi_client <$> fs)) →
  for_each fs publish ClearingPublisher.initial = (Ret tt, p) →
  ∃ s pg,
    for_each (ClearingPublisher.packets p) (λ pkt, ClearingClient.process (RecvPacket pkt)) ClearingClient.initial = (Ret tt, s) ∧
    WebData.jsonify_snapshot n d s st = (Ret pg, st) ∧
    let spread := (WebData.best_ask q - WebData.best_bid q) * open_interest ts (remove_dups (fi_client <$> fs)) y in
    let profits := sum_over WebData.pnl (filter (λ r, WebData.symbol r = y) (WebData.rows pg)) in
    Z.abs (20 * profits + WebData.one * (20 * spread + 2 * units_traded ts y))
      ≤ 2^39 * Z.of_nat (length (remove_dups (fi_client <$> fs))).
Proof.
  intros fs q Hok Hl Hfit Hy Hx Hrun.
  assert (Forall fill_ok fs) as Hf by (apply Forall_bind; eapply Forall_impl; [exact Hok|apply trade_fills_ok]).
  apply publish_fills_packets in Hrun; [|done|done|done]. rewrite Hrun.
  destruct (run_books_fills fs Hf Hl) as (s & Hs & Hb). set (cs := pg_walk n (ClearingClient.get_positions s)).
  pose proof (walk_clients n s fs Hb) as Hcs. fold cs in Hcs.
  exists s, (page_of fs d cs). split; [exact Hs|]. split; [by apply run_jsonify|].
  cbv zeta. rewrite page_of_symbol by done. fold q.
  assert (∀ g : Z → Z, sum_over g cs = sum_over g (remove_dups (fi_client <$> fs))) as Hperm by (intros; by apply sum_over_perm).
  rewrite sum_over_fmap, Hperm. apply pnl_together; [done|apply NoDup_remove_dups| |].
  - apply Forall_forall. intros f Hin. apply elem_of_remove_dups, list_elem_of_fmap. by exists f.
  - intros c Hc. split; [exact (proj1 (Forall_forall _ _) Hx c Hc)|].
    exact (proj1 (Forall_forall _ _) (proj1 (Forall_forall _ _) Hfit y Hy) c Hc).
Qed.

(** *** A page *)

(** Gold is 48 bid and offered at 52. *)
Definition gold_order (i side price : Z) : md.new_order :=
  md.Build_new_order (md.Build_md_header md.MAGIC_NUMBER 0 0 0 md.MSG_TYPE.NEW_ORDER) i 1 side 10 price 0.
Definition gold_market : MDClient.t :=
  MDClient.add_order (gold_order 2 md.SIDE.SELL 52) (MDClient.add_order (gold_order 1 md.SIDE.BUY 48) MDClient.initial).

Definition one_page_world : PageWorld := {|
  pg_walk _ m := (map_to_list m).*1;
  pg_walk_perm _ _ := reflexivity _;
  pg_clock n := 200000000 * Z.of_nat n;
  pg_timestamp n := Z.of_nat n;
  pg_clearing _ := RecvWouldBlock;
  pg_open _ _ := Some true;
  pg_double := demo_double;
  pg_double_number := demo_double_number;
  pg_double_zero := eq_refl;
|}.

Lemma page_shows_clearing_witness : ∃ p s clients,
  for_each (demo_trades ≫= trade_fills) (@publish calm_world) ClearingPublisher.initial = (Ret tt, p) ∧
  for_each (ClearingPublisher.packets p) (λ pkt, ClearingClient.process (RecvPacket pkt)) ClearingClient.initial = (Ret tt, s) ∧
  WebData.jsonify_snapshot (PG := one_page_world) 0 gold_market s WebData.initial =
    (Ret (page_of (demo_trades ≫= trade_fills) gold_market clients), WebData.initial) ∧
  clients ≡ₚ [20; 10; 30] ∧
  row_of (demo_trades ≫= trade_fills) 48 52 1 20 = WebData.mk_row 20 1 (-140) (- 2407 * 2^56) 140.
Proof.
  assert (∃ p, for_each (demo_trades ≫= trade_fills) (@publish calm_world) ClearingPublisher.initial = (Ret tt, p)) as [p Hp].
  { destruct (for_each _ (@publish calm_world) _) as [r p] eqn:E. exists p. vm_compute in E. by injection E as <- _. }
  destruct (page_shows_clearing calm_world one_page_world (demo_trades ≫= trade_fills) p gold_market 0 WebData.initial)
    as (s & clients & Hs & Hpg & Hc); [by_decide|by vm_compute|by_decide|exact Hp|].
  exists p, s, clients. split; [exact Hp|]. split; [exact Hs|]. split; [exact Hpg|]. split; [|vm_compute; reflexivity].
  rewrite Hc. vm_compute. reflexivity.
Defined.

Lemma page_pays_spread_witness : ∃ p s pg,
  for_each (demo_trades ≫= trade_fills) (@publish calm_world) ClearingPublisher.initial = (Ret tt, p) ∧
  for_each (ClearingPublisher.packets p) (λ pkt, ClearingClient.process (RecvPacket pkt)) ClearingClient.initial = (Ret tt, s) ∧
  WebData.jsonify_snapshot (PG := one_page_world) 0 gold_market s WebData.initial = (Ret pg, WebData.initial) ∧
  Z.abs (20 * sum_over WebData.pnl (filter (λ r, WebData.symbol r = 1) (WebData.rows pg)) + 2^56 * (20 * (4 * 140) + 2 * 140))
    ≤ 2^39 * 3.
Proof.
  assert (∃ p, for_each (demo_trades ≫= trade_fills) (@publish calm_world) ClearingPublisher.initial = (Ret tt, p)) as [p Hp].
  { destruct (for_each _ (@publish calm_world) _) as [r p] eqn:E. exists p. vm_compute in E. by injection E as <- _. }
  destruct (page_pays_spread calm_world one_page_world demo_trades p gold_market 0 1 WebData.initial)
    as (s & pg & Hs & Hpg & Hsum); [by_decide|by vm_compute|by_decide|by_decide|by_decide|exact Hp|].
  exists p, s, pg. split; [exact Hp|]. split; [exact Hs|]. split; [exact Hpg|]. exact Hsum.
Defined.
