(* ===== verification/MdRecovery.v ===== *)
(** * Joining the feed through a snapshot

    A client that receives a whole snapshot of the snapshot writer, and meanwhile
    the live feed from before the snapshot on, ends in step with the market. *)
From Stdlib Require Import Init.Byte.
From S2P Require Import Prelude Protocol MdMcast MdStream SnapshotClient BotBook BotBookTheorems SnapshotWriter SnapshotTheorems MdClient MdClientTheorems.
Import MDClient.

(** ** What the messages of a snapshot do to the client *)

(** The part of the client they touch. *)
Record snap := mk_snap { sn_counts : counts; sn_buffer : gmap Z (list md.new_order); sn_complete : gmap Z bool; sn_last : Z }.

Definition put_snap (x : snap) (s : t) : t :=
  set_last_snapshot_seq_num (sn_last x) (set_snapshot_complete (sn_complete x) (set_snapshot_buffer (sn_buffer x) s)).
Definition get_snap (c : counts) (s : t) : snap := mk_snap c (snapshot_buffer s) (snapshot_complete s) (last_snapshot_seq_num s).

Definition wire_order (ts id : Z) (v : open) : md.new_order :=
  md.Build_new_order (snap_header (Z.of_nat (c_size md.c_new_order)) ts md.MSG_TYPE.NEW_ORDER)
    id (op_symbol v) (op_side v) (op_quantity v) (op_price v) (op_flags v).

Definition done_if (y : Z) (c : counts) (m : gmap Z bool) : gmap Z bool :=
  if (bid_count y c =? 0) && (ask_count y c =? 0) then <[y := true]> m else m.

Definition snap_step (x : snap) (i : Z * item) : snap :=
  match i with
  | (_, Info y nb na q) =>
      let c := mk_counts (<[y := nb]> (bid_orders (sn_counts x))) (<[y := na]> (ask_orders (sn_counts x))) in
      mk_snap c (<[y := []]> (sn_buffer x)) (done_if y c (sn_complete x)) q
  | (ts, Order id v) =>
      let o := wire_order ts id v in
      let c := take_order o (sn_counts x) in
      mk_snap c (<[op_symbol v := default [] (sn_buffer x !! op_symbol v) ++ [o]]> (sn_buffer x))
        (done_if (op_symbol v) c (sn_complete x)) (sn_last x)
  end.

(** Items whose fields fit their places on the wire. *)
Definition item_fits (f : Z) (i : Z * item) : Prop :=
  is_u64 i.1 ∧
  match i.2 with
  | Info y nb na q => is_u32 y ∧ is_u32 nb ∧ is_u32 na ∧ is_u32 q ∧ f < q
  | Order id v => is_u64 id ∧ is_u32 (op_symbol v) ∧ is_u8 (op_side v) ∧ is_u32 (op_quantity v) ∧ is_s32 (op_price v) ∧ is_u8 (op_flags v)
  end.

(** The sequence number of the first live message buffered. *)
Definition first_live (f : Z) (s : t) : Prop := get_first_live_seq_num s = (Ret f, s).

Lemma snap_header_ok ts i : is_u64 ts → c_ok md.c_md_header (snap_header (item_size i) ts (item_tag i)).
Proof. intros Ht. unfold is_u64 in Ht. destruct i; simpl; split_and!; try lia; vm_compute; done. Qed.

Lemma info_ok f ts y nb na q : item_fits f (ts, Info y nb na q) →
  c_ok md.c_snapshot_info (md.Build_snapshot_info
        (snap_header (Z.of_nat (c_size md.c_snapshot_info)) ts md.MSG_TYPE.SNAPSHOT_INFO) y nb na q).
Proof.
  intros (Ht & Hy & Hb & Ha & Hq & _). pose proof (snap_header_ok ts (Info y nb na q) Ht) as Hh. unfold is_u32 in *.
  cbn -[snap_header md.c_md_header Z.pow] in *. intuition.
Qed.

Lemma order_ok f ts id v : item_fits f (ts, Order id v) → c_ok md.c_new_order (wire_order ts id v).
Proof.
  intros (Ht & Hi). pose proof (snap_header_ok ts (Order id v) Ht) as Hh. unfold is_u32, is_u64, is_u8 in *.
  cbn -[snap_header md.c_md_header is_s32 Z.pow] in *. intuition.
Qed.

Lemma get_snap_put x s : get_snap (sn_counts x) (put_snap x s) = x.
Proof. by destruct x. Qed.

Lemma put_snap_twice x y s : put_snap x (put_snap y s) = put_snap x s.
Proof. done. Qed.

Lemma first_live_put f x s : first_live f s → first_live f (put_snap x s).
Proof.
  unfold first_live, get_first_live_seq_num. intros H. erewrite bind_ret in H by reflexivity. erewrite bind_ret by reflexivity.
  cbn beta in *. change (live_buffer (put_snap x s)) with (live_buffer s). case_bool_decide; [by injection H as ->|].
  unfold read in *. case_bool_decide; [|done]. erewrite bind_ret in H by reflexivity. erewrite bind_ret by reflexivity.
  unfold mret, M_ret in *. congruence.
Qed.

Lemma complete_done y c s : complete_if_done y c s = set_snapshot_complete (done_if y c (snapshot_complete s)) s.
Proof. unfold complete_if_done, done_if. destruct (_ && _); [done|]. by destruct s. Qed.

Lemma run_snapshot_items f l : ∀ fuel c s pre stale,
  buf s = pre ++ image l ++ stale → Forall (item_fits f) l → first_live f s → (length l < fuel)%nat →
  let x := foldl snap_step (get_snap c s) l in
  snapshot_loop fuel (length pre) (Z.of_nat (length (image l))) c s = (Ret (sn_counts x), put_snap x s).
Proof.
  induction l as [|[ts i] l IH]; intros [|fuel] c s pre stale Hb Hok Hf Hfuel; simpl in Hfuel; try lia.
  { simpl. unfold put_snap. by destruct s. }
  apply Forall_cons in Hok as [Hi Hok]. cbv zeta. change (foldl snap_step ?a (?b :: ?k)) with (foldl snap_step (snap_step a b) k).
  change (image ((ts, i) :: l)) with (item_bytes ts i ++ image l) in *. rewrite <-app_assoc in Hb.
  pose proof (item_length ts i) as Hlen. rewrite length_app, Nat2Z.inj_add, Hlen.
  assert (39 <= item_size i) as Hsz by (destruct i; simpl; lia).
  cbn [snapshot_loop]. rewrite (proj2 (Z.gtb_gt _ 0)) by lia.
  rewrite (proj2 (Z.ltb_ge _ (Z.of_nat (c_size md.c_md_header)))) by (change (c_size md.c_md_header) with 23%nat; lia).
  erewrite bind_ret by reflexivity. cbn beta.
  erewrite bind_ret.
  2: { eapply (run_read_at md.c_md_header (buf s) pre (snap_header (item_size i) ts (item_tag i))); [|apply snap_header_ok, Hi].
       rewrite Hb, item_bytes_split, <-app_assoc. done. }
  cbn beta zeta. change (md.magic_number (snap_header (item_size i) ts (item_tag i))) with md.SNAPSHOT_MAGIC_NUMBER. rewrite Z.eqb_refl. cbn [negb].
  cbn [md.msg_type snap_header md.length].
  assert (∀ x, put_snap x (put_snap x s) = put_snap x s) as Hpp by done.
  assert (∀ x, (snapshot_loop fuel (length pre + Z.to_nat (item_size i)) (item_size i + Z.of_nat (length (image l)) - item_size i) (sn_counts x) (put_snap x s))
    = (Ret (sn_counts (foldl snap_step x l)), put_snap (foldl snap_step x l) s)) as Hnext.
  { intros x. replace (length pre + Z.to_nat (item_size i))%nat with (length (pre ++ item_bytes ts i)) by (rewrite length_app; lia).
    replace (item_size i + Z.of_nat (length (image l)) - item_size i) with (Z.of_nat (length (image l))) by lia.
    rewrite (IH fuel (sn_counts x) (put_snap x s) (pre ++ item_bytes ts i) stale);
      [by rewrite get_snap_put|by rewrite <-app_assoc|done|by apply first_live_put|lia]. }
  destruct i as [y nb na q|id v]; cbn [item_tag].
  - change (md.MSG_TYPE.SNAPSHOT_INFO =? md.MSG_TYPE.SNAPSHOT_INFO) with true. cbn iota.
    erewrite bind_ret by (eapply run_read_at; [apply _|exact Hb|by eapply info_ok]). cbn beta.
    erewrite bind_ret by exact Hf. cbn beta. cbn [md.si_last_md_seq_num md.si_symbol md.si_bid_count md.si_ask_count].
    rewrite (proj2 (Z.leb_gt q f)) by apply Hi.
    do 3 (erewrite bind_ret by reflexivity; cbn beta). rewrite complete_done.
    rewrite <-(Hnext (snap_step (get_snap c s) (ts, Info y nb na q))). by destruct s.
  - change (md.MSG_TYPE.NEW_ORDER =? md.MSG_TYPE.SNAPSHOT_INFO) with false.
    change (md.MSG_TYPE.NEW_ORDER =? md.MSG_TYPE.NEW_ORDER) with true. cbn iota.
    erewrite bind_ret by (eapply (run_read_at _ _ _ (wire_order ts id v)); [exact Hb|by eapply order_ok]). cbn beta.
    do 2 (erewrite bind_ret by reflexivity; cbn beta). rewrite complete_done.
    rewrite <-(Hnext (snap_step (get_snap c s) (ts, Order id v))). by destruct s.
Qed.

(** ** The progress of one symbol *)

Record progress := mk_progress { pg_bids : Z; pg_asks : Z; pg_orders : list md.new_order; pg_done : bool }.

Definition progress_of (y : Z) (x : snap) : progress :=
  mk_progress (bid_count y (sn_counts x)) (ask_count y (sn_counts x)) (default [] (sn_buffer x !! y)) (default false (sn_complete x !! y)).

Definition settle (p : progress) : progress :=
  mk_progress (pg_bids p) (pg_asks p) (pg_orders p) ((pg_bids p =? 0) && (pg_asks p =? 0) || pg_done p).

Definition is_bid (i : Z * item) : bool := match i.2 with Order _ v => op_side v =? md.SIDE.BUY | Info _ _ _ _ => false end.

Definition progress_step (p : progress) (i : Z * item) : progress :=
  match i with
  | (_, Info _ nb na _) => settle (mk_progress nb na [] (pg_done p))
  | (ts, Order id v) =>
      let b := if op_side v =? md.SIDE.BUY then 1 else 0 in
      settle (mk_progress (pg_bids p - b) (pg_asks p - (1 - b)) (pg_orders p ++ [wire_order ts id v]) (pg_done p))
  end.

Definition item_symbol (i : item) : Z := match i with Info y _ _ _ => y | Order _ v => op_symbol v end.
Definition of_symbol (y : Z) (i : Z * item) : Prop := item_symbol i.2 = y.
#[global] Instance of_symbol_dec y i : Decision (of_symbol y i).
Proof. unfold of_symbol. apply _. Defined.

Lemma lookup_done_if z y c m : default false (done_if y c m !! z) =
  if decide (y = z) then (bid_count y c =? 0) && (ask_count y c =? 0) || default false (m !! y) else default false (m !! z).
Proof.
  unfold done_if. destruct (_ && _); destruct (decide (y = z)) as [<-|]; simpl;
    rewrite ?lookup_insert_eq, ?lookup_insert_ne by done; done.
Qed.

Lemma default_insert {A} (d x : A) (m : gmap Z A) y z :
  default d (<[y := x]> m !! z) = if decide (y = z) then x else default d (m !! z).
Proof. destruct (decide (y = z)) as [<-|]; [by rewrite lookup_insert_eq|by rewrite lookup_insert_ne]. Qed.

Lemma progress_snap_step y x i :
  progress_of y (snap_step x i) = if decide (of_symbol y i) then progress_step (progress_of y x) i else progress_of y x.
Proof.
  destruct i as [ts [z nb na q|id v]]; unfold of_symbol, progress_of, progress_step, settle; simpl;
    [|unfold take_order; simpl; destruct (op_side v =? md.SIDE.BUY)];
    rewrite lookup_done_if; unfold bid_count, ask_count; simpl; rewrite ?default_insert;
    repeat case_decide; simplify_eq/=; rewrite ?Z.sub_0_r; done.
Qed.

Lemma progress_fold y l : ∀ x,
  progress_of y (foldl snap_step x l) = foldl progress_step (progress_of y x) (filter (of_symbol y) l).
Proof.
  induction l as [|i l IH]; intros x; [done|]. simpl. rewrite IH, progress_snap_step, filter_cons.
  by destruct (decide (of_symbol y i)).
Qed.

(** *** A symbol's items *)

Definition is_order (i : Z * item) : Prop := match i.2 with Order _ _ => True | Info _ _ _ _ => False end.
Definition buys (l : list (Z * item)) : Z := foldr (λ i n, (if is_bid i then 1 else 0) + n) 0 l.
Definition sells (l : list (Z * item)) : Z := foldr (λ i n, (if is_bid i then 0 else 1) + n) 0 l.
Definition wires (l : list (Z * item)) : list md.new_order :=
  omap (λ i : Z * item, match i.2 with Order id v => Some (wire_order i.1 id v) | Info _ _ _ _ => None end) l.

Lemma buys_sells l : 0 <= buys l ∧ 0 <= sells l ∧ buys l + sells l = Z.of_nat (length l).
Proof. induction l as [|i l IH]; simpl; [lia|]. destruct (is_bid i); lia. Qed.

Lemma nothing_left l : (buys l =? 0) && (sells l =? 0) = bool_decide (l = []).
Proof.
  pose proof (buys_sells l). destruct l as [|i l]; [done|].
  rewrite bool_decide_false by done. apply andb_false_iff. simpl length in *.
  destruct (Z.eqb_spec (buys (i :: l)) 0); [right|by left]. apply Z.eqb_neq. lia.
Qed.

Lemma progress_orders p : ∀ r os, Forall is_order p →
  foldl progress_step (mk_progress (buys (p ++ r)) (sells (p ++ r)) os (bool_decide (p ++ r = []))) p =
  mk_progress (buys r) (sells r) (os ++ wires p) (bool_decide (r = [])).
Proof.
  induction p as [|[ts i] p IH]; intros r os Hp; [simpl; by rewrite app_nil_r|].
  apply Forall_cons in Hp as [Hi Hp]. destruct i as [|id v]; [done|].
  rewrite bool_decide_false by done. cbn [foldl app progress_step]. unfold settle. cbn [pg_bids pg_asks pg_orders pg_done].
  change (buys ((ts, Order id v) :: p ++ r)) with ((if op_side v =? md.SIDE.BUY then 1 else 0) + buys (p ++ r)).
  change (sells ((ts, Order id v) :: p ++ r)) with ((if op_side v =? md.SIDE.BUY then 0 else 1) + sells (p ++ r)).
  assert (∀ n, (if op_side v =? md.SIDE.BUY then 1 else 0) + n - (if op_side v =? md.SIDE.BUY then 1 else 0) = n) as -> by (intros; lia).
  assert (∀ n, (if op_side v =? md.SIDE.BUY then 0 else 1) + n - (1 - (if op_side v =? md.SIDE.BUY then 1 else 0)) = n) as ->
    by (intros; destruct (_ =? _); lia).
  rewrite nothing_left, orb_false_r, IH by done. unfold wires. simpl. by rewrite <-app_assoc.
Qed.

(** A prefix [p] of a symbol's items leaves the symbol complete exactly when
    nothing is left. *)
Lemma progress_block p r ts y nb na q os p0 :
  p ++ r = (ts, Info y nb na q) :: os → nb = buys os → na = sells os → Forall is_order os → pg_done p0 = false →
  pg_done (foldl progress_step p0 p) = bool_decide (r = []) ∧
  (r = [] → pg_orders (foldl progress_step p0 p) = wires os).
Proof.
  intros Hpr -> -> Hos Hp0. destruct p as [|i p]; simpl in Hpr.
  { subst r. simpl. by rewrite Hp0. }
  injection Hpr as -> <-. apply Forall_app in Hos as [Hos _]. simpl. unfold settle. simpl.
  rewrite nothing_left, Hp0, orb_false_r, progress_orders by done. simpl. split; [done|]. intros ->. by rewrite app_nil_r.
Qed.

(** ** Receiving the snapshot and the live feed *)

Definition ready (x : snap) : bool := default false (sn_complete x !! 1) && default false (sn_complete x !! 2).

(** Live bytes that start with message [f]. *)
Definition starts (f : Z) (b : list byte) : Prop :=
  ∃ ts m rest, b = frame f ts m ++ rest ∧ is_u32 f ∧ is_u64 ts ∧ msg_ok m.

Lemma starts_app f b rest : starts f b → starts f (b ++ rest).
Proof. intros (ts & m & r & -> & H). exists ts, m, (r ++ rest). by rewrite <-app_assoc. Qed.

Lemma starts_first_live f s : starts f (live_buffer s) → first_live f s.
Proof.
  intros (ts & m & rest & Hb & Hs & Ht & Hm). unfold first_live, get_first_live_seq_num.
  erewrite bind_ret by reflexivity. cbn beta. rewrite bool_decide_false.
  2: { rewrite Hb. intros Hn%(f_equal length). rewrite length_app, frame_length in Hn by done. pose proof (msg_size_bound m). simpl in Hn. lia. }
  erewrite bind_ret.
  2: { eapply (run_read_at md.c_md_header (live_buffer s) [] (wire_header f ts m)); [|by apply wire_header_ok].
       rewrite Hb. simpl. unfold frame. rewrite msg_bytes_split, <-!app_assoc. done. }
  done.
Qed.

Lemma run_receive_snapshot `{FW : FeedWorld} s pkt :
  fw_snapshot (snapshot_recvs s) = RecvPacket pkt → (length pkt ≤ BUF_SIZE)%nat →
  receive_snapshot s = (Ret (Some (length pkt)), set_buf (pkt ++ drop (length pkt) (buf s)) (count_snapshot s)).
Proof.
  intros Hw Hl. unfold receive_snapshot. erewrite bind_ret by reflexivity. cbn beta. erewrite bind_ret by reflexivity. cbn beta.
  rewrite Hw. unfold receive. rewrite firstn_all2 by done. reflexivity.
Qed.

Lemma packet_fits c : packet_ok c → (length (image c) ≤ BUF_SIZE)%nat.
Proof.
  intros (_ & Hm & _). unfold SnapshotTheorems.mtu, SnapshotWriter.BUFFER_SIZE in Hm. assert (Z.of_nat BUF_SIZE = 4096) by done. lia.
Qed.

Lemma image_length l : (length l ≤ length (image l))%nat.
Proof.
  induction l as [|[ts i] l IH]; [done|]. change (image ((ts, i) :: l)) with (item_bytes ts i ++ image l).
  rewrite length_app. pose proof (item_length ts i). destruct i; simpl in *; lia.
Qed.

Lemma buf_over (n : nat) (b pkt : list byte) : length b = n → (length pkt ≤ n)%nat → length (pkt ++ drop (length pkt) b) = n.
Proof. intros Hb Hp. rewrite length_app, length_drop. lia. Qed.

(** What the loop leaves alone, and counts. *)
Record received_from (k : nat) (s s' : t) : Prop := {
  rf_books : symbol_to_order_book s' = symbol_to_order_book s;
  rf_index : order_to_symbol s' = order_to_symbol s;
  rf_buf : length (buf s') = BUF_SIZE;
  rf_live : live_recvs s' = (live_recvs s + k)%nat;
}.

(** A turn of the loop: nothing has come, a packet of the live feed has, or one
    of each; the snapshot socket is read only after a live packet. *)
Inductive turn :=
  | Idle
  | LiveOnly (fs : list (Z * Z * md_msg))
  | Both (fs : list (Z * Z * md_msg)) (p : list byte).

Definition turn_live (t : turn) : received :=
  match t with Idle => RecvWouldBlock | LiveOnly fs | Both fs _ => RecvPacket (enc_frames fs) end.

Fixpoint live_packets (ts : list turn) : list (list (Z * Z * md_msg)) :=
  match ts with [] => [] | Idle :: ts => live_packets ts | (LiveOnly fs | Both fs _) :: ts => fs :: live_packets ts end.
Fixpoint snapshot_answers (ts : list turn) : list received :=
  match ts with
  | [] => [] | Idle :: ts => snapshot_answers ts
  | LiveOnly _ :: ts => RecvWouldBlock :: snapshot_answers ts | Both _ p :: ts => RecvPacket p :: snapshot_answers ts
  end.
Fixpoint snapshot_packets (ts : list turn) : list (list byte) :=
  match ts with [] => [] | (Idle | LiveOnly _) :: ts => snapshot_packets ts | Both _ p :: ts => p :: snapshot_packets ts end.

(** The last turn brings a packet of the snapshot. *)
Definition ends_with_snapshot (ts : list turn) : Prop :=
  match last ts with None | Some (Both _ _) => True | _ => False end.

Lemma ends_tail t ts : ends_with_snapshot (t :: ts) → ends_with_snapshot ts.
Proof. unfold ends_with_snapshot. destruct ts; [done|]. by rewrite last_cons_cons. Qed.

Lemma ends_nonempty t ts : ends_with_snapshot (t :: ts) → snapshot_packets (t :: ts) ≠ [].
Proof.
  revert t. induction ts as [|t' ts IH]; intros t Ht; [by destruct t|].
  specialize (IH t' (ends_tail _ _ Ht)). by destruct t.
Qed.

Lemma run_receive `{FW : FeedWorld} f ts : ∀ chunks fuel c s,
  snapshot_packets ts = image <$> chunks → ends_with_snapshot ts → (length ts < fuel)%nat → length (buf s) = BUF_SIZE →
  (∀ k t, ts !! k = Some t → fw_live (live_recvs s + k) = turn_live t) → Forall mtu (live_packets ts) →
  (∀ k r, snapshot_answers ts !! k = Some r → fw_snapshot (snapshot_recvs s + k) = r) → Forall packet_ok chunks →
  Forall (item_fits f) (concat chunks) → (∀ fs, head (live_packets ts) = Some fs → starts f (live_buffer s ++ enc_frames fs)) →
  (∀ pre post, chunks = pre ++ post → post ≠ [] → ready (foldl snap_step (get_snap c s) (concat pre)) = false) →
  let x := foldl snap_step (get_snap c s) (concat chunks) in
  ready x = true →
  ∃ s', receive_loop fuel c s = (Ret tt, s') ∧ snapshot_buffer s' = sn_buffer x ∧ last_snapshot_seq_num s' = sn_last x ∧
    live_buffer s' = live_buffer s ++ enc_frames (concat (live_packets ts)) ∧ received_from (length ts) s s'.
Proof.
  induction ts as [|t ts IH]; intros chunks [|fuel] c s Hps Hend Hfuel Hb Hw Hm Hsw Hp Hok Hst Hnot x Hready; simpl in Hfuel; try lia.
  { symmetry in Hps. apply fmap_nil_inv in Hps as ->.
    exists s. subst x. simpl in Hready |- *. rewrite app_nil_r. split; [|split_and!; [done..|by split]].
    erewrite bind_ret by reflexivity. cbn beta. change (is_complete 1 s && is_complete 2 s) with (ready (get_snap c s)).
    by rewrite Hready. }
  pose proof (ends_tail _ _ Hend) as Hend'.
  assert (chunks ≠ []) as Hne by (intros ->; by apply ends_nonempty in Hend).
  cbn [receive_loop]. erewrite bind_ret by reflexivity. cbn beta. change (is_complete 1 s && is_complete 2 s) with (ready (get_snap c s)).
  assert (ready (get_snap c s) = false) as -> by by apply (Hnot [] chunks).
  pose proof (Hw 0%nat t eq_refl) as Hw0. rewrite Nat.add_0_r in Hw0.
  assert (∀ k t', ts !! k = Some t' → fw_live (S (live_recvs s) + k) = turn_live t') as Hw'.
  { intros k t' Hk. rewrite Nat.add_succ_comm. by apply (Hw (S k)). }
  destruct t as [|fs|fs p]; cbn [turn_live] in Hw0; cbn [live_packets snapshot_packets snapshot_answers] in *.
  - (* nothing *)
    erewrite bind_ret.
    2: { unfold receive_live. erewrite bind_ret by reflexivity. cbn beta. erewrite bind_ret by reflexivity. cbn beta.
         rewrite Hw0. reflexivity. }
    cbn beta iota.
    destruct (IH chunks fuel c (count_live s)) as (s' & Hr & Hsb & Hls & Hlv & [R1 R2 R3 R4]); try done; [lia|].
    exists s'. split; [exact Hr|]. split; [done|]. split; [done|]. split; [done|]. split; [done..|].
    rewrite R4. simpl. lia.
  - (* a live packet *)
    apply Forall_cons in Hm as [Hm1 Hm]. pose proof (mtu_fits _ Hm1) as Hfit.
    erewrite bind_ret by (by eapply run_receive_live). cbn beta iota.
    set (s1 := set_buf _ (count_live s)). assert (length (buf s1) = BUF_SIZE) as Hb1 by by apply buf_over.
    erewrite bind_ret by reflexivity. cbn beta.
    assert (take (length (enc_frames fs)) (buf s1) = enc_frames fs) as -> by by apply take_app_length.
    set (s2 := set_live_buffer _ s1). pose proof (Hsw 0%nat _ eq_refl) as Hsw0. rewrite Nat.add_0_r in Hsw0.
    erewrite bind_ret.
    2: { unfold receive_snapshot. erewrite bind_ret by reflexivity. cbn beta. erewrite bind_ret by reflexivity. cbn beta.
         change (snapshot_recvs s2) with (snapshot_recvs s). rewrite Hsw0. reflexivity. }
    cbn beta iota.
    destruct (IH chunks fuel c (count_snapshot s2)) as (s' & Hr & Hsb & Hls & Hlv & [R1 R2 R3 R4]); try done; [lia| | |].
    + intros k r Hk. change (snapshot_recvs (count_snapshot s2)) with (S (snapshot_recvs s)). rewrite Nat.add_succ_comm. by apply (Hsw (S k)).
    + intros fs' _. apply starts_app. by apply Hst.
    + exists s'. split; [exact Hr|]. split; [done|]. split; [done|]. split; [|split; [done..|rewrite R4; simpl; lia]].
      rewrite Hlv. change (live_buffer (count_snapshot s2)) with (live_buffer s ++ enc_frames fs).
      simpl concat. by rewrite enc_frames_app, app_assoc.
  - (* a packet of each *)
    destruct chunks as [|g chunks]; [done|]. injection Hps as -> Hps.
    apply Forall_cons in Hp as [Hg Hp]. apply Forall_cons in Hm as [Hm1 Hm]. simpl concat in Hok. apply Forall_app in Hok as [Hokg Hok].
    pose proof (mtu_fits _ Hm1) as Hfit. pose proof (packet_fits _ Hg) as Hgfit.
    erewrite bind_ret by (by eapply run_receive_live). cbn beta iota.
    set (s1 := set_buf _ (count_live s)). assert (length (buf s1) = BUF_SIZE) as Hb1 by by apply buf_over.
    erewrite bind_ret by reflexivity. cbn beta.
    assert (take (length (enc_frames fs)) (buf s1) = enc_frames fs) as -> by by apply take_app_length.
    set (s2 := set_live_buffer _ s1).
    pose proof (Hsw 0%nat _ eq_refl) as Hsw0. rewrite Nat.add_0_r in Hsw0.
    erewrite bind_ret by (eapply (run_receive_snapshot s2); [exact Hsw0|done]). cbn beta iota.
    set (s3 := set_buf _ (count_snapshot s2)). assert (length (buf s3) = BUF_SIZE) as Hb3 by by apply buf_over.
    assert (starts f (live_buffer s3)) as Hst3 by by apply Hst.
    pose proof (run_snapshot_items f g (S (length (image g))) c s3 [] (drop (length (image g)) (buf s2)) eq_refl Hokg (starts_first_live f s3 Hst3)) as Hrun.
    cbv zeta in Hrun. erewrite bind_ret by (apply Hrun; pose proof (image_length g); lia). cbn beta.
    change (get_snap c s3) with (get_snap c s). set (y := foldl snap_step (get_snap c s) g).
    assert (get_snap (sn_counts y) (put_snap y s3) = y) as Hy by apply get_snap_put.
    assert (∀ l, foldl snap_step (get_snap (sn_counts y) (put_snap y s3)) l = foldl snap_step (get_snap c s) (g ++ l)) as Hfold
      by (intros l; by rewrite Hy, foldl_app).
    destruct (IH chunks fuel (sn_counts y) (put_snap y s3)) as (s' & Hr & Hsb & Hls & Hlv & [R1 R2 R3 R4]); try done; [lia| | | | |].
    + intros k r Hk. change (snapshot_recvs (put_snap y s3)) with (S (snapshot_recvs s)). rewrite Nat.add_succ_comm. by apply (Hsw (S k)).
    + intros fs' _. by apply starts_app.
    + intros pre post Hpp Hne'. rewrite Hfold. apply (Hnot (g :: pre) post); [by rewrite Hpp|done].
    + by rewrite Hfold.
    + rewrite Hfold in *. exists s'. split; [exact Hr|]. split; [done|]. split; [done|]. split.
      * rewrite Hlv. change (live_buffer (put_snap y s3)) with (live_buffer s ++ enc_frames fs). simpl concat. by rewrite enc_frames_app, app_assoc.
      * split; [done|done|done|]. rewrite R4. change (live_recvs (put_snap y s3)) with (S (live_recvs s)). simpl length. lia.
Qed.

(** ** Replaying the live buffer *)

Section replay.
Context `{FW : FeedWorld} (recover : M t unit).

(** A frame header at the front of some bytes. *)
Lemma run_header data pre q ts m rest s :
  data = pre ++ frame q ts m ++ rest → is_u32 q → is_u64 ts →
  read md.c_md_header data (length pre) s = (Ret (wire_header q ts m), s).
Proof.
  intros -> Hs Ht. eapply run_read_at; [apply _| |by apply wire_header_ok].
  unfold frame. rewrite msg_bytes_split, <-!app_assoc. done.
Qed.

(** Messages already applied are skipped. *)
Lemma run_skip fs : ∀ fuel data pre stale n s,
  data = pre ++ enc_frames fs ++ stale → Forall numbered_ok fs → numbered_from n fs →
  n + Z.of_nat (length fs) <= last_md_seq_num s + 1 < 2 ^ 32 → 0 <= n → (length fs < fuel)%nat → Z.of_nat (length (enc_frames fs)) < 2 ^ 64 →
  process_message recover fuel data (length pre) (Z.of_nat (length (enc_frames fs))) s = (Ret tt, s).
Proof.
  induction fs as [|[[q ts] m] fs IH]; intros [|fuel] data pre stale n s Hd Hok Hnum Hle Hn Hfuel Hlen; simpl in Hfuel; try lia; [done|].
  apply Forall_cons in Hok as [(Hs & Ht & Hm) Hok]. cbn [fst snd] in *. destruct Hnum as [Hseq Hnum].
  change (enc_frames ((q, ts, m) :: fs)) with (frame q ts m ++ enc_frames fs) in *.
  rewrite length_app, frame_length in * by done. rewrite <-!app_assoc in Hd. simpl length in Hle.
  pose proof (msg_size_bound m) as Hsz. cbn [process_message]. rewrite (proj2 (Z.gtb_gt _ 0)) by lia.
  rewrite (proj2 (Z.ltb_ge _ (Z.of_nat (c_size md.c_md_header)))) by (change (c_size md.c_md_header) with 23%nat; lia).
  erewrite bind_ret by (by eapply run_header). cbn beta zeta.
  change (md.magic_number (wire_header q ts m)) with md.MAGIC_NUMBER. rewrite Z.eqb_refl. cbn [negb].
  erewrite bind_ret by reflexivity. cbn beta. cbn [md.seq_num wire_header md.length].
  rewrite u32_id by (unfold is_u32; lia).
  assert (q >? last_md_seq_num s + 1 = false) as -> by (rewrite Z.gtb_ltb; apply Z.ltb_ge; lia).
  rewrite (proj2 (Z.leb_le q _)) by lia.
  assert (u64 (Z.of_nat (msg_size m + length (enc_frames fs)) - Z.of_nat (msg_size m)) = Z.of_nat (length (enc_frames fs))) as ->
    by (rewrite u64_id; unfold is_u64; lia).
  assert (length pre + Z.to_nat (Z.of_nat (msg_size m)) = length (pre ++ frame q ts m))%nat as ->
    by (rewrite length_app, frame_length by done; lia).
  apply (IH fuel data _ stale (n + 1)); [by rewrite Hd, <-app_assoc|done|done|lia|lia|lia|lia].
Qed.

Lemma run_erase q ts m rest s :
  live_buffer s = frame q ts m ++ rest → is_u32 q → is_u64 ts → msg_ok m →
  erase_live (md.length (wire_header q ts m)) s = (Ret tt, set_live_buffer rest s).
Proof.
  intros Hb Hs Ht Hm. unfold erase_live. erewrite bind_ret by reflexivity. cbn beta. cbn [md.length wire_header].
  rewrite Hb, (proj2 (Z.ltb_ge _ _)) by (rewrite length_app, frame_length by done; lia).
  rewrite Nat2Z.id, <-(frame_length q ts m Hm Hs Ht), drop_app_length. done.
Qed.

Lemma frames_cons q ts m fs : enc_frames ((q, ts, m) :: fs) = frame q ts m ++ enc_frames fs.
Proof. done. Qed.

Lemma frame_cons_ne q ts m rest : is_u32 q → is_u64 ts → msg_ok m → frame q ts m ++ rest ≠ [].
Proof. intros Hs Ht Hm Hn%(f_equal length). rewrite length_app, frame_length in Hn by done. pose proof (msg_size_bound m). simpl in Hn. lia. Qed.

(** What the buffer holds of messages already applied is dropped. *)
Lemma run_drain fs : ∀ fuel n s,
  live_buffer s = enc_frames fs → Forall numbered_ok fs → numbered_from n fs →
  n + Z.of_nat (length fs) <= last_md_seq_num s + 1 < 2 ^ 32 → 0 <= n → (length fs < fuel)%nat → Z.of_nat (length (enc_frames fs)) < 2 ^ 64 →
  live_loop recover fuel s = (Ret tt, set_live_buffer [] s).
Proof.
  induction fs as [|[[q ts] m] fs IH]; intros [|fuel] n s Hb Hok Hnum Hle Hn Hfuel Hlen; simpl in Hfuel; try lia.
  { cbn [live_loop]. erewrite bind_ret by reflexivity. cbn beta. rewrite Hb. simpl. destruct s; simpl in *. by rewrite Hb. }
  pose proof Hok as Hok0. pose proof Hnum as Hnum0. pose proof Hlen as Hlen0.
  apply Forall_cons in Hok as [(Hs & Ht & Hm) Hok]. cbn [fst snd] in *. destruct Hnum as [Hseq Hnum].
  pose proof (enc_frames_length _ Hok0) as Hcount.
  assert ((length ((q, ts, m) :: fs) < S (length (enc_frames ((q, ts, m) :: fs))))%nat) as Hfu by lia.
  rewrite frames_cons in Hb, Hlen. rewrite length_app, frame_length in Hlen by done.
  cbn [live_loop]. erewrite bind_ret by reflexivity. cbn beta. rewrite bool_decide_false by (rewrite Hb; by apply frame_cons_ne).
  erewrite bind_ret by (eapply (run_header (live_buffer s) [] q ts m); [exact Hb|done|done]). cbn beta.
  erewrite bind_ret by reflexivity. cbn beta. cbn [md.seq_num wire_header].
  assert (live_loop recover fuel (set_live_buffer (enc_frames fs) s) = (Ret tt, set_live_buffer [] s)) as Hnext.
  { rewrite (IH fuel (n + 1) (set_live_buffer (enc_frames fs) s)); [done|done|done|done|simpl in *; lia|lia|lia|lia]. }
  destruct (q <=? last_snapshot_seq_num s).
  - erewrite bind_ret by (by eapply run_erase). cbn beta. exact Hnext.
  - erewrite bind_ret.
    2: { rewrite Hb, <-frames_cons. apply (run_skip ((q, ts, m) :: fs) _ _ [] [] n); [by rewrite app_nil_r|done..]. }
    cbn beta. erewrite bind_ret by reflexivity. cbn beta. rewrite bool_decide_false by (rewrite Hb; by apply frame_cons_ne).
    erewrite bind_ret by (by eapply run_erase). cbn beta. exact Hnext.
Qed.

Context (Q : Prop) (faithful : Q → ∀ o, fw_freed o = o).

(** The messages up to the snapshot are dropped, the others applied. *)
Lemma run_replay old : ∀ M fuel n s new,
  keeps_market Q M s → live_buffer s = enc_frames (old ++ new) → Forall numbered_ok (old ++ new) →
  last_md_seq_num s = last_snapshot_seq_num s → numbered_from n old → n + Z.of_nat (length old) <= last_md_seq_num s + 1 →
  numbered_from (last_md_seq_num s + 1) new → feed_fits Q M (new.*2) → 0 <= n <= last_md_seq_num s + 1 →
  last_md_seq_num s + Z.of_nat (length new) + 1 < 2 ^ 32 →
  (length (old ++ new) < fuel)%nat → Z.of_nat (length (enc_frames (old ++ new))) < 2 ^ 64 →
  ∃ s', live_loop recover fuel s = (Ret tt, s') ∧ keeps_market Q (foldl market_step M (new.*2)) s' ∧ buf s' = buf s ∧
    live_recvs s' = live_recvs s ∧ live_buffer s' = [] ∧ last_md_seq_num s' = last_md_seq_num s + Z.of_nat (length new).
Proof using faithful.
  induction old as [|[[q ts] m] old IH]; intros M [|fuel] n s new K Hb Hok Heq Hno Hle Hnn Hfit Hn Hlast Hfuel Hlen; simpl app in *; try (simpl in Hfuel; lia).
  - destruct new as [|[[q ts] m] new].
    { exists (set_live_buffer [] s). rewrite (run_drain [] (S fuel) 0 s); simpl; rewrite ?Z.add_0_r; try done; try lia.
      split; [done|]. split; [by apply (keeps_same Q M s)|done]. }
    pose proof Hok as Hok0. apply Forall_cons in Hok0 as [(Hs & Ht & Hm) Hok1]. cbn [fst snd] in *.
    pose proof Hnn as [Hseq Hnn1]. pose proof (enc_frames_length _ Hok) as Hcount.
    assert (live_buffer s = frame q ts m ++ enc_frames new) as Hb1 by by rewrite Hb.
    cbn [live_loop]. erewrite bind_ret by reflexivity. cbn beta. rewrite bool_decide_false by (rewrite Hb1; by apply frame_cons_ne).
    erewrite bind_ret by (eapply (run_header (live_buffer s) [] q ts m); [exact Hb1|done|done]). cbn beta.
    erewrite bind_ret by reflexivity. cbn beta. cbn [md.seq_num wire_header]. rewrite (proj2 (Z.leb_gt q _)) by lia.
    destruct (run_frames Q faithful recover ((q, ts, m) :: new) (S (length (live_buffer s))) M s (live_buffer s) [] []) as
      (s1 & Hrun & K1 & Hbuf & Hr & Hlv & Hsn & Hl & _); [done|done|by rewrite app_nil_r|done|done|rewrite Hb; lia|lia|].
    rewrite <-Hb in Hrun. erewrite bind_ret by exact Hrun. cbn beta. erewrite bind_ret by reflexivity. cbn beta.
    rewrite Hlv, bool_decide_false by (rewrite Hb1; by apply frame_cons_ne).
    erewrite bind_ret by (eapply run_erase; [by rewrite Hlv|done|done|done]). cbn beta.
    exists (set_live_buffer [] s1). split.
    + rewrite frames_cons, length_app, frame_length in Hlen by done.
      rewrite (run_drain new fuel (q + 1) (set_live_buffer (enc_frames new) s1)); [done|done|done|by rewrite Hseq|simpl in *; lia|lia|simpl in *; lia|lia].
    + split; [by apply (keeps_same Q _ s1)|done].
  - apply Forall_cons in Hok as [(Hs & Ht & Hm) Hok]. cbn [fst snd] in *. destruct Hno as [Hseq Hno]. simpl length in Hle, Hfuel.
    rewrite frames_cons in Hb, Hlen. rewrite length_app, frame_length in Hlen by done.
    cbn [live_loop]. erewrite bind_ret by reflexivity. cbn beta. rewrite bool_decide_false by (rewrite Hb; by apply frame_cons_ne).
    erewrite bind_ret by (eapply (run_header (live_buffer s) [] q ts m); [exact Hb|done|done]). cbn beta.
    erewrite bind_ret by reflexivity. cbn beta. cbn [md.seq_num wire_header]. rewrite (proj2 (Z.leb_le q _)) by lia.
    erewrite bind_ret by (by eapply run_erase). cbn beta.
    apply (IH M fuel (n + 1) (set_live_buffer (enc_frames (old ++ new)) s) new); simpl; try done; try lia. by apply (keeps_same Q M s).
Qed.
End replay.

(** ** The books of a snapshot *)

Definition order_of (v : open) : OrderBook.Order := OrderBook.mkOrder (op_side v) (op_price v) (op_quantity v).

(** The market a snapshot of the open orders [m] shows. *)
Definition snapshot_market (m : gmap Z open) : market :=
  mk_market ((λ v, (op_symbol v, order_of v)) <$> m) (map_to_set (λ _ v, op_symbol v) m).

(** A snapshot order read as the new order it is. *)
Definition as_new (o : md.new_order) : md_msg :=
  NewOrder (md.no_order_id o) (md.no_symbol o) (md.no_side o) (md.no_quantity o) (md.no_price o) (md.no_flags o).

Definition positive_market (G : gmap Z (Z * OrderBook.Order)) : Prop := map_Forall (λ _ x, 0 < OrderBook.quantity x.2 < 2 ^ 32) G.

Lemma book_of_mono y G F : G ⊆ F → book_of y G ⊆ book_of y F.
Proof.
  intros Hs. apply map_subseteq_spec. intros i o. rewrite !lookup_book_of. destruct (G !! i) as [x|] eqn:Hi; [|done].
  by rewrite (lookup_weaken _ _ _ _ Hi Hs).
Qed.

Lemma positive_book_of y F : positive_market F → all_positive (book_of y F).
Proof.
  intros Hp i o. rewrite lookup_book_of. destruct (F !! i) as [[z o']|] eqn:Hi; [|done]. simpl. case_bool_decide; [|done].
  intros [= <-]. apply (Hp i _ Hi).
Qed.

(** Orders of a final market under distinct ids can be entered one by one. *)
Lemma news_fit (Q : Prop) F l : ∀ M,
  (Q → ∀ y, bounded (book_of y F)) → positive_market F → mk_orders M ⊆ F → NoDup (oids l) →
  (∀ o, o ∈ l → mk_orders M !! md.no_order_id o = None ∧
    F !! md.no_order_id o = Some (md.no_symbol o, OrderBook.mkOrder (md.no_side o) (md.no_price o) (md.no_quantity o))) →
  feed_fits Q M (as_new <$> l) ∧
  let M' := foldl market_step M (as_new <$> l) in
  (∀ i, mk_orders M' !! i = if decide (i ∈ oids l) then F !! i else mk_orders M !! i) ∧
  mk_symbols M' = list_to_set (md.no_symbol <$> l) ∪ mk_symbols M.
Proof.
  induction l as [|o l IH]; intros M Hb Hp HG Hnd Hl.
  { simpl. split; [done|]. split; [|set_solver]. done. }
  apply NoDup_cons in Hnd as [Ho Hnd]. destruct (Hl o ltac:(constructor)) as [Hn HF].
  set (G1 := <[md.no_order_id o := (md.no_symbol o, OrderBook.mkOrder (md.no_side o) (md.no_price o) (md.no_quantity o))]> (mk_orders M)).
  assert (G1 ⊆ F) as HG1 by by apply insert_subseteq_l.
  destruct (IH (market_step M (as_new o))) as (Hfit & Hlk & Hsy); [done|done|exact HG1|done| |].
  { intros o' Ho'. destruct (Hl o' ltac:(by constructor)) as [Hn' HF']. split; [|done]. simpl. rewrite lookup_insert_ne; [done|].
    intros He. apply Ho. change (md.no_order_id o ∈ oids l). rewrite He. by apply elem_of_oids. }
  cbn [fmap list_fmap foldl feed_fits]. split; [split; [split|done]|split].
  - split; [done|]. apply (Hp _ _ HF).
  - intros HQ y. simpl. eapply bounded_mono; [by apply book_of_mono|by apply positive_book_of|by apply Hb].
  - intros i. rewrite Hlk. change (oids (o :: l)) with (md.no_order_id o :: oids l). destruct (decide (i ∈ oids l)) as [Hi|Hi].
    + rewrite decide_True; [done|by right].
    + cbn [market_step as_new mk_orders]. destruct (decide (i = md.no_order_id o)) as [->|Hne].
      * rewrite lookup_insert_eq, decide_True; [done|by left].
      * rewrite lookup_insert_ne by done. rewrite decide_False; [done|]. by intros [?|?]%elem_of_cons.
  - rewrite Hsy. simpl. set_solver.
Qed.

Lemma run_add_orders `{FW : FeedWorld} (Q : Prop) (faithful : Q → ∀ o, fw_freed o = o) l : ∀ M s,
  keeps_market Q M s → feed_fits Q M (as_new <$> l) →
  ∃ s', for_each l (λ o, modify (add_order o)) s = (Ret tt, s') ∧ keeps_market Q (foldl market_step M (as_new <$> l)) s' ∧
    same_rest s s' ∧ snapshot_buffer s' = snapshot_buffer s.
Proof.
  induction l as [|o l IH]; intros M s K Hf; [by exists s|].
  destruct Hf as [Hf1 Hf]. pose proof (keeps_add_order Q faithful M s (md.no_header o) _ _ _ _ _ _ K Hf1) as K1.
  destruct (IH _ _ K1 Hf) as (s' & Hr & K' & (R1 & R2 & R3 & R4 & R5 & R6) & Hsb).
  exists s'. split; [|split; [exact K'|by split_and!]].
  simpl. erewrite bind_ret by reflexivity. cbn beta. by destruct o.
Qed.

(** *** The items of one symbol of the writer *)

Section writer.
Context (m : gmap Z open) (w : SnapshotWriter.t) (T : tracks m w).
Context (small : ∀ y, Z.of_nat (length (SnapshotWriter.bids y w)) < 2 ^ 32 ∧ Z.of_nat (length (SnapshotWriter.asks y w)) < 2 ^ 32).

Definition resting (y : Z) : list md.new_order := SnapshotWriter.bids y w ++ SnapshotWriter.asks y w.

Lemma in_resting y o : o ∈ resting y ↔
  ∃ v, m !! md.no_order_id o = Some v ∧ op_symbol v = y ∧ o = as_order (md.no_order_id o) v.
Proof using T.
  unfold resting. rewrite elem_of_app, (proj2 (tr_bids _ _ T y)), (proj2 (tr_asks _ _ T y)). unfold mine. split.
  - intros [(v & Hv & [Hy _]%andb_prop & Ho)|(v & Hv & [Hy _]%andb_prop & Ho)]; apply Z.eqb_eq in Hy; eauto.
  - intros (v & Hv & Hy & Ho). destruct (tr_ok _ _ T _ _ Hv) as [[Hs|Hs] _]; [left|right]; exists v;
      (split; [done|]); rewrite Hs, Hy, !Z.eqb_refl; done.
Qed.

Lemma resting_nodup y : NoDup (oids (resting y)).
Proof using T.
  unfold resting, oids. rewrite fmap_app. apply NoDup_app. split; [apply (tr_bids _ _ T y)|]. split; [|apply (tr_asks _ _ T y)].
  intros i (o & -> & Ho)%list_elem_of_fmap (o' & Hi & Ho')%list_elem_of_fmap.
  apply (tr_bids _ _ T y) in Ho as (v & Hv & [_ Hb]%andb_prop & _). apply (tr_asks _ _ T y) in Ho' as (v' & Hv' & [_ Ha]%andb_prop & _).
  rewrite <-Hi, Hv in Hv'. injection Hv' as <-. apply Z.eqb_eq in Hb, Ha. rewrite Hb in Ha. done.
Qed.

Lemma count_items l os : os.*2 = item_of <$> l → Forall is_order os ∧
  buys os = Z.of_nat (length (filter (λ o, md.no_side o = md.SIDE.BUY) l)) ∧
  sells os = Z.of_nat (length (filter (λ o, md.no_side o ≠ md.SIDE.BUY) l)) ∧
  wires os = zip_with (λ (x : Z * item) o, wire_order x.1 (md.no_order_id o) (open_of o)) os l.
Proof.
  revert os. induction l as [|o l IH]; intros [|[ts i] os] H; try done. cbn in H. injection H as -> H.
  destruct (IH os H) as (Ho & Hb & Hs & Hw). split; [by constructor|].
  cbn [buys sells foldr]. change (is_bid (ts, item_of o)) with (md.no_side o =? md.SIDE.BUY). rewrite !filter_cons. unfold buys, sells in Hb, Hs.
  rewrite Hb, Hs. split_and!.
  - destruct (Z.eqb_spec (md.no_side o) md.SIDE.BUY); [rewrite decide_True by done|rewrite decide_False by done]; simpl length; lia.
  - destruct (Z.eqb_spec (md.no_side o) md.SIDE.BUY); [rewrite decide_False by tauto|rewrite decide_True by done]; simpl length; lia.
  - change (wires ((ts, item_of o) :: os)) with (wire_order ts (md.no_order_id o) (open_of o) :: wires os). by rewrite Hw.
Qed.

Lemma symbol_block y l : l.*2 = symbol_items w y →
  ∃ ts os, l = (ts, Info y (buys os) (sells os) (SnapshotWriter.last_md_seq_num w)) :: os ∧
    Forall is_order os ∧ os.*2 = item_of <$> resting y.
Proof using T small.
  unfold symbol_items. destruct l as [|[ts i] os]; [done|]. intros H. cbn in H. injection H as -> H. rewrite <-fmap_app in H. fold (resting y) in H.
  exists ts, os. destruct (count_items _ _ H) as (Ho & Hb & Hs & _). split; [|done].
  unfold resting in Hb, Hs. rewrite filter_app, length_app in Hb, Hs.
  assert (∀ o, o ∈ SnapshotWriter.bids y w → md.no_side o = md.SIDE.BUY) as Sb.
  { intros o (v & _ & [_ Hd]%andb_prop & ->)%(tr_bids _ _ T y). simpl. by apply Z.eqb_eq. }
  assert (∀ o, o ∈ SnapshotWriter.asks y w → md.no_side o ≠ md.SIDE.BUY) as Sa.
  { intros o (v & _ & [_ Hd]%andb_prop & ->)%(tr_asks _ _ T y). simpl. apply Z.eqb_eq in Hd. by rewrite Hd. }
  rewrite (filter_true _ _ Sb), (filter_false _ (SnapshotWriter.asks y w)) in Hb by by intros o ? ?%Sa.
  rewrite (filter_true _ _ Sa), (filter_false _ (SnapshotWriter.bids y w)) in Hs by (intros o ?%Sb ?; done).
  destruct (small y) as [Lb La]. rewrite Hb, Hs, !u32_id by (unfold is_u32; lia). simpl length. by rewrite Nat.add_0_r.
Qed.

(** The orders read back from the items of resting orders. *)
Lemma in_wires y os : os.*2 = item_of <$> resting y →
  oids (wires os) = oids (resting y) ∧ (md.no_symbol <$> wires os) = (md.no_symbol <$> resting y) ∧
  ∀ o, o ∈ wires os → ∃ v, m !! md.no_order_id o = Some v ∧ op_symbol v = y ∧ md.no_symbol o = op_symbol v ∧
    md.no_side o = op_side v ∧ md.no_price o = op_price v ∧ md.no_quantity o = op_quantity v.
Proof using T.
  intros H. destruct (count_items _ _ H) as (_ & _ & _ & ->). assert (length os = length (resting y)) as Hlen by (by rewrite <-(length_fmap snd os), H, length_fmap).
  assert (∀ o, o ∈ resting y → ∃ v, m !! md.no_order_id o = Some v ∧ op_symbol v = y ∧ o = as_order (md.no_order_id o) v) as Hin by (intros o; by apply in_resting).
  clear H. revert os Hlen. induction (resting y) as [|o l IH]; intros [|[ts i] os] Hlen; try done;
    [by split_and!; [..|intros o Ho; apply elem_of_nil in Ho]|].
  destruct (IH ltac:(intros o' Ho'; apply Hin; by constructor) os ltac:(by injection Hlen)) as (Hi & Hs & Ho). split_and!.
  - simpl. f_equal. exact Hi.
  - simpl. f_equal. exact Hs.
  - intros o'. simpl. intros [->|Ho']%elem_of_cons; [|by apply Ho]. destruct (Hin o ltac:(constructor)) as (v & Hv & Hy & Hov).
    exists v. simpl. split_and!; try done; by rewrite Hov.
Qed.

Lemma block_symbol y z l : l.*2 = symbol_items w y → filter (of_symbol z) l = if decide (y = z) then l else [].
Proof using T small.
  intros H. destruct (symbol_block y l H) as (ts & os & -> & Ho & Hos).
  assert (∀ i, i ∈ (ts, Info y (buys os) (sells os) (SnapshotWriter.last_md_seq_num w)) :: os → item_symbol i.2 = y) as Hall.
  { intros i [->|Hi]%elem_of_cons; [done|]. apply (list_elem_of_fmap_2 snd) in Hi. rewrite Hos in Hi.
    apply list_elem_of_fmap in Hi as (o & -> & (v & _ & Hv & ->)%in_resting). done. }
  destruct (decide (y = z)) as [->|Hne]; [by apply filter_true|]. apply filter_false. intros i Hi. unfold of_symbol. by rewrite (Hall i Hi).
Qed.

(** A prefix [P] of a list that holds the items of symbol [y]. *)
Lemma prefix_progress y l P R x0 :
  filter (of_symbol y) (P ++ R) = l → l.*2 = symbol_items w y → pg_done (progress_of y x0) = false →
  let x := foldl snap_step x0 P in
  pg_done (progress_of y x) = bool_decide (filter (of_symbol y) R = []) ∧
  (filter (of_symbol y) R = [] → ∃ os, os.*2 = item_of <$> resting y ∧ pg_orders (progress_of y x) = wires os).
Proof using T small.
  intros Hl H Hx0 x. destruct (symbol_block y l H) as (ts & os & -> & Ho & Hos). rewrite filter_app in Hl.
  subst x. rewrite progress_fold.
  destruct (progress_block _ _ ts y _ _ _ os (progress_of y x0) Hl eq_refl eq_refl Ho Hx0) as [Hd Hb].
  split; [exact Hd|]. intros HR. exists os. split; [done|by apply Hb].
Qed.

Lemma sn_last_fold q l : ∀ x, Forall (λ i : Z * item, match i.2 with Info _ _ _ q' => q' = q | Order _ _ => True end) l →
  (sn_last x = q ∨ ∃ i l', l = i :: l' ∧ ¬ is_order i) → sn_last (foldl snap_step x l) = q.
Proof.
  induction l as [|[ts i] l IH]; intros x Hl Hx; [destruct Hx as [?|(? & ? & ? & _)]; done|].
  apply Forall_cons in Hl as [Hi Hl]. simpl. apply IH; [done|]. left.
  destruct i as [y nb na q'|id v]; [done|]. destruct Hx as [Hx|(i & l' & [= <- <-] & Hn)]; [done|]. by destruct Hn.
Qed.

(** A whole snapshot in [L]: it is complete exactly at its end, and then the
    client holds every order of both symbols. *)
Lemma snapshot_progress L ys x0 :
  ys ≡ₚ [1; 2] → L.*2 = ys ≫= symbol_items w → (∀ y, y ∈ ys → pg_done (progress_of y x0) = false) →
  let x := foldl snap_step x0 L in
  ready x = true ∧ sn_last x = SnapshotWriter.last_md_seq_num w ∧
  (∀ y, y ∈ ys → ∃ os, os.*2 = item_of <$> resting y ∧ default [] (sn_buffer x !! y) = wires os) ∧
  (∀ P R, L = P ++ R → R ≠ [] → ready (foldl snap_step x0 P) = false).
Proof using T small.
  intros Hys HL Hx0 x.
  assert (∃ y1 y2, ys = [y1; y2] ∧ y1 ≠ y2 ∧ ∀ z, z = 1 ∨ z = 2 ↔ z = y1 ∨ z = y2) as (y1 & y2 & -> & Hne & H12).
  { symmetry in Hys. apply Permutation_length_2_inv in Hys as [->| ->]; do 2 eexists; (split; [done|]); (split; [done|]); tauto. }
  rewrite !bind_cons in HL. change ([] ≫= symbol_items w) with (@nil item) in HL. rewrite app_nil_r in HL. apply fmap_app_inv in HL as (A & B & HA & HB & ->).
  assert (∀ y l, y ∈ [y1; y2] → l = (if decide (y1 = y) then A else B) → filter (of_symbol y) (A ++ B) = l ∧ l.*2 = symbol_items w y) as Hf.
  { intros y l Hy ->. rewrite filter_app, (block_symbol y1 y A), (block_symbol y2 y B) by done.
    apply elem_of_cons in Hy as [->|Hy%list_elem_of_singleton]; [|subst y];
      repeat case_decide; try congruence; rewrite ?app_nil_r; by split. }
  assert (∀ y, y ∈ [y1; y2] → pg_done (progress_of y x) = true ∧ ∃ os, os.*2 = item_of <$> resting y ∧ default [] (sn_buffer x !! y) = wires os) as Hend.
  { intros y Hy. destruct (Hf y _ Hy eq_refl) as [Hl1 Hl2].
    destruct (prefix_progress y (if decide (y1 = y) then A else B) (A ++ B) [] x0) as [Hd Ho]; [by rewrite app_nil_r|exact Hl2|by apply Hx0|].
    split; [exact Hd|]. by apply Ho. }
  split_and!.
  - assert (∀ z, z = 1 ∨ z = 2 → default false (sn_complete x !! z) = true) as Hz.
    { intros z [->| ->]%H12; apply Hend; set_solver. }
    unfold ready. by rewrite !Hz by auto.
  - apply sn_last_fold.
    + assert (∀ y l, l.*2 = symbol_items w y → Forall (λ i : Z * item, match i.2 with Info _ _ _ q' => q' = SnapshotWriter.last_md_seq_num w | Order _ _ => True end) l) as Hq.
      { intros y l H. destruct (symbol_block y l H) as (ts & os & -> & Ho & _). constructor; [done|].
        eapply Forall_impl; [exact Ho|]. intros [? []]; done. }
      apply Forall_app. eauto.
    + right. destruct (symbol_block y1 A) as (ts & os & -> & _ & _); [done|]. eexists _, _. split; [done|]. by intros [].
  - intros y Hy. by apply Hend.
  - intros P R HPR HR. destruct (Hf y2 B) as [Hl1 Hl2]; [set_solver|by rewrite decide_False|].
    destruct (prefix_progress y2 B P R x0) as [Hd _]; [by rewrite <-HPR|done|apply Hx0; set_solver|].
    assert (default false (sn_complete (foldl snap_step x0 P) !! y2) = false) as Hn.
    { change (pg_done (progress_of y2 (foldl snap_step x0 P)) = false). rewrite Hd. apply bool_decide_eq_false. intros Hnil.
      destruct (symbol_block y2 B) as (ts & os & HB' & _ & _); [done|].
      assert (last (A ++ B) = last R) as Hlast.
      { rewrite HPR, last_app. destruct (last R) eqn:E; [done|]. by apply last_None in E. }
      destruct (last B) as [b|] eqn:HbB; [|apply last_None in HbB; congruence].
      rewrite last_app, HbB in Hlast. symmetry in Hlast. apply last_Some_elem_of in Hlast, HbB.
      assert (b ∈ filter (of_symbol y2) (A ++ B)) as HbF by by rewrite Hl1.
      apply list_elem_of_filter in HbF as [Hb2 _].
      assert (b ∈ filter (of_symbol y2) R) as Hin by by apply list_elem_of_filter.
      rewrite Hnil in Hin. by apply elem_of_nil in Hin. }
    unfold ready. destruct (proj2 (H12 y2) (or_intror eq_refl)) as [->| ->]; rewrite Hn; [done|apply andb_false_r].
Qed.
End writer.

(** ** The recovery *)

(** A snapshot whose numbers fit their fields. *)
Record snapshot_fits (m : gmap Z open) (w : SnapshotWriter.t) : Prop := {
  sf_small : ∀ y, Z.of_nat (length (SnapshotWriter.bids y w)) < 2 ^ 32 ∧ Z.of_nat (length (SnapshotWriter.asks y w)) < 2 ^ 32;
  sf_seq : is_u32 (SnapshotWriter.last_md_seq_num w);
  sf_orders : ∀ id v, m !! id = Some v → is_u64 id ∧ 0 < op_quantity v ∧ is_s32 (op_price v) ∧ is_u8 (op_flags v);
}.

Section items.
Context (m : gmap Z open) (w : SnapshotWriter.t) (T : tracks m w) (Fit : snapshot_fits m w).

Lemma open_symbol id v : m !! id = Some v → op_symbol v = 1 ∨ op_symbol v = 2.
Proof using T.
  intros Hv. pose proof (tr_known _ _ T _ _ (tr_index _ _ T _ _ Hv)) as Hy. unfold tracked in Hy.
  apply orb_prop in Hy as [Hy%Z.eqb_eq|Hy%Z.eqb_eq]; auto.
Qed.

Lemma snapshot_items_fit f y l : f < SnapshotWriter.last_md_seq_num w → y = 1 ∨ y = 2 → l.*2 = symbol_items w y →
  Forall (λ i, is_u64 i.1) l → Forall (item_fits f) l.
Proof using T Fit.
  intros Hf Hy Hl Hts. pose proof (symbol_block m w T (sf_small _ _ Fit) y l Hl) as (ts & os & -> & Ho & Hos).
  apply Forall_cons in Hts as [Hts Htos]. destruct (count_items (resting w y) os Hos) as (_ & Hb & Hs & _).
  constructor.
  - split; [done|]. cbn [snd].
    pose proof (sf_seq _ _ Fit). unfold symbol_items in Hl. cbn in Hl. injection Hl as Hb' Hs' _.
    split; [unfold is_u32; lia|]. split; [rewrite Hb'; apply u32_range|]. split; [rewrite Hs'; apply u32_range|]. done.
  - rewrite Forall_forall in Htos, Ho |- *. intros [t i] Hi. split; [by apply Htos|]. specialize (Ho _ Hi). destruct i as [|id v]; [done|]. cbn [snd].
    apply (list_elem_of_fmap_2 snd) in Hi. rewrite Hos in Hi. apply list_elem_of_fmap in Hi as (o & [= -> ->] & Ho').
    apply (in_resting m w T) in Ho' as (v & Hv & Hvy & ->). simpl.
    destruct (sf_orders _ _ Fit _ _ Hv) as (Hid & Hq & Hp & Hfl). destruct (tr_ok _ _ T _ _ Hv) as [Hside Hqty].
    split_and!; [exact Hid|unfold is_u32; lia|destruct Hside as [->| ->]; by vm_compute|exact Hqty|exact Hp|exact Hfl].
Qed.

Lemma all_items_fit f ys : ∀ L, f < SnapshotWriter.last_md_seq_num w → (∀ y, y ∈ ys → y = 1 ∨ y = 2) →
  L.*2 = ys ≫= symbol_items w → Forall (λ i, is_u64 i.1) L → Forall (item_fits f) L.
Proof using T Fit.
  induction ys as [|y ys IH]; intros L Hf Hys HL Hts; [by destruct L|].
  rewrite bind_cons in HL. apply fmap_app_inv in HL as (A & B & HA & HB & ->). apply Forall_app in Hts as [HtA HtB].
  apply Forall_app. split.
  - apply (snapshot_items_fit f y A); [done|apply Hys; by left|done|done].
  - apply IH; [done|intros z Hz; apply Hys; by right|done|done].
Qed.

(** The client's orders are the snapshot's market. *)
Context (Q : Prop) (bounded_snapshot : Q → ∀ y, bounded (book_of y (mk_orders (snapshot_market m)))).

Lemma snapshot_news os1 os2 :
  os1.*2 = item_of <$> resting w 1 → os2.*2 = item_of <$> resting w 2 →
  let l := wires os1 ++ wires os2 in
  feed_fits Q no_market (as_new <$> l) ∧ foldl market_step no_market (as_new <$> l) = snapshot_market m.
Proof using T Fit bounded_snapshot.
  intros H1 H2 l. destruct (in_wires m w T 1 os1 H1) as (Hi1 & Hs1 & Ho1). destruct (in_wires m w T 2 os2 H2) as (Hi2 & Hs2 & Ho2).
  assert (oids l = oids (resting w 1) ++ oids (resting w 2)) as Hids by (subst l; unfold oids in *; by rewrite fmap_app, Hi1, Hi2).
  assert (∀ o, o ∈ l → ∃ v, m !! md.no_order_id o = Some v ∧ md.no_symbol o = op_symbol v ∧
    md.no_side o = op_side v ∧ md.no_price o = op_price v ∧ md.no_quantity o = op_quantity v) as Hl.
  { intros o [Ho|Ho]%elem_of_app; [apply Ho1 in Ho as (v & Hv & _ & Hr)|apply Ho2 in Ho as (v & Hv & _ & Hr)]; eauto. }
  assert (∀ i, i ∈ oids l ↔ is_Some (m !! i)) as Hdom.
  { intros i. rewrite Hids, elem_of_app. split.
    - intros [(o & -> & (v & Hv & _)%(in_resting m w T))%list_elem_of_fmap|(o & -> & (v & Hv & _)%(in_resting m w T))%list_elem_of_fmap]; eauto.
    - intros [v Hv]. pose proof (λ y, proj2 (in_resting m w T y (as_order i v))) as Hin.
      destruct (open_symbol _ _ Hv) as [Hy|Hy]; [left|right]; apply (elem_of_oids (as_order i v)), Hin; by exists v. }
  destruct (news_fit Q (mk_orders (snapshot_market m)) l no_market) as (Hfit & Hlk & Hsy).
  - exact bounded_snapshot.
  - intros i x. simpl. rewrite lookup_fmap. intros (v & Hv & ->)%fmap_Some. simpl.
    destruct (sf_orders _ _ Fit i v Hv) as (_ & ? & _). destruct (tr_ok _ _ T _ _ Hv) as [_ [_ ?]]. done.
  - apply map_empty_subseteq.
  - rewrite Hids. apply NoDup_app. split; [apply (resting_nodup m w T)|]. split; [|apply (resting_nodup m w T)].
    intros i (o & -> & (v & Hv & Hy & _)%(in_resting m w T))%list_elem_of_fmap (o' & Hi & (v' & Hv' & Hy' & _)%(in_resting m w T))%list_elem_of_fmap.
    rewrite <-Hi, Hv in Hv'. injection Hv' as <-. congruence.
  - intros o Ho. split; [done|]. destruct (Hl o Ho) as (v & Hv & Hs & Hd & Hp & Hq). simpl. rewrite lookup_fmap, Hv. simpl.
    by rewrite Hs, Hd, Hp, Hq.
  - split; [exact Hfit|]. destruct (foldl _ _ _) as [G S] eqn:E. cbn in Hlk, Hsy. unfold snapshot_market. f_equal.
    + apply map_eq. intros i. rewrite Hlk. case_decide as Hi; [done|]. rewrite Hdom in Hi. rewrite lookup_fmap, lookup_empty.
      destruct (m !! i); [|done]. destruct Hi; eauto.
    + apply set_eq. intros z. rewrite Hsy, elem_of_union, elem_of_list_to_set, elem_of_map_to_set, list_elem_of_fmap. split.
      * intros [(o & -> & Ho)|Hz]; [|set_solver]. destruct (Hl o Ho) as (v & Hv & Hs & _). eauto.
      * intros (i & v & Hv & <-). left. assert (i ∈ oids l) as Hi by (apply Hdom; eauto).
        apply list_elem_of_fmap in Hi as (o & -> & Ho). exists o. split; [|done]. destruct (Hl o Ho) as (v' & Hv' & Hs & _). congruence.
Qed.

Lemma run_apply_snapshots `{FW : FeedWorld} (faithful : Q → ∀ o, fw_freed o = o) s os1 os2 :
  os1.*2 = item_of <$> resting w 1 → os2.*2 = item_of <$> resting w 2 → keeps_market Q no_market s →
  default [] (snapshot_buffer s !! 1) = wires os1 → default [] (snapshot_buffer s !! 2) = wires os2 →
  ∃ s1 s2, apply_snapshot 1 s = (Ret tt, s1) ∧ apply_snapshot 2 s1 = (Ret tt, s2) ∧ keeps_market Q (snapshot_market m) s2 ∧ same_rest s s2.
Proof using T Fit bounded_snapshot.
  intros Ho1 Ho2 K Hb1 Hb2. destruct (snapshot_news os1 os2 Ho1 Ho2) as [Hfits Hmarket].
  rewrite fmap_app in Hfits, Hmarket. rewrite foldl_app in Hmarket. apply feed_fits_app in Hfits as [Hf1 Hf2].
  destruct (run_add_orders Q faithful (wires os1) no_market s K Hf1) as (s1 & Hr1 & K1 & (S1 & S2 & S3 & S4 & S5 & S6) & Hsb1).
  destruct (run_add_orders Q faithful (wires os2) _ s1 K1 Hf2) as (s2 & Hr2 & K2 & (U1 & U2 & U3 & U4 & U5 & U6) & Hsb2).
  exists s1, s2. rewrite Hmarket in K2. split_and!; [| |done|split_and!; congruence].
  - unfold apply_snapshot. erewrite bind_ret by reflexivity. cbn beta. by rewrite Hb1.
  - unfold apply_snapshot. erewrite bind_ret by reflexivity. cbn beta. by rewrite Hsb1, Hb2.
Qed.
End items.

Lemma run_leave `{FW : FeedWorld} s : (fw_recover_on_drops = true ∨ 0 <= fw_leave) →
  ∃ s', when (negb fw_recover_on_drops) leave_group s = (Ret tt, s') ∧ same_rest s s' ∧
    symbol_to_order_book s' = symbol_to_order_book s ∧ order_to_symbol s' = order_to_symbol s.
Proof.
  intros Hl. destruct fw_recover_on_drops; simpl; [by exists s|]. destruct Hl as [?|Hl]; [done|].
  exists (unsubscribe s). split; [|done]. unfold leave_group. by rewrite (proj2 (Z.ltb_ge _ _)).
Qed.

(** A client that has nothing yet: as constructed, or as a recovery leaves it. *)
Record blank (s : t) : Prop := {
  bl_books : symbol_to_order_book s = ∅;
  bl_index : order_to_symbol s = ∅;
  bl_live : live_buffer s = [];
  bl_buf : length (buf s) = BUF_SIZE;
}.

(** C11 ([recovery_joins_feed]): a client with empty hands receives in turns
    nothing, a packet of the live feed, or one of the live feed and then one of
    the snapshot feed (the code reads the second only after the first), until
    the last packet of one whole snapshot of the writer has come, no other
    snapshot's among them, the live feed beginning before the snapshot's
    sequence number.  It leaves [wait_for_snapshot] in step with the market: its
    open orders are the writer's with the live messages after the snapshot
    applied, none lost and none applied twice, and its sequence number is the
    last message's.  If, moreover, an order's memory reads the same after a full
    trade has freed it and the total of every price fits 32 bits, the levels of
    its books are the totals of their orders. *)
Theorem recovery_joins_feed (FW : FeedWorld) m w ps ts old new n ts0 m0 fs0 s depth :
  tracks m w → snapshot_of w ps → snapshot_fits m w → blank s →
  snapshot_packets ts = ps → ends_with_snapshot ts → (length ts < fw_fuel)%nat →
  (∀ k t, ts !! k = Some t → fw_live (live_recvs s + k) = turn_live t) → Forall mtu (live_packets ts) →
  (∀ k r, snapshot_answers ts !! k = Some r → fw_snapshot (snapshot_recvs s + k) = r) →
  let q := SnapshotWriter.last_md_seq_num w in
  head (live_packets ts) = Some ((n, ts0, m0) :: fs0) → n < q →
  concat (live_packets ts) = old ++ new → Forall numbered_ok (old ++ new) →
  numbered_from n old → n + Z.of_nat (length old) <= q + 1 → numbered_from (q + 1) new →
  q + Z.of_nat (length new) + 1 < 2 ^ 32 → Z.of_nat (length (enc_frames (old ++ new))) < 2 ^ 64 →
  feed_says (snapshot_market m) (new.*2) → (fw_recover_on_drops = true ∨ 0 <= fw_leave) →
  let M' := foldl market_step (snapshot_market m) (new.*2) in
  ∃ s', wait_for_snapshot (S depth) s = (Ret tt, s') ∧ keeps_orders M' s' ∧
    ((∀ o, fw_freed o = o) → totals_fit (snapshot_market m) (new.*2) → keeps_levels M' s') ∧
    last_md_seq_num s' = q + Z.of_nat (length new) ∧ live_buffer s' = [] ∧ length (buf s') = BUF_SIZE ∧
    live_recvs s' = (live_recvs s + length ts)%nat.
Proof.
  intros T [_ (ys & chunks & -> & Hpk & Hys & HL)] Fit [Bb Bi Bl Bbuf] Hlen Hend Hfuel Hw Hm Hsw q Hfirst Hnq Hcat Hok Hno Hle Hnn Hmax Hbytes Hfeed Hleave M'.
  set (Q := (∀ o, fw_freed o = o) ∧ totals_fit (snapshot_market m) (new.*2)).
  assert (Q → ∀ o, fw_freed o = o) as Hfr by by intros [? _].
  assert (Q → ∀ y, bounded (book_of y (mk_orders (snapshot_market m)))) as Hbd by (intros [_ Hb]; exact (Hb 0%nat)).
  cbn [wait_for_snapshot]. erewrite bind_ret by reflexivity. cbn beta.
  set (s0 := set_snapshot_complete _ s).
  assert (∀ y, y ∈ ys → y = 1 ∨ y = 2) as H12.
  { intros y. rewrite Hys, elem_of_cons, list_elem_of_singleton. done. }
  assert (Forall (item_fits n) (concat chunks)) as Hitems.
  { apply (all_items_fit m w T Fit n ys); [done|done|done|]. apply Forall_concat. eapply Forall_impl; [exact Hpk|]. by intros c (_ & _ & ?). }
  destruct (snapshot_progress m w T (sf_small _ _ Fit) (concat chunks) ys (get_snap no_counts s0) Hys HL) as (Hready & Hlast & Hbooks & Hnot).
  { intros y [->| ->]%H12; unfold progress_of; simpl; [rewrite lookup_insert_ne by done|]; by rewrite lookup_insert_eq. }
  assert (starts n (enc_frames ((n, ts0, m0) :: fs0))) as Hstarts.
  { destruct (live_packets ts) as [|fs1 lps]; [done|]. injection Hfirst as ->. rewrite <-Hcat in Hok. simpl in Hok.
    apply Forall_cons in Hok as [(Hs & Ht & Hmk) _]. by exists ts0, m0, (enc_frames fs0). }
  destruct (run_receive n ts chunks fw_fuel no_counts s0) as (s1 & Hrun & Hsb & Hsl & Hlv & [R1 R2 R3 R4]);
    [done|done|done|done|exact Hw|done|exact Hsw|done|done| | |exact Hready|].
  - intros fs Hfs. rewrite Hfirst in Hfs. injection Hfs as <-. change (live_buffer s0) with (live_buffer s). by rewrite Bl.
  - intros pre post Hpp Hne. apply (Hnot (concat pre) (concat post)); [by rewrite Hpp, concat_app|].
    destruct post as [|g post]; [done|]. rewrite Hpp in Hpk. apply Forall_app in Hpk as [_ Hpk]. apply Forall_cons in Hpk as [(Hg & _) _].
    simpl. by destruct g.
  - erewrite bind_ret by exact Hrun. cbn beta.
    destruct (Hbooks 1) as (os1 & Ho1 & Hb1); [rewrite Hys; set_solver|]. destruct (Hbooks 2) as (os2 & Ho2 & Hb2); [rewrite Hys; set_solver|].
    assert (keeps_market Q no_market s1) as K1.
    { split; [done|done|by rewrite R1; simpl; rewrite Bb|]. intros y b. rewrite R1. simpl. rewrite Bb, lookup_empty. done. }
    destruct (run_apply_snapshots m w T Fit Q Hbd Hfr s1 os1 os2) as (s2 & s3 & Ha1 & Ha2 & K3 & (U1 & U2 & U3 & U4 & U5 & _));
      [done|done|done|by rewrite Hsb|by rewrite Hsb|].
    do 2 (erewrite bind_ret by eassumption; cbn beta). do 2 (erewrite bind_ret by reflexivity; cbn beta).
    set (s4 := set_last_md_seq_num (last_snapshot_seq_num s3) s3).
    assert (last_snapshot_seq_num s4 = q) as Hq4 by (change (last_snapshot_seq_num s3 = q); by rewrite U4, Hsl, Hlast).
    assert (last_md_seq_num s4 = q) as Hl4 by exact Hq4.
    assert (live_buffer s4 = enc_frames (old ++ new)) as Hb4.
    { change (live_buffer s3 = enc_frames (old ++ new)). rewrite U3, Hlv. change (live_buffer s0) with (live_buffer s). by rewrite Bl, Hcat. }
    assert (0 <= n) as Hn0 by (destruct Hstarts as (? & ? & ? & _ & Hs & _); apply Hs).
    destruct (run_replay (wait_for_snapshot depth) Q Hfr old (snapshot_market m) (S (length (live_buffer s4))) n s4 new) as (s5 & Hr5 & K5 & Hbuf5 & Hrec5 & Hlv5 & Hl5);
      rewrite ?Hl4; try done; [by apply (keeps_same _ _ s3)| |lia|rewrite Hb4; pose proof (enc_frames_length _ Hok); lia|].
    { apply says_fits; [done|]. by intros [_ ?]. }
    erewrite bind_ret by exact Hr5. cbn beta.
    destruct (run_leave s5 Hleave) as (s6 & Hr6 & (E1 & E2 & E3 & E4 & E5 & _) & E6 & E7).
    assert (keeps_market Q M' s6) as K6 by by apply (keeps_same _ _ s5).
    exists s6. split; [exact Hr6|]. split; [by eapply keeps_market_orders|].
    split; [intros H1 H2; by apply (keeps_market_levels Q M' s6 (conj H1 H2))|].
    split; [by rewrite E2, Hl5, Hl4|]. split; [congruence|].
    split; [|rewrite E5, Hrec5; change (live_recvs s4) with (live_recvs s3); by rewrite U5, R4].
    rewrite E1, Hbuf5. change (buf s4) with (buf s3). by rewrite U1.
Qed.

(** *** Examples *)

(** A writer whose clock makes every call due. *)
Definition ticking_world : SnapshotWorld := {|
  sn_world := {| nanotime_at := λ n, 1000000000 * Z.of_nat (S n); sendto_rc := λ _ b, Z.of_nat (length b) |};
  sn_sort := λ _ d, merge_sort (price_le d);
  sn_sort_perm := λ _ d, merge_sort_Permutation (price_le d);
  sn_sort_sorted := λ _ d, Sorted_merge_sort (price_le d);
  sn_walk := λ _ m, (map_to_list m).*1;
  sn_walk_perm := λ _ m, reflexivity _;
|}.

Definition writer_after (q : list md_payload) (w : SnapshotWriter.t) : SnapshotWriter.t :=
  (SnapshotWriter.process (SW := ticking_world) (SnapshotWriter.set_queue q w)).2.

Definition payloads_5 : list md_payload := [mk_md_payload md.MSG_TYPE.NEW_ORDER 5 200 1 md.SIDE.BUY 10 50 0].
Definition payloads_6 : list md_payload := [mk_md_payload md.MSG_TYPE.DELETE_ORDER 6 200 0 md.SIDE.BUY 0 0 0].
Definition writer_5 : SnapshotWriter.t := writer_after payloads_5 SnapshotWriter.initial.
Definition writer_6 : SnapshotWriter.t := writer_after payloads_6 writer_5.

Definition answers (ps : list (list byte)) (n : nat) : received := match ps !! n with Some p => RecvPacket p | None => RecvWouldBlock end.

Definition join_world (lps : list (list (Z * Z * md_msg))) (ps : list (list byte)) : FeedWorld := {|
  fw_live := answers (enc_frames <$> lps);
  fw_snapshot := answers ps;
  fw_leave := 0;
  fw_freed := λ o, o;
  fw_recover_on_drops := false;
  fw_fuel := 10;
|}.

(** The live feed of the time: heartbeats around the two messages. *)
Definition live_4_to_7 : list (list (Z * Z * md_msg)) :=
  [[(4, 1, Heartbeat); (5, 2, NewOrder 200 1 md.SIDE.BUY 10 50 0)]; [(6, 3, DeleteOrder 200); (7, 4, Heartbeat)]].

(** A client that catches the second symbol of one
    snapshot and the first symbol of the next takes both for one snapshot: the
    messages between the two are dropped for the symbol it has from the earlier
    one.  Here both snapshots are the writer's own and the live feed is
    complete, and the order that message 6 cancelled stays in the book for
    good. *)
Theorem torn_snapshot_loses_updates :
  ∃ p1 p2 p3 p4 s,
    SnapshotWriter.packets writer_5 = [p1; p2] ∧ SnapshotWriter.packets writer_6 = [p1; p2; p3; p4] ∧
    foldl apply_spec ∅ (payloads_5 ++ payloads_6) = ∅ ∧
    wait_for_snapshot (H := join_world live_4_to_7 [p2; p3]) 1 initial = (Ret tt, s) ∧
    last_md_seq_num s = 7 ∧ MDClient.get_best_bid 1 s = OrderBook.mkLevel 50 10 ∧
    ∃ s', wait_for_snapshot (H := join_world live_4_to_7 [p3; p4]) 1 initial = (Ret tt, s') ∧
      last_md_seq_num s' = 7 ∧ MDClient.get_best_bid 1 s' = OrderBook.mkLevel 0 0.
Proof.
  eexists _, _, _, _, _. split; [vm_compute; reflexivity|]. split; [vm_compute; reflexivity|]. split; [by_decide|].
  split; [vm_compute; reflexivity|]. split; [vm_compute; reflexivity|]. split; [vm_compute; reflexivity|].
  eexists. split; [vm_compute; reflexivity|]. split; vm_compute; reflexivity.
Qed.

Definition one_order : gmap Z open := {[200 := mk_open 1 md.SIDE.BUY 10 50 0]}.

(** A world that brings these turns. *)
Definition turns_world (ts : list turn) : FeedWorld := {|
  fw_live := λ n, match ts !! n with Some t => turn_live t | None => RecvWouldBlock end;
  fw_snapshot := λ n, match snapshot_answers ts !! n with Some r => r | None => RecvWouldBlock end;
  fw_leave := 0;
  fw_freed := λ o, o;
  fw_recover_on_drops := false;
  fw_fuel := 10;
|}.

(** Message 4 comes alone, then nothing, then the two packets of the snapshot
    with messages 5 and 6 and 7. *)
Definition joining_turns (p1 p2 : list byte) : list turn :=
  [LiveOnly [(4, 1, Heartbeat)]; Idle; Both [(5, 2, NewOrder 200 1 md.SIDE.BUY 10 50 0)] p1;
   Both [(6, 3, DeleteOrder 200); (7, 4, Heartbeat)] p2].

Lemma recovery_joins_feed_witness :
  let M' := foldl market_step (snapshot_market one_order) [DeleteOrder 200; Heartbeat] in
  mk_orders M' = ∅ ∧
  ∃ p1 p2 s', wait_for_snapshot (H := turns_world (joining_turns p1 p2)) 1 initial = (Ret tt, s') ∧ keeps_orders M' s' ∧
    last_md_seq_num s' = 5 + 2 ∧ live_buffer s' = [] ∧ length (buf s') = BUF_SIZE ∧ live_recvs s' = (0 + 4)%nat.
Proof.
  split; [by_decide|].
  set (w1 := SnapshotWriter.apply_queue payloads_5 SnapshotWriter.initial).
  assert (feed_ok ∅ payloads_5) as Hfeed.
  { split; [|exact I]. split; [simpl; lia|]. split; [by left|done]. }
  destruct (apply_queue_spec payloads_5 ∅ SnapshotWriter.initial tracks_initial Hfeed) as (T & _ & _ & _ & Hb & _).
  destruct (run_write_snapshot (SW := ticking_world) (λ _ _, eq_refl) _ w1 T Hb) as (w & ps & Hrun & T' & _ & _ & Hseq & _ & Hps & Hsnap).
  assert (w = (SnapshotWriter.write_snapshot (SW := ticking_world) w1).2) as Hw by by rewrite Hrun.
  assert (ps = SnapshotWriter.packets w) as Hps' by by rewrite Hps.
  assert (length ps = 2%nat) as Hlen by (rewrite Hps', Hw; vm_compute; reflexivity).
  assert (foldl apply_spec ∅ payloads_5 = one_order) as Hm by by_decide. rewrite Hm in T'.
  assert (snapshot_fits one_order w) as Hfit.
  { assert (∀ (l : list md.new_order) n, bool_decide (length l ≤ n)%nat = true → (n < 100)%nat → Z.of_nat (length l) < 2 ^ 32) as Hs.
    { intros l k H%bool_decide_eq_true ?. lia. }
    split.
    - intros y. split.
      + unfold SnapshotWriter.bids. destruct (SnapshotWriter.symbol_to_bids w !! y) as [l|] eqn:Hl; [|done].
        assert (is_Some (SnapshotWriter.symbol_to_bids w !! y)) as Hy%(tr_bids_dom _ _ T') by eauto. unfold tracked in Hy.
        apply orb_prop in Hy as [Hy%Z.eqb_eq|Hy%Z.eqb_eq]; subst y; rewrite Hw in Hl; vm_compute in Hl; injection Hl as <-; done.
      + unfold SnapshotWriter.asks. destruct (SnapshotWriter.symbol_to_asks w !! y) as [l|] eqn:Hl; [|done].
        assert (is_Some (SnapshotWriter.symbol_to_asks w !! y)) as Hy%(tr_asks_dom _ _ T') by eauto. unfold tracked in Hy.
        apply orb_prop in Hy as [Hy%Z.eqb_eq|Hy%Z.eqb_eq]; subst y; rewrite Hw in Hl; vm_compute in Hl; injection Hl as <-; done.
    - rewrite Hseq. by_decide.
    - unfold one_order. intros id v [<- <-]%lookup_singleton_Some. by_decide.
  }
  assert (SnapshotWriter.last_md_seq_num w = 5) as Hq by by rewrite Hseq.
  destruct ps as [|p1 [|p2 [|]]]; try discriminate Hlen. exists p1, p2.
  destruct (recovery_joins_feed (turns_world (joining_turns p1 p2)) one_order w [p1; p2] (joining_turns p1 p2)
    [(4, 1, Heartbeat); (5, 2, NewOrder 200 1 md.SIDE.BUY 10 50 0)] [(6, 3, DeleteOrder 200); (7, 4, Heartbeat)] 4 1 Heartbeat
    [] initial 0) as (s' & H1 & H2 & _ & H3 & H4 & H5 & H6).
  - exact T'.
  - exact Hsnap.
  - exact Hfit.
  - by split.
  - reflexivity.
  - exact I.
  - simpl. lia.
  - intros k t Hk. unfold fw_live, turns_world. simpl plus. by rewrite Hk.
  - unfold mtu. by_decide.
  - intros k r Hk. unfold fw_snapshot, turns_world. simpl plus. by rewrite Hk.
  - reflexivity.
  - rewrite Hq. lia.
  - reflexivity.
  - unfold numbered_ok. by_decide.
  - simpl. lia.
  - rewrite Hq. simpl. lia.
  - rewrite Hq. simpl. lia.
  - rewrite Hq. simpl. lia.
  - vm_compute. reflexivity.
  - cbn [fmap list_fmap snd feed_says]. says_done.
  - right. done.
  - exists s'. rewrite Hq in H3. split; [exact H1|]. split; [exact H2|]. done.
Defined.
