(* ===== verification/WebProgram.v ===== *)
(** * The web server's turns and connections

    The handlers of the web server keep the set of connections, the main loop sends
    the page to them. *)
From Stdlib Require Import Init.Byte Strings.Ascii Strings.String.
From S2P Require Import Prelude Protocol SnapshotClient BotBook SnapshotWriter MdClient Clearing ClearingTheorems WebData WebJson WebDataTheorems MdRecovery.
#[local] Open Scope Z_scope.
Import WebData.

(** ** The set of connections *)

Lemma elem_insert_handle h cs c : c ∈ insert_handle h cs ↔ c = h ∨ c ∈ cs.
Proof.
  induction cs as [|x cs IH]; cbn [insert_handle]; [set_solver|]. destruct (Z.ltb_spec h x); [set_solver|].
  destruct (Z.eqb_spec h x) as [->|]; set_solver.
Qed.

Lemma sorted_insert_handle h cs : StronglySorted Z.lt cs → StronglySorted Z.lt (insert_handle h cs).
Proof.
  induction 1 as [|x cs Hs IH Hx]; cbn [insert_handle]; [repeat constructor|]. rewrite Forall_forall in Hx.
  destruct (Z.ltb_spec h x); [|destruct (Z.eqb_spec h x) as [->|]].
  - constructor; [by constructor; [|rewrite Forall_forall]|]. rewrite Forall_forall. intros y [->|Hy]%elem_of_cons; [done|]. specialize (Hx y Hy). lia.
  - constructor; [done|by rewrite Forall_forall].
  - constructor; [done|]. rewrite Forall_forall. intros y [->|Hy]%elem_insert_handle; [lia|auto].
Qed.

Lemma sorted_erase_handle h cs : StronglySorted Z.lt cs → StronglySorted Z.lt (erase_handle h cs).
Proof.
  unfold erase_handle. induction 1 as [|x cs Hs IH Hx]; [constructor|]. rewrite filter_cons. destruct (decide _); [|done].
  constructor; [done|]. rewrite Forall_forall in *. intros y [_ Hy]%list_elem_of_filter. auto.
Qed.

Lemma sorted_NoDup cs : StronglySorted Z.lt cs → NoDup cs.
Proof.
  induction 1 as [|x cs Hs IH Hx]; constructor; [|done]. rewrite Forall_forall in Hx. intros Hin. specialize (Hx x Hin). lia.
Qed.

(** The connections that have been opened and not closed. *)
Definition open_after (cs : gset Z) (a : action) : gset Z :=
  match a with Opened h => {[h]} ∪ cs | Closed h => cs ∖ {[h]} | _ => cs end.

(** ** The turns *)

Section turns.
Context `{FW : FeedWorld} `{PG : PageWorld}.

Definition working (p : program) : Prop := main p = Waiting ∨ main p = Looping.

(** The page is due more than a tenth of a second after the last. *)
Definition due (s : t) : bool := Z.quot (pg_clock (S (turns s)) - last_published_ts s) 1000000 >? 100.

Lemma start_connections s s' : start s = (Ret tt, s') → connections s' = connections s.
Proof.
  intros (u & s1 & H1 & H2)%bind_inv. injection H2 as <-. unfold zoom in H1. destruct (MDClient.wait_for_snapshot _ _) as [r d].
  by injection H1 as _ <-.
Qed.

(** Making the page reads and changes nothing of the program's state. *)
Definition stateless {S1 S2 A} (m1 : M S1 A) (m2 : M S2 A) : Prop := ∀ s1 s2, ∃ r, m1 s1 = (r, s1) ∧ m2 s2 = (r, s2).

Lemma stateless_ret {S1 S2 A} (a : A) : stateless (mret a : M S1 A) (mret a : M S2 A).
Proof. intros s1 s2. by eexists. Qed.
Lemma stateless_throw {S1 S2 A} e : stateless (throw e : M S1 A) (throw e : M S2 A).
Proof. intros s1 s2. by eexists. Qed.
Lemma stateless_bind {S1 S2 A B} (m1 : M S1 A) (m2 : M S2 A) (k1 : A → M S1 B) (k2 : A → M S2 B) :
  stateless m1 m2 → (∀ a, stateless (k1 a) (k2 a)) → stateless (mbind k1 m1) (mbind k2 m2).
Proof.
  intros Hm Hk s1 s2. destruct (Hm s1 s2) as ([a|e] & H1 & H2); unfold mbind, M_bind; rewrite H1, H2; [apply Hk|by eexists].
Qed.
Lemma stateless_mapM {S1 S2 A B} (f1 : A → M S1 B) (f2 : A → M S2 B) xs :
  (∀ a, stateless (f1 a) (f2 a)) → stateless (mapM f1 xs) (mapM f2 xs).
Proof.
  intros Hf. induction xs as [|x xs IH]; simpl; [apply stateless_ret|].
  apply stateless_bind; [done|]. intros a. apply stateless_bind; [done|]. intros bs. apply stateless_ret.
Qed.

Lemma jsonify_stateless {S1 S2} n d c : stateless (jsonify_snapshot n d c : M S1 page) (jsonify_snapshot n d c : M S2 page).
Proof.
  unfold jsonify_snapshot. apply stateless_bind; [|intros rs; apply stateless_ret]. apply stateless_mapM. intros y. apply stateless_mapM. intros k.
  unfold client_row, at_, int32.
  repeat first [apply stateless_ret|apply stateless_throw|apply stateless_bind; [|intros ?]|case_match].
Qed.

(** What a turn that succeeds sends. *)
Lemma run_turn s s' : turn s = (Ret tt, s') →
  connections s' = connections s ∧
  if due s then ∃ pg, jsonify_snapshot (pages s) (md_client s') (clearing_client s') s = (Ret pg, s) ∧
    sent s' = sent s ++ send_all (pages s) (page_text (pg_timestamp (pages s)) pg) (connections s)
  else sent s' = sent s.
Proof.
  unfold turn. intros (u & s1 & H1 & H2)%bind_inv. unfold zoom in H1. destruct (MDClient.process _) as [r d]. injection H1 as -> <-.
  erewrite bind_ret in H2 by reflexivity. cbn beta in H2. erewrite bind_ret in H2 by reflexivity. cbn beta in H2.
  apply bind_inv in H2 as (v & s2 & H1 & H2). unfold zoom in H1. destruct (ClearingClient.process _ _) as [r c]. injection H1 as -> <-.
  cbv zeta in H2. erewrite bind_ret in H2 by reflexivity. cbn beta in H2. unfold due.
  change (turns (set_md_client d s)) with (turns s) in H2. change (last_published_ts _) with (last_published_ts s) in H2.
  destruct (_ >? 100); cbn [when] in H2; [|injection H2 as <-; by split].
  erewrite bind_ret in H2 by reflexivity. cbn beta in H2. apply bind_inv in H2 as (pg & s3 & H1 & H2).
  destruct (jsonify_stateless (S1 := t) (S2 := t) (pages s) d c (set_clearing_client c (count_turn (set_md_client d s))) s) as (r & E1 & E2).
  unfold id in H1. cbn [pages md_client clearing_client set_clearing_client count_turn set_md_client] in H1.
  rewrite E1 in H1. injection H1 as -> <-. injection H2 as <-. split; [done|]. exists pg. split; [exact E2|done].
Qed.

Lemma act_connections p a : working (act p a) →
  working p ∧ (list_to_set (connections (web (act p a))) : gset Z) = open_after (list_to_set (connections (web p))) a ∧
  (StronglySorted Z.lt (connections (web p)) → StronglySorted Z.lt (connections (web (act p a)))).
Proof.
  assert (∀ f, working (served f p) → working p ∧ served f p = mk_program (f (web p)) (main p)) as Hserved.
  { unfold served, working. destruct (main p) as [| |rc|e] eqn:E; intros f H; (split; [eauto|]); try done; rewrite E in H; by destruct H. }
  destruct a as [h|h|h payload|]; cbn [act open_after].
  - intros [Hw ->]%Hserved. split; [done|]. cbn. split; [|apply sorted_insert_handle].
    apply set_eq. intros c. rewrite elem_of_union, !elem_of_list_to_set, elem_insert_handle. set_solver.
  - intros [Hw ->]%Hserved. split; [done|]. cbn. split; [|apply sorted_erase_handle].
    unfold erase_handle. apply set_eq. intros c. rewrite elem_of_difference, !elem_of_list_to_set, list_elem_of_filter. set_solver.
  - intros [Hw ->]%Hserved. done.
  - unfold main_turn, working. destruct (main p) as [| |rc|e] eqn:E; try (rewrite E; by intros [|]).
    + destruct (start (web p)) as [[[]|e] s'] eqn:Hs; [|by intros [|]]. intros _. cbn. rewrite (start_connections _ _ Hs). auto.
    + destruct (turn (web p)) as [[[]|e] s'] eqn:Hs; [|by intros [|]]. intros _. cbn. destruct (run_turn _ _ Hs) as [-> _]. auto.
Qed.

Lemma run_connections acts p : working (run acts p) → StronglySorted Z.lt (connections (web p)) →
  (list_to_set (connections (web (run acts p))) : gset Z) = foldl open_after (list_to_set (connections (web p))) acts ∧
  StronglySorted Z.lt (connections (web (run acts p))).
Proof.
  unfold run. induction acts as [|a acts IH] using rev_ind; intros Hw Hs; [done|]. rewrite !foldl_app in *. cbn [foldl] in *.
  destruct (act_connections _ a Hw) as (Hw' & Hc & Hs'). destruct (IH Hw' Hs) as [IH1 IH2]. rewrite Hc, IH1. auto.
Qed.

Lemma launch_connections argc : connections (web (launch argc)) = [].
Proof. done. Qed.

(** Whom the text is sent to. *)
Lemma elem_send_all n text cs c t : (c, t) ∈ send_all n text cs ↔ t = text ∧ c ∈ cs ∧ pg_open n c = Some true.
Proof.
  unfold send_all. rewrite list_elem_of_omap. split.
  - intros (x & Hx & Hsome). destruct (pg_open n x) as [[]|] eqn:Ho; simplify_eq. done.
  - intros (-> & Hc & Ho). exists c. by rewrite Ho.
Qed.

Lemma NoDup_send_all n text cs : NoDup cs → NoDup (send_all n text cs).*1.
Proof.
  unfold send_all. induction 1 as [|c cs Hc _ IH]; [constructor|]. simpl. destruct (pg_open n c) as [[]|]; [|done..].
  rewrite fmap_cons. constructor; [|done]. intros ([x u] & Hx0 & Hx)%list_elem_of_fmap. simpl in Hx0. subst x.
  apply (elem_send_all n text cs) in Hx. naive_solver.
Qed.
End turns.

(** ** Property *)

(** C28 ([page_reaches_browsers]): whatever the threads' turns, as long as the program is
    at work: a turn of the main loop sends, when more than a tenth of a second has
    passed since the last page and only then, one text to every connection that has
    been opened, not been closed since and is open, and to no other; and the text is
    JSON that reads back as the page of that moment, number by number. *)
Theorem page_reaches_browsers (FW : FeedWorld) (PG : PageWorld) argc acts :
  let p := run acts (launch argc) in
  let p' := act p MainTurn in
  main p = Looping → main p' = Looping →
  let n := pages (web p) in
  if due (web p) then ∃ pg new,
    jsonify_snapshot n (md_client (web p')) (clearing_client (web p')) (web p) = (Ret pg, web p) ∧
    sent (web p') = sent (web p) ++ new ∧ NoDup new.*1 ∧
    (∀ c text, (c, text) ∈ new ↔
      text = page_text (pg_timestamp n) pg ∧ c ∈ foldl open_after ∅ acts ∧ pg_open n c = Some true) ∧
    Json.read (page_text (pg_timestamp n) pg) = Some (page_json (pg_timestamp n) pg)
  else sent (web p') = sent (web p).
Proof.
  intros p p' Hp Hp' n. subst p'. cbn [act] in *. unfold main_turn in *. rewrite Hp in *.
  destruct (turn (web p)) as [[[]|e] s'] eqn:Ht; [|discriminate Hp']. cbn [web].
  destruct (run_connections acts (launch argc)) as [Hc Hs]; [by right|constructor|]. fold p in Hc, Hs.
  destruct (run_turn _ _ Ht) as [_ Hsent]. destruct (due (web p)); [|done]. destruct Hsent as (pg & Hpg & Hsent).
  exists pg, (send_all n (page_text (pg_timestamp n) pg) (connections (web p))). split; [exact Hpg|]. split; [exact Hsent|].
  split; [by apply NoDup_send_all, sorted_NoDup|]. split; [|apply page_text_reads].
  intros c text. rewrite elem_send_all. assert (c ∈ connections (web p) ↔ c ∈ foldl open_after ∅ acts) as ->; [|done].
  rewrite <- (elem_of_list_to_set (C := gset Z)), Hc. done.
Qed.

Section witness.
Import MdRecovery.

(** The feed of a joining client; two browsers connect before the program is up, a
    third after, and one leaves. *)
Definition web_feed : FeedWorld := join_world live_4_to_7 (drop 2 (SnapshotWriter.packets writer_6)).
Definition web_actions : list action := [Opened 7; Opened 3; MainTurn; Opened 9; Message 9 "hello"; Closed 7].
Abbreviation web_program := (run (FW := web_feed) (PG := one_page_world) web_actions (launch 5)).

Lemma page_reaches_browsers_witness :
  ∃ new, sent (web (act (FW := web_feed) (PG := one_page_world) web_program MainTurn)) = new ∧
  ∃ text, (3, text) ∈ new ∧ (9, text) ∈ new ∧ is_Some (Json.read text).
Proof.
  assert (main web_program = Looping) as H1 by (vm_compute; reflexivity).
  assert (main (act (FW := web_feed) (PG := one_page_world) web_program MainTurn) = Looping) as H2 by (vm_compute; reflexivity).
  assert (due (PG := one_page_world) (web web_program) = true) as Hdue by (vm_compute; reflexivity).
  assert (sent (web web_program) = []) as Hsent by (vm_compute; reflexivity).
  pose proof (page_reaches_browsers web_feed one_page_world 5 web_actions H1 H2) as H. cbv zeta in H.
  rewrite Hdue, Hsent in H. destruct H as (pg & new & _ & Hnew & _ & Hin & Hread).
  exists new. split; [exact Hnew|]. eexists. split; [|split]; [apply Hin..|by eexists].
  - split; [reflexivity|]. split; [by_decide|reflexivity].
  - split; [reflexivity|]. split; [by_decide|reflexivity].
Defined.
End witness.
