(* ===== verification/Viewers.v ===== *)
(** * [bots/print_snapshots.cpp] and [viewer/md_viewer.cpp]: programs that show the feeds

    The first prints every message of the snapshot feed, the second draws the best
    prices of two symbols after every turn of its market data client. *)
From Stdlib Require Import Init.Byte Strings.String.
From S2P Require Import Prelude Protocol MdStream SnapshotClient BotBook MdClient.

Module PrintSnapshots.

(** The lines on [std::cout] and [std::cerr]. *)
Inductive line :=
  | receive_failed
  | message_too_short (len : Z)
  | invalid_magic_number (magic : Z)
  | message_type (ty : Z)
  | snapshot_info_line (symbol last_seq_num bid_count ask_count : Z)
  | new_order_line (order_id symbol side quantity price : Z).

#[global] Instance line_eq_dec : EqDecision line.
Proof. solve_decision. Defined.

Abbreviation PM := (M (list line)).
Definition print (l : line) : PM unit := modify (λ out, out ++ [l]).

(** [buf] is made anew for every datagram: what lies behind the bytes received has
    no value. *)
Definition read {A} (c : codec A) (data : list byte) (off : nat) : PM A :=
  if bool_decide (off + c_size c ≤ length data)%nat then mret (c_dec c (drop off data))
  else throw (undefined_behaviour "read past the end of the datagram").

(** [while (len > 0)]; [Some rc] is a [return] of [main]. *)
Fixpoint message_loop (fuel : nat) (data : list byte) (buf_ptr : nat) (len : Z) : PM (option Z) :=
  match fuel with
  | O => throw out_of_fuel
  | S fuel =>
      if len >? 0 then
        if len <? Z.of_nat (c_size md.c_md_header) then print (message_too_short len);; mret (Some 1)
        else
          header ← read md.c_md_header data buf_ptr;
          if negb (md.magic_number header =? md.SNAPSHOT_MAGIC_NUMBER) then
            print (invalid_magic_number (md.magic_number header));; mret (Some 1)
          else
            print (message_type (md.msg_type header));;
            (if md.msg_type header =? md.MSG_TYPE.SNAPSHOT_INFO then
               m ← read md.c_snapshot_info data buf_ptr;
               print (snapshot_info_line (md.si_symbol m) (md.si_last_md_seq_num m) (md.si_bid_count m) (md.si_ask_count m))
             else if md.msg_type header =? md.MSG_TYPE.NEW_ORDER then
               m ← read md.c_new_order data buf_ptr;
               print (new_order_line (md.no_order_id m) (md.no_symbol m) (md.no_side m) (md.no_quantity m) (md.no_price m))
             else mret tt);;
            message_loop fuel data (buf_ptr + Z.to_nat (md.length header)) (len - md.length header)
      else mret None
  end.

Definition BUF_SIZE : nat := Z.to_nat 4096.
#[global] Arguments BUF_SIZE : simpl never.

(** A round of [while (true)] with what [recvfrom] answers.  A message moves on by
    its length, which is not zero on the feed. *)
Definition turn (r : received) : PM (option Z) :=
  match r with
  | RecvWouldBlock => mret None
  | RecvError => print receive_failed;; mret (Some 1)
  | RecvPacket pkt =>
      let data := take BUF_SIZE pkt in
      message_loop (S (length data)) data 0 (Z.of_nat (length data))
  end.

(** [None]: the program waits for more. *)
Fixpoint run (rs : list received) : PM (option Z) :=
  match rs with
  | [] => mret None
  | r :: rs => rc ← turn r; match rc with None => run rs | Some rc => mret (Some rc) end
  end.
End PrintSnapshots.

Module MdViewer.

Inductive colour := GrayDark | Aquamarine1 | RedLight | Green.

(** The document, as the library's functions are called to build it. *)
Inductive element :=
  | text (s : string)
  | separator
  | hbox (children : list element)
  | vbox (children : list element)
  | window (title content : element)
  | bold (e : element)
  | color (c : colour) (e : element).

Definition qty_at_prc (symbol : Z) (is_bid : bool) (md_client : MDClient.t) : element :=
  let levels := if is_bid then MDClient.get_best_bid symbol md_client else MDClient.get_best_ask symbol md_client in
  if OrderBook.level_price levels =? 0 then color GrayDark (window (text " Quantity at price ") (text " No data "))
  else vbox [color (if is_bid then Aquamarine1 else RedLight)
               (hbox [text (pretty (OrderBook.level_quantity levels)); text "@"; text (pretty (OrderBook.level_price levels)); bold (text EmptyString)])].

Definition symbol_title (symbol : Z) : element := color Green (hbox [text "Symbol: "; bold (text (pretty symbol))]).

Definition summary (md_client : MDClient.t) : element :=
  if OrderBook.level_price (MDClient.get_best_bid 1 md_client) =? 0 then color GrayDark (window (text " Summary ") (text " No data "))
  else window (text " Summary ")
    (vbox [symbol_title 1; hbox [qty_at_prc 1 true md_client; separator; qty_at_prc 1 false md_client];
           symbol_title 2; hbox [qty_at_prc 2 true md_client; separator; qty_at_prc 2 false md_client]]).

(** [screens]: the documents that have been rendered and printed. *)
Record t := mk { md_client : MDClient.t; screens : list element }.

Definition initial : t := mk MDClient.initial [].
Definition set_md_client (d : MDClient.t) (s : t) : t := mk d (screens s).
Definition show (e : element) (s : t) : t := mk (md_client s) (screens s ++ [e]).

Section program.
Context `{FW : FeedWorld}.

Definition start : M t unit := zoom md_client set_md_client (MDClient.wait_for_snapshot fw_fuel).

Definition turn : M t unit :=
  zoom md_client set_md_client MDClient.process;;
  d ← gets md_client;
  modify (show (vbox [summary d])).

(** [return 1] on a wrong number of arguments; then [n] turns. *)
Definition main (argc : Z) (n : nat) : M t (option Z) :=
  if negb (argc =? 4) then mret (Some 1)
  else start;; for_each (replicate n tt) (λ _, turn);; mret None.
End program.
End MdViewer.
