(* ===== verification/ViewersTheorems.v ===== *)
(** * What the viewers show *)
From Stdlib Require Import Init.Byte Strings.String.
From S2P Require Import Prelude Protocol MdMcast MdStream SnapshotClient BotBook SnapshotWriter SnapshotTheorems MdClient MdRecovery WebDataTheorems Viewers.
#[local] Open Scope Z_scope.

(** ** The printed snapshots *)

Section printer.
Import PrintSnapshots.

(** The two lines of a message. *)
Definition item_lines (i : item) : list line :=
  message_type (item_tag i) ::
  match i with
  | Info y nb na q => [snapshot_info_line y q nb na]
  | Order id v => [new_order_line id (op_symbol v) (op_side v) (op_quantity v) (op_price v)]
  end.

Lemma run_datagram_read {A} (cd : codec A) `{!CodecOk cd} data pre a rest out :
  data = pre ++ c_enc cd a ++ rest → c_ok cd a → read cd data (length pre) out = (Ret a, out).
Proof.
  intros -> Ha. unfold read. rewrite bool_decide_true by (rewrite !length_app, enc_length by done; lia).
  by rewrite drop_app_length, dec_enc.
Qed.

Lemma run_message_loop f l : ∀ fuel data pre out,
  data = pre ++ image l → Forall (item_fits f) l → (length l < fuel)%nat →
  message_loop fuel data (length pre) (Z.of_nat (length (image l))) out = (Ret None, out ++ (l.*2 ≫= item_lines)).
Proof.
  induction l as [|[ts i] l IH]; intros [|fuel] data pre out Hd Hok Hf; simpl in Hf; try lia.
  { simpl. by rewrite app_nil_r. }
  apply Forall_cons in Hok as [Hi Hok]. change (image ((ts, i) :: l)) with (item_bytes ts i ++ image l) in *.
  pose proof (item_length ts i) as Hlen. rewrite length_app, Nat2Z.inj_add, Hlen.
  assert (39 <= item_size i) as Hsz by (destruct i; simpl; lia).
  cbn [message_loop]. rewrite (proj2 (Z.gtb_gt _ 0)) by lia.
  rewrite (proj2 (Z.ltb_ge _ (Z.of_nat (c_size md.c_md_header)))) by (change (c_size md.c_md_header) with 23%nat; lia).
  erewrite bind_ret.
  2: { eapply (run_datagram_read md.c_md_header data pre (snap_header (item_size i) ts (item_tag i))); [|apply snap_header_ok, Hi].
       rewrite Hd, item_bytes_split, <-app_assoc. done. }
  cbn beta. change (md.magic_number (snap_header (item_size i) ts (item_tag i))) with md.SNAPSHOT_MAGIC_NUMBER. rewrite Z.eqb_refl. cbn [negb].
  cbn [md.msg_type snap_header md.length]. erewrite bind_ret by reflexivity. cbn beta.
  assert (∀ out, message_loop fuel data (length pre + Z.to_nat (item_size i)) (item_size i + Z.of_nat (length (image l)) - item_size i) out
    = (Ret None, out ++ (l.*2 ≫= item_lines))) as Hnext.
  { intros out'. replace (length pre + Z.to_nat (item_size i))%nat with (length (pre ++ item_bytes ts i)) by (rewrite length_app; lia).
    replace (item_size i + Z.of_nat (length (image l)) - item_size i) with (Z.of_nat (length (image l))) by lia.
    apply IH; [by rewrite <-app_assoc|done|lia]. }
  destruct i as [y nb na q|id v]; cbn [item_tag].
  - rewrite Z.eqb_refl. cbn iota. rewrite bind_assoc.
    erewrite bind_ret by (eapply run_datagram_read; [apply _|exact Hd|by eapply info_ok]). cbn beta.
    erewrite bind_ret by reflexivity. cbn beta. etrans; [apply Hnext|]. by rewrite <- !app_assoc.
  - change (md.MSG_TYPE.NEW_ORDER =? md.MSG_TYPE.SNAPSHOT_INFO) with false. rewrite Z.eqb_refl. cbn iota. rewrite bind_assoc.
    erewrite bind_ret by (eapply (run_datagram_read _ _ _ (wire_order ts id v)); [exact Hd|by eapply order_ok]). cbn beta.
    erewrite bind_ret by reflexivity. cbn beta. etrans; [apply Hnext|]. by rewrite <- !app_assoc.
Qed.

Lemma run_snapshot_packets f chunks : ∀ out,
  Forall packet_ok chunks → Forall (Forall (item_fits f)) chunks →
  run (RecvPacket <$> (image <$> chunks)) out = (Ret None, out ++ ((concat chunks).*2 ≫= item_lines)).
Proof.
  induction chunks as [|c chunks IH]; intros out Hp Hf; [simpl; by rewrite app_nil_r|].
  apply Forall_cons in Hp as [(_ & Hm & _) Hp]. apply Forall_cons in Hf as [Hc Hf]. rewrite !fmap_cons. cbn [run turn concat].
  assert (take BUF_SIZE (image c) = image c) as ->.
  { apply take_ge. unfold mtu in Hm. change (Z.of_nat BUF_SIZE) with 4096. unfold BUF_SIZE, SnapshotWriter.BUFFER_SIZE in *. lia. }
  erewrite bind_ret by (apply (run_message_loop f c _ _ [] out); [done|done|pose proof (image_length c); lia]). cbn beta iota.
  rewrite IH by done. by rewrite fmap_app, bind_app, app_assoc.
Qed.
End printer.

(** Reading the packets of a snapshot, the printer prints two
    lines for every message and goes on waiting: of the two symbols, in some order,
    the counts with the feed's sequence number, the bids from the highest price and
    the asks from the lowest. *)
Theorem snapshots_printed m w ps out :
  tracks m w → snapshot_fits m w → snapshot_of w ps →
  ∃ ys, ys ≡ₚ [1; 2] ∧
    PrintSnapshots.run (RecvPacket <$> ps) out = (Ret None, out ++ ((ys ≫= symbol_items w) ≫= item_lines)).
Proof.
  intros T Fit (_ & ys & chunks & -> & Hp & Hys & Hitems). exists ys. split; [done|]. rewrite <- Hitems. apply (run_snapshot_packets (-1)); [done|].
  assert (Forall (item_fits (-1)) (concat chunks)) as Hfit.
  { apply (all_items_fit m w T Fit (-1) ys); [pose proof (sf_seq _ _ Fit) as Hq; unfold is_u32 in Hq; lia| |done|].
    - intros y Hy. rewrite Hys in Hy. set_solver.
    - apply Forall_concat. eapply Forall_impl; [exact Hp|]. by intros c (_ & _ & ?). }
  clear - Hfit. induction chunks as [|c chunks IH]; [constructor|]. apply Forall_app in Hfit as [H1 H2]. constructor; auto.
Qed.

(** A message whose header has length 0 is printed again and again. *)
Definition stuck_message : list byte :=
  c_enc md.c_md_header (md.Build_md_header md.SNAPSHOT_MAGIC_NUMBER 0 0 0 md.MSG_TYPE.HEARTBEAT).

Theorem zero_length_prints_forever fuel out :
  ∃ out', PrintSnapshots.message_loop fuel stuck_message 0 23 out = (Throw out_of_fuel, out').
Proof.
  revert out. induction fuel as [|fuel IH]; intros out; [by eexists|]. cbn [PrintSnapshots.message_loop].
  change (23 >? 0) with true. change (23 <? Z.of_nat (c_size md.c_md_header)) with false. cbn iota.
  erewrite bind_ret by (apply (run_datagram_read md.c_md_header stuck_message [] (md.Build_md_header md.SNAPSHOT_MAGIC_NUMBER 0 0 0 md.MSG_TYPE.HEARTBEAT) []);
    [by rewrite app_nil_r|by vm_compute]).
  cbn beta. cbn [md.magic_number md.msg_type md.length]. rewrite Z.eqb_refl. cbn [negb].
  change (md.MSG_TYPE.HEARTBEAT =? md.MSG_TYPE.SNAPSHOT_INFO) with false. change (md.MSG_TYPE.HEARTBEAT =? md.MSG_TYPE.NEW_ORDER) with false.
  erewrite bind_ret by reflexivity. cbn beta. erewrite bind_ret by reflexivity. cbn beta. apply IH.
Qed.

(** Gold is offered at 52, nothing is bid for it: the viewer says that there is no
    data at all. *)
Theorem empty_bid_hides_everything :
  let d := MDClient.add_order (gold_order 2 md.SIDE.SELL 52) MDClient.initial in
  OrderBook.level_price (MDClient.get_best_ask 1 d) = 52 ∧
  MdViewer.summary d = MdViewer.color MdViewer.GrayDark (MdViewer.window (MdViewer.text " Summary ") (MdViewer.text " No data ")).
Proof. split; vm_compute; reflexivity. Qed.
