(* ===== verification/PcapPrinter.v ===== *)
(** * [viewer/pcap_printer.cpp]: the best prices of a captured feed

    The program waits in a capture for a snapshot of symbols 1 and 2, keeping the
    live messages, and from then on prints the best prices after every live
    message.  Its copy of [parse_and_apply_live_message] is [BboPrinter]'s. *)
From Stdlib Require Import Init.Byte.
From S2P Require Import Prelude Protocol BotBook BboPrinter.

(** A packet of the capture: its time, its length on the wire and its bytes. *)
Record capture := mk_capture { tv_sec : Z; tv_usec : Z; wire_len : Z; bytes : list byte }.

Module PcapPrinter.

(** [bbo] has the books, the symbols of the orders, [last_seq_num] and the lines. *)
Record t := mk {
  bbo : BboPrinter.t;
  snapshot_complete : gmap Z bool;
  snapshot_order_count : gmap Z (Z * Z);
  live_buffer : list byte;
}.

Definition initial : t := mk BboPrinter.initial {[1 := false; 2 := false]} ∅ [].

Definition set_bbo (b : BboPrinter.t) (s : t) : t := mk b (snapshot_complete s) (snapshot_order_count s) (live_buffer s).
Definition set_complete (m : gmap Z bool) (s : t) : t := mk (bbo s) m (snapshot_order_count s) (live_buffer s).
Definition set_counts (m : gmap Z (Z * Z)) (s : t) : t := mk (bbo s) (snapshot_complete s) m (live_buffer s).
Definition set_live_buffer (b : list byte) (s : t) : t := mk (bbo s) (snapshot_complete s) (snapshot_order_count s) b.

Definition on_bbo {A} (m : M BboPrinter.t A) : M t A := zoom bbo set_bbo m.
Definition print (l : line) : M t unit := on_bbo (BboPrinter.print l).
Definition read {A} (c : codec A) (data : list byte) (off : nat) : M t A := on_bbo (BboPrinter.read c data off).

(** The lambdas of [main]. *)
Definition done_snapshot (s : t) : bool := default false (snapshot_complete s !! 1) && default false (snapshot_complete s !! 2).

Definition get_first_live_seq_num : M t Z :=
  b ← gets live_buffer;
  match b with
  | [] => mret (2^32 - 1)
  | _ => header ← read md.c_md_header b 0; mret (md.seq_num header)
  end.

(** [live_buffer.insert(live_buffer.end(), packet, packet + length)] *)
Definition store_live (data : list byte) (off length_ : nat) : M t unit :=
  if bool_decide (off + length_ ≤ length data)%nat
  then modify (λ s, set_live_buffer (live_buffer s ++ take length_ (drop off data)) s)
  else throw (undefined_behaviour "read past the end of the packet").

Section ops.
Context (freed : OrderBook.Order → OrderBook.Order) (walk : gmap Z OrderBook.t → list Z).

(** [BboPrinter]'s function, less the lines about summaries and heartbeats. *)
Definition parse_and_apply_live_message (data : list byte) (off : nat) (len : Z) : M t (nat * Z) :=
  on_bbo (BboPrinter.parse_and_apply_live_message freed false data off len).

(** The best prices of every book, in the order of the hash map. *)
Definition print_books (seconds seq_num : Z) : M t unit :=
  books ← gets (λ s, BboPrinter.order_books (bbo s));
  for_each (walk books) (λ y,
    let b := default OrderBook.initial (books !! y) in
    let bid := OrderBook.get_best_bid b in
    let ask := OrderBook.get_best_ask b in
    print (bbo_line seconds seq_num y (OrderBook.level_price bid) (OrderBook.level_quantity bid)
             (OrderBook.level_price ask) (OrderBook.level_quantity ask))).

(** The loop over [live_buffer] when the snapshot is complete; it leaves
    [last_seq_num] alone. *)
Fixpoint play_live (fuel off : nat) (len : Z) : M t unit :=
  match fuel with
  | O => throw out_of_fuel
  | S fuel =>
      b ← gets live_buffer;
      if bool_decide (off < length b)%nat then
        hdr ← read md.c_md_header b off;
        print (live_message (md.seq_num hdr));;
        last ← gets (λ s, BboPrinter.last_seq_num (bbo s));
        next ← (if md.seq_num hdr >? last then
                  print (playing (md.seq_num hdr) len);;
                  parse_and_apply_live_message b off len
                else mret ((off + Z.to_nat (md.length hdr))%nat, u32 (len - md.length hdr)));
        print (len_left next.2);;
        play_live fuel next.1 next.2
      else mret tt
  end.

(** A snapshot's [SNAPSHOT_INFO]: [false] is [break]. *)
Definition take_snapshot_info (data : list byte) (off : nat) (header : md.md_header) : M t bool :=
  print (snapshot_message (md.seq_num header));;
  info ← read md.c_snapshot_info data off;
  let y := md.si_symbol info in
  if negb (y =? 1) && negb (y =? 2) then mret false
  else
    first ← get_first_live_seq_num;
    if md.si_last_md_seq_num info <=? first then mret false
    else
      on_bbo (modify (BboPrinter.set_last_seq_num (md.si_last_md_seq_num info)));;
      print (snapshot_info_line y (md.si_last_md_seq_num info) (md.si_bid_count info) (md.si_ask_count info));;
      modify (λ s, set_counts (<[y := (md.si_bid_count info, md.si_ask_count info)]> (snapshot_order_count s)) s);;
      mret true.

(** A snapshot's [NEW_ORDER] only counts. *)
Definition count_order (o : md.new_order) : M t unit :=
  let y := md.no_symbol o in
  counts ← gets snapshot_order_count;
  match counts !! y with
  | None => print (count_not_found y)
  | Some (b, a) =>
      print (snapshot_new_order y (md.no_side o) (md.no_quantity o) (md.no_price o));;
      let b := u32 (b - (if md.no_side o =? md.SIDE.BUY then 1 else 0)) in
      let a := u32 (a - (if md.no_side o =? md.SIDE.SELL then 1 else 0)) in
      modify (λ s, set_counts (<[y := (b, a)]> (snapshot_order_count s)) s);;
      print (snapshot_counts y b a);;
      when ((b =? 0) && (a =? 0))
        (modify (λ s, set_complete (<[y := true]> (snapshot_complete s)) s);;
         done ← gets done_snapshot;
         when done
           (last ← gets (λ s, BboPrinter.last_seq_num (bbo s));
            print (snapshot_done last);;
            live ← gets live_buffer;
            play_live (S (2 * length live)) 0 (u32 (Z.of_nat (length live)));;
            print done_playing;;
            modify (set_live_buffer [])))
  end.

(** A live message after the snapshot: the new [packet] and [header.caplen]. *)
Definition show_live (p : capture) (off : nat) (caplen : Z) (header : md.md_header) : M t (nat * Z) :=
  last ← gets (λ s, BboPrinter.last_seq_num (bbo s));
  when (negb (md.seq_num header =? u32 (last + 1))) (print (missing_seq_num last (md.seq_num header)));;
  on_bbo (modify (BboPrinter.set_last_seq_num (md.seq_num header)));;
  next ← parse_and_apply_live_message (bytes p) off caplen;
  print_books (tv_sec p + Z.quot (tv_usec p) 1000000) (md.seq_num header);;
  mret next.

(** The [switch] over a message of the snapshot: [false] is [continue]. *)
Definition take_snapshot_message (p : capture) (off : nat) (caplen : Z) (header : md.md_header) : M t bool :=
  let ty := md.msg_type header in
  if ty =? md.MSG_TYPE.NEW_ORDER then
    if caplen <? Z.of_nat (c_size md.c_new_order) then print (too_short ty (wire_len p));; mret false
    else
      o ← read md.c_new_order (bytes p) off;
      when (md.magic_number header =? md.SNAPSHOT_MAGIC_NUMBER) (count_order o);;
      mret true
  else if bool_decide (ty ∈ [md.MSG_TYPE.SNAPSHOT_INFO; md.MSG_TYPE.DELETE_ORDER; md.MSG_TYPE.MODIFY_ORDER; md.MSG_TYPE.TRADE;
                             md.MSG_TYPE.TRADE_SUMMARY; md.MSG_TYPE.HEARTBEAT]) then mret true
  else print (unknown_type ty);; mret true.

(** [while (header.caplen > 0)] *)
Fixpoint packet_loop (fuel : nat) (p : capture) (off : nat) (caplen : Z) : M t unit :=
  match fuel with
  | O => throw out_of_fuel
  | S fuel =>
      if caplen >? 0 then
        header ← read md.c_md_header (bytes p) off;
        let live := md.magic_number header =? md.MAGIC_NUMBER in
        let snapshot := md.magic_number header =? md.SNAPSHOT_MAGIC_NUMBER in
        let skip := packet_loop fuel p (off + Z.to_nat (md.length header)) (u32 (caplen - md.length header)) in
        done ← gets done_snapshot;
        if negb live && negb snapshot then mret tt
        else if negb done && live then
          print (live_stored (md.seq_num header) (md.length header));;
          store_live (bytes p) off (Z.to_nat (md.length header));;
          skip
        else
          go ← (if negb done && snapshot && (md.msg_type header =? md.MSG_TYPE.SNAPSHOT_INFO)
                then take_snapshot_info (bytes p) off header else mret true);
          if negb go then mret tt
          else if done && snapshot then mret tt
          else if done then
            next ← show_live p off caplen header;
            packet_loop fuel p next.1 next.2
          else
            go ← take_snapshot_message p off caplen header;
            if (go : bool) then skip else packet_loop fuel p off caplen
      else mret tt
  end.

Definition packet (p : capture) : M t unit :=
  let caplen := u32 (u32 (Z.of_nat (length (bytes p)) - 14) - 28) in
  packet_loop (S (2 * length (bytes p))) p (14 + 28) caplen.

(** [while (pcap_next(...))]: [main] with a capture that can be opened. *)
Definition print_capture (packets : list capture) : M t unit := for_each packets packet.
End ops.
End PcapPrinter.
