(* ===== verification/PcapPrinterTheorems.v ===== *)
(** * The two printers and the bots' client keep the same books *)
From Stdlib Require Import Init.Byte.
From S2P Require Import Prelude Protocol MdMcast MdStream SnapshotClient BotBook BotBookTheorems SnapshotWriter MdClient MdClientTheorems MdRecovery BboPrinter BboPrinterTheorems PcapPrinter.
#[local] Open Scope Z_scope.

Section pcap.
Context `{FW : FeedWorld} (walk : gmap Z OrderBook.t → list Z).
Import PcapPrinter.

(** Printing changes nothing but the lines. *)
Definition same_but_lines (s s' : t) : Prop :=
  snapshot_complete s' = snapshot_complete s ∧ BboPrinter.order_books (bbo s') = BboPrinter.order_books (bbo s) ∧
  BboPrinter.order_to_symbol (bbo s') = BboPrinter.order_to_symbol (bbo s) ∧ BboPrinter.last_seq_num (bbo s') = BboPrinter.last_seq_num (bbo s).

Lemma run_print_books seconds n s : ∃ s', print_books walk seconds n s = (Ret tt, s') ∧ same_but_lines s s'.
Proof.
  unfold print_books. erewrite bind_ret by reflexivity. cbn beta. set (books := BboPrinter.order_books (bbo s)). clearbody books.
  generalize (walk books) as ys. intros ys. revert s. induction ys as [|y ys IH]; intros s; [by exists s|]. cbn [for_each].
  erewrite bind_ret by reflexivity. cbn beta. edestruct IH as (s' & Hrun & H1 & H2 & H3 & H4). exists s'. split; [exact Hrun|]. done.
Qed.

Lemma done_same s s' : snapshot_complete s' = snapshot_complete s → done_snapshot s' = done_snapshot s.
Proof. unfold done_snapshot. by intros ->. Qed.

(** A live message with the next number. *)
Lemma run_show_live p M s seq ts m pre rest len :
  shows M (bbo s) → msg_says M m → bytes p = pre ++ frame seq ts m ++ rest → is_u32 seq → is_u64 ts → msg_ok m →
  seq = BboPrinter.last_seq_num (bbo s) + 1 → Z.of_nat (msg_size m) <= len →
  ∃ s', show_live fw_freed walk p (length pre) len (wire_header seq ts m) s =
      (Ret ((length pre + msg_size m)%nat, u32 (len - Z.of_nat (msg_size m))), s') ∧
    snapshot_complete s' = snapshot_complete s ∧ shows (market_step M m) (bbo s') ∧ BboPrinter.last_seq_num (bbo s') = seq ∧
    BboPrinter.order_books (bbo s') = books_after M m (BboPrinter.order_books (bbo s)).
Proof.
  intros Hsh Hf Hd Hs Ht Hm Hseq Hlen. set (s0 := set_bbo (BboPrinter.set_last_seq_num seq (bbo s)) s).
  destruct (run_live_message false M (bbo s0) seq ts m (bytes p) pre rest len) as (b1 & Hrun & Hl1 & Hb1 & Hsh1); [done..|].
  destruct (run_print_books (tv_sec p + Z.quot (tv_usec p) 1000000) seq (set_bbo b1 s0)) as (s1 & Hpr & Hc & Hbk & Hix & Hl).
  exists s1. split; [|split; [exact Hc|]; split; [|split; [by rewrite Hl|by rewrite Hbk]]].
  2: { intros i y o Hi. rewrite Hix, Hbk. by apply (Hsh1 i y o). }
  unfold show_live. erewrite bind_ret by reflexivity. cbn beta. cbn [md.seq_num wire_header].
  rewrite <- Hseq, u32_id, Z.eqb_refl by done. cbn [negb when]. erewrite bind_ret by reflexivity. cbn beta.
  erewrite bind_ret by reflexivity. cbn beta.
  erewrite bind_ret.
  2: { unfold parse_and_apply_live_message, on_bbo, zoom, BboPrinter.parse_and_apply_live_message. erewrite bind_ret.
       2: { eapply (run_capture_read md.c_md_header (bytes p) pre (wire_header seq ts m)); [|by apply wire_header_ok].
            rewrite Hd. unfold frame. rewrite msg_bytes_split, <-app_assoc. done. }
       cbn beta. change (md.magic_number (wire_header seq ts m)) with md.MAGIC_NUMBER. rewrite Z.eqb_refl. cbn [negb md.msg_type wire_header].
       erewrite bind_ret by exact Hrun. reflexivity. }
  cbn beta. fold s0. erewrite bind_ret by exact Hpr. cbn beta. cbn [md.length wire_header]. by rewrite Nat2Z.id.
Qed.

Lemma run_pcap_loop p fs : ∀ fuel M s pre,
  done_snapshot s = true → shows M (bbo s) → feed_says M (fs.*2) → bytes p = pre ++ enc_frames fs → Forall numbered_ok fs →
  numbered_from (BboPrinter.last_seq_num (bbo s) + 1) fs → (length fs < fuel)%nat → Z.of_nat (length (enc_frames fs)) < 2 ^ 32 →
  ∃ s', packet_loop fw_freed walk fuel p (length pre) (Z.of_nat (length (enc_frames fs))) s = (Ret tt, s') ∧
    done_snapshot s' = true ∧ shows (foldl market_step M (fs.*2)) (bbo s') ∧
    BboPrinter.last_seq_num (bbo s') = BboPrinter.last_seq_num (bbo s) + Z.of_nat (length fs) ∧
    BboPrinter.order_books (bbo s') = feed_books M (fs.*2) (BboPrinter.order_books (bbo s)).
Proof.
  induction fs as [|[[seq ts] m] fs IH]; intros [|fuel] M s pre Hdone Hsh Hfit Hd Hok Hnum Hfuel Hlen; simpl in Hfuel; try lia.
  { exists s. simpl. rewrite Z.add_0_r. by split_and!. }
  apply Forall_cons in Hok as [(Hs & Ht & Hm) Hok]. cbn [fst snd] in *. destruct Hnum as [Hseq Hnum]. destruct Hfit as [Hf Hfit].
  change (enc_frames ((seq, ts, m) :: fs)) with (frame seq ts m ++ enc_frames fs) in *.
  rewrite length_app, frame_length in * by done. pose proof (msg_size_bound m) as Hsz.
  cbn [packet_loop]. rewrite (proj2 (Z.gtb_gt _ 0)) by lia.
  assert (∀ s, BboPrinter.read md.c_md_header (bytes p) (length pre) s = (Ret (wire_header seq ts m), s)) as Hread.
  { intros s0. eapply (run_capture_read md.c_md_header (bytes p) pre (wire_header seq ts m)); [|by apply wire_header_ok].
    rewrite Hd. unfold frame. rewrite msg_bytes_split, <-app_assoc. done. }
  assert (read md.c_md_header (bytes p) (length pre) s = (Ret (wire_header seq ts m), s)) as Hread'.
  { unfold read, on_bbo, zoom. rewrite Hread. by destruct s. }
  erewrite bind_ret by exact Hread'. cbn beta. erewrite bind_ret by reflexivity. cbn beta zeta.
  change (md.magic_number (wire_header seq ts m)) with md.MAGIC_NUMBER. rewrite Z.eqb_refl, Hdone.
  change (md.MAGIC_NUMBER =? md.SNAPSHOT_MAGIC_NUMBER) with false. cbn [negb andb].
  erewrite bind_ret by reflexivity. cbn beta iota. cbn [negb].
  destruct (run_show_live p M s seq ts m pre (enc_frames fs) (Z.of_nat (msg_size m + length (enc_frames fs))))
    as (s1 & Hrun & Hc & Hsh1 & Hl1 & Hb1); [done..|lia|].
  erewrite bind_ret by exact Hrun. cbn beta. cbn [fst snd].
  assert (u32 (Z.of_nat (msg_size m + length (enc_frames fs)) - Z.of_nat (msg_size m)) = Z.of_nat (length (enc_frames fs))) as ->
    by (rewrite u32_id; unfold is_u32; lia).
  assert (length pre + msg_size m = length (pre ++ frame seq ts m))%nat as -> by (by rewrite length_app, frame_length).
  destruct (IH fuel (market_step M m) s1 (pre ++ frame seq ts m)) as (s' & Hrun' & Hd' & Hsh' & Hl' & Hb');
    [by rewrite (done_same s)|done|done|by rewrite Hd, <-app_assoc|done|by rewrite Hl1, Hseq|lia|lia|].
  exists s'. split; [exact Hrun'|]. split; [done|]. split; [done|]. split; [rewrite Hl', Hl1; simpl length; lia|].
  by rewrite Hb', Hb1.
Qed.

(** A packet of the capture as this printer sees it. *)
Definition seen (usec : Z) (c : Z * list byte) : capture := mk_capture c.1 usec (Z.of_nat (length c.2)) c.2.

Lemma run_pcap_packet usec M s head sec fs :
  done_snapshot s = true → length head = (14 + 28)%nat → shows M (bbo s) → mtu fs → feed_says M (fs.*2) → Forall numbered_ok fs →
  numbered_from (BboPrinter.last_seq_num (bbo s) + 1) fs →
  ∃ s', packet fw_freed walk (seen usec (captured head sec fs)) s = (Ret tt, s') ∧ done_snapshot s' = true ∧
    shows (foldl market_step M (fs.*2)) (bbo s') ∧
    BboPrinter.last_seq_num (bbo s') = BboPrinter.last_seq_num (bbo s) + Z.of_nat (length fs) ∧
    BboPrinter.order_books (bbo s') = feed_books M (fs.*2) (BboPrinter.order_books (bbo s)).
Proof.
  intros Hd Hh Hsh Hm Hfit Hok Hnum. pose proof (enc_frames_length fs Hok) as Hn. unfold mtu, MarketDataPublisher.BUFFER_SIZE in Hm.
  unfold packet, seen, captured. cbn [fst snd bytes]. rewrite length_app, Hh.
  assert (u32 (u32 (Z.of_nat (14 + 28 + length (enc_frames fs)) - 14) - 28) = Z.of_nat (length (enc_frames fs))) as ->
    by (rewrite (u32_id (_ - 14)) by (unfold is_u32; lia); rewrite u32_id by (unfold is_u32; lia); lia).
  set (p := mk_capture _ _ _ _). pose proof (run_pcap_loop p fs (S (2 * (14 + 28 + length (enc_frames fs)))) M s head) as H.
  rewrite Hh in H. apply H; try done; lia.
Qed.

Lemma run_pcap_capture usec caps : ∀ M s,
  done_snapshot s = true → shows M (bbo s) → Forall (λ '(head, _, _), length head = (14 + 28)%nat) caps →
  let fss := (λ c : list byte * Z * list (Z * Z * md_msg), c.2) <$> caps in
  Forall mtu fss → feed_says M ((concat fss).*2) → Forall numbered_ok (concat fss) →
  numbered_from (BboPrinter.last_seq_num (bbo s) + 1) (concat fss) →
  ∃ s', print_capture fw_freed walk (seen usec <$> ((λ '(head, sec, fs), captured head sec fs) <$> caps)) s = (Ret tt, s') ∧
    BboPrinter.last_seq_num (bbo s') = BboPrinter.last_seq_num (bbo s) + Z.of_nat (length (concat fss)) ∧
    BboPrinter.order_books (bbo s') = feed_books M ((concat fss).*2) (BboPrinter.order_books (bbo s)).
Proof.
  induction caps as [|[[head sec] fs] caps IH]; intros M s Hd Hsh Hheads fss Hm Hfit Hok Hnum; subst fss; simpl in *.
  { exists s. rewrite Z.add_0_r. by split_and!. }
  apply Forall_cons in Hheads as [Hh Hheads]. apply Forall_cons in Hm as [Hm1 Hm]. apply Forall_app in Hok as [Hok1 Hok].
  rewrite fmap_app in *. apply numbered_from_app in Hnum as [Hn1 Hn]. apply feed_says_app in Hfit as [Hf1 Hf].
  destruct (run_pcap_packet usec M s head sec fs Hd Hh Hsh Hm1 Hf1 Hok1 Hn1) as (s1 & Hrun & Hd1 & Hsh1 & Hl1 & Hb1).
  destruct (IH (foldl market_step M (fs.*2)) s1 Hd1 Hsh1 Hheads Hm Hf Hok) as (s' & Hrun' & Hl' & Hb').
  { rewrite Hl1. by replace (BboPrinter.last_seq_num (bbo s) + Z.of_nat (length fs) + 1)
      with (BboPrinter.last_seq_num (bbo s) + 1 + Z.of_nat (length fs)) by lia. }
  exists s'. split; [unfold print_capture; simpl; erewrite bind_ret by exact Hrun; exact Hrun'|].
  split; [by rewrite Hl', Hl1, length_app, Nat2Z.inj_add, Z.add_assoc|]. by rewrite Hb', Hb1, feed_books_app.
Qed.
End pcap.

(** ** Property *)

Definition tables (p : BboPrinter.t) : gmap Z OrderBook.t * gmap Z Z * Z :=
  (BboPrinter.order_books p, BboPrinter.order_to_symbol p, BboPrinter.last_seq_num p).

(** The same world, with other memory under an erased order. *)
Definition with_freed (FW : FeedWorld) (freed : OrderBook.Order → OrderBook.Order) : FeedWorld :=
  Build_FeedWorld fw_live fw_snapshot fw_leave freed fw_recover_on_drops fw_fuel.

Lemma run_book_ext f g o b : (∀ x, f x = g x) → run_book f o b = run_book g o b.
Proof. intros He. destruct o; try done. simpl. unfold OrderBook.order_trade. by destruct (_ !! _); [rewrite He|]. Qed.

Lemma feed_books_ext (FW : FeedWorld) freed ms : (∀ x, freed x = fw_freed x) →
  ∀ M books, feed_books (FW := with_freed FW freed) M ms books = feed_books M ms books.
Proof.
  intros He. induction ms as [|m ms IH]; intros M books; [done|]. cbn [feed_books]. rewrite IH. f_equal.
  unfold books_after. destruct (book_op_of m), (symbol_in M m); try done. f_equal. by apply run_book_ext.
Qed.

(** The orders a feed leaves in the books do not depend on that memory. *)
Lemma feed_orders (FW : FeedWorld) M c fss :
  keeps_orders M c → length (MDClient.buf c) = MDClient.BUF_SIZE →
  (∀ k fs, fss !! k = Some fs → fw_live (MDClient.live_recvs c + k) = RecvPacket (enc_frames fs)) → Forall mtu fss →
  Forall numbered_ok (concat fss) → numbered_from (MDClient.last_md_seq_num c + 1) (concat fss) → feed_says M ((concat fss).*2) →
  ∀ y, OrderBook.orders <$> feed_books M ((concat fss).*2) (MDClient.symbol_to_order_book c) !! y =
    (let M' := foldl market_step M ((concat fss).*2) in
     if bool_decide (y ∈ mk_symbols M') then Some (book_of y (mk_orders M')) else None).
Proof.
  intros K Hb Hw Hm Hok Hnum Hs y. cbv zeta.
  destruct (run_feed False ltac:(done) fss M c K Hb Hw Hm Hok Hnum) as (c' & _ & K' & _ & <-); [by apply says_fits|].
  rewrite <- (km_dom _ _ _ K'). destruct (MDClient.symbol_to_order_book c' !! y) as [b|] eqn:Hy.
  - rewrite bool_decide_true by (apply elem_of_dom; eauto). simpl. f_equal. apply (mr_orders _ _ _ (km_books _ _ _ K' y b Hy)).
  - rewrite bool_decide_false; [done|]. by apply not_elem_of_dom.
Qed.

(** C13 ([readers_agree]): the bots' client and the two printers are three programs for one
    feed.  On a feed that says what an open market can say, in whole frames
    numbered on, the client that polls the packets and the printers that read a
    capture of them, whatever its ethernet, ip and udp headers and its times, the
    second printer past its snapshot, started with the same books end with the
    same sequence number and, for every symbol, the same open orders — whatever
    each program finds in an order's memory after a full trade has freed it —
    and, if they find the same there, with the same books, levels included. *)
Theorem readers_agree (FW : FeedWorld) freed_p freed_q walk M c p q heads usec fss :
  keeps_orders M c → length (MDClient.buf c) = MDClient.BUF_SIZE →
  (∀ k fs, fss !! k = Some fs → fw_live (MDClient.live_recvs c + k) = RecvPacket (enc_frames fs)) → Forall mtu fss →
  Forall numbered_ok (concat fss) → numbered_from (MDClient.last_md_seq_num c + 1) (concat fss) → feed_says M ((concat fss).*2) →
  tables p = (MDClient.symbol_to_order_book c, MDClient.order_to_symbol c, MDClient.last_md_seq_num c) →
  tables (PcapPrinter.bbo q) = tables p → PcapPrinter.done_snapshot q = true →
  length heads = length fss → Forall (λ h : list byte * Z, length h.1 = (14 + 28)%nat) heads →
  let caps := zip_with (λ h fs, captured h.1 h.2 fs) heads fss in
  ∃ c' p' q', for_each fss (λ _, MDClient.process) c = (Ret tt, c') ∧
    BboPrinter.print_capture freed_p caps p = (Ret tt, p') ∧
    PcapPrinter.print_capture freed_q walk (seen usec <$> caps) q = (Ret tt, q') ∧
    let books_c := MDClient.symbol_to_order_book c' in
    let books_p := BboPrinter.order_books p' in
    let books_q := BboPrinter.order_books (PcapPrinter.bbo q') in
    BboPrinter.last_seq_num p' = MDClient.last_md_seq_num c' ∧
    BboPrinter.last_seq_num (PcapPrinter.bbo q') = MDClient.last_md_seq_num c' ∧
    (∀ y, OrderBook.orders <$> books_p !! y = OrderBook.orders <$> books_c !! y ∧
          OrderBook.orders <$> books_q !! y = OrderBook.orders <$> books_c !! y) ∧
    ((∀ o, freed_p o = fw_freed o) → books_p = books_c) ∧ ((∀ o, freed_q o = fw_freed o) → books_q = books_c).
Proof.
  intros K Hb Hw Hm Hok Hnum Hs [= Hbk Hix Hl] [= Hbq Hixq Hlq] Hdone Hlen Hheads caps.
  destruct (run_feed False ltac:(done) fss M c K Hb Hw Hm Hok Hnum) as (c' & Hrun & _ & Hl' & Hb'); [by apply says_fits|].
  set (cs := zip_with (λ (h : list byte * Z) (fs : list (Z * Z * md_msg)), (h, fs)) heads fss).
  assert (shows M p) as Hsh.
  { intros i y o Hi. destruct (book_open _ M c i y o K Hi) as (b & Hbo & _). rewrite Hix, Hbk.
    split; [by eapply km_index|by exists b]. }
  assert (shows M (PcapPrinter.bbo q)) as Hshq by (intros i y o Hi; rewrite Hixq, Hbq; by apply (Hsh i y o)).
  assert ((λ c : list byte * Z * list (Z * Z * md_msg), c.2) <$> cs = fss) as Hfss by (apply fmap_zip_with_r; [done|lia]).
  assert (caps = (λ '(head, sec, fs), captured head sec fs) <$> cs) as ->.
  { unfold caps, cs. clear. revert fss. induction heads as [|[h t] heads IH]; intros [|fs fss]; simpl; [done..|]. by rewrite IH. }
  assert (Forall (λ '(head, _, _), length head = (14 + 28)%nat) cs) as Hcs.
  { apply Forall_forall. intros [[h t] fs] Hin.
    apply elem_of_lookup_zip_with in Hin as (k & x & y & [= <- <-] & Hx & _). exact (Forall_lookup_1 _ _ _ _ Hheads Hx). }
  destruct (run_capture (FW := with_freed FW freed_p) cs M p Hsh) as (p' & Hrun' & _ & Hlp & Hbp);
    rewrite ?Hfss; try done; [by rewrite Hl|].
  destruct (run_pcap_capture (FW := with_freed FW freed_q) walk usec cs M q Hdone Hshq Hcs) as (q' & Hrunq & Hlq' & Hbq');
    rewrite ?Hfss; try done; [by rewrite Hlq, Hl|].
  rewrite Hfss in Hlp, Hbp, Hlq', Hbq'. exists c', p', q'. split; [done|]. split; [done|]. split; [done|].
  rewrite Hb', Hbp, Hbq', Hbq, Hbk. split; [congruence|]. split; [congruence|]. split.
  - intros y. rewrite !feed_orders by done. done.
  - split; intros He; by apply feed_books_ext.
Qed.

Definition demo_heads : list (list byte * Z) := replicate 3 (replicate 42 x00, 7).
Definition started : PcapPrinter.t := PcapPrinter.set_complete {[1 := true; 2 := true]} PcapPrinter.initial.

Lemma readers_agree_witness :
  let FW := demo_world in
  let caps := zip_with (λ h fs, captured h.1 h.2 fs) demo_heads demo_frames in
  ∃ c' p' q', for_each demo_frames (λ _, MDClient.process) MDClient.initial = (Ret tt, c') ∧
    BboPrinter.print_capture fw_freed caps BboPrinter.initial = (Ret tt, p') ∧
    PcapPrinter.print_capture fw_freed (λ m, (map_to_list m).*1) (seen 5 <$> caps) started = (Ret tt, q') ∧
    BboPrinter.order_books p' = MDClient.symbol_to_order_book c' ∧
    BboPrinter.order_books (PcapPrinter.bbo q') = MDClient.symbol_to_order_book c'.
Proof.
  intros FW caps.
  destruct (readers_agree demo_world fw_freed fw_freed (λ m, (map_to_list m).*1) no_market MDClient.initial BboPrinter.initial started demo_heads 5 demo_frames)
    as (c' & p' & q' & H1 & H2 & H3 & _ & _ & _ & H4 & H5).
  - apply keeps_initial.
  - reflexivity.
  - intros k fs Hk. unfold fw_live, demo_world. simpl plus. by rewrite Hk.
  - unfold mtu. by_decide.
  - unfold numbered_ok. by_decide.
  - simpl. tauto.
  - apply demo_feed_says.
  - reflexivity.
  - reflexivity.
  - reflexivity.
  - reflexivity.
  - by_decide.
  - exists c', p', q'. split; [exact H1|]. split; [exact H2|]. split; [exact H3|]. split; [by apply H4|by apply H5].
Defined.

(** *** What the second printer makes of a snapshot *)

(** An order in each of the symbols. *)
Definition two_payloads : list md_payload := [
  mk_md_payload md.MSG_TYPE.NEW_ORDER 5 200 1 md.SIDE.BUY 10 50 0;
  mk_md_payload md.MSG_TYPE.NEW_ORDER 6 201 2 md.SIDE.SELL 3 70 0].
Definition two_snapshots : list (list byte) := SnapshotWriter.packets (writer_after two_payloads SnapshotWriter.initial).
Definition heartbeat_4 : list (Z * Z * md_msg) := [(4, 1, Heartbeat)].
Definition heartbeat_7 : list (Z * Z * md_msg) := [(7, 4, Heartbeat)].

Definition on_wire (bs : list byte) : capture := mk_capture 0 0 0 (replicate 42 x00 ++ bs).

Definition pcap_of (bss : list (list byte)) : outcome unit * PcapPrinter.t :=
  PcapPrinter.print_capture (λ o, o) (λ m, (map_to_list m).*1) (on_wire <$> bss) PcapPrinter.initial.

(** It counts the snapshot's orders and keeps none: the client that joins the feed
    at the same place shows a bid, the printer has no book at all. *)
Lemma snapshot_orders_lost :
  (∃ s, pcap_of ([enc_frames heartbeat_4] ++ two_snapshots ++ [enc_frames heartbeat_7]) = (Ret tt, s) ∧
    PcapPrinter.done_snapshot s = true ∧ BboPrinter.last_seq_num (PcapPrinter.bbo s) = 7 ∧
    BboPrinter.order_books (PcapPrinter.bbo s) = ∅) ∧
  ∃ c, MDClient.wait_for_snapshot (H := join_world [heartbeat_4; [(5, 2, Heartbeat); (6, 3, Heartbeat); (7, 4, Heartbeat)]] two_snapshots) 1
      MDClient.initial = (Ret tt, c) ∧ MDClient.get_best_bid 1 c = OrderBook.mkLevel 50 10.
Proof. split; eexists; (split; [vm_compute; reflexivity|]); split_and?; vm_compute; reflexivity. Qed.

(** While a symbol has no orders its snapshot is never complete, and nothing is ever
    printed. *)
Lemma empty_symbol_never_starts : ∃ s,
  pcap_of ([enc_frames heartbeat_4] ++ SnapshotWriter.packets writer_5 ++ [enc_frames heartbeat_7]) = (Ret tt, s) ∧
  PcapPrinter.done_snapshot s = false.
Proof. eexists. split; vm_compute; reflexivity. Qed.
