(* ===== verification/MarketFeed.v ===== *)
(** * The feed says what rests on the ladders

    The messages the broker publishes while it serves requests, read as the bots
    read them, give exactly the orders that rest in the abstract books. *)
From Stdlib Require Import Init.Byte.
From S2P Require Import Prelude Protocol MdMcast MdStream Clearing OrderLadder LadderSpec LadderRep LadderMatch LadderRefine LadderProps Broker BrokerRefine BotBook BotBookTheorems MdClient MdClientTheorems.

(** ** Resting orders as open orders of the market *)

Definition ord (e : entry) : OrderBook.Order := OrderBook.mkOrder (e_side e) (e_price e) (e_qty e).

Definition open_entry (y : Z) (e : entry) : Z * (Z * OrderBook.Order) := (e_id e, (y, ord e)).
Definition resting (y : Z) (l : list entry) : gmap Z (Z * OrderBook.Order) := list_to_map (open_entry y <$> l).

Lemma resting_cons y e l : resting y (e :: l) = <[e_id e := (y, ord e)]> (resting y l).
Proof. done. Qed.

Lemma resting_app y l1 l2 : resting y (l1 ++ l2) = resting y l1 ∪ resting y l2.
Proof. unfold resting. by rewrite fmap_app, list_to_map_app. Qed.

Lemma resting_fst y l : (open_entry y <$> l).*1 = e_id <$> l.
Proof. rewrite <- list_fmap_compose. done. Qed.

Lemma resting_perm y l l' : NoDup (e_id <$> l) → l ≡ₚ l' → resting y l = resting y l'.
Proof.
  intros Hn Hp. unfold resting. apply list_to_map_proper; [by rewrite resting_fst|]. by apply fmap_Permutation.
Qed.

Lemma resting_None y l i : resting y l !! i = None ↔ i ∉ e_id <$> l.
Proof. unfold resting. rewrite <- not_elem_of_list_to_map, resting_fst. done. Qed.

Lemma resting_Some y l i x : NoDup (e_id <$> l) → resting y l !! i = Some x ↔ ∃ e, e ∈ l ∧ e_id e = i ∧ x = (y, ord e).
Proof.
  intros Hn. unfold resting. rewrite <- elem_of_list_to_map by by rewrite resting_fst. rewrite list_elem_of_fmap. unfold open_entry.
  split; [intros (e & [= -> ->] & He)|intros (e & He & <- & ->)]; eauto.
Qed.

Lemma resting_delete y i l : delete i (resting y l) = resting y (remove_id i l).
Proof.
  induction l as [|e l IH]; [apply delete_empty|]. unfold remove_id. rewrite resting_cons, filter_cons.
  destruct (decide (e_id e ≠ i)) as [Hne|He].
  - rewrite resting_cons, delete_insert_ne by congruence. by rewrite IH.
  - assert (e_id e = i) as -> by (destruct (decide (e_id e = i)); [done|tauto]). by rewrite delete_insert_eq.
Qed.

(** The ids of a list are open nowhere else. *)
Definition apart (l : list entry) (G : gmap Z (Z * OrderBook.Order)) : Prop := ∀ e, e ∈ l → G !! e_id e = None.

(** ** The trades of an incoming order *)

Definition cb_queue (cb : callback) : list queued :=
  match cb with onTrade i q p => [Queued i q (s32 (u32 p))] | _ => [] end.

Definition cb_msgs (cb : callback) : list md_msg :=
  match cb with
  | onNewOrder i y d q p f => if q >? 0 then [NewOrder i y d q (s32 (u32 p)) f] else []
  | onModifyOrder i y d q p => [ModifyOrder i d q (s32 (u32 p))]
  | onDeleteOrder i publish => if publish then [DeleteOrder i] else []
  | _ => []
  end.

(** What a request on symbol [y] publishes: trades wait for the end of it. *)
Definition trades_msgs (y d : Z) (qs : list queued) : list md_msg :=
  if bool_decide (qs = []) then [] else summary_msg y d qs :: (queued_msg <$> qs).
Definition request_msgs (y d : Z) (cbs : list callback) : list md_msg :=
  (cbs ≫= cb_msgs) ++ trades_msgs y d (cbs ≫= cb_queue).

Lemma pubs_msgs_app os os' qs :
  pubs_msgs (os ++ os') qs = ((pubs_msgs os qs).1 ++ (pubs_msgs os' (pubs_msgs os qs).2).1, (pubs_msgs os' (pubs_msgs os qs).2).2).
Proof.
  revert qs. induction os as [|o os IH]; intros qs; simpl; [by destruct (pubs_msgs os' qs)|].
  destruct (pub_msgs o qs) as [ms qs1]. rewrite IH. destruct (pubs_msgs os qs1) as [ms1 qs2]. simpl.
  by rewrite app_assoc.
Qed.

Lemma pubs_msgs_cbs cbs qs : pubs_msgs (cbs ≫= cb_pubs) qs = (cbs ≫= cb_msgs, qs ++ (cbs ≫= cb_queue)).
Proof.
  revert qs. induction cbs as [|cb cbs IH]; intros qs; [by rewrite app_nil_r|].
  rewrite !bind_cons, pubs_msgs_app. destruct cb as [i y d q p f|i y d q p|i []|i|i q p|i y d q p f a]; simpl; rewrite ?IH; simpl; rewrite <- ?app_assoc; try done.
  by destruct (q >? 0).
Qed.

Lemma pubs_msgs_request y d cbs : pubs_msgs ((cbs ≫= cb_pubs) ++ [PublishTrades y d]) [] = (request_msgs y d cbs, []).
Proof.
  rewrite pubs_msgs_app, pubs_msgs_cbs. unfold request_msgs, trades_msgs. rewrite app_nil_l. cbn [pubs_msgs pub_msgs fst snd].
  case_bool_decide as Hq; [done|]. cbn [fst snd]. by rewrite app_nil_r.
Qed.

Lemma fill_queue_msgs sym id side limit l : ∀ q, (fill_queue sym id side limit q l).2 ≫= cb_msgs = [].
Proof.
  induction l as [|e l IH]; intros q; simpl; [done|]. destruct (_ && _); [|done]. destruct (e_qty e <=? q); [|done].
  specialize (IH (q - e_qty e)). by destruct (fill_queue _ _ _ _ (q - e_qty e) l) as [[l' q'] cbs].
Qed.

(** The publications of a callback fit their places on the wire. *)
Definition cb_fit (cb : callback) : Prop := Forall pub_ok (cb_pubs cb).

Lemma fits_pubs cbs : Forall cb_fit cbs → Forall pub_ok (cbs ≫= cb_pubs).
Proof. induction 1 as [|cb cbs Hcb _ IH]; [constructor|]. rewrite bind_cons. by apply Forall_app. Qed.

Lemma fill_queue_fit sym id side limit l : ∀ q, is_u32 q → (∀ e, e ∈ l → is_u64 (e_id e) ∧ 0 < e_qty e < 2 ^ 32) →
  Forall cb_fit (fill_queue sym id side limit q l).2.
Proof.
  induction l as [|e l IH]; intros q Hq Hl; simpl; [constructor|].
  destruct (_ && _) eqn:Hc; [|constructor]. destruct (Hl e ltac:(constructor)) as [Hi He]. unfold is_u32 in *.
  assert (∀ n p, 0 <= n < 2 ^ 32 → cb_fit (onTrade (e_id e) n p)) as Htr.
  { intros n p Hn. repeat constructor; try apply Hi; try apply u32_range; unfold is_u32; lia. }
  assert (∀ i y d n p f a, cb_fit (onFill i y d n p f a)) as Hfi by (intros; constructor).
  destruct (e_qty e <=? q) eqn:Hle.
  - specialize (IH (q - e_qty e) ltac:(lia) ltac:(intros x Hx; apply Hl; by constructor)).
    destruct (fill_queue _ _ _ _ (q - e_qty e) l) as [[l' q'] cbs]. simpl in *.
    repeat (constructor; [auto with lia|]). done.
  - simpl. repeat (constructor; [auto with lia|]). constructor.
Qed.

(** The trades take from the market what matching takes from the queue. *)
Lemma trades_feed y sym id side limit l G : ∀ q M,
  NoDup (e_id <$> l) → apart l G → (∀ e, e ∈ l → 0 < e_qty e) → mk_orders M = resting y l ∪ G →
  let '(l', q', cbs) := fill_queue sym id side limit q l in
  let ts := queued_msg <$> (cbs ≫= cb_queue) in
  mk_orders (foldl market_step M ts) = resting y l' ∪ G ∧ mk_symbols (foldl market_step M ts) = mk_symbols M ∧ feed_says M ts.
Proof.
  induction l as [|e l IH]; intros q M Hn Ha Hpos HM; simpl; [done|].
  destruct ((q >? 0) && crosses side limit (e_price e)) eqn:Hc; [|done].
  apply andb_true_iff in Hc as [Hq _]. apply NoDup_cons in Hn as [He Hn].
  assert (0 < e_qty e) as Hqe by (apply Hpos; constructor).
  assert (mk_orders M !! e_id e = Some (y, ord e)) as Hlook.
  { rewrite HM, resting_cons. apply lookup_union_Some_l. apply lookup_insert_eq. }
  assert (G !! e_id e = None) as HG by (apply Ha; constructor).
  destruct (e_qty e <=? q) eqn:Hle.
  - specialize (IH (q - e_qty e) (market_step M (Trade (e_id e) (e_qty e) (s32 (u32 (e_price e))))) Hn).
    destruct (fill_queue _ _ _ _ (q - e_qty e) l) as [[l' q'] cbs]. simpl in *. rewrite Hlook in *. simpl in *.
    rewrite Z.eqb_refl in *. simpl in IH. destruct IH as (IH1 & IH2 & IH3).
    + intros x Hx. apply Ha. by constructor.
    + intros x Hx. apply Hpos. by constructor.
    + rewrite HM, resting_cons, delete_union, delete_insert_eq, !delete_id; try done. by apply resting_None.
    + split_and!; [exact IH1|exact IH2|exact Hqe| |exact IH3]. eexists y, _. split; [done|]. simpl. lia.
  - simpl. rewrite Hlook. simpl. replace (e_qty e =? q) with false by lia. simpl. split_and!; [|done|lia| |done].
    + rewrite HM, resting_cons, resting_cons, insert_union_l, insert_insert_eq. done.
    + eexists y, _. split; [done|]. simpl. lia.
Qed.

Lemma fold_trades_msgs M y d qs : foldl market_step M (trades_msgs y d qs) = foldl market_step M (queued_msg <$> qs).
Proof. unfold trades_msgs. case_bool_decide as Hq; [by rewrite Hq|done]. Qed.

Lemma says_trades_msgs M y d qs :
  (qs ≠ [] → y ∈ mk_symbols M) → feed_says M (queued_msg <$> qs) → feed_says M (trades_msgs y d qs).
Proof. intros Hy Hs. unfold trades_msgs. case_bool_decide; [done|]. split; [by apply Hy|done]. Qed.

(** A symbol with open orders has been seen. *)
Definition seen_symbols (M : market) : Prop := ∀ i y o, mk_orders M !! i = Some (y, o) → y ∈ mk_symbols M.

Lemma seen_step M m : seen_symbols M → seen_symbols (market_step M m).
Proof.
  intros Hs i y o. destruct m as [|j z d q p f|j|j d q p|j q p|]; simpl; [apply Hs|..|apply Hs].
  - rewrite lookup_insert_Some. intros [[<- [= <- <-]]|[_ Hi]]; [set_solver|]. apply Hs in Hi. set_solver.
  - rewrite lookup_delete_Some. intros [_ Hi]. by eapply Hs.
  - destruct (mk_orders M !! j) as [[z o']|] eqn:Hj; [|apply Hs]. simpl.
    rewrite lookup_insert_Some. intros [[<- [= <- <-]]|[_ Hi]]; by eapply Hs.
  - destruct (mk_orders M !! j) as [[z o']|] eqn:Hj; [|apply Hs]. simpl. case_match.
    + rewrite lookup_delete_Some. intros [_ Hi]. by eapply Hs.
    + rewrite lookup_insert_Some. intros [[<- [= <- <-]]|[_ Hi]]; by eapply Hs.
Qed.

Lemma seen_fold ms : ∀ M, seen_symbols M → seen_symbols (foldl market_step M ms).
Proof. induction ms as [|m ms IH]; intros M Hs; [done|]. apply IH. by apply seen_step. Qed.

(** ** One operation on a book *)

(** The part of the book a new order leaves alone, and what it adds. *)
Definition added (id side p flags q n : Z) : list entry :=
  if (0 <? q) && negb (is_ioc flags) then [Entry id q n p side flags] else [].

Lemma elem_all_ids B e : e ∈ all_entries B → e_id e ∈ ids B.
Proof. intros He. by apply list_elem_of_fmap_2. Qed.

Lemma all_entries_side pl B : all_entries B ≡ₚ book_side pl B ++ book_side (other pl) B.
Proof. unfold all_entries. destruct pl; simpl; [done|apply Permutation_app_comm]. Qed.

Lemma all_entries_set pl l B : all_entries (set_side pl l B) ≡ₚ l ++ book_side (other pl) B.
Proof. rewrite (all_entries_side pl), book_side_set, book_side_set_other. done. Qed.

Lemma filled_ids side limit q l l' q' : LadderSpec.filled side limit q l l' q' → ∃ l1, e_id <$> l = l1 ++ (e_id <$> l').
Proof.
  destruct 1 as [l1 l2 -> _ _ _|l1 e l2 -> _ _]; exists (e_id <$> l1); rewrite fmap_app; done.
Qed.

(** A market that already holds the remainder of the new order, and then sees
    its trades, holds the new book. *)
Lemma handle_new_feed y ntf id side q p flags filled B G :
  book_ok B → id ∉ ids B → filled < q → 0 <= filled → apart (all_entries B) G → G !! id = None →
  ∃ q' n B' cbs1 cbs2, spec_handle_new ntf id side q p flags filled B = (Ret q', B', cbs1 ++ cbs2) ∧ 0 <= q' <= q - filled ∧
    cbs2 = (if ntf then if is_ioc flags then if 0 <? q' then [onDeleteOrder id false] else []
                        else [onNewOrder id (b_symbol B) side q' p flags] else []) ∧
    cbs1 ≫= cb_msgs = [] ∧ b_symbol B' = b_symbol B ∧
    ∀ M d, mk_orders M = resting y (added id side p flags q' n ++ all_entries B) ∪ G → seen_symbols M →
      let ts := trades_msgs y d (cbs1 ≫= cb_queue) in
      mk_orders (foldl market_step M ts) = resting y (all_entries B') ∪ G ∧ feed_says M ts.
Proof.
  intros Hok Hid Hlt Hf Ha HG.
  destruct (spec_handle_new_fresh ntf id side q p flags filled B Hok Hid Hlt Hf)
    as (n & l & cbs1 & cbs2 & Hspec & _ & Hn & [Hfq _] & _ & Hcbs2).
  set (q' := q - filled - n) in *. exists q', n. eexists _, cbs1, cbs2. split; [exact Hspec|].
  assert (other (opp_levels side) = own_levels side) as Hoth by apply other_other.
  set (opp := book_side (opp_levels side) B) in *. set (own := book_side (own_levels side) B).
  assert (all_entries B ≡ₚ opp ++ own) as Hall.
  { rewrite (all_entries_side (opp_levels side)). by rewrite Hoth. }
  pose proof (fill_queue_msgs (b_symbol B) id side p opp (q - filled)) as Hmsgs. rewrite Hfq in Hmsgs.
  split; [lia|]. split; [exact Hcbs2|]. split; [exact Hmsgs|]. split.
  { destruct (_ && _); by rewrite ?symbol_set_side. }
  intros M d HM Hseen. set (add := added id side p flags q' n) in *.
  assert (NoDup (e_id <$> (opp ++ add ++ own))) as Hnd.
  { pose proof (bk_ids _ Hok) as Hn1. unfold ids in Hn1. rewrite Hall in Hn1.
    unfold ids in Hid. rewrite Hall in Hid. subst add. unfold added. destruct (_ && _); [|exact Hn1].
    cbn [app]. rewrite <- Permutation_middle. cbn [fmap list_fmap e_id]. apply NoDup_cons. split; assumption. }
  pose proof (trades_feed y (b_symbol B) id side p opp (resting y (add ++ own) ∪ G) (q - filled) M) as Ht.
  rewrite Hfq in Ht. cbv zeta in Ht |- *. destruct Ht as (Ht1 & _ & Ht3).
  - rewrite fmap_app in Hnd. by apply NoDup_app in Hnd as [? _].
  - intros e He. apply lookup_union_None. split.
    + apply resting_None. rewrite fmap_app in Hnd. apply NoDup_app in Hnd as (_ & Hnd & _). apply Hnd. by apply list_elem_of_fmap_2.
    + apply Ha. rewrite Hall, elem_of_app. by left.
  - intros e He. apply (ok_qty _ _ (bk_entries _ Hok _ _ He)).
  - rewrite HM, (map_union_assoc _ _ G), <- resting_app. f_equal. symmetry. apply resting_perm; [done|].
    rewrite Hall. rewrite !(app_assoc opp), (Permutation_app_comm opp add), <- app_assoc. done.
  - split.
    2: { apply says_trades_msgs; [|done]. intros Hne. destruct opp as [|e opp'] eqn:Hopp.
         { simpl in Hfq. by injection Hfq as _ _ <-. }
         apply (Hseen (e_id e) y (ord e)). rewrite HM. apply lookup_union_Some_l, resting_Some; [|exists e; rewrite Hall; set_solver].
         eapply NoDup_Permutation_proper; [|exact Hnd]. apply fmap_Permutation. rewrite Hall.
         by rewrite !(app_assoc _ _ own), (Permutation_app_comm add). }
    rewrite fold_trades_msgs, Ht1, (map_union_assoc _ _ G), <- resting_app. f_equal.
    pose proof (fill_queue_filled _ _ _ _ _ _ _ _ _ Hfq ltac:(lia)) as [l1 Hl1]%filled_ids.
    assert (NoDup (e_id <$> (l ++ add ++ own))) as Hnd'.
    { rewrite fmap_app in Hnd |- *. rewrite Hl1, <- app_assoc in Hnd. by apply NoDup_app in Hnd as (_ & _ & Hnd). }
    apply resting_perm; [done|]. subst add. unfold added. destruct (_ && _).
    + rewrite all_entries_set, insert_entry_perm. change (other (own_levels side)) with (opp_levels side).
      rewrite book_side_set. cbn [app].
      rewrite <- Permutation_middle. constructor. apply Permutation_app_comm.
    + rewrite all_entries_set, Hoth. done.
Qed.

(** What a request must be for the feed to describe it: a new order has a fresh
    id, and a modification that stays in place is of an order not traded yet
    ([modify_in_place] says what happens otherwise). *)
Definition op_faithful (o : op) (B : Book) : Prop :=
  match o with
  | New ntf id _ q p _ filled => ntf = true ∧ filled = 0 ∧ id ∉ ids B ∧ 0 < q < 2 ^ 32 ∧ is_s32 p
  | Delete ntf _ => ntf = true
  | Modify id side q p => is_s32 p ∧ is_u32 q ∧ ∀ e, find_id id (all_entries B) = Some e →
      e_price e = p → e_side e = side → q <= e_filled e ∨ e_filled e = 0
  end.

(** The market holds the book of symbol [y], and elsewhere [G]. *)
Record holds (y : Z) (B : Book) (G : gmap Z (Z * OrderBook.Order)) (M : market) : Prop := {
  ho_orders : mk_orders M = resting y (all_entries B) ∪ G;
  ho_apart : apart (all_entries B) G;
  ho_seen : seen_symbols M;
}.

Lemma price_wire p : is_s32 p → s32 (u32 p) = p.
Proof. intros Hp. rewrite s32_u32. by apply s32_id. Qed.

Lemma apart_remove l G i : apart l G → apart (remove_id i l) G.
Proof. intros Ha e [_ He]%elem_of_remove_id. by apply Ha. Qed.

Lemma apart_ids B G : apart (all_entries B) G ↔ ∀ i, i ∈ ids B → G !! i = None.
Proof.
  split.
  - intros Ha i (e & -> & He)%list_elem_of_fmap. by apply Ha.
  - intros Hi e He. by apply Hi, elem_all_ids.
Qed.

(** Deleting and replacing an order of the book. *)
Lemma holds_delete y B G i : apart (all_entries B) G → i ∈ ids B →
  delete i (resting y (all_entries B) ∪ G) = resting y (all_entries (remove_order i B)) ∪ G.
Proof.
  intros Ha Hi. rewrite delete_union, resting_delete, all_entries_remove. f_equal. apply delete_id.
  by apply (proj1 (apart_ids B G)).
Qed.

Lemma holds_replace y B G i x : apart (all_entries B) G → i ∈ ids B →
  <[i := x]> (resting y (all_entries B) ∪ G) = <[i := x]> (resting y (all_entries (remove_order i B))) ∪ G.
Proof.
  intros Ha Hi. rewrite <- insert_delete_eq, holds_delete by done. by rewrite insert_union_l.
Qed.

Lemma resting_update y i f l e : NoDup (e_id <$> l) → e ∈ l → e_id e = i → e_id (f e) = i →
  <[i := (y, ord (f e))]> (resting y (remove_id i l)) = resting y (update_id i f l).
Proof.
  intros Hn He Hi Hf. rewrite <- resting_delete, insert_delete_eq.
  induction l as [|e' l IH]; [by apply elem_of_nil in He|]. apply NoDup_cons in Hn as [Hne Hn].
  unfold update_id. rewrite fmap_cons. fold (update_id i f l). rewrite !resting_cons.
  apply elem_of_cons in He as [->|He].
  - rewrite Hi, decide_True, Hf, insert_insert_eq by done. f_equal. rewrite update_id_notin; [done|]. by rewrite <- Hi.
  - assert (e_id e' ≠ i) as Hne'.
    { intros Heq. apply Hne. rewrite Heq, <- Hi. by apply list_elem_of_fmap_2. }
    rewrite decide_False by done. rewrite insert_insert_ne by congruence. by rewrite IH.
Qed.

Lemma holds_lookup y B G M e : book_ok B → holds y B G M → e ∈ all_entries B → mk_orders M !! e_id e = Some (y, ord e).
Proof.
  intros Hok Hh He. rewrite (ho_orders _ _ _ _ Hh). apply lookup_union_Some_l, resting_Some; [apply (bk_ids _ Hok)|eauto].
Qed.

Lemma holds_fresh y B G M i : holds y B G M → i ∉ ids B → G !! i = None → mk_orders M !! i = None.
Proof.
  intros Hh Hi HG. rewrite (ho_orders _ _ _ _ Hh). apply lookup_union_None. split; [by apply resting_None|done].
Qed.

Lemma request_msgs_two y d cbs1 cbs2 :
  cbs1 ≫= cb_msgs = [] → cbs2 ≫= cb_queue = [] →
  request_msgs y d (cbs1 ++ cbs2) = (cbs2 ≫= cb_msgs) ++ trades_msgs y d (cbs1 ≫= cb_queue).
Proof. intros H1 H2. unfold request_msgs. by rewrite !bind_app, H1, H2, app_nil_r. Qed.

Section op_feed.
Context (y d : Z) (B : Book) (G : gmap Z (Z * OrderBook.Order)) (M : market).
Context (Hok : book_ok B) (Hh : holds y B G M) (Hsym : b_symbol B = y).

Definition fed_by (B' : Book) (cbs : list callback) : Prop :=
  mk_orders (foldl market_step M (request_msgs y d cbs)) = resting y (all_entries B') ∪ G ∧
  feed_says M (request_msgs y d cbs) ∧ b_symbol B' = y.

Lemma new_feed id side q p flags :
  id ∉ ids B → G !! id = None → 0 < q < 2 ^ 32 → is_s32 p →
  let '(r, B', cbs) := spec_op (New true id side q p flags 0) B in fed_by B' cbs.
Proof using Hok Hh Hsym.
  intros Hid HG Hq Hp. simpl. unfold spec_new_order.
  destruct (handle_new_feed y true id side q p flags 0 B G Hok Hid ltac:(lia) ltac:(lia) (ho_apart _ _ _ _ Hh) HG)
    as (q' & n & B' & cbs1 & cbs2 & -> & Hq' & Hcbs2 & Hm1 & Hsy & Hts). simpl in Hcbs2.
  pose proof (holds_fresh _ _ _ _ _ Hh Hid HG) as Hfresh.
  unfold fed_by. rewrite request_msgs_two; [|done|subst cbs2; by repeat case_match].
  rewrite foldl_app, feed_says_app, Hsy. unfold added in Hts.
  assert (resting y ([Entry id q' n p side flags] ++ all_entries B) ∪ G = <[id := (y, OrderBook.mkOrder side p q')]> (mk_orders M)) as Hadd.
  { cbn [app]. rewrite resting_cons, (ho_orders _ _ _ _ Hh), insert_union_l. done. }
  subst cbs2. destruct (is_ioc flags) eqn:Hioc.
  - rewrite andb_false_r in Hts. specialize (Hts M d (ho_orders _ _ _ _ Hh) (ho_seen _ _ _ _ Hh)).
    replace ((if 0 <? q' then [onDeleteOrder id false] else []) ≫= cb_msgs) with (@nil md_msg) by (by case_match).
    simpl. tauto.
  - rewrite andb_true_r, Hsym in *. rewrite bind_singleton. cbn [cb_msgs]. rewrite Z.gtb_ltb, price_wire by done.
    destruct (0 <? q') eqn:Hpos.
    + destruct (Hts (market_step M (NewOrder id y side q' p flags)) d) as [Ht1 Ht2]; [by rewrite Hadd|by apply seen_step, Hh|].
      simpl. simpl in Ht1, Ht2. split_and!; [done|done|lia|lia|done|done|done].
    + destruct (Hts M d (ho_orders _ _ _ _ Hh) (ho_seen _ _ _ _ Hh)) as [Ht1 Ht2]. simpl. done.
Qed.

Lemma delete_feed id : let '(r, B', cbs) := spec_op (Delete true id) B in fed_by B' cbs.
Proof using Hok Hh Hsym.
  simpl. unfold spec_delete_order, fed_by. destruct (find_id id (all_entries B)) as [e|] eqn:Hf.
  - apply find_id_Some in Hf as [He Hi]. unfold request_msgs, trades_msgs. simpl. rewrite (ho_orders _ _ _ _ Hh).
    assert (id ∈ ids B) as Hin by (subst id; by apply elem_all_ids).
    split_and!; [apply holds_delete; [apply Hh|done]| |done|done].
    exists (y, ord e). rewrite <- Hi, <- (ho_orders _ _ _ _ Hh). by eapply holds_lookup.
  - unfold request_msgs, trades_msgs. simpl. by rewrite (ho_orders _ _ _ _ Hh).
Qed.

Lemma modify_in_place_feed id q e :
  e ∈ all_entries B → e_id e = id → e_filled e = 0 → 0 < q < 2 ^ 32 → is_s32 (e_price e) →
  fed_by (update_order id (set_qty q) B) [onModifyOrder id (b_symbol B) (e_side e) (q - e_filled e) (e_price e)].
Proof using Hok Hh Hsym.
  intros He Hi Hf Hq Hp. unfold fed_by, request_msgs, trades_msgs. simpl. rewrite Hf, Z.sub_0_r, price_wire by done.
  pose proof (holds_lookup y B G M e Hok Hh He) as Hl. rewrite Hi in Hl. rewrite Hl.
  split_and!; [|by eexists|lia|lia|done|done]. simpl.
  rewrite (ho_orders _ _ _ _ Hh), holds_replace; [|apply Hh|subst id; by apply elem_all_ids].
  rewrite all_entries_update, all_entries_remove. f_equal.
  apply (resting_update y id (set_qty q) (all_entries B) e); [apply (bk_ids _ Hok)|done..].
Qed.

Lemma modify_requeue_feed id side q p e :
  e ∈ all_entries B → e_id e = id → e_filled e < q < 2 ^ 32 → 0 <= e_filled e → is_ioc (e_flags e) = false → is_s32 p →
  ∃ q' B' cbs, spec_handle_new false id side q p (e_flags e) (e_filled e) (remove_order id B) = (Ret q', B', cbs) ∧
    fed_by B' (cbs ++ if q' >? 0 then [onModifyOrder id (b_symbol B') side q' p] else [onDeleteOrder id true]).
Proof using Hok Hh Hsym.
  intros He Hi Hlt Hf Hioc Hp.
  assert (id ∈ ids B) as Hin by (subst id; by apply elem_all_ids).
  assert (id ∉ ids (remove_order id B)) as Hid by (by intros [? _]%elem_of_ids_remove).
  assert (G !! id = None) as HG by (apply (proj1 (apart_ids B G) (ho_apart _ _ _ _ Hh)); done).
  assert (apart (all_entries (remove_order id B)) G) as Ha.
  { rewrite all_entries_remove. apply apart_remove, Hh. }
  destruct (handle_new_feed y false id side q p (e_flags e) (e_filled e) _ G (book_ok_remove id B Hok) Hid (proj1 Hlt) Hf Ha HG)
    as (q' & n & B' & cbs1 & cbs2 & -> & Hq' & Hcbs2 & Hm1 & Hsy & Hts). simpl in Hcbs2. subst cbs2. rewrite app_nil_r.
  exists q', B', cbs1. split; [done|]. simpl in Hsy. rewrite Hsym in Hsy. unfold added in Hts. rewrite Hioc, andb_true_r in Hts.
  pose proof (holds_lookup y B G M e Hok Hh He) as Hl. rewrite Hi in Hl.
  rewrite Z.gtb_ltb, Hsy. unfold fed_by. rewrite request_msgs_two by (try done; by case_match).
  rewrite foldl_app, feed_says_app. destruct (0 <? q') eqn:Hpos; rewrite bind_singleton; cbn [cb_msgs foldl feed_says].
  - rewrite price_wire by done.
    destruct (Hts (market_step M (ModifyOrder id side q' p)) d) as [Ht1 Ht2].
    + simpl. rewrite Hl. simpl. rewrite (ho_orders _ _ _ _ Hh), holds_replace by (try done; apply Hh). done.
    + apply seen_step, Hh.
    + split_and!; try done. simpl. split; [by eexists|lia].
  - destruct (Hts (market_step M (DeleteOrder id)) d) as [Ht1 Ht2].
    + simpl. rewrite (ho_orders _ _ _ _ Hh), holds_delete by (try done; apply Hh). done.
    + apply seen_step, Hh.
    + split_and!; try done. simpl. by eexists.
Qed.

Lemma op_feed o : op_faithful o B → (∀ i, i ∈ op_new_ids o → G !! i = None) →
  let '(r, B', cbs) := spec_op o B in fed_by B' cbs.
Proof using Hok Hh Hsym.
  destruct o as [ntf id side q p flags filled|ntf id|id side q p]; simpl.
  - intros (-> & -> & Hid & Hq & Hp) HG. apply (new_feed id); [done|apply HG; constructor|done|done].
  - intros -> _. apply delete_feed.
  - intros (Hp & Hq & Hin) _. unfold spec_modify_order. destruct (find_id id (all_entries B)) as [e|] eqn:Hfi.
    2: { unfold fed_by, request_msgs, trades_msgs. simpl. by rewrite (ho_orders _ _ _ _ Hh). }
    specialize (Hin e eq_refl). unfold is_u32 in Hq. destruct (q <=? e_filled e) eqn:Hle.
    { exact (delete_feed id). }
    apply find_id_Some in Hfi as [He Hi]. apply elem_of_all in He as He'. destruct He' as [pl He'].
    pose proof (bk_entries _ Hok _ _ He') as [_ Hfl _ Hioc]. unfold is_u32 in Hfl.
    destruct ((e_price e =? p) && (e_side e =? side)) eqn:Hsame.
    + apply andb_true_iff in Hsame as [Hpr Hsd]. apply Z.eqb_eq in Hpr, Hsd. subst p side.
      apply modify_in_place_feed; [done|done| |lia|done]. destruct (Hin eq_refl eq_refl); lia.
    + destruct (modify_requeue_feed id side q p e He Hi ltac:(lia) (proj1 Hfl) Hioc Hp) as (q' & B' & cbs & -> & Hfed).
      exact Hfed.
Qed.
End op_feed.

(** ** The publications of an operation fit the wire *)

Definition op_fit (o : op) : Prop :=
  match o with
  | New _ id side q _ flags filled => is_u64 id ∧ is_u8 side ∧ is_u32 q ∧ is_u8 flags ∧ 0 <= filled
  | Delete _ id => is_u64 id
  | Modify id side q _ => is_u64 id ∧ is_u8 side ∧ is_u32 q
  end.

Section fit.
Context (B : Book) (Hok : book_ok B) (Hu : ∀ i, i ∈ ids B → is_u64 i) (Hy : is_u32 (b_symbol B)).

Lemma onNewOrder_fit i y d q p f : is_u64 i → is_u32 y → is_u8 d → is_u32 q → is_u8 f → cb_fit (onNewOrder i y d q p f).
Proof. unfold cb_fit. simpl. intros. case_match; [|constructor]. constructor; [|constructor]. split_and!; try done; apply u32_range. Qed.

Lemma onModifyOrder_fit i y d q p : is_u64 i → is_u8 d → is_u32 q → cb_fit (onModifyOrder i y d q p).
Proof. unfold cb_fit. simpl. intros. constructor; [|constructor]. split_and!; try done; apply u32_range. Qed.

Lemma onDeleteOrder_fit i b : is_u64 i → cb_fit (onDeleteOrder i b).
Proof. intros. unfold cb_fit. destruct b; [|constructor]. by constructor; [|constructor]. Qed.

Lemma handle_new_fit ntf id side q p flags filled :
  is_u64 id → is_u8 side → is_u32 q → (ntf = true → is_u8 flags) → 0 <= filled →
  let '(r, _, cbs) := spec_handle_new ntf id side q p flags filled B in
  Forall cb_fit cbs ∧ ∀ q', r = Ret q' → is_u32 q'.
Proof using Hok Hu Hy.
  intros Hi Hs Hq Hf Hfl. unfold spec_handle_new. destruct (q <=? filled) eqn:Hle; [by split|]. unfold is_u32 in Hq.
  pose proof (fill_queue_fit (b_symbol B) id side p (book_side (opp_levels side) B) (q - filled) ltac:(unfold is_u32; lia)) as Hfit.
  destruct (fill_queue _ _ _ _ _ _) as [[l q'] cbs] eqn:Hfq.
  assert (∀ e, e ∈ book_side (opp_levels side) B → is_u64 (e_id e) ∧ 0 < e_qty e < 2 ^ 32) as Hent.
  { intros e He. split; [apply Hu; by eapply book_side_ids, list_elem_of_fmap_2|apply (ok_qty _ _ (bk_entries _ Hok _ _ He))]. }
  specialize (Hfit Hent). simpl in Hfit.
  pose proof (fill_queue_bound _ _ _ _ _ _ _ _ _ Hfq ltac:(lia) ltac:(intros e He; by apply Hent)) as Hq'.
  assert (is_u32 q') as Hu' by (unfold is_u32; lia).
  assert (Forall cb_fit (cbs ++ (if ntf && negb (is_ioc flags) then [onNewOrder id (b_symbol B) side q' p flags] else []))) as Hcbs.
  { apply Forall_app. split; [done|]. case_match eqn:Hn; [|done]. apply andb_true_iff in Hn as [Hn _]. constructor; [|done]. apply onNewOrder_fit; auto. }
  rewrite symbol_set_side. destruct ((q' >? 0) && is_ioc flags); [|destruct (q' =? 0); [|case_bool_decide]];
    (split; [|by intros ? [= <-]]); try done.
  apply Forall_app. split; [done|]. destruct ntf; [|done]. constructor; [by apply onDeleteOrder_fit|done].
Qed.
End fit.

Lemma spec_delete_fit B ntf id : is_u64 id → Forall cb_fit (spec_delete_order ntf id B).2.
Proof.
  intros Hi. unfold spec_delete_order. destruct (find_id _ _); simpl; [destruct ntf|]; (constructor; [|constructor]) || constructor.
  - by apply onDeleteOrder_fit.
  - constructor.
Qed.

Lemma spec_op_fit B o : book_ok B → (∀ i, i ∈ ids B → is_u64 i) → is_u32 (b_symbol B) → op_fit o →
  Forall cb_fit (spec_op o B).2.
Proof.
  intros Hok Hu Hy. destruct o as [ntf id side q p flags filled|ntf id|id side q p]; simpl.
  - intros (Hi & Hs & Hq & Hf & Hfl). unfold spec_new_order.
    pose proof (handle_new_fit B Hok Hu Hy ntf id side q p flags filled Hi Hs Hq (λ _, Hf) Hfl) as H.
    destruct (spec_handle_new _ _ _ _ _ _ _ _) as [[r B'] cbs]. apply H.
  - apply spec_delete_fit.
  - intros (Hi & Hs & Hq). unfold spec_modify_order. destruct (find_id id (all_entries B)) as [e|] eqn:Hfi; [|by repeat constructor].
    apply find_id_Some in Hfi as [He Hid]. apply elem_of_all in He as He'. destruct He' as [pl He'].
    pose proof (bk_entries _ Hok _ _ He') as [_ Hfl _ Hioc]. unfold is_u32 in Hfl.
    destruct (q <=? e_filled e) eqn:Hle; [by apply spec_delete_fit|].
    destruct (_ && _).
    { constructor; [|constructor]. apply onModifyOrder_fit; [done..|]. unfold is_u32 in *. lia. }
    assert (∀ i, i ∈ ids (remove_order id B) → is_u64 i) as Hu' by (intros i Hin%ids_remove_sub; by apply Hu).
    pose proof (handle_new_fit (remove_order id B) (book_ok_remove id B Hok) Hu' Hy false id side q p (e_flags e) (e_filled e)
      Hi Hs Hq ltac:(done) (proj1 Hfl)) as H.
    destruct (spec_handle_new _ _ _ _ _ _ _ _) as [[[q'|ex] B'] cbs]; destruct H as [H Hq']; [|done]. simpl.
    apply Forall_app. split; [done|]. destruct (q' >? 0); (constructor; [|constructor]).
    + apply onModifyOrder_fit; auto.
    + by apply onDeleteOrder_fit.
Qed.
