(* ===== verification/ExchangeFeed.v ===== *)
(** * The broker's feed, and the bots that read it

    The broker of [Broker] serves requests; the messages its publisher writes
    describe, at the end of every request, exactly the orders that rest on its
    ladders.  A bot's client that receives them shows the ladders' best prices. *)
From Stdlib Require Import Init.Byte.
From S2P Require Import Validator ClientHandler HandlerInv HandlerTheorems Exchange.
From S2P Require Import Prelude Protocol MdMcast MdStream SnapshotClient Clearing OrderLadder LadderSpec LadderRep LadderMatch LadderRefine LadderProps Broker BrokerRefine BrokerTheorems BotBook BotBookTheorems MdClient MdClientTheorems MarketFeed.
Import MatchingEngineBroker.

(** ** The books of all symbols *)

Definition shows (M : market) (Bs : gmap Z Book) : Prop :=
  ∀ i y o, mk_orders M !! i = Some (y, o) ↔ ∃ B e, Bs !! y = Some B ∧ e ∈ all_entries B ∧ e_id e = i ∧ o = ord e.

(** No id rests under two symbols. *)
Definition distinct_books (Bs : gmap Z Book) : Prop :=
  ∀ y z B B' i, Bs !! y = Some B → Bs !! z = Some B' → i ∈ ids B → i ∈ ids B' → y = z.

Definition elsewhere (y : Z) (M : market) : gmap Z (Z * OrderBook.Order) := filter (λ x, x.2.1 ≠ y) (mk_orders M).

Lemma elem_ids_all i B : i ∈ ids B ↔ ∃ e, e ∈ all_entries B ∧ e_id e = i.
Proof. unfold ids. rewrite list_elem_of_fmap. naive_solver. Qed.

Lemma elsewhere_Some y M i z o : elsewhere y M !! i = Some (z, o) ↔ mk_orders M !! i = Some (z, o) ∧ z ≠ y.
Proof. unfold elsewhere. by rewrite map_lookup_filter_Some. Qed.

Lemma shows_holds y B Bs M :
  shows M Bs → distinct_books Bs → Bs !! y = Some B → book_ok B → seen_symbols M → holds y B (elsewhere y M) M.
Proof.
  intros Hs Hd HB Hok Hseen.
  assert (apart (all_entries B) (elsewhere y M)) as Ha.
  { intros e He. destruct (elsewhere y M !! e_id e) as [[z o]|] eqn:Hl; [|done].
    apply elsewhere_Some in Hl as [(B' & e' & HB' & He' & Hi & _)%Hs Hne]. destruct Hne. symmetry.
    apply (Hd y z B B' (e_id e)); [done|done|by apply elem_all_ids|apply elem_ids_all; eauto]. }
  split; [|done|done]. apply map_eq. intros i.
  destruct (resting y (all_entries B) !! i) as [x|] eqn:Hr.
  - rewrite (lookup_union_Some_l _ _ _ _ Hr). apply resting_Some in Hr as (e & He & <- & ->); [|apply (bk_ids _ Hok)].
    apply Hs. eauto 10.
  - rewrite lookup_union_r by done. destruct (elsewhere y M !! i) as [[z o]|] eqn:Hl.
    + by apply elsewhere_Some in Hl as [? _].
    + destruct (mk_orders M !! i) as [[z o]|] eqn:HM; [|done]. destruct (decide (z = y)) as [->|Hne].
      * apply Hs in HM as (B' & e & HB' & He & <- & ->). simplify_eq. apply resting_None in Hr. destruct Hr. by apply elem_all_ids.
      * rewrite (proj2 (elsewhere_Some y M i z o)) in Hl; done.
Qed.

Lemma holds_shows y B' Bs M M' :
  shows M Bs → book_ok B' → apart (all_entries B') (elsewhere y M) →
  mk_orders M' = resting y (all_entries B') ∪ elsewhere y M → shows M' (<[y := B']> Bs).
Proof.
  intros Hs Hok Ha HM' i z o. rewrite HM', lookup_union_Some_raw, resting_None, resting_Some by apply (bk_ids _ Hok).
  rewrite elsewhere_Some, (Hs i z o). split.
  - intros [(e & He & <- & [= -> ->])|[_ [(B & e & HB & He) Hne]]].
    + exists B', e. by rewrite lookup_insert_eq.
    + exists B, e. by rewrite lookup_insert_ne.
  - intros (B & e & HB & He & Hi & ->). destruct (decide (z = y)) as [->|Hne].
    + rewrite lookup_insert_eq in HB. simplify_eq. left. eauto.
    + rewrite lookup_insert_ne in HB by done. right. split; [|split; [|done]]; [|eauto 10].
      intros (e' & He' & Hin)%elem_ids_all. pose proof (Ha e' He') as Hnone.
      rewrite Hin in Hnone. assert (elsewhere y M !! i = Some (z, ord e)) as Hsome; [|congruence].
      apply elsewhere_Some. split; [|done]. apply Hs. eauto 10.
Qed.

(** ** Requests *)

Definition book_after (Bs : gmap Z Book) (p : oe.oe_payload) : gmap Z Book :=
  match request_op p, Bs !! oe.symbol p with
  | Some o, Some B => <[oe.symbol p := (spec_op o B).1.2]> Bs
  | _, _ => Bs
  end.

(** The fields of a request within their types. *)
Definition request_fit (p : oe.oe_payload) : Prop :=
  is_u64 (oe.exch_order_id p) ∧ is_u8 (oe.side p) ∧ is_u8 (oe.flags p) ∧ is_u32 (oe.symbol p).

(** The side of the trade summaries, and what serving a request publishes. *)
Definition aggressor_after (d : Z) (p : oe.oe_payload) : Z := if is_new p || is_modify p then oe.side p else d.

Definition served_one (Bs : gmap Z Book) (d : Z) (p : oe.oe_payload) : list md_msg :=
  match request_op p, Bs !! oe.symbol p with
  | Some o, Some B => request_msgs (oe.symbol p) (aggressor_after d p) (spec_op o B).2
  | _, _ => []
  end.

Fixpoint served_msgs (Bs : gmap Z Book) (d : Z) (ps : list oe.oe_payload) : list md_msg :=
  match ps with [] => [] | p :: ps => served_one Bs d p ++ served_msgs (book_after Bs p) (aggressor_after d p) ps end.

#[global] Instance request_fit_dec p : Decision (request_fit p).
Proof. apply _. Defined.

(** The request is no modification in place of an order traded in part. *)
Definition keeps_fills (Bs : gmap Z Book) (p : oe.oe_payload) : Prop :=
  match request_op p with
  | Some (Modify id side q pr) => ∀ B e, Bs !! oe.symbol p = Some B → find_id id (all_entries B) = Some e →
      e_price e = pr → e_side e = side → q <= e_filled e ∨ e_filled e = 0
  | _ => True
  end.

Fixpoint requests_faithful (Bs : gmap Z Book) (ps : list oe.oe_payload) : Prop :=
  match ps with [] => True | p :: ps => request_fit p ∧ keeps_fills Bs p ∧ requests_faithful (book_after Bs p) ps end.

Lemma request_faithful seen Bs p o B :
  request_op p = Some o → request_ok seen (dom Bs) p → request_fit p → keeps_fills Bs p → Bs !! oe.symbol p = Some B →
  (∀ i, i ∈ ids B → i ∈ seen) → op_faithful o B ∧ op_fit o ∧ ∀ i, i ∈ op_new_ids o → i ∉ seen ∧ is_u64 i.
Proof.
  unfold request_ok, keeps_fills. intros Ho Hok (Hi & Hs & Hf & _) Hk HB Hseen. rewrite Ho in Hok, Hk.
  assert (∀ z, is_s32 (s32 z)) as Hs32 by (intros; apply s32_range).
  unfold request_op in Ho. destruct (oe.msg_type p =? oe.MSG_TYPE.NEW_ORDER); [|destruct (oe.msg_type p =? oe.MSG_TYPE.DELETE_ORDER);
    [|destruct (oe.msg_type p =? oe.MSG_TYPE.MODIFY_ORDER); [|done]]]; injection Ho as <-; simpl in *.
  - destruct Hok as (_ & Hq & Hid). split_and!; try done; try (unfold is_u32; lia); auto.
    intros i ->%list_elem_of_singleton. done.
  - split_and!; [done|done|]. by intros i ?%elem_of_nil.
  - destruct Hok as [_ Hq]. split_and!; try done; [|by intros i ?%elem_of_nil].
    intros e. by apply Hk.
Qed.

(** ** The invariant of the feed *)

Section feed.
Context `{BW : BrokerWorld}.

(** After the messages [ms] the market shows the books [Bs] on the ladders. *)
Record fed (seen : list Z) (Bs : gmap Z Book) (ms : list md_msg) (b : t) : Prop := {
  fd_dom : dom (symbol_to_matching_engine b) = dom Bs;
  fd_book y L B : symbol_to_matching_engine b !! y = Some L → Bs !! y = Some B → rep L B;
  fd_symbol y B : Bs !! y = Some B → b_symbol B = y ∧ is_u32 y;
  fd_ids y B i : Bs !! y = Some B → i ∈ ids B → i ∈ seen ∧ is_u64 i ∧ is_Some (exch_order_id_to_client_id b !! u32 i);
  fd_distinct : distinct_books Bs;
  fd_side : is_u8 (aggressor_side b);
  fd_stream : stream (publisher b) ms;
  fd_buffer : MarketDataPublisher.buffer (publisher b) = [];
  fd_queue : MarketDataPublisher.queued_trades (publisher b) = [];
  fd_says : feed_says no_market ms;
  fd_shows : shows (foldl market_step no_market ms) Bs;
}.

Lemma seen_no_market : seen_symbols no_market.
Proof. by intros i y o. Qed.

Lemma fed_seen seen Bs ms b : fed seen Bs ms b → seen_symbols (foldl market_step no_market ms).
Proof. intros _. apply seen_fold, seen_no_market. Qed.

Lemma feed_rest seen Bs ms b b' :
  fed seen Bs ms b → symbol_to_matching_engine b' = symbol_to_matching_engine b →
  exch_order_id_to_client_id b' = exch_order_id_to_client_id b → aggressor_side b' = aggressor_side b →
  publisher b' = publisher b → fed seen Bs ms b'.
Proof. intros [] Hl Hi Hs Hp. split; rewrite ?Hl, ?Hi, ?Hs, ?Hp; done. Qed.

(** Publications of the broker, seen by the stream. *)
Lemma run_publications os p p' ms :
  for_each os (@pub_run bw_md) p = (Ret tt, p') → Forall pub_ok os → stream p ms →
  MarketDataPublisher.buffer p = [] → MarketDataPublisher.queued_trades p = [] →
  MarketDataPublisher.buffer p' = [] ∧ stream p' (ms ++ (pubs_msgs os []).1) ∧
  MarketDataPublisher.queued_trades p' = queued_struct <$> (pubs_msgs os []).2.
Proof.
  intros Hrun Hok Hst Hb Hq. pose proof (@run_pubs bw_md os [] ms p Hok (Forall_nil_2 _) Hst Hq Hb) as H.
  rewrite Hrun in H. destruct H as [(_ & H)|[? _]]; [exact H|done].
Qed.

Lemma finishedPacket_pub symbol b :
  let '(r, b') := finishedPacket symbol b in
  (r = Ret tt ∧ @pub_run bw_md (PublishTrades symbol (aggressor_side b)) (publisher b) = (Ret tt, publisher b') ∧
   symbol_to_matching_engine b' = symbol_to_matching_engine b ∧ from_client b' = from_client b ∧
   exch_order_id_to_client_id b' = exch_order_id_to_client_id b ∧ aggressor_side b' = aggressor_side b) ∨ r = Throw send_failed.
Proof.
  unfold finishedPacket. erewrite bind_ret by reflexivity. cbn beta.
  pose proof (run_on_md (PublishTrades symbol (aggressor_side b)) b) as Hm. unfold mbind, M_bind.
  destruct (pub_run _ (publisher b)) as [r p1] eqn:Hp. destruct Hm as [Hm Hr].
  change (on_md _ b) with (on_md (@pub_run bw_md (PublishTrades symbol (aggressor_side b))) b). rewrite Hm.
  destruct Hr as [-> | ->]; [by left|by right].
Qed.

Lemma opened_aggressor p b : aggressor_side (opened p b) = aggressor_after (aggressor_side b) p.
Proof. unfold opened, aggressor_after. by destruct (is_new p), (is_modify p). Qed.

Lemma opened_side p b : is_u8 (oe.side p) → is_u8 (aggressor_side b) → is_u8 (aggressor_side (opened p b)).
Proof. intros. rewrite opened_aggressor. unfold aggressor_after. by destruct (_ || _). Qed.

(** A book's request: what its messages do to the market. *)
Lemma request_feed seen Bs ms b p d o B B' cbs :
  fed seen Bs ms b → request_op p = Some o → request_ok seen (dom Bs) p → request_fit p → keeps_fills Bs p →
  Bs !! oe.symbol p = Some B → book_ok B → spec_op o B = (Ret tt, B', cbs) →
  let y := oe.symbol p in
  let M := foldl market_step no_market ms in
  mk_orders (foldl market_step M (request_msgs y d cbs)) = resting y (all_entries B') ∪ elsewhere y M ∧
  feed_says M (request_msgs y d cbs) ∧ b_symbol B' = y ∧ Forall cb_fit cbs ∧
  ∀ i, i ∈ ids B' → i ∈ ids B ∨ (i ∈ op_new_ids o ∧ i ∉ seen ∧ is_u64 i).
Proof.
  intros F Ho Hok Hfit Hk HB HokB Hspec y M.
  pose proof (λ i Hi, proj1 (fd_ids _ _ _ _ F y B i HB Hi)) as Hseen.
  destruct (request_faithful seen Bs p o B Ho Hok Hfit Hk HB Hseen) as (Hfaith & Hopfit & Hnew).
  destruct (fd_symbol _ _ _ _ F y B HB) as [Hsym Hy32].
  assert (seen_symbols M) as HsM by (eapply fed_seen, F).
  assert (holds y B (elsewhere y M) M) as Hh by (eapply shows_holds; [apply F|apply F|done|done|done]).
  assert (∀ i, i ∈ op_new_ids o → elsewhere y M !! i = None) as Hout.
  { intros i Hi. apply Hnew in Hi as [Hi _]. destruct (elsewhere y M !! i) as [[z ov]|] eqn:Hm; [|done]. destruct Hi.
    apply elsewhere_Some in Hm as [(B0 & e & HB0 & He & <- & _)%(fd_shows _ _ _ _ F) _].
    by apply (fd_ids _ _ _ _ F z B0 _ HB0), elem_all_ids. }
  pose proof (op_feed y d B _ _ HokB Hh Hsym o Hfaith Hout) as Hfeed.
  pose proof (spec_op_fit B o HokB ltac:(intros i Hi; apply (fd_ids _ _ _ _ F y B i HB Hi)) ltac:(by rewrite Hsym) Hopfit) as Hcbfit.
  pose proof (spec_op_ids o B) as Hids. rewrite Hspec in Hfeed, Hcbfit, Hids.
  destruct Hfeed as (Hm1 & Hm2 & Hsym'), Hids as [_ Hids]. split_and!; try done.
  intros i [Hi|Hi]%Hids; [right|by left]. split; [done|by apply Hnew].
Qed.

(** The ids of the book after a request. *)
Lemma new_ids_seen p o seen i :
  request_op p = Some o → i ∈ op_new_ids o → is_new p = true ∧ i = oe.exch_order_id p ∧ i ∈ seen_after seen p.
Proof.
  unfold request_op, is_new, seen_after, is_new. intros Ho Hi. destruct (oe.msg_type p =? oe.MSG_TYPE.NEW_ORDER).
  - injection Ho as <-. apply list_elem_of_singleton in Hi as ->. split_and!; [done..|constructor].
  - repeat case_match; simplify_eq; by apply elem_of_nil in Hi.
Qed.

Lemma seen_mono p seen i : i ∈ seen → i ∈ seen_after seen p.
Proof. intros. unfold seen_after. destruct (is_new p); [by constructor|done]. Qed.

(** The broker's tables after a request. *)
Lemma fed_request seen Bs ms b p o B L' B' cbs b1 b' :
  fed seen Bs ms b → request_op p = Some o → request_ok seen (dom Bs) p → request_fit p → keeps_fills Bs p →
  Bs !! oe.symbol p = Some B → book_ok B → spec_op o B = (Ret tt, B', cbs) → rep L' B' →
  effects (opened p b) cbs b1 →
  @pub_run bw_md (PublishTrades (oe.symbol p) (aggressor_side b1)) (publisher b1) = (Ret tt, publisher b') →
  symbol_to_matching_engine b' = <[oe.symbol p := L']> (symbol_to_matching_engine b1) →
  exch_order_id_to_client_id b' = exch_order_id_to_client_id b1 → aggressor_side b' = aggressor_side b1 →
  fed (seen_after seen p) (book_after Bs p) (ms ++ request_msgs (oe.symbol p) (aggressor_side b1) cbs) b'.
Proof.
  intros F Ho Hok Hfit Hk HB HokB Hspec HR' [[_ _ Hss _ Hsl Hsi] _ Hmd _] Hpub Hl' Hi' Hs'.
  destruct (request_feed seen Bs ms b p (aggressor_side b1) o B B' cbs F Ho Hok Hfit Hk HB HokB Hspec) as (Hm1 & Hm2 & Hsym' & Hcbfit & Hids).
  destruct (opened_fields p b) as (Hol & _ & Hop & _ & _ & _ & _ & Hosome & Hosnew).
  assert (book_after Bs p = <[oe.symbol p := B']> Bs) as -> by (unfold book_after; by rewrite Ho, HB, Hspec).
  destruct (fd_symbol _ _ _ _ F _ B HB) as [Hsym Hy32]. set (y := oe.symbol p) in *.
  assert (is_u8 (aggressor_side b1)) as Hside by (rewrite Hss; apply opened_side; [apply Hfit|apply F]).
  assert (for_each ((cbs ≫= cb_pubs) ++ [PublishTrades y (aggressor_side b1)]) (@pub_run bw_md) (publisher b) = (Ret tt, publisher b')) as Hrun.
  { rewrite for_each_app, <- Hop. erewrite bind_ret by exact Hmd. cbn beta. by rewrite for_each_one. }
  destruct (run_publications _ _ _ ms Hrun) as (Hbuf & Hst & Hq); [|apply F..|].
  { apply Forall_app. split; [by apply fits_pubs|]. constructor; [|constructor]. by split. }
  rewrite pubs_msgs_request in Hst, Hq. pose proof (r_book _ _ (rep_weak _ _ HR')) as HokB'.
  assert (∀ i z B2, i ∈ ids B' → Bs !! z = Some B2 → i ∈ ids B2 → z = y) as Hapart.
  { intros i z B2 Hi HB2 Hi2. destruct (Hids i Hi) as [HiB|(_ & Hns & _)]; [by eapply (fd_distinct _ _ _ _ F)|].
    destruct Hns. by eapply (fd_ids _ _ _ _ F). }
  assert (∀ z B2, <[y := B']> Bs !! z = Some B2 → (z = y ∧ B2 = B') ∨ (z ≠ y ∧ Bs !! z = Some B2)) as Hcase.
  { intros z B2 [[<- <-]|[Hz HB2]]%lookup_insert_Some; auto. }
  split.
  - rewrite Hl', Hsl, Hol, !dom_insert_L, (fd_dom _ _ _ _ F). done.
  - intros z L2 B2 HL [[-> ->]|[Hz HB2]]%Hcase; rewrite Hl', Hsl, Hol in HL.
    + rewrite lookup_insert_eq in HL. by injection HL as <-.
    + rewrite lookup_insert_ne in HL by done. by eapply F.
  - intros z B2 [[-> ->]|[_ HB2]]%Hcase; [done|by apply F].
  - intros z B2 i HB2 Hi. rewrite Hi', Hsi.
    assert (∀ z B2, Bs !! z = Some B2 → i ∈ ids B2 → i ∈ seen_after seen p ∧ is_u64 i ∧ is_Some (exch_order_id_to_client_id (opened p b) !! u32 i)) as Hold.
    { intros z2 B3 Hz Hin. destruct (fd_ids _ _ _ _ F z2 B3 i Hz Hin) as (Hs1 & Hs2 & Hs3).
      split_and!; [by apply seen_mono|done|by apply Hosome]. }
    apply Hcase in HB2 as [[-> ->]|[_ HB2]]; [|by eapply Hold]. destruct (Hids i Hi) as [HiB|(Hn & _ & Hu)]; [by eapply Hold|].
    destruct (new_ids_seen p o seen i Ho Hn) as (Hisn & -> & Hin). split_and!; [done|done|by apply Hosnew].
  - intros z z' B2 B3 i HB2 HB3 Hi2 Hi3.
    apply Hcase in HB2 as [[-> ->]|[_ HB2]], HB3 as [[-> ->]|[_ HB3]];
      [done|symmetry; by eapply Hapart|by eapply Hapart|by eapply (fd_distinct _ _ _ _ F)].
  - by rewrite Hs'.
  - exact Hst.
  - exact Hbuf.
  - exact Hq.
  - apply feed_says_app. split; [apply F|exact Hm2].
  - rewrite foldl_app. apply (holds_shows y B' Bs (foldl market_step no_market ms)); [apply F|done| |exact Hm1].
    intros e He. destruct (elsewhere y _ !! e_id e) as [[z ov]|] eqn:Hm; [|done]. exfalso.
    apply elsewhere_Some in Hm as [(B0 & e0 & HB0 & He0 & Hi0 & _)%(fd_shows _ _ _ _ F) Hne]. apply Hne.
    apply (Hapart (e_id e) z B0); [by apply elem_all_ids|done|]. apply elem_ids_all. eauto.
Qed.

(** A reject request publishes nothing. *)
Lemma fed_quiet seen Bs ms b b' y d :
  fed seen Bs ms b → is_u32 y → is_u8 d →
  symbol_to_matching_engine b' = symbol_to_matching_engine b → exch_order_id_to_client_id b' = exch_order_id_to_client_id b →
  aggressor_side b' = aggressor_side b → @pub_run bw_md (PublishTrades y d) (publisher b) = (Ret tt, publisher b') →
  fed seen Bs ms b'.
Proof.
  intros F Hy Hd Hl Hi Hs Hpub.
  destruct (run_publications [PublishTrades y d] (publisher b) (publisher b') ms) as (Hbuf & Hst & Hq);
    [by rewrite for_each_one|by constructor; [|constructor]|apply F..|].
  rewrite app_nil_r in Hst. destruct F. split; rewrite ?Hl, ?Hi, ?Hs; done.
Qed.

Lemma fed_ladder seen Bs ms b y : fed seen Bs ms b → y ∈ dom Bs →
  ∃ L B, symbol_to_matching_engine b !! y = Some L ∧ Bs !! y = Some B ∧ rep L B.
Proof.
  intros F Hy. pose proof Hy as [B HB]%elem_of_dom. rewrite <- (fd_dom _ _ _ _ F) in Hy. apply elem_of_dom in Hy as [L HL].
  exists L, B. split_and!; [done|done|by eapply F].
Qed.

Lemma fed_handle seen Bs ms b p :
  fed seen Bs ms b → request_ok seen (dom Bs) p → request_fit p → keeps_fills Bs p →
  let '(r, b1) := handle p (set_client (oe.client_seq p) (oe.client_id p) b) in
  let '(r', b') := finishedPacket (oe.symbol p) b1 in
  (r = Ret tt ∧ (r' = Ret tt ∧ fed (seen_after seen p) (book_after Bs p) (ms ++ served_one Bs (aggressor_side b) p) b' ∧
       from_client b' = from_client b ∧ aggressor_side b' = aggressor_after (aggressor_side b) p
     ∨ r' = Throw send_failed)) ∨ r = Throw send_failed.
Proof.
  intros F Hok Hfit Hk. assert (is_u32 (oe.symbol p)) as Hy by apply Hfit. destruct (request_op p) as [o|] eqn:Ho.
  2: { pose proof Hok as Hty. unfold request_ok in Hty. rewrite Ho in Hty. rewrite (handle_reject p _ Ho Hty).
       set (b1 := set_to_client _ _). pose proof (finishedPacket_pub (oe.symbol p) b1) as Hfp.
       destruct (finishedPacket (oe.symbol p) b1) as [r' b']. left. split; [done|]. destruct Hfp as [(-> & Hpub & Hl & Hq & Hi & Hs)|]; [left|by right].
       split; [done|]. split; [|split; [by rewrite Hq|rewrite Hs; unfold aggressor_after, is_new, is_modify; by rewrite Hty]].
       unfold seen_after, is_new, book_after, served_one. rewrite Ho, app_nil_r, Hty.
       by eapply (fed_quiet seen Bs ms b b'); [exact F|exact Hy|apply F|..]. }
  assert (oe.symbol p ∈ dom Bs) as Hdom by (unfold request_ok in Hok; rewrite Ho in Hok; destruct o; tauto).
  destruct (fed_ladder _ _ _ _ _ F Hdom) as (L & B & HL & HB & HR).
  pose proof (λ i, fd_ids _ _ _ _ F _ B i HB) as Hids.
  destruct (request_ok_outcome seen (dom Bs) p o B Ho Hok ltac:(intros i Hi; by apply Hids)) as (Hop & Hret).
  rewrite (handle_request p b o Ho) by eauto.
  destruct (opened_fields p b) as (Hol & _ & _ & _ & Hofc & _ & _ & Hosome & _).
  pose proof (run_on_ladder (oe.symbol p) o L B (opened p b)) as Hrun. rewrite Hol in Hrun.
  specialize (Hrun HL HR Hop ltac:(intros i Hi; apply Hosome; by apply Hids)).
  destruct (spec_op o B) as [[r0 B'] cbs] eqn:Hspec. simpl in Hret. subst r0.
  destruct (on_ladder _ _ _) as [r b0]. destruct Hrun as [[-> (L' & b1 & HR' & He & ->)]| ->].
  2: { destruct (finishedPacket _ b0); by right. }
  pose proof (finishedPacket_pub (oe.symbol p) (set_ladder (oe.symbol p) L' b1)) as Hfp.
  destruct (finishedPacket _ _) as [r' b']. left. split; [done|].
  destruct Hfp as [(-> & Hpub & Hl & Hq & Hi & Hs)| ->]; [left|by right]. split; [done|].
  pose proof (ss_side _ _ (ef_session _ _ _ He)) as Hside. rewrite opened_aggressor in Hside. split; [|split].
  - unfold served_one. rewrite Ho, HB, Hspec, <- Hside. by eapply (fed_request seen Bs ms b p o B L' B' cbs b1 b'); [..|apply (r_book _ _ (rep_weak _ _ HR))|exact Hspec| | | | | |].
  - rewrite Hq. simpl. rewrite <- Hofc. apply (ss_requests _ _ (ef_session _ _ _ He)).
  - by rewrite Hs.
Qed.

Lemma book_after_dom Bs p : dom (book_after Bs p) = dom Bs.
Proof.
  unfold book_after. destruct (request_op p) as [o|]; [|done]. destruct (Bs !! oe.symbol p) as [B|] eqn:HB; [|done].
  rewrite dom_insert_L. apply elem_of_dom_2 in HB. set_solver.
Qed.

Lemma fed_process_requests ps : ∀ fuel seen Bs ms b,
  from_client b = ps → (length ps < fuel)%nat → fed seen Bs ms b → requests_ok seen (dom Bs) ps →
  requests_faithful Bs ps →
  let '(r, b') := process_requests fuel b in
  (r = Ret tt ∧ from_client b' = [] ∧
   fed (foldl seen_after seen ps) (foldl book_after Bs ps) (ms ++ served_msgs Bs (aggressor_side b) ps) b')
  ∨ r = Throw send_failed.
Proof.
  induction ps as [|p ps IH]; intros [|fuel] seen Bs ms b Hq Hfuel F Hok Hfa; simpl in Hfuel; try lia;
    cbn [process_requests]; (erewrite bind_ret by reflexivity); cbn beta; rewrite Hq.
  { left. simpl. by rewrite app_nil_r. }
  destruct Hok as [Hp Hok], Hfa as (Hfit & Hk & Hfa).
  erewrite bind_ret by reflexivity. cbn beta.
  pose proof (fed_handle seen Bs ms b p F Hp Hfit Hk) as Hh. unfold mbind at 1, M_bind at 1.
  destruct (handle p _) as [r b1]. unfold mbind at 1, M_bind at 1.
  destruct (finishedPacket (oe.symbol p) b1) as [r2 b2]. destruct Hh as [(-> & [(-> & F2 & Hq2 & Hs2)| ->])| ->]; [|auto..].
  erewrite bind_ret by reflexivity. cbn beta. erewrite bind_ret by reflexivity. cbn beta.
  specialize (IH fuel (seen_after seen p) (book_after Bs p) (ms ++ served_one Bs (aggressor_side b) p)
    (set_from_client (list.tail (from_client b2)) b2)).
  destruct (process_requests fuel _) as [r b']. destruct IH as [(-> & Hq' & F')| ->]; [..|by right].
  - simpl. by rewrite Hq2, Hq.
  - lia.
  - by eapply feed_rest.
  - by rewrite book_after_dom.
  - done.
  - left. split; [done|]. split; [done|]. simpl. simpl in F'. by rewrite app_assoc, <- Hs2.
Qed.

(** The heartbeat is all that can come first. *)
Definition heartbeat_due (b : t) : bool := u64 (clock_nanotime (bw_clock (readings b)) - last_published_ts b) >? HEARTBEAT_INTERVAL.
Definition process_msgs (Bs : gmap Z Book) (b : t) : list md_msg :=
  (if heartbeat_due b then [Heartbeat] else []) ++ served_msgs Bs (aggressor_side b) (from_client b).

Lemma fed_heartbeat (late : bool) seen Bs ms b :
  fed seen Bs ms b →
  let '(r, b') := when late (on_md (@pub_run bw_md PublishHeartbeat);; touch) b in
  (r = Ret tt ∧ from_client b' = from_client b ∧ aggressor_side b' = aggressor_side b ∧
   fed seen Bs (ms ++ if late then [Heartbeat] else []) b') ∨ r = Throw send_failed.
Proof.
  intros F. destruct late; cbn [when].
  2: { left. by rewrite app_nil_r. }
  pose proof (run_on_md PublishHeartbeat b) as Hm. unfold mbind, M_bind.
  destruct (pub_run PublishHeartbeat (publisher b)) as [r p1] eqn:Hp. destruct Hm as [-> [-> | ->]]; [|by right].
  destruct (run_publications [PublishHeartbeat] (publisher b) p1 ms) as (Hbuf & Hst & Hq);
    [by rewrite for_each_one|by constructor; [|constructor]|apply F..|].
  left. split; [done|]. split; [done|]. split; [done|]. destruct F. split; simpl; try done.
  - rewrite feed_says_app. by split.
  - by rewrite foldl_app.
Qed.

Lemma fed_process seen Bs ms b :
  fed seen Bs ms b → requests_ok seen (dom Bs) (from_client b) → requests_faithful Bs (from_client b) →
  let '(r, b') := process b in
  (r = Ret tt ∧ from_client b' = [] ∧
   fed (foldl seen_after seen (from_client b)) (foldl book_after Bs (from_client b)) (ms ++ process_msgs Bs b) b') ∨ r = Throw send_failed.
Proof.
  intros F Hok Hfa. unfold process. unfold nanotime at 1. erewrite bind_ret by reflexivity. cbn beta.
  erewrite bind_ret by reflexivity. cbn beta.
  set (b0 := count_reading b). set (late := _ >? HEARTBEAT_INTERVAL). change late with (heartbeat_due b). clear late.
  set (late := heartbeat_due b). assert (fed seen Bs ms b0) as F0 by (by eapply feed_rest).
  pose proof (fed_heartbeat late seen Bs ms b0 F0) as Hh.
  unfold mbind at 1, M_bind at 1. change (on_md MarketDataPublisher.publish_hearbeat) with (on_md (@pub_run bw_md PublishHeartbeat)).
  destruct (when late _ b0) as [r b1]. destruct Hh as [(-> & Hq & Hs & F1)| ->]; [|auto].
  erewrite bind_ret by reflexivity. cbn beta. change (from_client b0) with (from_client b) in Hq.
  pose proof (fed_process_requests (from_client b1) (S (length (from_client b1))) seen Bs _ b1 eq_refl ltac:(lia) F1) as H.
  rewrite Hq in *. specialize (H Hok Hfa). destruct (process_requests _ b1) as [r b'].
  destruct H as [(-> & Hq' & F2)|]; [left|by right]. split; [done|]. split; [done|].
  unfold process_msgs. rewrite app_assoc. by rewrite Hs in F2.
Qed.
End feed.

(** ** The run of the exchange *)

Definition books_of (symbols : list symbol_definition) : gmap Z Book :=
  foldl (λ Bs d, <[sym_symbol d := empty_book (sym_symbol d)]> Bs) ∅ symbols.

Lemma books_of_dom symbols : dom (books_of symbols) = list_to_set (sym_symbol <$> symbols).
Proof.
  unfold books_of. assert (∀ Bs, dom (foldl (λ Bs d, <[sym_symbol d := empty_book (sym_symbol d)]> Bs) Bs symbols) =
    dom (Bs : gmap Z Book) ∪ list_to_set (sym_symbol <$> symbols)) as H; [|rewrite H; set_solver].
  induction symbols as [|d l IH]; intros Bs; cbn [foldl]; [set_solver|]. rewrite IH. set_solver.
Qed.

Lemma requests_faithful_app Bs ps qs :
  requests_faithful Bs (ps ++ qs) ↔ requests_faithful Bs ps ∧ requests_faithful (foldl book_after Bs ps) qs.
Proof. revert Bs. induction ps as [|p ps IH]; intros Bs; simpl; [tauto|]. rewrite IH. tauto. Qed.

Lemma books_after_dom Bs ps : dom (foldl book_after Bs ps) = dom Bs.
Proof. revert Bs. induction ps as [|p ps IH]; intros Bs; cbn [foldl]; [done|]. by rewrite IH, book_after_dom. Qed.

Section run.
Context `{HW : HandlerWorld} `{HC : HandlerConfig} `{BW : BrokerWorld}.

Lemma fed_start symbols : Forall (λ d, is_u32 (sym_symbol d)) symbols →
  fed [] (books_of symbols) [] (ex_engine (start symbols)).
Proof.
  unfold start, books_of. simpl. assert (fed [] ∅ [] MatchingEngineBroker.initial) as F0.
  { split; try done; try (intros *; by rewrite lookup_empty); [apply stream_initial|].
    intros i y o. split; [done|]. intros (B & e & HB & _). by rewrite lookup_empty in HB. }
  revert F0. generalize (∅ : gmap Z Book) as Bs, MatchingEngineBroker.initial as b.
  induction symbols as [|d l IH]; intros Bs b F Hy; cbn [foldl for_each]; [done|]. apply Forall_cons in Hy as [Hd Hy].
  erewrite bind_ret by reflexivity. cbn beta. apply IH; [|done]. clear IH.
  set (y := sym_symbol d) in *. destruct F as [Fd Fb Fs Fi Fx Fa Fst Fbu Fq Fsa Fsh]. split; simpl; try done.
  - by rewrite !dom_insert_L, Fd.
  - intros z L B [[<- <-]|[Hne HL]]%lookup_insert_Some; [rewrite lookup_insert_eq|rewrite lookup_insert_ne by done; by apply Fb].
    intros [= <-]. apply rep_empty.
  - intros z B [[<- <-]|[_ HB]]%lookup_insert_Some; [done|by apply Fs].
  - intros z B i [[<- <-]|[_ HB]]%lookup_insert_Some; [by intros ?%elem_of_nil|by eapply Fi].
  - intros z z' B B' i [[<- <-]|[_ HB]]%lookup_insert_Some [[<- <-]|[_ HB']]%lookup_insert_Some; try done;
      [by intros ?%elem_of_nil|by intros _ ?%elem_of_nil|by eapply Fx].
  - intros i z o. split; [done|]. intros (B & e & HB & He & _). exfalso.
    apply lookup_insert_Some in HB as [[<- <-]|[_ HB]]; [by apply elem_of_nil in He|].
    assert (mk_orders no_market !! e_id e = Some (z, ord e)) as Hm by (apply Fsh; eauto 10). done.
Qed.

Lemma history_fed symbols ps rs s :
  symbols_ok hc_symbols → dom hc_symbols = list_to_set (sym_symbol <$> symbols) → Forall (λ d, is_u32 (sym_symbol d)) symbols →
  history symbols ps rs s → requests_ok [] (dom hc_symbols) ps → requests_faithful (books_of symbols) ps →
  ∃ ms, fed (foldl seen_after [] ps) (foldl book_after (books_of symbols) ps) ms (ex_engine s).
Proof.
  intros Hs Hd Hy Hist.
  induction Hist as [|ps rs e h h' b _ IH He Hrun|ps rs h b _ IH|ps rs h b b' Hist IH Hrun|ps rs h b _ IH]; intros Hok Hfa; simpl in *.
  - exists []. by apply fed_start.
  - by apply IH.
  - destruct (IH Hok Hfa) as [ms F]. exists ms. by eapply feed_rest.
  - rewrite !foldl_app. apply requests_ok_app in Hok as [Hok1 Hok2]. apply requests_faithful_app in Hfa as [Hf1 Hf2].
    destruct (IH Hok1 Hf1) as [ms F]. pose proof (fed_process _ _ _ b F) as H.
    rewrite books_after_dom, books_of_dom, <- Hd in H. specialize (H Hok2 Hf2). rewrite Hrun in H.
    destruct H as [(_ & _ & F')|[=]]. by eexists.
  - destruct (IH Hok Hfa) as [ms F]. exists ms. by eapply feed_rest.
Qed.
End run.

(** ** Properties *)

(** C8 ([feed_mirrors_ladders]): in every run of the exchange, whatever clients send
    and however its two threads alternate: every ladder represents the book that
    price-time priority gives the requests served so far, and the messages the
    publisher has written, read from an empty market, are consistent (new ids
    are new, changes are of open orders, trades within them) and leave open
    exactly the orders that rest on the ladders, with their symbol, side, price
    and remaining quantity — provided the requests' fields are within their
    types and none modifies in place (same side and price, another quantity) an
    order traded in part, and unless two orders were given one id. *)
Theorem feed_mirrors_ladders (HW : HandlerWorld) (HC : HandlerConfig) (BW : BrokerWorld) symbols ps rs s :
  symbols_ok hc_symbols → dom hc_symbols = list_to_set (sym_symbol <$> symbols) → Forall (λ d, is_u32 (sym_symbol d)) symbols →
  history symbols ps rs s → requests_faithful (books_of symbols) ps →
  let b := ex_engine s in
  let Bs := foldl book_after (books_of symbols) ps in
  id_tie (ex_handler s) ps ∨
  dom (symbol_to_matching_engine b) = dom Bs ∧
  (∀ y L B, symbol_to_matching_engine b !! y = Some L → Bs !! y = Some B → rep L B) ∧
  ∃ ms, stream (publisher b) ms ∧ feed_says no_market ms ∧ shows (foldl market_step no_market ms) Bs.
Proof.
  intros Hs Hd Hy Hist Hfa b Bs. destruct (history_served symbols ps rs s Hs Hd Hist) as [Hok|?]; [right|by left].
  destruct (history_fed symbols ps rs s Hs Hd Hy Hist Hok Hfa) as [ms F].
  split; [apply F|]. split; [apply F|]. exists ms. split; [apply F|]. split; apply F.
Qed.

Section witness.
#[local] Existing Instance calm_handler_world.
#[local] Existing Instance demo_config.
#[local] Existing Instance calm_broker_world.

(** Bob offers 100 at 50 and at 60, Alice takes 130 of them, and bids 20 at 40,
    then 25 at 30. *)
Definition feed_orders : list event :=
  [HandlerTheorems.NewOrder 6 (demo_new_order 20 4 78 1 md.SIDE.SELL 100 50);
   HandlerTheorems.NewOrder 6 (demo_new_order 20 4 79 1 md.SIDE.SELL 100 60);
   HandlerTheorems.NewOrder 5 (demo_new_order 10 0 77 1 md.SIDE.BUY 130 60);
   HandlerTheorems.NewOrder 5 (demo_new_order 10 0 80 1 md.SIDE.BUY 20 40);
   HandlerTheorems.ModifyOrder 5 (oe.Build_modify_order (oe.Build_oe_request_header 37 oe.MSG_TYPE.MODIFY_ORDER 1 3 10 0) 80 md.SIDE.BUY 25 30)].

Definition feed_requests : list oe.oe_payload := ClientHandler.to_matching_engine (trading_handler feed_orders).
Definition feed_exchange : exchange := traded feed_orders.

Lemma feed_history : history exchange_symbols feed_requests [] feed_exchange.
Proof. apply traded_history; [by_decide|vm_compute; reflexivity..]. Qed.

Lemma feed_requests_are : feed_requests =
  [oe.mk_oe_payload oe.MSG_TYPE.NEW_ORDER 8 1 2 20 SELL 100 50 0; oe.mk_oe_payload oe.MSG_TYPE.NEW_ORDER 9 1 2 20 SELL 100 60 0;
   oe.mk_oe_payload oe.MSG_TYPE.NEW_ORDER 10 1 2 10 BUY 130 60 0; oe.mk_oe_payload oe.MSG_TYPE.NEW_ORDER 11 1 2 10 BUY 20 40 0;
   oe.mk_oe_payload oe.MSG_TYPE.MODIFY_ORDER 11 1 3 10 BUY 25 30 0].
Proof. vm_compute. reflexivity. Qed.

Lemma feed_requests_faithful : requests_faithful (books_of exchange_symbols) feed_requests.
Proof.
  rewrite feed_requests_are. do 4 (split; [by_decide|split; [exact I|]]). split; [by_decide|]. split; [|exact I].
  intros B e HB He _ _. vm_compute in HB. injection HB as <-. vm_compute in He. injection He as <-. by right.
Qed.

Lemma feed_no_tie : ¬ id_tie (ex_handler feed_exchange) feed_requests.
Proof.
  intros (x & _ & Ht). revert Ht. apply calm_no_tie. apply Nat.leb_le. vm_compute. reflexivity.
Qed.

Lemma feed_ladder : is_Some (symbol_to_matching_engine (ex_engine feed_exchange) !! 1).
Proof. by_decide. Qed.
Lemma feed_book : ∃ B, foldl book_after (books_of exchange_symbols) feed_requests !! 1 = Some B ∧ e_id <$> all_entries B = [11; 9].
Proof. eexists. split; vm_compute; reflexivity. Qed.

Lemma feed_mirrors_ladders_witness :
  ∃ L B ms, symbol_to_matching_engine (ex_engine feed_exchange) !! 1 = Some L ∧ rep L B ∧
    e_id <$> all_entries B = [11; 9] ∧ stream (publisher (ex_engine feed_exchange)) ms ∧
    shows (foldl market_step no_market ms) (foldl book_after (books_of exchange_symbols) feed_requests).
Proof.
  destruct (feed_mirrors_ladders calm_handler_world demo_config calm_broker_world exchange_symbols feed_requests [] feed_exchange)
    as [Ht|(Hd & Hr & ms & Hst & _ & Hsh)];
    [apply exchange_symbols_ok|vm_compute; reflexivity|by_decide|apply feed_history|apply feed_requests_faithful|by apply feed_no_tie in Ht|].
  destruct feed_ladder as [L HL], feed_book as (B & HB & Hids).
  exists L, B, ms. split; [exact HL|]. split; [by apply (Hr 1)|]. split; [exact Hids|]. by split.
Defined.
End witness.
