(* ===== verification/Settlement.v ===== *)
(** * What is matched is settled

    From the order a client enters to the clearing house: the trades a run of the
    exchange makes are those the specification of the books matches; each is
    reported to the owner of the resting order and to the sender of the request,
    published to clearing, and counted there for the same two. *)
From Stdlib Require Import Init.Byte.
From stdpp Require Import relations.
From S2P Require Import Prelude Protocol MdMcast MdStream SnapshotClient Clearing ClearingTheorems OrderLadder LadderSpec LadderRep LadderMatch LadderRefine LadderProps Broker BrokerRefine BrokerTheorems Validator ClientHandler HandlerInv HandlerTheorems Exchange MarketFeed ExchangeFeed.
#[local] Open Scope Z_scope.

(** ** The trades of an operation *)

Section trades.
Context (owner : Z → Z) (client : Z).



End trades.

(** The fill a response reports; its price travels as a [uint32_t]. *)
Definition response_fill (r : oe.oe_payload) : list fill_info :=
  if oe.msg_type r =? oe.MSG_TYPE.FILL then
    [Fill (oe.client_id r) (oe.symbol r) (oe.quantity r) (s32 (oe.price r)) (oe.side r)]
  else [].





(** ** Orders that settle *)












(** ** The fills of an operation are those of its trades *)

Section fills.
Context (b : MatchingEngineBroker.t) (owner : Z → Z).
Import MatchingEngineBroker.





End fills.




(** ** A request, the orders' owners and the books *)






(** A client and a side as the clearing feed has them. *)
Definition request_fair (p : oe.oe_payload) : Prop := is_u32 (oe.client_id p) ∧ (is_new p || is_modify p = true → side_valid (oe.side p)).
#[global] Instance request_fair_dec p : Decision (request_fair p).
Proof. unfold request_fair, side_valid. apply _. Defined.






(** ** The broker keeps the account *)

Section account.
Context `{BW : BrokerWorld}.
Import MatchingEngineBroker.


















End account.

(** ** The run of the exchange *)

Section run.
Context `{HW : HandlerWorld} `{HC : HandlerConfig} `{BW : BrokerWorld}.


End run.

(** ** Properties *)

(** The fills the clients have been or will be told. *)
Definition reported (rs : list oe.oe_payload) (s : exchange) : list fill_info :=
  (rs ++ MatchingEngineBroker.to_client (ex_engine s)) ≫= response_fill.


Section witness.
#[local] Existing Instance calm_handler_world.
#[local] Existing Instance demo_config.
#[local] Existing Instance calm_broker_world.




(** The side byte is checked nowhere: an order of side 7 sells, but clearing drops
    its fills, and the positions of the two clients do not sum to zero. *)
Definition sideless_orders : list event :=
  [NewOrder 5 (demo_new_order 10 0 77 1 md.SIDE.BUY 100 50); NewOrder 6 (demo_new_order 20 4 78 1 7 100 50)].

Theorem clearing_drops_sideless_fills :
  ∃ ps, history exchange_symbols ps [] (traded sideless_orders) ∧
  reported [] (traded sideless_orders) = [Fill 10 1 100 50 BUY; Fill 20 1 100 50 7] ∧
  let c := (for_each (ClearingPublisher.packets (MatchingEngineBroker.clearing_publisher (ex_engine (traded sideless_orders))))
      (λ pkt, ClearingClient.process (RecvPacket pkt)) ClearingClient.initial).2 in
  get2 (ClearingClient.get_positions c) 10 1 = 100 ∧ get2 (ClearingClient.get_positions c) 20 1 = 0.
Proof.
  eexists. split; [apply traded_history; [by_decide|vm_compute; reflexivity..]|]. split; [vm_compute; reflexivity|]. split; vm_compute; reflexivity.
Qed.
End witness.
