(* ===== verification/BotFeed.v ===== *)
(** * What a bot shows is what rests on the ladder

    The matching engine's broker, its market data packets and a bot's client,
    end to end: a client that has received the broker's packets shows, for every
    symbol, the best price of the ladder and the quantity resting there. *)
From Stdlib Require Import Init.Byte.
From S2P Require Import Validator ClientHandler HandlerInv HandlerTheorems Exchange.
From S2P Require Import Prelude Protocol MdMcast MdStream SnapshotClient Clearing OrderLadder LadderSpec LadderRep Broker BrokerRefine BotBook BotBookTheorems MdClient MdClientTheorems MarketFeed ExchangeFeed.

(** ** The best level of a book *)

Definition top (buy : bool) (B : Book) : OrderBook.PriceLevel :=
  let l := book_side (side_of buy) B in
  match l with
  | [] => OrderBook.mkLevel 0 0
  | e :: _ => OrderBook.mkLevel (e_price e) (total (at_price (e_price e) l))
  end.

Definition entries_map (l : list entry) : gmap Z OrderBook.Order := list_to_map ((λ e, (e_id e, ord e)) <$> l).

Lemma entries_map_fst l : ((λ e, (e_id e, ord e)) <$> l).*1 = e_id <$> l.
Proof. rewrite <- list_fmap_compose. done. Qed.

Lemma entries_map_Some l i o : NoDup (e_id <$> l) → entries_map l !! i = Some o ↔ ∃ e, e ∈ l ∧ e_id e = i ∧ o = ord e.
Proof.
  intros Hn. unfold entries_map. rewrite <- elem_of_list_to_map by by rewrite entries_map_fst.
  rewrite list_elem_of_fmap. split; [intros (e & [= -> ->] & He)|intros (e & He & <- & ->)]; eauto.
Qed.

(** The market's book of a symbol is the ladder's. *)
Lemma shown_book M Bs y B :
  shows M Bs → Bs !! y = Some B → book_ok B → book_of y (mk_orders M) = entries_map (all_entries B).
Proof.
  intros Hs HB Hok. apply map_eq. intros i. apply option_eq. intros o. rewrite entries_map_Some by apply (bk_ids _ Hok).
  rewrite lookup_book_of. split.
  - destruct (mk_orders M !! i) as [[z o']|] eqn:Hm; [|done]. simpl. case_bool_decide; [|done]. intros [= ->]. subst z.
    apply Hs in Hm as (B' & e & HB' & He & Hi & ->). simplify_eq. eauto.
  - intros (e & He & <- & ->). rewrite (proj2 (Hs (e_id e) y (ord e))) by eauto 10. simpl. by rewrite bool_decide_true.
Qed.

Lemma is_buy_side buy side : OrderBook.is_buy side = buy ↔ own_levels side = side_of buy.
Proof. unfold OrderBook.is_buy, own_levels. change BUY with md.SIDE.BUY. by destruct (side =? md.SIDE.BUY), buy. Qed.

Lemma total_entries buy p l : NoDup (e_id <$> l) →
  total_at buy p (entries_map l) = total (filter (λ e, own_levels (e_side e) = side_of buy ∧ e_price e = p) l).
Proof.
  induction l as [|e l IH]; [done|]. intros [He Hn]%NoDup_cons.
  change (entries_map (e :: l)) with (<[e_id e := ord e]> (entries_map l)).
  rewrite total_insert, IH, filter_cons; [|done|].
  2: { unfold entries_map. apply not_elem_of_list_to_map_1. by rewrite entries_map_fst. }
  unfold here. cbn [OrderBook.side OrderBook.price OrderBook.quantity ord].
  destruct (decide _) as [[Hs Hp]|Hno].
  - apply is_buy_side in Hs. rewrite Hs, eqb_reflx, Hp, Z.eqb_refl. done.
  - destruct (Bool.eqb _ _ && _) eqn:Hb; [|done]. destruct Hno. apply andb_true_iff in Hb as [H1%eqb_prop H2%Z.eqb_eq].
    split; [by apply is_buy_side|done].
Qed.

Lemma filter_in_ext {A} (P Q : A → Prop) `{∀ x, Decision (P x), ∀ x, Decision (Q x)} (l : list A) :
  (∀ x, x ∈ l → P x ↔ Q x) → filter P l = filter Q l.
Proof.
  induction l as [|x l IH]; intros H'; [done|]. rewrite !filter_cons, IH by (intros; apply H'; by constructor).
  assert (P x ↔ Q x) as Hx by (apply H'; constructor). destruct (decide (P x)), (decide (Q x)); tauto.
Qed.

Lemma total_side buy p B : book_ok B →
  total (filter (λ e, own_levels (e_side e) = side_of buy ∧ e_price e = p) (all_entries B)) =
  total (at_price p (book_side (side_of buy) B)).
Proof.
  intros Hok. erewrite total_perm by (apply filter_Permutation, (all_entries_side (side_of buy))).
  rewrite filter_app, total_app. pose proof (bk_entries B Hok) as He.
  rewrite (filter_in_ext _ (λ e, e_price e = p) (book_side (side_of buy) B)).
  2: { intros e Hin. pose proof (ok_side _ _ (He _ _ Hin)). tauto. }
  rewrite (filter_false _ (book_side (other (side_of buy)) B)).
  2: { intros e Hin [Hs _]. rewrite (ok_side _ _ (He _ _ Hin)) in Hs. by destruct buy. }
  simpl. unfold at_price. lia.
Qed.

(** The best of the market's orders is the head of the ladder's side. *)
Lemma has_best_top buy B pl : book_ok B → has_best buy (entries_map (all_entries B)) pl → pl = top buy B.
Proof.
  intros Hok Hb. pose proof (bk_ids _ Hok) as Hn. pose proof (bk_sorted _ Hok (side_of buy)) as Hsort.
  pose proof (bk_entries _ Hok (side_of buy)) as Hent.
  assert (∀ e, e ∈ book_side (side_of buy) B → entries_map (all_entries B) !! e_id e = Some (ord e) ∧ OrderBook.is_buy (e_side e) = buy) as Hin.
  { intros e He. split; [|apply is_buy_side; by apply Hent]. apply entries_map_Some; [done|]. exists e.
    split; [apply elem_of_all; eauto|done]. }
  unfold top. destruct Hb as [[-> Hnone]|(Hq & Hpos & Hbest)].
  - destruct (book_side (side_of buy) B) as [|e l] eqn:Hl; [done|]. destruct (Hin e) as [He Hs]; [constructor|].
    by apply Hnone in He.
  - rewrite total_entries, total_side in Hq by done. set (p := OrderBook.level_price pl) in *.
    assert (∃ e, e ∈ book_side (side_of buy) B ∧ e_price e = p) as (e1 & He1 & Hp1).
    { destruct (at_price p (book_side (side_of buy) B)) as [|e l] eqn:Hat; [simpl in Hq; lia|].
      exists e. apply and_comm, elem_of_at_price. rewrite Hat. constructor. }
    destruct (book_side (side_of buy) B) as [|e0 l] eqn:Hl; [by apply elem_of_nil in He1|].
    assert (e_price e0 = p) as Hp0.
    { apply (better_antisym (side_of buy)).
      - destruct (Hin e0) as [H0 Hs0]; [constructor|]. by apply (Hbest _ _ H0).
      - rewrite <- Hp1. apply elem_of_cons in He1 as [->|He1]; [destruct buy; simpl; lia|].
        inversion Hsort as [|? ? _ Hf]; subst. rewrite Forall_forall in Hf. by apply Hf. }
    rewrite Hp0, <- Hq. by destruct pl.
Qed.

(** ** The feed, as the client needs it *)

Lemma seqs_numbered fs : ∀ n, (λ f : Z * Z * md_msg, f.1.1) <$> fs = u32 <$> seqZ n (Z.of_nat (length fs)) →
  0 <= n → n + Z.of_nat (length fs) <= 2 ^ 32 → numbered_from n fs.
Proof.
  induction fs as [|[[q ts] m] fs IH]; intros n Hs Hn Hlen; [done|]. cbn [length] in *.
  rewrite seqZ_cons in Hs by lia. rewrite !fmap_cons in Hs. injection Hs as -> Hs. split.
  - apply u32_id. unfold is_u32. lia.
  - apply IH; [|lia|lia]. rewrite Hs. do 2 f_equal; lia.
Qed.

Lemma seqs_drop (fs gs : list (Z * Z * md_msg)) : ∀ n,
  (λ f, f.1.1) <$> (fs ++ gs) = u32 <$> seqZ n (Z.of_nat (length (fs ++ gs))) →
  (λ f, f.1.1) <$> gs = u32 <$> seqZ (n + Z.of_nat (length fs)) (Z.of_nat (length gs)).
Proof.
  intros n. rewrite fmap_app, length_app, Nat2Z.inj_add, seqZ_app, fmap_app by lia.
  intros [_ H]%app_inj_1; [done|]. rewrite !length_fmap, length_seqZ. lia.
Qed.

(** The packets a client still has to receive. *)
Lemma streamed_rest p ms sent fss :
  streamed p ms (sent ++ fss) [] → Z.of_nat (length ms) <= 2 ^ 32 →
  ms = (concat sent).*2 ++ (concat fss).*2 ∧ Forall mtu fss ∧ Forall numbered_ok (concat fss) ∧
  numbered_from (Z.of_nat (length (concat sent))) (concat fss).
Proof.
  intros [_ _ Hms Hseq Hok Hsz _ _] Hlen. rewrite app_nil_r, concat_app in *.
  apply Forall_app in Hok as [_ Hok]. apply Forall_app in Hsz as [_ Hsz].
  assert (length ms = length (concat sent ++ concat fss)) as Hl by (rewrite <- Hms; by rewrite length_fmap).
  split; [by rewrite <- Hms, fmap_app|]. split; [eapply Forall_impl; [exact Hsz|]; by intros g [_ ?]|]. split; [done|].
  rewrite Hl in Hseq. apply seqs_drop in Hseq. rewrite Hl, length_app in Hlen. apply seqs_numbered; [exact Hseq|lia|lia].
Qed.

(** The broker's feed at the end of a turn: nothing is left in its buffer. *)
Lemma fed_packets (BW : BrokerWorld) seen Bs ms b : fed seen Bs ms b →
  ∃ frames, MarketDataPublisher.packets (MatchingEngineBroker.publisher b) = enc_frames <$> frames ∧
    streamed (MatchingEngineBroker.publisher b) ms frames [].
Proof.
  intros F. destruct (fd_stream _ _ _ _ F) as (frames & pending & Hst). exists frames. split; [apply Hst|].
  replace (@nil numbered) with pending; [done|]. apply enc_frames_nil.
  - pose proof (st_ok _ _ _ _ Hst) as Hok. by apply Forall_app in Hok as [_ ?].
  - rewrite <- (st_buffer _ _ _ _ Hst). apply F.
Qed.

(** The orders a client shows for a symbol. *)
Definition shown_orders (y : Z) (c : MDClient.t) : gmap Z OrderBook.Order :=
  match MDClient.symbol_to_order_book c !! y with Some b => OrderBook.orders b | None => ∅ end.

Section shown.
Context (M : market) (Bs : gmap Z Book) (y : Z) (B : Book) (c : MDClient.t).
Context (Hs : shows M Bs) (HB : Bs !! y = Some B) (Hok : book_ok B) (K : keeps_orders M c).

Lemma shown_none : MDClient.symbol_to_order_book c !! y = None → all_entries B = [].
Proof using All.
  intros Hob. destruct (all_entries B) as [|e l] eqn:Hl; [done|].
  assert (mk_orders M !! e_id e = Some (y, ord e)) as He by (apply Hs; exists B, e; rewrite Hl; split_and!; [done|constructor|done|done]).
  apply (km_seen _ _ _ K) in He. rewrite <- (km_dom _ _ _ K), elem_of_dom, Hob in He. by destruct He.
Qed.

Lemma shown_entries : shown_orders y c = entries_map (all_entries B).
Proof using All.
  unfold shown_orders. destruct (MDClient.symbol_to_order_book c !! y) as [b|] eqn:Hob.
  - rewrite (mr_orders _ _ _ (km_books _ _ _ K y b Hob)). by apply (shown_book M Bs).
  - by rewrite shown_none.
Qed.

Lemma shown_best : keeps_levels M c → MDClient.get_best_bid y c = top true B ∧ MDClient.get_best_ask y c = top false B.
Proof using All.
  intros Hl. pose proof (shown_book M Bs y B Hs HB Hok) as Hb. unfold MDClient.get_best_bid, MDClient.get_best_ask.
  destruct (MDClient.symbol_to_order_book c !! y) as [b|] eqn:Hob.
  - specialize (Hl y b Hob). rewrite Hb in Hl. split; (apply has_best_top; [done|]); by apply aggregates_best.
  - pose proof (shown_none Hob) as Hnil. unfold top, all_entries in *. apply app_nil in Hnil as [Hbid Hask]. simpl. by rewrite Hbid, Hask.
Qed.
End shown.

(** ** Properties *)

(** C7 ([bots_show_ladders]): in every run of the exchange (whose requests meet the
    conditions of [feed_mirrors_ladders], and unless two orders were given one
    id) the packets its publisher has sent are packets of whole messages, and a
    bot's client that is in step with the first of them and then receives the
    others, one for each call, holds for every listed symbol exactly the orders
    that rest on its ladder.  The feed is to be of at most 2^32 messages, its
    sequence numbers being of 32 bits.  If, moreover, an order's memory reads
    the same after a full trade has freed it (the client's book reads it then)
    and the total of no price exceeds 32 bits, then the client shows the best
    bid and ask price of the ladder with the total quantity resting there. *)
Theorem bots_show_ladders (HW : HandlerWorld) (HC : HandlerConfig) (BW : BrokerWorld) symbols ps rs s :
  symbols_ok hc_symbols → dom hc_symbols = list_to_set (sym_symbol <$> symbols) → Forall (λ d, is_u32 (sym_symbol d)) symbols →
  history symbols ps rs s → requests_faithful (books_of symbols) ps →
  id_tie (ex_handler s) ps ∨
  ∃ frames, MarketDataPublisher.packets (MatchingEngineBroker.publisher (ex_engine s)) = enc_frames <$> frames ∧
  Forall numbered_ok (concat frames) ∧
  ∀ (FW : FeedWorld) sent fss c,
    frames = sent ++ fss → Z.of_nat (length (concat frames)) <= 2 ^ 32 →
    keeps_orders (foldl market_step no_market ((concat sent).*2)) c →
    MDClient.last_md_seq_num c + 1 = Z.of_nat (length (concat sent)) → length (MDClient.buf c) = MDClient.BUF_SIZE →
    (∀ k fs, fss !! k = Some fs → fw_live (MDClient.live_recvs c + k) = RecvPacket (enc_frames fs)) →
    ∃ c', for_each fss (λ _, MDClient.process) c = (Ret tt, c') ∧
      ∀ y L, MatchingEngineBroker.symbol_to_matching_engine (ex_engine s) !! y = Some L → ∃ B, rep L B ∧
        shown_orders y c' = entries_map (all_entries B) ∧
        ((∀ o, fw_freed o = o) → totals_fit no_market ((concat frames).*2) →
         keeps_levels (foldl market_step no_market ((concat sent).*2)) c →
         MDClient.get_best_bid y c' = top true B ∧ MDClient.get_best_ask y c' = top false B).
Proof.
  intros Hs Hd Hy Hist Hfa. destruct (history_served symbols ps rs s Hs Hd Hist) as [Hok|?]; [right|by left].
  destruct (history_fed symbols ps rs s Hs Hd Hy Hist Hok Hfa) as [ms F]. destruct (fed_packets BW _ _ _ _ F) as (frames & Hp & Hst).
  exists frames. split; [exact Hp|].
  split; [pose proof (st_ok _ _ _ _ Hst) as Hnok; by rewrite app_nil_r in Hnok|]. intros FW sent fss c -> Hlen K Hlast Hbuf Hw.
  assert (ms = (concat (sent ++ fss)).*2) as Hms by (rewrite <- (st_msgs _ _ _ _ Hst), app_nil_r; done).
  destruct (streamed_rest _ _ _ _ Hst ltac:(by rewrite Hms, length_fmap)) as (Hsplit & Hmtu & Hnok & Hnum).
  set (M := foldl market_step no_market ((concat sent).*2)) in *.
  set (P := (∀ o, fw_freed o = o) ∧ totals_fit no_market ((concat (sent ++ fss)).*2) ∧ keeps_levels M c).
  assert (feed_fits P M ((concat fss).*2)) as Hfit.
  { assert (feed_fits P no_market ms) as Hall by (apply says_fits; [apply F|]; rewrite Hms; by intros (_ & ? & _)).
    rewrite Hsplit in Hall. by apply feed_fits_app in Hall as [_ ?]. }
  destruct (run_feed P ltac:(by intros [? _]) fss M c) as (c' & Hrun & K' & _);
    [by apply keeps_both; [|intros (_ & _ & ?)]|done|done|done|done|by rewrite Hlast|exact Hfit|].
  exists c'. split; [exact Hrun|]. intros y L HL.
  assert (y ∈ dom (foldl book_after (books_of symbols) ps)) as (B & HB)%elem_of_dom by (rewrite <- (fd_dom _ _ _ _ F); by eapply elem_of_dom_2).
  exists B. assert (rep L B) as HR by by eapply F. split; [exact HR|].
  pose proof (r_book _ _ (rep_weak _ _ HR)) as HokB. pose proof (fd_shows _ _ _ _ F) as Hsh. rewrite Hsplit, foldl_app in Hsh.
  split; [by apply (shown_entries _ _ y B c' Hsh HB HokB), (keeps_market_orders P)|]. intros H1 H2 H3.
  apply (shown_best _ _ y B c' Hsh HB HokB); [by apply (keeps_market_orders P)|].
  by exact (keeps_market_levels P _ _ (conj H1 (conj H2 H3)) K').
Qed.

Section witness.
#[local] Existing Instance calm_handler_world.
#[local] Existing Instance demo_config.
#[local] Existing Instance calm_broker_world.

(** The packets of [feed_exchange]. *)
Definition feed_packets : list (list (Z * Z * md_msg)) := [
  [(1, 1, NewOrder 9 1 SELL 100 60 0)];
  [(2, 2, TradeSummary 1 BUY 130 60); (3, 3, Trade 8 100 50); (4, 4, Trade 9 30 60)];
  [(5, 5, NewOrder 11 1 BUY 20 40 0)]; [(6, 6, ModifyOrder 11 BUY 25 30)]].
Definition first_packet : list (Z * Z * md_msg) := [(0, 0, NewOrder 8 1 SELL 100 50 0)].

Definition feed_world : FeedWorld := {|
  fw_live := λ n, match feed_packets !! n with Some fs => RecvPacket (enc_frames fs) | None => RecvWouldBlock end;
  fw_snapshot := λ _, RecvWouldBlock;
  fw_leave := 0;
  fw_freed := λ o, o;
  fw_recover_on_drops := false;
  fw_fuel := 10;
|}.

Lemma feed_packets_sent :
  MarketDataPublisher.packets (MatchingEngineBroker.publisher (ex_engine feed_exchange)) = enc_frames <$> ([first_packet] ++ feed_packets).
Proof. vm_compute. reflexivity. Qed.

Lemma feed_packets_ok : Forall numbered_ok (concat ([first_packet] ++ feed_packets)).
Proof. unfold numbered_ok. by_decide. Qed.

(** A client that knows the first order, and has seen message 0. *)
Definition early_bot : MDClient.t :=
  MDClient.add_order (md.Build_new_order (wire_header 0 0 Heartbeat) 8 1 SELL 100 50 0) MDClient.initial.

Definition early_market : market := foldl market_step no_market ((concat [first_packet]).*2).

Lemma early_bot_in_step : keeps_market True early_market early_bot.
Proof.
  change (keeps_market True (market_step no_market (NewOrder 8 1 SELL 100 50 0)) early_bot). unfold early_bot.
  apply (keeps_add_order True (FW := feed_world)); [done|apply keeps_initial|].
  split; [split; [reflexivity|lia]|]. intros _. apply market_bounded; [vm_compute; reflexivity|by_decide].
Qed.

Lemma feed_packets_fit : totals_fit no_market ((concat ([first_packet] ++ feed_packets)).*2).
Proof.
  cbn [concat feed_packets first_packet fmap list_fmap app snd].
  do 7 (intros k; destruct k as [|k]; [intros ?; apply market_bounded; [vm_compute; reflexivity|by_decide]|revert k]).
  intros k ?. rewrite (firstn_all2 (n := 7 + k)) by (simpl; lia). apply market_bounded; [vm_compute; reflexivity|by_decide].
Qed.

Lemma bots_show_ladders_witness : ∃ c L B,
  for_each feed_packets (λ _, MDClient.process (H := feed_world)) early_bot = (Ret tt, c) ∧
  MatchingEngineBroker.symbol_to_matching_engine (ex_engine feed_exchange) !! 1 = Some L ∧ rep L B ∧
  shown_orders 1 c = entries_map (all_entries B) ∧
  MDClient.get_best_bid 1 c = top true B ∧ MDClient.get_best_ask 1 c = top false B.
Proof.
  destruct (bots_show_ladders calm_handler_world demo_config calm_broker_world exchange_symbols feed_requests [] feed_exchange)
    as [Ht|(frames & Hp & Hok & Hall)];
    [apply exchange_symbols_ok|vm_compute; reflexivity|by_decide|apply feed_history|apply feed_requests_faithful|by apply feed_no_tie in Ht|].
  rewrite feed_packets_sent in Hp. apply (packets_inj _ _ feed_packets_ok Hok) in Hp.
  destruct (Hall feed_world [first_packet] feed_packets early_bot) as (c & Hrun & Hshown).
  - by rewrite <- Hp.
  - rewrite <- Hp. vm_compute. discriminate.
  - eapply keeps_market_orders, early_bot_in_step.
  - reflexivity.
  - reflexivity.
  - intros k fs Hk. unfold fw_live, feed_world. simpl plus. by rewrite Hk.
  - destruct feed_ladder as [L HL]. destruct (Hshown 1 L HL) as (B & HR & Ho & Hbest). exists c, L, B.
    split; [exact Hrun|]. split; [exact HL|]. split; [exact HR|]. split; [exact Ho|].
    apply Hbest; [done|rewrite <- Hp; apply feed_packets_fit|].
    by apply (keeps_market_levels True), early_bot_in_step.
Defined.
End witness.
