(* ===== verification/OeClient.v ===== *)
(** * [bots/oe_client.cpp]: the bots' order entry client

    The client logs in, writes requests to its socket and reads the responses,
    from which it keeps its positions. *)
From Stdlib Require Import Init.Byte Strings.String.
From S2P Require Import Prelude Protocol SnapshotClient Validator ClientHandler.

(** What the operating system answers: [socket], [connect], the two [fcntl],
    each [write] (the number of bytes taken, or -1) and each [read] of at most so
    many bytes; and what memory the code never initialised reads as. *)
Class ClientWorld := {
  cw_socket : Z;
  cw_connect : Z;
  cw_getfl : Z;
  cw_setfl : Z;
  cw_write : nat → list byte → Z;
  cw_read : nat → nat → received;
  cw_login_session_id : Z;
  cw_stack : list byte;
  cw_fuel : nat;
}.

(** What a strategy asks of its order entry client. *)
Class OrderEntry (O : Type) := {
  oe_send_order : Z → Z → Z → Z → Z → Z → M O unit;
  oe_cancel_order : Z → M O unit;
  oe_modify_order : Z → Z → Z → Z → M O unit;
  oe_get_position : Z → O → Z;
}.

Module OEClient.

Record open_order := mk_open { side : Z; symbol : Z }.

#[global] Instance open_order_eq_dec : EqDecision open_order.
Proof. solve_decision. Defined.

(** [written] is what the socket has taken; [reads] and [writes] number the
    calls. *)
Record t := mk {
  sock_fd : Z;
  buffer : list byte;
  client_seq : Z;
  session_id : Z;
  positions : gmap Z Z;
  open_orders : gmap Z open_order;
  written : list byte;
  writes : nat;
  reads : nat;
}.

Definition initial : t := mk 0 [] 0 0 ∅ ∅ [] 0 0.

Definition set_sock_fd (fd : Z) (s : t) : t :=
  mk fd (buffer s) (client_seq s) (session_id s) (positions s) (open_orders s) (written s) (writes s) (reads s).
Definition set_buffer (b : list byte) (s : t) : t :=
  mk (sock_fd s) b (client_seq s) (session_id s) (positions s) (open_orders s) (written s) (writes s) (reads s).
Definition set_client_seq (n : Z) (s : t) : t :=
  mk (sock_fd s) (buffer s) n (session_id s) (positions s) (open_orders s) (written s) (writes s) (reads s).
Definition set_session_id (n : Z) (s : t) : t :=
  mk (sock_fd s) (buffer s) (client_seq s) n (positions s) (open_orders s) (written s) (writes s) (reads s).
Definition set_positions (m : gmap Z Z) (s : t) : t :=
  mk (sock_fd s) (buffer s) (client_seq s) (session_id s) m (open_orders s) (written s) (writes s) (reads s).
Definition set_open_orders (m : gmap Z open_order) (s : t) : t :=
  mk (sock_fd s) (buffer s) (client_seq s) (session_id s) (positions s) m (written s) (writes s) (reads s).
Definition count_write (bs : list byte) (s : t) : t :=
  mk (sock_fd s) (buffer s) (client_seq s) (session_id s) (positions s) (open_orders s) (written s ++ bs) (S (writes s)) (reads s).
Definition count_read (s : t) : t :=
  mk (sock_fd s) (buffer s) (client_seq s) (session_id s) (positions s) (open_orders s) (written s) (writes s) (S (reads s)).

(** A member the object does not have yet reads as 0. *)
Definition get_position (symbol : Z) (s : t) : Z := default 0 (positions s !! symbol).

Section ops.
Context `{CW : ClientWorld} (user : user_info).

(** [client_seq++] *)
Definition next_seq : M t Z :=
  n ← gets client_seq;
  modify (set_client_seq (u32 (n + 1)));;
  mret n.

(** [write]: [-1], or the number of bytes the socket took. *)
Definition write (bs : list byte) : M t Z :=
  n ← gets writes;
  let len := cw_write n bs in
  modify (count_write (take (Z.to_nat len) bs));;
  mret len.

(** [read] of at most [size] bytes. *)
Definition read (size : nat) : M t received :=
  n ← gets reads;
  modify count_read;;
  mret (match cw_read n size with RecvPacket bs => RecvPacket (take size bs) | r => r end).

Definition request_header (size : nat) (ty seq session : Z) : oe.oe_request_header :=
  oe.Build_oe_request_header (Z.of_nat size) ty oe.OE_PROTOCOL_VERSION seq (ui_client_id user) session.

(** [while (len == -1)]: until the response comes. *)
Fixpoint await_response (fuel : nat) : M t (option (list byte)) :=
  match fuel with
  | O => throw out_of_fuel
  | S fuel =>
      r ← read (c_size oe.c_login_response);
      match r with
      | RecvPacket bs => mret (Some bs)
      | RecvWouldBlock => await_response fuel
      | RecvError => mret None
      end
  end.

(** The header's [session_id] is not set; a short read leaves the rest of the
    response as it was. *)
Definition login : M t bool :=
  modify (set_sock_fd cw_socket);;
  if cw_socket =? -1 then mret false
  else if cw_connect =? -1 then mret false
  else if cw_getfl =? -1 then mret false
  else if cw_setfl =? -1 then mret false
  else
    seq ← next_seq;
    len ← write (c_enc oe.c_login (oe.Build_login
      (request_header (c_size oe.c_login) oe.MSG_TYPE.LOGIN seq cw_login_session_id)
      (strncpy 16 (ui_username user)) (strncpy 16 (ui_password user))));
    if len =? -1 then mret false
    else
      r ← await_response cw_fuel;
      match r with
      | None => mret false
      | Some bs =>
          let response := c_dec oe.c_login_response (bs ++ drop (length bs) cw_stack) in
          if negb (oe.lr_status response =? oe.LOGIN_STATUS.SUCCESS) then mret false
          else modify (set_session_id (oe.lr_session_id response));; mret true
      end.

(** [open_orders] is keyed by [uint32_t], the order id a [uint64_t]. *)
Definition send_order (sym order_id sd quantity price flags : Z) : M t unit :=
  seq ← next_seq;
  session ← gets session_id;
  modify (λ s, set_open_orders (<[u32 order_id := mk_open sd sym]> (open_orders s)) s);;
  _ ← write (c_enc oe.c_new_order (oe.Build_new_order
    (request_header (c_size oe.c_new_order) oe.MSG_TYPE.NEW_ORDER seq session) order_id sym sd quantity price flags));
  mret tt.

Definition cancel_order (order_id : Z) : M t unit :=
  seq ← next_seq;
  session ← gets session_id;
  _ ← write (c_enc oe.c_delete_order (oe.Build_delete_order
    (request_header (c_size oe.c_delete_order) oe.MSG_TYPE.DELETE_ORDER seq session) order_id));
  mret tt.

Definition modify_order (order_id sd quantity price : Z) : M t unit :=
  seq ← next_seq;
  session ← gets session_id;
  _ ← write (c_enc oe.c_modify_order (oe.Build_modify_order
    (request_header (c_size oe.c_modify_order) oe.MSG_TYPE.MODIFY_ORDER seq session) order_id sd quantity price));
  mret tt.

#[global] Instance order_entry : OrderEntry t := {|
  oe_send_order := send_order;
  oe_cancel_order := cancel_order;
  oe_modify_order := modify_order;
  oe_get_position := get_position;
|}.
End ops.

(** ** Responses *)

(** [open_orders[fill.order_id]] makes an order of side and symbol 0 when there
    is none; positions are [int32_t], quantities [uint32_t]. *)
Definition apply_fill (f : oe.order_fill) (s : t) : t :=
  let key := u32 (oe.fl_order_id f) in
  let o := default (mk_open 0 0) (open_orders s !! key) in
  let s := set_open_orders (<[key := o]> (open_orders s)) s in
  let p := get_position (symbol o) s in
  let p := if side o =? md.SIDE.BUY then p + oe.fl_quantity f else p - oe.fl_quantity f in
  set_positions (<[symbol o := s32 p]> (positions s)) s.

Definition error_text (e : oe.error_message) : M t string :=
  if bool_decide (x00 ∈ oe.er_error_message e) then mret (c_string (oe.er_error_message e))
  else throw (undefined_behaviour "error message without a terminator").

(** The [switch]: [None] waits for more bytes. *)
Definition apply_response (b : list byte) (header : oe.oe_response_header) : M t (option unit) :=
  let sized {A} (c : codec A) (k : A → M t unit) : M t (option unit) :=
    if bool_decide (length b < c_size c)%nat then mret None else k (c_dec c b);; mret (Some tt) in
  let ty := oe.rs_msg_type header in
  if ty =? oe.MSG_TYPE.ACK then sized oe.c_order_ack (λ _, mret tt)
  else if ty =? oe.MSG_TYPE.REJECT then sized oe.c_order_reject (λ _, mret tt)
  else if ty =? oe.MSG_TYPE.CLOSE then
    sized oe.c_order_closed (λ m, modify (λ s, set_open_orders (delete (u32 (oe.cl_order_id m)) (open_orders s)) s))
  else if ty =? oe.MSG_TYPE.FILL then sized oe.c_order_fill (λ m, modify (apply_fill m))
  else if ty =? oe.MSG_TYPE.ERROR then
    sized oe.c_error_message (λ m, text ← error_text m; throw (runtime_error ("Received error message " +:+ text)))
  else throw (runtime_error ("Unknown message type " +:+ pretty ty)).

(** [while (buffer.size() >= sizeof(oe_response_header))]; erasing more than
    there is is undefined. *)
Fixpoint process_loop (fuel : nat) : M t unit :=
  match fuel with
  | O => throw out_of_fuel
  | S fuel =>
      b ← gets buffer;
      if bool_decide (c_size oe.c_oe_response_header ≤ length b)%nat then
        let header := c_dec oe.c_oe_response_header b in
        r ← apply_response b header;
        match r with
        | None => mret tt
        | Some _ =>
            if Z.of_nat (length b) <? oe.rs_length header then throw (undefined_behaviour "erase past the end of buffer")
            else modify (set_buffer (drop (Z.to_nat (oe.rs_length header)) b));; process_loop fuel
        end
      else mret tt
  end.

Definition READ_SIZE : nat := Z.to_nat 1500.

Definition process `{ClientWorld} : M t unit :=
  r ← read READ_SIZE;
  match r with
  | RecvPacket bs =>
      b ← gets buffer;
      modify (set_buffer (b ++ bs));;
      process_loop (S (length (b ++ bs)))
  | RecvWouldBlock | RecvError => mret tt
  end.

#[global] Arguments READ_SIZE : simpl never.
End OEClient.
