(* ===== verification/OeClientTheorems.v ===== *)
(** * The properties of the order entry client

    Its requests arrive at the exchange as they were made, and its positions are
    the sums of its fills, however the bytes are cut on their way. *)
From Stdlib Require Import Init.Byte Strings.String.
From S2P Require Import Prelude Protocol SnapshotClient Validator ClientHandler StreamParser StreamTheorems OeClient.
Import OEClient.

(** ** Cutting a sequence of frames *)

Section framing.
Context {A : Type} (enc : A → list byte).

Definition joined (rs : list A) : list byte := concat (enc <$> rs).

(** The bytes are less than the next frame. *)
Definition short_of (b : list byte) (rs : list A) : Prop :=
  match rs with [] => b = [] | r :: _ => (length b < length (enc r))%nat end.

Lemma split_frames rs : ∀ b rest, b ++ rest = joined rs →
  ∃ rs1 rs2 b', rs = rs1 ++ rs2 ∧ b = joined rs1 ++ b' ∧ b' ++ rest = joined rs2 ∧ short_of b' rs2.
Proof.
  induction rs as [|r rs IH]; intros b rest He.
  { exists [], [], b. apply app_eq_nil in He as [-> ->]. done. }
  destruct (decide (length b < length (enc r))%nat) as [Hlt|Hge]; [by exists [], (r :: rs), b|].
  unfold joined in He. simpl in He. fold (joined rs) in He.
  assert (take (length (enc r)) b = enc r) as Ht.
  { rewrite <- (take_app_le b rest) by lia. rewrite He. by apply take_app_length'. }
  destruct (IH (drop (length (enc r)) b) rest) as (rs1 & rs2 & b' & -> & Hb & Hrest & Hs).
  { rewrite <- (take_drop (length (enc r)) b), Ht, <- app_assoc in He. by apply app_inv_head in He. }
  exists (r :: rs1), rs2, b'. split_and!; try done. unfold joined in *. simpl.
  rewrite <- app_assoc, <- Hb, <- Ht at 1. by rewrite take_drop.
Qed.
End framing.

(** ** Responses *)

Inductive response :=
  | SAck (m : oe.order_ack)
  | SReject (m : oe.order_reject)
  | SFill (m : oe.order_fill)
  | SClose (m : oe.order_closed).

Definition resp_bytes (r : response) : list byte :=
  match r with
  | SAck m => c_enc oe.c_order_ack m
  | SReject m => c_enc oe.c_order_reject m
  | SFill m => c_enc oe.c_order_fill m
  | SClose m => c_enc oe.c_order_closed m
  end.

Definition resp_header (r : response) : oe.oe_response_header :=
  match r with
  | SAck m => oe.ak_header m | SReject m => oe.rj_header m | SFill m => oe.fl_header m | SClose m => oe.cl_header m
  end.

Definition resp_size (r : response) : nat := match r with SAck _ => 40 | SReject _ => 25 | SFill _ => 33 | SClose _ => 24 end.

Definition resp_type (r : response) : Z :=
  match r with
  | SAck _ => oe.MSG_TYPE.ACK | SReject _ => oe.MSG_TYPE.REJECT
  | SFill _ => oe.MSG_TYPE.FILL | SClose _ => oe.MSG_TYPE.CLOSE
  end.

Record response_ok (r : response) : Prop := {
  ro_fields : match r with
              | SAck m => c_ok oe.c_order_ack m | SReject m => c_ok oe.c_order_reject m
              | SFill m => c_ok oe.c_order_fill m | SClose m => c_ok oe.c_order_closed m
              end;
  ro_length : oe.rs_length (resp_header r) = Z.of_nat (resp_size r);
  ro_type : oe.rs_msg_type (resp_header r) = resp_type r;
}.

Lemma resp_bytes_length r : response_ok r → length (resp_bytes r) = resp_size r.
Proof.
  intros [Hf _ _].
  destruct r; [apply (enc_length (c:=oe.c_order_ack))|apply (enc_length (c:=oe.c_order_reject))
    |apply (enc_length (c:=oe.c_order_fill))|apply (enc_length (c:=oe.c_order_closed))]; done.
Qed.

Lemma resp_size_bounds r : (24 ≤ resp_size r ≤ 40)%nat.
Proof. destruct r; simpl; lia. Qed.

Lemma resp_bytes_split r : ∃ tail, resp_bytes r = c_enc oe.c_oe_response_header (resp_header r) ++ tail.
Proof.
  destruct r; eexists; cbn [resp_bytes resp_header c_enc c_iso oe.c_order_ack oe.c_order_reject oe.c_order_fill oe.c_order_closed
    c_pair fst snd oe.ak_header oe.ak_order_id oe.ak_exch_order_id oe.ak_quantity oe.ak_price oe.rj_header oe.rj_order_id
    oe.rj_reject_reason oe.fl_header oe.fl_order_id oe.fl_quantity oe.fl_price oe.fl_flags oe.cl_header oe.cl_order_id];
    rewrite <-?app_assoc; reflexivity.
Qed.

Lemma resp_header_ok r : response_ok r → c_ok oe.c_oe_response_header (resp_header r).
Proof.
  intros [Hf _ _]. destruct r; cbn [resp_header];
    cbn [c_ok c_iso oe.c_order_ack oe.c_order_reject oe.c_order_fill oe.c_order_closed c_pair] in Hf; tauto.
Qed.

Lemma resp_bytes_header r rest : response_ok r → c_dec oe.c_oe_response_header (resp_bytes r ++ rest) = resp_header r.
Proof.
  intros Hr. destruct (resp_bytes_split r) as [tail ->]. rewrite <-app_assoc. apply dec_enc. by apply resp_header_ok.
Qed.

(** What a response does to the client. *)
Definition resp_step (s : t) (r : response) : t :=
  match r with
  | SAck _ | SReject _ => s
  | SFill m => apply_fill m s
  | SClose m => set_open_orders (delete (u32 (oe.cl_order_id m)) (open_orders s)) s
  end.

Lemma resp_step_buffer r b s : resp_step (set_buffer b s) r = set_buffer b (resp_step s r).
Proof. by destruct r. Qed.

Lemma resp_steps_buffer b rs : ∀ s, foldl resp_step (set_buffer b s) rs = set_buffer b (foldl resp_step s rs).
Proof. induction rs as [|r rs IH]; intros s; [done|]. simpl. by rewrite resp_step_buffer, IH. Qed.

Lemma resp_step_reads r s : reads (resp_step s r) = reads s ∧ buffer (resp_step s r) = buffer s.
Proof. by destruct r. Qed.

Lemma run_response r rest s : response_ok r →
  apply_response (resp_bytes r ++ rest) (resp_header r) s = (Ret (Some tt), resp_step s r).
Proof.
  intros Hr. pose proof (resp_bytes_length r Hr) as Hl. destruct Hr as [Hf _ Hty].
  assert (∀ {A} (c : codec A) m, CodecOk c → c_ok c m → c_size c = resp_size r → resp_bytes r = c_enc c m →
    bool_decide (length (resp_bytes r ++ rest) < c_size c)%nat = false ∧ c_dec c (resp_bytes r ++ rest) = m) as Hread.
  { intros A c m Hc Hm Hs Hb. split; [apply bool_decide_false; rewrite length_app; lia|]. by rewrite Hb, dec_enc. }
  unfold apply_response. rewrite Hty. destruct r as [m|m|m|m]; cbn [resp_type];
    repeat match goal with |- context [?a =? ?b] => let x := eval vm_compute in (a =? b) in change (a =? b) with x end; cbv iota zeta.
  - by destruct (Hread _ oe.c_order_ack m _ Hf eq_refl eq_refl) as [-> _].
  - by destruct (Hread _ oe.c_order_reject m _ Hf eq_refl eq_refl) as [-> _].
  - by destruct (Hread _ oe.c_order_fill m _ Hf eq_refl eq_refl) as [-> ->].
  - by destruct (Hread _ oe.c_order_closed m _ Hf eq_refl eq_refl) as [-> ->].
Qed.

(** Less than the next response is left alone. *)
Lemma run_short fuel rest rs b s :
  Forall response_ok rs → b ++ rest = joined resp_bytes rs → short_of resp_bytes b rs → buffer s = b →
  process_loop (S fuel) s = (Ret tt, s).
Proof.
  intros Hrs He Hi Hb. cbn [process_loop]. erewrite bind_ret by reflexivity. cbv beta. rewrite Hb.
  case_bool_decide as Hlen; [|done]. destruct rs as [|r rs].
  { simpl in Hi. rewrite Hi in Hlen. apply Nat.leb_le in Hlen. by vm_compute in Hlen. }
  inversion_clear Hrs as [|? ? Hr Hrs']. simpl in Hi. rewrite resp_bytes_length in Hi by done.
  assert (c_dec oe.c_oe_response_header b = resp_header r) as ->.
  { rewrite <-(dec_app oe.c_oe_response_header b rest Hlen), He. unfold joined. simpl. by apply resp_bytes_header. }
  assert (apply_response b (resp_header r) s = (Ret None, s)) as Hwait.
  { unfold apply_response. rewrite (ro_type _ Hr).
    destruct r as [m|m|m|m]; cbn [resp_type];
      repeat match goal with |- context [?a =? ?b] => let x := eval vm_compute in (a =? b) in change (a =? b) with x end; cbv iota zeta;
      rewrite bool_decide_true; done. }
  by erewrite bind_ret by exact Hwait.
Qed.

Lemma run_responses rest rs2 b' rs1 : ∀ fuel s,
  Forall response_ok (rs1 ++ rs2) → buffer s = joined resp_bytes rs1 ++ b' → b' ++ rest = joined resp_bytes rs2 →
  short_of resp_bytes b' rs2 → (length rs1 < fuel)%nat →
  process_loop fuel s = (Ret tt, set_buffer b' (foldl resp_step s rs1)).
Proof.
  induction rs1 as [|r rs1 IH]; intros [|fuel] s Hok Hb He Hi Hf; simpl in Hf; try lia.
  { rewrite (run_short fuel rest rs2 b' s Hok He Hi Hb). f_equal. destruct s. simpl in *. by subst. }
  inversion_clear Hok as [|? ? Hr Hok']. pose proof (resp_bytes_length r Hr) as Hl. pose proof (resp_size_bounds r).
  unfold joined in Hb. simpl in Hb. fold (joined resp_bytes rs1) in Hb. rewrite <- app_assoc in Hb.
  cbn [process_loop]. erewrite bind_ret by reflexivity. cbv beta. rewrite Hb.
  rewrite bool_decide_true by (change (c_size oe.c_oe_response_header) with 16%nat; rewrite length_app; lia).
  cbv zeta. rewrite resp_bytes_header by done. erewrite bind_ret by (by apply run_response). cbv beta iota.
  rewrite (ro_length _ Hr). rewrite (proj2 (Z.ltb_ge _ _)) by (rewrite length_app; lia).
  erewrite bind_ret by reflexivity. cbv beta. rewrite Nat2Z.id, <- Hl, drop_app_length.
  rewrite (IH fuel _ Hok') by (try done; lia). f_equal. cbn [foldl].
  by rewrite resp_steps_buffer.
Qed.

(** ** Runs of [process] *)

Lemma joined_length rs : Forall response_ok rs → (length rs ≤ length (joined resp_bytes rs))%nat.
Proof.
  induction 1 as [|r rs Hr _ IH]; [done|]. change (joined resp_bytes (r :: rs)) with (resp_bytes r ++ joined resp_bytes rs).
  rewrite length_app, resp_bytes_length by done. pose proof (resp_size_bounds r). simpl. lia.
Qed.

(** What a run of [resp_step] keeps of the client. *)
Lemma resp_steps_frame rs : ∀ s, let s' := foldl resp_step s rs in
  reads s' = reads s ∧ buffer s' = buffer s ∧ client_seq s' = client_seq s ∧ session_id s' = session_id s ∧ written s' = written s.
Proof.
  induction rs as [|r rs IH]; intros s; [done|]. simpl. destruct (IH (resp_step s r)) as (-> & -> & -> & -> & ->). by destruct r.
Qed.

(** The part of the client responses change. *)
Definition same_book (s s' : t) : Prop := positions s' = positions s ∧ open_orders s' = open_orders s.

Lemma same_book_step r s s' : same_book s s' → same_book (resp_step s r) (resp_step s' r).
Proof.
  intros [Hp Ho]. destruct r as [m|m|m|m]; simpl; [done|done| |].
  - unfold apply_fill, get_position. split; simpl; rewrite ?Hp, ?Ho; done.
  - split; simpl; by rewrite ?Ho.
Qed.

Lemma same_book_steps rs : ∀ s s', same_book s s' → same_book (foldl resp_step s rs) (foldl resp_step s' rs).
Proof. induction rs as [|r rs IH]; intros s s' H; [done|]. apply IH. by apply same_book_step. Qed.

Lemma run_client_process `{ClientWorld} rs chunk rest s :
  Forall response_ok rs → buffer s ++ chunk ++ rest = joined resp_bytes rs →
  cw_read (reads s) READ_SIZE = RecvPacket chunk → (length chunk ≤ READ_SIZE)%nat →
  ∃ rs1 rs2 s', rs = rs1 ++ rs2 ∧ process s = (Ret tt, s') ∧ buffer s' ++ rest = joined resp_bytes rs2 ∧
    short_of resp_bytes (buffer s') rs2 ∧ reads s' = S (reads s) ∧ same_book (foldl resp_step s rs1) s'.
Proof.
  intros Hok He Hr Hl. rewrite app_assoc in He.
  destruct (split_frames resp_bytes rs _ _ He) as (rs1 & rs2 & b' & -> & Hb & Hrest & Hs).
  exists rs1, rs2, (set_buffer b' (foldl resp_step (set_buffer (buffer s ++ chunk) (count_read s)) rs1)).
  split; [done|]. split; [|split; [exact Hrest|split; [exact Hs|split]]].
  - unfold process, read. erewrite bind_ret by (repeat (erewrite bind_ret by reflexivity; cbn beta); rewrite Hr; reflexivity).
    rewrite firstn_all2 by done. erewrite bind_ret by reflexivity. cbn beta. erewrite bind_ret by reflexivity. cbn beta.
    apply (run_responses rest rs2); [done|exact Hb|done|done|].
    change (buffer (count_read s)) with (buffer s). rewrite Hb, length_app.
    pose proof (joined_length rs1 (proj1 (proj1 (Forall_app _ _ _) Hok))). lia.
  - simpl. pose proof (resp_steps_frame rs1 (set_buffer (buffer s ++ chunk) (count_read s))) as (-> & _). done.
  - apply (same_book_steps rs1 s). by split.
Qed.

Lemma run_client_processes `{ClientWorld} chunks : ∀ rs s,
  Forall response_ok rs → buffer s ++ concat chunks = joined resp_bytes rs → short_of resp_bytes (buffer s) rs →
  (∀ k c, chunks !! k = Some c → cw_read (reads s + k) READ_SIZE = RecvPacket c) →
  Forall (λ c, length c ≤ READ_SIZE)%nat chunks →
  ∃ s', for_each chunks (λ _, process) s = (Ret tt, s') ∧ buffer s' = [] ∧ same_book (foldl resp_step s rs) s'.
Proof.
  induction chunks as [|c chunks IH]; intros rs s Hok He Hs Hw Hl.
  { exists s. split; [done|]. simpl in He. rewrite app_nil_r in He. destruct rs as [|r rs]; [by split|].
    simpl in Hs. rewrite He in Hs. unfold joined in Hs. simpl in Hs. rewrite length_app in Hs. lia. }
  apply Forall_cons in Hl as [Hl1 Hl]. pose proof (Hw 0%nat c eq_refl) as Hw1. rewrite Nat.add_0_r in Hw1.
  destruct (run_client_process rs c (concat chunks) s Hok He Hw1 Hl1) as (rs1 & rs2 & s1 & -> & Hrun & He1 & Hs1 & Hr1 & Hb1).
  apply Forall_app in Hok as [_ Hok2].
  destruct (IH rs2 s1 Hok2 He1 Hs1) as (s' & Hrun' & Hbuf & Hb'); [|done|].
  { intros k c' Hk. rewrite Hr1, Nat.add_succ_comm. by apply (Hw (S k)). }
  exists s'. split; [simpl; by erewrite bind_ret by exact Hrun|]. split; [done|]. rewrite foldl_app.
  pose proof (same_book_steps rs2 _ _ Hb1) as [Hp Ho]. destruct Hb' as [Hp' Ho']. split; congruence.
Qed.

(** ** Positions *)

(** What a fill adds to the position of symbol [y]. *)
Definition fill_effect (y : Z) (opens : gmap Z open_order) (m : oe.order_fill) : Z :=
  let o := default (mk_open 0 0) (opens !! u32 (oe.fl_order_id m)) in
  if symbol o =? y then if side o =? md.SIDE.BUY then oe.fl_quantity m else - oe.fl_quantity m else 0.

(** The orders the client believes open after a response, and the net of the
    fills of a symbol. *)
Definition opens_after (opens : gmap Z open_order) (r : response) : gmap Z open_order :=
  match r with
  | SFill m => <[u32 (oe.fl_order_id m) := default (mk_open 0 0) (opens !! u32 (oe.fl_order_id m))]> opens
  | SClose m => delete (u32 (oe.cl_order_id m)) opens
  | SAck _ | SReject _ => opens
  end.

Fixpoint net (y : Z) (opens : gmap Z open_order) (rs : list response) : Z :=
  match rs with
  | [] => 0
  | r :: rs => match r with SFill m => fill_effect y opens m | _ => 0 end + net y (opens_after opens r) rs
  end.

Definition positions_ok (s : t) : Prop := ∀ y, is_s32 (get_position y s).

Lemma apply_fill_position m y s :
  positions_ok s → get_position y (apply_fill m s) = s32 (get_position y s + fill_effect y (open_orders s) m).
Proof.
  intros Hok. unfold apply_fill, fill_effect, get_position. simpl.
  set (o := default (mk_open 0 0) (open_orders s !! u32 (oe.fl_order_id m))).
  destruct (symbol o =? y) eqn:Hy.
  - apply Z.eqb_eq in Hy. rewrite Hy, lookup_insert_eq. simpl. by destruct (side o =? md.SIDE.BUY).
  - apply Z.eqb_neq in Hy. rewrite lookup_insert_ne by done. rewrite Z.add_0_r, s32_id; [done|apply (Hok y)].
Qed.

Lemma apply_fill_ok m s : positions_ok s → positions_ok (apply_fill m s).
Proof. intros Hok y. rewrite apply_fill_position by done. apply s32_range. Qed.

Lemma resp_steps_positions rs : ∀ s, positions_ok s →
  positions_ok (foldl resp_step s rs) ∧ open_orders (foldl resp_step s rs) = foldl opens_after (open_orders s) rs ∧
  ∀ y, get_position y (foldl resp_step s rs) = s32 (get_position y s + net y (open_orders s) rs).
Proof.
  induction rs as [|r rs IH]; intros s Hok.
  { split; [done|]. split; [done|]. intros y. simpl. by rewrite Z.add_0_r, s32_id. }
  assert (positions_ok (resp_step s r)) as Hok'.
  { destruct r; [exact Hok|exact Hok|by apply apply_fill_ok|exact Hok]. }
  destruct (IH _ Hok') as (H1 & H2 & H3). simpl. split; [exact H1|]. split; [rewrite H2; by destruct r|].
  intros y. rewrite H3. destruct r as [m|m|m|m]; try done. simpl resp_step.
  rewrite apply_fill_position, s32_add by done. f_equal. simpl. lia.
Qed.

(** ** Requests *)

Inductive order_op :=
  | SendOrder (sym order_id sd quantity price flags : Z)
  | CancelOrder (order_id : Z)
  | ModifyOrder (order_id sd quantity price : Z).

Definition op_fits (o : order_op) : Prop :=
  match o with
  | SendOrder y i d q p f => is_u32 y ∧ is_u64 i ∧ is_u8 d ∧ is_u32 q ∧ is_s32 p ∧ is_u8 f
  | CancelOrder i => is_u64 i
  | ModifyOrder i d q p => is_u64 i ∧ is_u8 d ∧ is_u32 q ∧ is_s32 p
  end.

#[global] Instance op_fits_dec o : Decision (op_fits o).
Proof. destruct o; simpl; apply _. Defined.

Section requests.
Context `{CW : ClientWorld} (user : user_info).

Definition run_order_op (o : order_op) : M t unit :=
  match o with
  | SendOrder y i d q p f => oe_send_order (OrderEntry := order_entry user) y i d q p f
  | CancelOrder i => oe_cancel_order (OrderEntry := order_entry user) i
  | ModifyOrder i d q p => oe_modify_order (OrderEntry := order_entry user) i d q p
  end.

(** The request an operation is, with its sequence number. *)
Definition request_of (seq session : Z) (o : order_op) : request :=
  match o with
  | SendOrder y i d q p f =>
      RNew (oe.Build_new_order (request_header user (c_size oe.c_new_order) oe.MSG_TYPE.NEW_ORDER seq session) i y d q p f)
  | CancelOrder i =>
      RDelete (oe.Build_delete_order (request_header user (c_size oe.c_delete_order) oe.MSG_TYPE.DELETE_ORDER seq session) i)
  | ModifyOrder i d q p =>
      RModify (oe.Build_modify_order (request_header user (c_size oe.c_modify_order) oe.MSG_TYPE.MODIFY_ORDER seq session) i d q p)
  end.

Fixpoint requests_of (seq session : Z) (os : list order_op) : list request :=
  match os with [] => [] | o :: os => request_of seq session o :: requests_of (u32 (seq + 1)) session os end.

Lemma request_well_formed seq session o :
  is_u32 seq → is_u64 session → is_u32 (ui_client_id user) → op_fits o → well_formed (request_of seq session o).
Proof.
  unfold is_u32, is_u64, is_u8, is_s32. intros Hs Hse Hu Ho. split; [|by destruct o..].
  destruct o; simpl in *; unfold is_u64, is_u32, is_u8, is_s32 in *; split_and!; try tauto; try lia; by vm_compute.
Qed.

Lemma requests_well_formed session os : ∀ seq,
  is_u32 seq → is_u64 session → is_u32 (ui_client_id user) → Forall op_fits os → Forall well_formed (requests_of seq session os).
Proof.
  induction os as [|o os IH]; intros seq Hs Hse Hu Ho; [constructor|]. apply Forall_cons in Ho as [Ho Hos].
  constructor; [by apply request_well_formed|]. apply IH; [apply u32_range|done..].
Qed.

(** What the socket takes of a request: all of it, a beginning, or nothing (also
    when the write fails). *)
Definition taken (n : nat) (r : request) : list byte := take (Z.to_nat (cw_write n (req_bytes r))) (req_bytes r).

(** The requests' writes are numbered on from [n]. *)
Fixpoint taken_all (n : nat) (rs : list request) : list byte :=
  match rs with [] => [] | r :: rs => taken n r ++ taken_all (S n) rs end.

(** The requests that arrive, and what arrives of the first one that the socket
    took only in part: the requests it took nothing of are lost. *)
Fixpoint arriving (n : nat) (rs : list request) : list request * list byte :=
  match rs with
  | [] => ([], [])
  | r :: rs =>
      if bool_decide (taken n r = []) then arriving (S n) rs
      else if bool_decide (taken n r = req_bytes r) then (r :: (arriving (S n) rs).1, (arriving (S n) rs).2)
      else ([], taken n r)
  end.

Lemma taken_all_snoc rs r : ∀ n, taken_all n (rs ++ [r]) = taken_all n rs ++ taken (n + length rs) r.
Proof.
  induction rs as [|x rs IH]; intros n; cbn [taken_all app length]; [by rewrite Nat.add_0_r, app_nil_r|].
  by rewrite IH, <- app_assoc, Nat.add_succ_comm.
Qed.

Lemma taken_all_arriving rs : ∀ n, ∃ rest,
  taken_all n rs = encoded (arriving n rs).1 ++ (arriving n rs).2 ++ rest ∧ ((arriving n rs).2 = [] → rest = []).
Proof.
  induction rs as [|r rs IH]; intros n; cbn [taken_all arriving]; [by exists []|].
  destruct (IH (S n)) as (rest & He & Hr). repeat case_bool_decide.
  - rewrite H. by exists rest.
  - exists rest. split; [|done]. rewrite H0, He. unfold encoded. simpl. by rewrite <- !app_assoc.
  - exists (taken_all (S n) rs). by split.
Qed.

Lemma arriving_requests rs : ∀ n, Forall well_formed rs → (arriving n rs).1 `sublist_of` rs ∧ ∃ next, ending (arriving n rs).2 next.
Proof.
  induction rs as [|r rs IH]; intros n Hrs; cbn [arriving]; [split; [done|]; exists []; apply ending_nil|].
  apply Forall_cons in Hrs as [Hr Hrs]. destruct (IH (S n) Hrs) as [Hsub Hend]. repeat case_bool_decide; simpl.
  - split; [by apply sublist_cons|done].
  - split; [by apply sublist_skip|done].
  - split; [apply sublist_nil_l|]. exists [r]. assert (taken n r `prefix_of` req_bytes r) as [more Hm] by apply prefix_take.
    split; [by constructor|by exists more; unfold encoded; simpl; rewrite app_nil_r|]. simpl.
    rewrite <- (req_bytes_length r Hr), Hm, length_app. destruct more; [|simpl; lia]. by rewrite app_nil_r in Hm.
Qed.

(** When every write is taken whole everything arrives. *)
Lemma arriving_whole rs : (∀ n bs, cw_write n bs = Z.of_nat (length bs)) → ∀ n, Forall well_formed rs → arriving n rs = (rs, []).
Proof.
  intros Hacc. induction rs as [|r rs IH]; intros n Hrs; [done|]. apply Forall_cons in Hrs as [Hr Hrs]. cbn [arriving].
  assert (taken n r = req_bytes r) as -> by (unfold taken; by rewrite Hacc, Nat2Z.id, firstn_all).
  rewrite bool_decide_false; [|intros Hnil; apply (f_equal length) in Hnil; rewrite (req_bytes_length r Hr) in Hnil; pose proof (req_size_bounds r); simpl in Hnil; lia].
  rewrite bool_decide_true by done. by rewrite IH.
Qed.

Lemma run_request o s :
  ∃ s', run_order_op o s = (Ret tt, s') ∧ written s' = written s ++ taken (writes s) (request_of (client_seq s) (session_id s) o) ∧
    writes s' = S (writes s) ∧ client_seq s' = u32 (client_seq s + 1) ∧ session_id s' = session_id s.
Proof.
  destruct o; simpl; unfold send_order, cancel_order, modify_order, next_seq, write;
    repeat (erewrite bind_ret by reflexivity; cbn beta);
    repeat (erewrite bind_ret by (by repeat (erewrite bind_ret by reflexivity; cbn beta)); cbn beta); eexists; (split; [reflexivity|done]).
Qed.

Lemma run_requests os : ∀ s,
  ∃ s', for_each os run_order_op s = (Ret tt, s') ∧
    written s' = written s ++ taken_all (writes s) (requests_of (client_seq s) (session_id s) os).
Proof.
  induction os as [|o os IH]; intros s; [exists s; by rewrite app_nil_r|].
  destruct (run_request o s) as (s1 & Hrun & Hw & Hn & Hc & Hs). destruct (IH s1) as (s' & Hrun' & Hw').
  exists s'. split; [simpl; by erewrite bind_ret by exact Hrun|]. rewrite Hw', Hw, Hn, Hc, Hs, <- app_assoc. done.
Qed.
End requests.

(** ** Properties *)

(** These bytes, cut into any pieces on their way, make the exchange's stream
    parser call its handler with exactly these requests, in order, and keep
    [tail]; at most 1000 requests within a second. *)
Definition read_as (bytes : list byte) (rs : list request) (tail : list byte) : Prop :=
  ∀ (PW : ParserWorld) H (RH : RequestHandler H) fd chunks (P : StreamParser.t) (h h' : H),
    concat chunks = bytes → StreamParser.partial fd P = [] →
    (length (StreamParser.stamps fd P) + length rs ≤ 1000)%nat → for_each rs (deliver fd) h = (Ret tt, h') →
    ∃ P', for_each chunks (StreamParser.parse fd) (P, h) = (Ret tt, (P', h')) ∧ StreamParser.partial fd P' = tail.

(** The socket was asked to take the requests [rs], from its [n]th write on, and
    has taken [bytes]. *)
Definition arrive_of (CW : ClientWorld) (n : nat) (bytes : list byte) (rs : list request) : Prop :=
  let '(got, tail) := arriving n rs in
  got `sublist_of` rs ∧ ((∀ n bs, cw_write n bs = Z.of_nat (length bs)) → got = rs ∧ tail = []) ∧
  ∃ rest, bytes = encoded got ++ tail ++ rest ∧ (tail = [] → rest = []) ∧ read_as (encoded got ++ tail) got tail.

Lemma taken_arrive (CW : ClientWorld) n rs : Forall well_formed rs → arrive_of CW n (taken_all n rs) rs.
Proof.
  intros Hrs. unfold arrive_of. destruct (taken_all_arriving rs n) as (rest & He & Hr).
  destruct (arriving_requests rs n Hrs) as [Hsub [next Hend]].
  pose proof (λ Hacc, arriving_whole rs Hacc n Hrs) as Hall. destruct (arriving n rs) as [got tail]. simpl in *.
  split; [done|]. split; [by intros [= -> ->]%Hall|]. exists rest. split; [done|]. split; [done|].
  intros PW H RH fd chunks P h h' Hc Hp Hn Hd.
  destruct (run_pieces fd next tail chunks got [] P h h') as (P' & Hrun & Hp' & _); try done; [|apply incomplete_nil|eauto].
  apply Forall_forall. intros r Hin. rewrite Forall_forall in Hrs. apply Hrs. eapply elem_of_submseteq; [exact Hin|by apply sublist_submseteq].
Qed.

(** C25 ([requests_arrive]): the orders, cancels and modifications a bot asks its
    client for arrive at the exchange as they were made, with the client's id,
    session and consecutive sequence numbers, as far as its socket takes them:
    those taken whole arrive in order up to the first one that is taken only in
    part (the client does not write the rest, and what follows is out of step),
    and those of which nothing is taken are lost.  When every write is taken
    whole all of them arrive.  (The parser reads at most 1000 within a second.) *)
Theorem requests_arrive (CW : ClientWorld) user os s :
  is_u32 (ui_client_id user) → is_u32 (client_seq s) → is_u64 (session_id s) → Forall op_fits os →
  let rs := requests_of user (client_seq s) (session_id s) os in
  ∃ s' bytes, for_each os (run_order_op user) s = (Ret tt, s') ∧ written s' = written s ++ bytes ∧ arrive_of CW (writes s) bytes rs.
Proof.
  intros Hu Hs Hse Ho rs. destruct (run_requests user os s) as (s' & Hrun & Hw). fold rs in Hw.
  eexists s', _. split; [exact Hrun|]. split; [exact Hw|]. by apply taken_arrive, requests_well_formed.
Qed.

Definition calm_client_world (chunks : list (list byte)) : ClientWorld := {|
  cw_socket := 3; cw_connect := 0; cw_getfl := 0; cw_setfl := 0;
  cw_write := λ _ bs, Z.of_nat (length bs);
  cw_read := λ n _, match chunks !! n with Some c => RecvPacket c | None => RecvWouldBlock end;
  cw_login_session_id := 0;
  cw_stack := replicate 25 x00;
  cw_fuel := 10;
|}.

Definition demo_user : user_info := mk_user "alice" "secret" 10.
Definition demo_ops : list order_op := [SendOrder 1 7 md.SIDE.BUY 100 50 0; ModifyOrder 7 md.SIDE.BUY 90 51; CancelOrder 7].
Definition demo_client : t := set_session_id 99 (set_client_seq 1 initial).

(** A socket that is full for the second request and takes three bytes of the
    fourth. *)
Definition full_client_world : ClientWorld := {|
  cw_socket := 3; cw_connect := 0; cw_getfl := 0; cw_setfl := 0;
  cw_write := λ n bs, match n with 1%nat => -1 | 3%nat => 3 | _ => Z.of_nat (length bs) end;
  cw_read := λ _ _, RecvWouldBlock;
  cw_login_session_id := 0;
  cw_stack := replicate 25 x00;
  cw_fuel := 10;
|}.
Definition more_ops : list order_op := demo_ops ++ [SendOrder 2 8 md.SIDE.BUY 100 50 0; CancelOrder 8].
Definition full_requests : list request := requests_of demo_user 1 99 more_ops.

Lemma requests_arrive_witness : ∃ s' bytes,
  for_each more_ops (run_order_op (CW := full_client_world) demo_user) demo_client = (Ret tt, s') ∧ written s' = bytes ∧
  arriving (CW := full_client_world) 0 full_requests = (omap (λ i, full_requests !! i) [0; 2]%nat, take 3 (default [] (req_bytes <$> full_requests !! 3%nat))) ∧
  arrive_of full_client_world 0 bytes full_requests.
Proof.
  destruct (requests_arrive full_client_world demo_user more_ops demo_client) as (s' & bytes & Hrun & Hw & Ha); [by_decide..|].
  exists s', bytes. split; [exact Hrun|]. split; [exact Hw|]. split; [vm_compute; reflexivity|exact Ha].
Defined.

(** C26 ([client_positions]): whatever acks, rejects, fills and closes the exchange
    sends, and however their bytes are cut into reads, the client reads them all
    and its position in a symbol moves by the quantities bought less those sold
    in it, as 32-bit integers count; the orders it holds open are those sent and
    not closed. *)
Theorem client_positions (CW : ClientWorld) rs chunks s :
  Forall response_ok rs → concat chunks = joined resp_bytes rs → buffer s = [] → positions_ok s →
  (∀ k c, chunks !! k = Some c → cw_read (reads s + k) READ_SIZE = RecvPacket c) →
  Forall (λ c, length c ≤ READ_SIZE)%nat chunks →
  ∃ s', for_each chunks (λ _, process) s = (Ret tt, s') ∧ buffer s' = [] ∧
    open_orders s' = foldl opens_after (open_orders s) rs ∧
    ∀ y, get_position y s' = s32 (get_position y s + net y (open_orders s) rs).
Proof.
  intros Hok Hc Hb Hp Hw Hl. destruct (run_client_processes chunks rs s Hok) as (s' & Hrun & Hbuf & Hpos & Hop); [by rewrite Hb| |done..|].
  { rewrite Hb. destruct rs as [|r rs]; [done|]. apply Forall_cons in Hok as [Hr _]. simpl. rewrite resp_bytes_length by done.
    pose proof (resp_size_bounds r). lia. }
  destruct (resp_steps_positions rs s Hp) as (_ & H2 & H3). exists s'. split; [done|]. split; [done|].
  split; [by rewrite Hop|]. intros y. rewrite <- H3. unfold get_position. by rewrite Hpos.
Qed.

Definition demo_resp_header (size ty seq : Z) : oe.oe_response_header :=
  oe.Build_oe_response_header size ty oe.OE_PROTOCOL_VERSION seq 1 10.
Definition demo_responses : list response :=
  [SAck (oe.Build_order_ack (demo_resp_header 40 101 1) 7 1001 100 50);
   SFill (oe.Build_order_fill (demo_resp_header 33 103 2) 7 60 50 oe.FILL_FLAGS.PARTIAL_FILL);
   SFill (oe.Build_order_fill (demo_resp_header 33 103 3) 8 25 49 oe.FILL_FLAGS.CLOSED);
   SReject (oe.Build_order_reject (demo_resp_header 25 102 4) 9 oe.REJECT_REASON.INVALID_PRICE);
   SClose (oe.Build_order_closed (demo_resp_header 24 104 5) 7)].
Definition demo_holder : t := set_open_orders (<[7 := mk_open md.SIDE.BUY 1]> {[8 := mk_open md.SIDE.SELL 1]}) initial.
Definition demo_chunks : list (list byte) := pieces 100 (joined resp_bytes demo_responses).

Lemma client_positions_witness : length demo_chunks = 52%nat ∧ ∃ s',
  for_each demo_chunks (λ _, process (H := calm_client_world demo_chunks)) demo_holder = (Ret tt, s') ∧ get_position 1 s' = 35.
Proof.
  split; [vm_compute; reflexivity|].
  destruct (client_positions (calm_client_world demo_chunks) demo_responses demo_chunks demo_holder) as (s' & Hrun & _ & _ & Hp).
  - repeat constructor; vm_compute; repeat split; try done; intros [=].
  - vm_compute. reflexivity.
  - reflexivity.
  - intros y. by_decide.
  - intros k c Hk. unfold cw_read, calm_client_world. simpl plus. by rewrite Hk.
  - by_decide.
  - exists s'. split; [exact Hrun|]. rewrite Hp. vm_compute. reflexivity.
Defined.
