(* ===== verification/Strategy.v ===== *)
(** * What the bots' strategies work with

    A strategy holds references to an order entry client, a market data client
    and the program's counter of order ids, which all strategies of a program
    share.  It sees the two clients through interfaces. *)
From Stdlib Require Import Init.Byte.
From S2P Require Import Prelude Protocol SnapshotClient ClientHandler BotBook MdClient OeClient.

(** The market data client as a strategy sees it. *)
Class MarketView (D : Type) := {
  mv_best_bid : Z → D → OrderBook.PriceLevel;
  mv_best_ask : Z → D → OrderBook.PriceLevel;
}.

#[global] Instance md_client_view : MarketView MDClient.t := {|
  mv_best_bid := MDClient.get_best_bid;
  mv_best_ask := MDClient.get_best_ask;
|}.

(** A market that is given. *)
Record quotes := mk_quotes { q_bid : Z → OrderBook.PriceLevel; q_ask : Z → OrderBook.PriceLevel }.
#[global] Instance quotes_view : MarketView quotes := {| mv_best_bid := λ y q, q_bid q y; mv_best_ask := λ y q, q_ask q y |}.

(** The clock, [rand] and the draws of the random distributions, call by call. *)
Class BotWorld := {
  bt_clock : nat → Z;
  bt_rand : nat → Z;
  bt_draw : nat → Z → Z → Z;
}.

Record shared (O D : Type) := mk_shared { sh_oe : O; sh_md : D; sh_last_order_id : Z; sh_calls : nat }.
#[global] Arguments mk_shared {O D} _ _ _ _.
#[global] Arguments sh_oe {O D} _.
#[global] Arguments sh_md {O D} _.
#[global] Arguments sh_last_order_id {O D} _.
#[global] Arguments sh_calls {O D} _.

Section strategy.
Context `{BT : BotWorld} {O D : Type} `{OE : !OrderEntry O} {T : Type}.
Abbreviation SM := (M (shared O D * T)).

Definition set_oe (o : O) (s : shared O D * T) : shared O D * T :=
  (mk_shared o (sh_md s.1) (sh_last_order_id s.1) (sh_calls s.1), s.2).
Definition set_last_order_id (n : Z) (s : shared O D * T) : shared O D * T :=
  (mk_shared (sh_oe s.1) (sh_md s.1) n (sh_calls s.1), s.2).
Definition count_call (s : shared O D * T) : shared O D * T :=
  (mk_shared (sh_oe s.1) (sh_md s.1) (sh_last_order_id s.1) (S (sh_calls s.1)), s.2).

(** The strategy's own members. *)
Definition get_own {A} (f : T → A) : SM A := gets (λ s, f s.2).
Definition on_own (f : T → T) : SM unit := modify (λ s, (s.1, f s.2)).
Definition get_md {A} (f : D → A) : SM A := gets (λ s, f (sh_md s.1)).
Definition on_oe (m : M O unit) : SM unit := zoom (λ s, sh_oe s.1) set_oe m.

Definition ask {A} (f : nat → A) : SM A :=
  n ← gets (λ s, sh_calls s.1);
  modify count_call;;
  mret (f n).

Definition nanotime : SM Z := ask (λ n, clock_nanotime (bt_clock n)).

(** [last_order_id++] *)
Definition next_order_id : SM Z :=
  n ← gets (λ s, sh_last_order_id s.1);
  modify (set_last_order_id (u32 (n + 1)));;
  mret n.

(** Overflow of a signed integer is undefined. *)
Definition int32 (z : Z) : SM Z :=
  if bool_decide (is_s32 z) then mret z else throw (undefined_behaviour "signed overflow").

(** [price / tick] and [price % tick] of an [int32_t] and a [uint32_t] are
    unsigned. *)
Definition udiv (price tick : Z) : SM Z :=
  if tick =? 0 then throw (undefined_behaviour "division by zero") else mret (u32 price / tick).
Definition umod (price tick : Z) : SM Z :=
  if tick =? 0 then throw (undefined_behaviour "division by zero") else mret (u32 price mod tick).

(** [ts == 0 || nanotime() - ts > 100000000] *)
Definition rested (ts : Z) : SM bool :=
  if ts =? 0 then mret true else now ← nanotime; mret (u64 (now - ts) >? 100000000).
End strategy.
