(* ===== verification/FairValue.v ===== *)
(** * [bots/fair_value.H]: where a market maker takes its fair value from

    The interface and its two implementations, [constant_fair_value.cpp] and
    [random_walk_fair_value.cpp]. *)
From S2P Require Import Prelude Protocol.

Class FairValue (F : Type) := fv_process : Z → M F Z.

(** A fair value of either kind behind a pointer to the base class. *)
#[global] Instance fair_value_sum {F G} `{FF : !FairValue F} `{FG : !FairValue G} : FairValue (F + G) := λ ts s,
  match s with
  | inl f => let '(r, f) := FF ts f in (r, inl f)
  | inr g => let '(r, g) := FG ts g in (r, inr g)
  end.

Module ConstantFairValue.
Record t := mk { fair_value : Z }.
#[global] Instance process : FairValue t := λ ts, gets fair_value.
End ConstantFairValue.

(** The draws of [walk_value] and [time_dist] with the generator of a seed. *)
Class WalkWorld := {
  ww_walk : nat → nat → Z;
  ww_time : nat → nat → Z;
}.

Module RandomWalkFairValue.

Record t := mk {
  fair_value : Z;
  last_ts : Z;
  min_price : Z;
  max_price : Z;
  tick_size : Z;
  walk_bound : Z;
  seed : nat;
  draws : nat;
}.

Definition calculate_dist (tick_size : Z) : Z := if tick_size <? 10 then 1 else tick_size / 5.

(** The distribution draws from [-walk_bound] to [walk_bound]. *)
Definition initial (start_price : Z) (symbol : symbol_definition) (rd : nat) : t :=
  mk start_price 0 (sym_min_price symbol) (sym_max_price symbol) (sym_tick_size symbol)
    (s32 (calculate_dist (sym_tick_size symbol))) rd 0.

Definition set_fair_value (v : Z) (s : t) : t := mk v (last_ts s) (min_price s) (max_price s) (tick_size s) (walk_bound s) (seed s) (draws s).
Definition set_last_ts (ts : Z) (s : t) : t := mk (fair_value s) ts (min_price s) (max_price s) (tick_size s) (walk_bound s) (seed s) (draws s).
Definition count_draw (s : t) : t := mk (fair_value s) (last_ts s) (min_price s) (max_price s) (tick_size s) (walk_bound s) (seed s) (S (draws s)).

Section ops.
Context `{WW : WalkWorld}.

Definition draw (f : nat → nat → Z) : M t Z :=
  s ← gets id;
  modify count_draw;;
  mret (f (seed s) (draws s)).

Definition int32 (z : Z) : M t Z :=
  if bool_decide (is_s32 z) then mret z else throw (undefined_behaviour "signed overflow").

#[global] Instance process : FairValue t := λ ts,
  last ← gets last_ts;
  if last =? 0 then
    d ← draw ww_time;
    modify (set_last_ts (u64 (ts + d)));;
    gets fair_value
  else if ts <=? last then gets fair_value
  else
    change ← draw ww_walk;
    v ← gets fair_value;
    v ← int32 (v + change);
    modify (set_fair_value v);;
    s ← gets id;
    tick_step ← int32 (s32 (tick_size s) * 5);
    low ← int32 (min_price s + tick_step);
    (if v <? low then modify (set_fair_value low)
     else
       high ← int32 (max_price s - tick_step);
       when (v >? high) (modify (set_fair_value high)));;
    d ← draw ww_time;
    modify (set_last_ts (u64 (ts + d)));;
    gets fair_value.
End ops.
End RandomWalkFairValue.

(** ** The walk *)

Section walk.
Context `{WW : WalkWorld} (symbol : symbol_definition) (rd : nat).
Import RandomWalkFairValue.

Definition walk_low : Z := sym_min_price symbol + 5 * sym_tick_size symbol.
Definition walk_high : Z := sym_max_price symbol - 5 * sym_tick_size symbol.

(** A symbol whose prices leave room for the walk. *)
Record walkable : Prop := {
  wk_tick : 1 ≤ sym_tick_size symbol;
  wk_step : is_s32 (5 * sym_tick_size symbol);
  wk_min : is_s32 (sym_min_price symbol);
  wk_max : is_s32 (sym_max_price symbol);
  wk_range : walk_low ≤ walk_high;
}.

#[local] Abbreviation bound := (calculate_dist (sym_tick_size symbol)).

Record walking (s : t) : Prop := {
  wl_value : walk_low ≤ fair_value s ≤ walk_high;
  wl_min : min_price s = sym_min_price symbol;
  wl_max : max_price s = sym_max_price symbol;
  wl_tick : tick_size s = sym_tick_size symbol;
  wl_seed : seed s = rd;
}.

Lemma calculate_dist_bound : walkable → 1 ≤ bound ≤ 5 * sym_tick_size symbol.
Proof. intros [? ? _ _ _]. unfold calculate_dist. case_match; [lia|]. Z.div_mod_to_equations. lia. Qed.

Lemma int32_ret z s : is_s32 z → int32 z s = (Ret z, s).
Proof. intros Hz. unfold int32. by rewrite bool_decide_true. Qed.

(** One call returns the new value, in range and at most the bound away. *)
Lemma run_walk ts s :
  walkable → walking s → (∀ n, Z.abs (ww_walk rd n) ≤ bound) →
  ∃ v s', process ts s = (Ret v, s') ∧ walking s' ∧ fair_value s' = v ∧ Z.abs (v - fair_value s) ≤ bound.
Proof.
  intros Hs Hw Hd. pose proof (calculate_dist_bound Hs) as Hb. pose proof (Hd (draws s)) as Hc.
  rewrite <- (wl_seed s Hw) in Hc.
  destruct Hs as [H1 H2 H3 H4 H5]. pose proof Hw as [V1 V2 V3 V4 V5]. unfold walk_low, walk_high, is_s32 in *.
  unfold process, draw. msteps.
  case_match.
  { eexists _, _. split; [repeat (msteps; simpl); reflexivity|]. split; [by constructor|]. simpl. split; [done|lia]. }
  case_match.
  { eexists _, _. split; [reflexivity|]. split; [done|]. split; [done|lia]. }
  rewrite (bind_ret _ _ _ (ww_walk (seed s) (draws s)) (count_draw s)) by reflexivity. cbn beta. msteps.
  set (v := fair_value (count_draw s) + ww_walk (seed s) (draws s)). assert (v = fair_value s + ww_walk (seed s) (draws s)) as Ev by done. clearbody v.
  erewrite bind_ret by (apply int32_ret; unfold is_s32; lia). cbn beta. msteps.
  cbn [id set_fair_value tick_size min_price max_price count_draw]. rewrite V2, V3, V4.
  rewrite s32_id by (unfold is_s32; lia). erewrite bind_ret by (apply int32_ret; unfold is_s32; lia). cbn beta.
  erewrite bind_ret by (apply int32_ret; unfold is_s32; lia). cbn beta.
  destruct (Z.ltb_spec v (sym_min_price symbol + sym_tick_size symbol * 5)) as [Hl|Hl].
  - msteps. eexists _, _. split; [reflexivity|]. simpl. split; [constructor; unfold walk_low, walk_high; simpl; try done; lia|].
    split; [done|lia].
  - destruct (v >? sym_max_price symbol - sym_tick_size symbol * 5) eqn:Hg;
      (erewrite bind_ret; [|erewrite bind_ret by (apply int32_ret; unfold is_s32; lia); cbn beta; rewrite Hg; reflexivity]);
      cbn beta; msteps; rewrite Z.gtb_ltb in Hg; (apply Z.ltb_lt in Hg || apply Z.ltb_ge in Hg).
    all: eexists _, _; split; [reflexivity|]; simpl; split; [constructor; unfold walk_low, walk_high; simpl; try done; lia|].
    all: split; [done|lia].
Qed.

(** Neighbours in a list are at most [d] apart. *)
Fixpoint steps_within (d : Z) (v : Z) (vs : list Z) : Prop :=
  match vs with [] => True | w :: vs => Z.abs (w - v) ≤ d ∧ steps_within d w vs end.
End walk.

(** ** Properties *)

(** C39 ([random_walk_in_range]): a random walk that starts at least five ticks inside
    the symbol's price range stays there at every reading of the clock and moves
    by at most the bound of its distribution at a time; the arithmetic never
    overflows. *)
Theorem random_walk_in_range (WW : WalkWorld) symbol start rd :
  walkable symbol → walk_low symbol ≤ start ≤ walk_high symbol →
  (∀ n, Z.abs (ww_walk rd n) ≤ RandomWalkFairValue.calculate_dist (sym_tick_size symbol)) →
  ∀ times, ∃ vs s',
    mapM RandomWalkFairValue.process times (RandomWalkFairValue.initial start symbol rd) = (Ret vs, s') ∧
    length vs = length times ∧ Forall (λ v, walk_low symbol ≤ v ≤ walk_high symbol) vs ∧
    steps_within (RandomWalkFairValue.calculate_dist (sym_tick_size symbol)) start vs.
Proof.
  intros Hs Hst Hd times.
  assert (walking symbol rd (RandomWalkFairValue.initial start symbol rd)) as Hw by by constructor.
  change start with (RandomWalkFairValue.fair_value (RandomWalkFairValue.initial start symbol rd)) at 2.
  generalize dependent (RandomWalkFairValue.initial start symbol rd).
  induction times as [|ts times IH]; intros s Hw; [by exists [], s; repeat split; constructor|].
  destruct (run_walk symbol rd ts s Hs Hw Hd) as (v & s1 & Hrun & Hw1 & Hv & Hb).
  destruct (IH s1 Hw1) as (vs & s' & Hrun' & Hl & Hvs & Hsteps).
  exists (v :: vs), s'. split; [simpl; mstep; by mstep|]. split; [simpl; by f_equal|].
  split; [constructor; [rewrite <- Hv; apply Hw1|done]|]. simpl. rewrite <- Hv at 2. by split.
Qed.

Definition gold : symbol_definition := Build_symbol_definition 1 10 1 1000 10000 100.

(** A walk that always draws the lowest. *)
Definition falling_world : WalkWorld := {| ww_walk := λ _ _, -2; ww_time := λ _ _, 5 |}.

Lemma random_walk_in_range_witness :
  (mapM (RandomWalkFairValue.process (WW := falling_world)) [1; 10; 20; 30] (RandomWalkFairValue.initial 153 gold 0)).1 = Ret [153; 151; 150; 150] ∧
  ∃ vs s', mapM (RandomWalkFairValue.process (WW := falling_world)) [1; 10; 20; 30] (RandomWalkFairValue.initial 153 gold 0) = (Ret vs, s') ∧
    length vs = 4%nat ∧ Forall (λ v, 150 ≤ v ≤ 9950) vs ∧ steps_within 2 153 vs.
Proof.
  split; [reflexivity|].
  apply (random_walk_in_range falling_world gold 153 0).
  - constructor; unfold walk_low, walk_high, is_s32; simpl; lia.
  - unfold walk_low, walk_high. simpl. lia.
  - intros n. vm_compute. discriminate.
Defined.
