(* ===== verification/StackManager.v ===== *)
(** * [bots/stack_manager.cpp] and [bots/fair_value_stack_mm.cpp]

    The stack manager keeps a stack of bids below and of asks above a fair value;
    the stacking market maker feeds it the weighted mid price of the market. *)
From S2P Require Import Prelude Protocol BotBook OeClient Strategy.

Module StackManager.

Record open_order := mk_open { order_id : Z; price : Z; quantity : Z }.

#[global] Instance open_order_eq_dec : EqDecision open_order.
Proof. solve_decision. Defined.

(** The two sets are the lists of their elements in the order of the set's
    comparison. *)
Record t := mk {
  symbol : symbol_definition;
  width_in_ticks : Z;
  stack_quantity : Z;
  stack_depth : Z;
  last_order_send_ts : Z;
  bid_orders : list open_order;
  ask_orders : list open_order;
}.

Definition initial (symbol : symbol_definition) (width_in_ticks quantity stack_depth : Z) : t :=
  mk symbol width_in_ticks quantity stack_depth 0 [] [].

Definition set_last_order_send_ts (ts : Z) (s : t) : t :=
  mk (symbol s) (width_in_ticks s) (stack_quantity s) (stack_depth s) ts (bid_orders s) (ask_orders s).

Definition orders_of (side : Z) (s : t) : list open_order :=
  if side =? md.SIDE.BUY then bid_orders s else ask_orders s.
Definition set_orders (side : Z) (os : list open_order) (s : t) : t :=
  if side =? md.SIDE.BUY
  then mk (symbol s) (width_in_ticks s) (stack_quantity s) (stack_depth s) (last_order_send_ts s) os (ask_orders s)
  else mk (symbol s) (width_in_ticks s) (stack_quantity s) (stack_depth s) (last_order_send_ts s) (bid_orders s) os.

(** ** The two sets: [std::less] for bids, [std::greater] for asks *)

Definition before (side : Z) (a b : open_order) : bool :=
  if side =? md.SIDE.BUY then price a <? price b else price a >? price b.

Fixpoint insert (side : Z) (o : open_order) (os : list open_order) : list open_order :=
  match os with
  | [] => [o]
  | x :: os' => if before side o x then o :: os else if before side x o then x :: insert side o os' else os
  end.

Definition same (side : Z) (a b : open_order) : bool := negb (before side a b) && negb (before side b a).
Definition find (side : Z) (o : open_order) (os : list open_order) : option open_order := List.find (same side o) os.
Definition erase (side : Z) (o : open_order) (os : list open_order) : list open_order :=
  List.filter (λ x, negb (same side o x)) os.

Section ops.
Context `{BT : BotWorld} {O D : Type} `{OE : !OrderEntry O}.
Abbreviation SM := (M (shared O D * t)).

Definition improve (price side ticks : Z) : SM Z :=
  width ← get_own width_in_ticks;
  mret (s32 (if side =? md.SIDE.BUY then price + u32 (width * ticks) else price - u32 (width * ticks))).

Definition worsen (price side ticks : Z) : SM Z :=
  width ← get_own width_in_ticks;
  mret (s32 (if side =? md.SIDE.BUY then price - u32 (width * ticks) else price + u32 (width * ticks))).

(** An order ahead of the price. *)
Definition ahead (side p : Z) (o : open_order) : bool :=
  (side =? md.SIDE.BUY) && (price o >? p) || (side =? md.SIDE.SELL) && (price o <? p).

Definition cancel_ahead (side p : Z) : SM unit :=
  os ← get_own (orders_of side);
  for_each os (λ o,
    when (ahead side p o)
      (on_oe (oe_cancel_order (order_id o));;
       on_own (λ s, set_orders side (erase side o (orders_of side s)) s))).

Definition may_send : SM bool := ts ← get_own last_order_send_ts; rested ts.

Definition stamp : SM unit := now ← nanotime; on_own (set_last_order_send_ts now).

Definition stack_side (p side : Z) : SM unit :=
  cancel_ahead side p;;
  s ← get_own id;
  let os := orders_of side s in
  match find side (mk_open 0 p 0) os with
  | Some _ => mret tt
  | None =>
      if stack_depth s <=? Z.of_nat (length os) then
        match last os with
        | None => throw (undefined_behaviour "rbegin of an empty set")
        | Some worst_order =>
            on_oe (oe_modify_order (order_id worst_order) side (stack_quantity s) p);;
            stamp;;
            on_own (λ s', set_orders side (insert side (mk_open (order_id worst_order) p (stack_quantity s))
                                             (removelast (orders_of side s'))) s')
        end
      else
        send ← may_send;
        when send
          (id ← next_order_id;
           on_own (λ s', set_orders side (insert side (mk_open id p (stack_quantity s)) (orders_of side s')) s');;
           on_oe (oe_send_order (sym_symbol (symbol s)) id side (stack_quantity s) p 0);;
           stamp)
  end.

(** [x / tick * tick] of an [int32_t] and a [uint32_t]. *)
Definition round_down (x : Z) : SM Z :=
  s ← get_own symbol;
  q ← udiv x (sym_tick_size s);
  mret (s32 (q * sym_tick_size s)).

Definition process (fair_value bid_price ask_price : Z) : SM unit :=
  s ← get_own id;
  desired_bid_price ← round_down (s32 (fair_value - width_in_ticks s));
  x ← int32 (s32 (fair_value + width_in_ticks s) - 1);
  desired_ask_price ← round_down x;
  let bid := Z.min desired_bid_price bid_price in
  let ask := Z.max desired_ask_price ask_price in
  let bid := if bid <? sym_min_price (symbol s) then sym_min_price (symbol s) else bid in
  let ask := if ask >? sym_max_price (symbol s) then sym_max_price (symbol s) else ask in
  if bid >=? ask then mret tt
  else
    when (bid >? 0) (stack_side bid md.SIDE.BUY);;
    when (ask >? 0) (stack_side ask md.SIDE.SELL).

(** The orders stay in the sets. *)
Definition cancel_all_orders : SM unit :=
  s ← get_own id;
  for_each (bid_orders s) (λ o, on_oe (oe_cancel_order (order_id o)));;
  for_each (ask_orders s) (λ o, on_oe (oe_cancel_order (order_id o))).
End ops.
End StackManager.

Module FairValueStackingMarketMaker.

Record t := mk { symbol : symbol_definition; stack_manager : StackManager.t }.

Definition initial (symbol : symbol_definition) (width_in_ticks quantity : Z) : t :=
  mk symbol (StackManager.initial symbol width_in_ticks quantity 10).

Section ops.
Context `{BT : BotWorld} {O D : Type} `{OE : !OrderEntry O} `{MV : !MarketView D}.
Abbreviation SM := (M (shared O D * t)).

Definition on_stack (m : M (shared O D * StackManager.t) unit) : SM unit :=
  zoom (λ s, (s.1, stack_manager s.2)) (λ r s, (r.1, mk (symbol s.2) r.2)) m.

(** Prices are [int32_t], quantities [uint32_t]: the products, the sum and the
    quotient are unsigned 32-bit integers.  The quotient by the tick is one of
    doubles; both are below 2^32, so truncation gives the integer quotient. *)
Definition process : SM unit :=
  y ← get_own symbol;
  best_bid ← get_md (mv_best_bid (sym_symbol y));
  best_ask ← get_md (mv_best_ask (sym_symbol y));
  let bp := OrderBook.level_price best_bid in
  let ap := OrderBook.level_price best_ask in
  let bq := OrderBook.level_quantity best_bid in
  let aq := OrderBook.level_quantity best_ask in
  if (bp =? 0) || (ap =? 0) then mret tt
  else if bp >=? ap then mret tt
  else if (bq =? 0) || (aq =? 0) then mret tt
  else
    wmid_price ← udiv (bp * aq + ap * bq) (u32 (bq + aq));
    ticks ← udiv wmid_price (sym_tick_size y);
    if bool_decide (is_s32 ticks) then
      on_stack (StackManager.process (s32 (ticks * sym_tick_size y)) bp ap)
    else throw (undefined_behaviour "double out of the range of int32_t").
End ops.
End FairValueStackingMarketMaker.
