(* ===== verification/OrderJournal.v ===== *)
(** * What a strategy has asked for

    An order entry client under any of the bots' strategies is wrapped in one
    that writes down the requests, and the requests are replayed to the orders
    they leave open. *)
From S2P Require Import Prelude Protocol SnapshotClient Validator ClientHandler OeClient OeClientTheorems Strategy.

(** ** Order entry that returns *)

(** No request of the strategy throws. *)
Class QuietEntry (O : Type) `{!OrderEntry O} : Prop := {
  qe_send y i d q p f (o : O) : ∃ o', oe_send_order y i d q p f o = (Ret tt, o');
  qe_cancel i (o : O) : ∃ o', oe_cancel_order i o = (Ret tt, o');
  qe_modify i d q p (o : O) : ∃ o', oe_modify_order i d q p o = (Ret tt, o');
}.

(** The bots' client is one, whatever its socket answers. *)
#[global] Instance oe_client_quiet `{CW : ClientWorld} user : QuietEntry OEClient.t (OrderEntry0 := OEClient.order_entry user).
Proof. split; intros; eexists; reflexivity. Qed.

Section recorder.
Context {O : Type} `{OE : !OrderEntry O}.

Definition record (op : order_op) (m : M O unit) : M (O * list order_op) unit := λ s,
  let '(r, o) := m s.1 in (r, (o, s.2 ++ [op])).

#[global] Instance recorder : OrderEntry (O * list order_op) := {|
  oe_send_order y i d q p f := record (SendOrder y i d q p f) (oe_send_order y i d q p f);
  oe_cancel_order i := record (CancelOrder i) (oe_cancel_order i);
  oe_modify_order i d q p := record (ModifyOrder i d q p) (oe_modify_order i d q p);
  oe_get_position y s := oe_get_position y s.1;
|}.
End recorder.

(** A strategy above a recorded client. *)
Section strategy.
Context `{BT : BotWorld} {O D T : Type} `{OE : !OrderEntry O} `{QE : !QuietEntry O}.
Abbreviation St := (shared (O * list order_op) D * T)%type.

Definition journal (s : St) : list order_op := (sh_oe s.1).2.

(** Nothing but the order entry client and the clock's count changes, and the
    client by these requests. *)
Record asked (ops : list order_op) (s s' : St) : Prop := {
  as_own : s'.2 = s.2;
  as_journal : journal s' = journal s ++ ops;
  as_md : sh_md s'.1 = sh_md s.1;
  as_last : sh_last_order_id s'.1 = sh_last_order_id s.1;
}.

Lemma asked_nil s : asked [] s s.
Proof. split; rewrite ?app_nil_r; done. Qed.

Lemma run_oe_send y i d q p f s :
  ∃ s', on_oe (T := T) (oe_send_order y i d q p f) s = (Ret tt, s') ∧ asked [SendOrder y i d q p f] s s'.
Proof using QE.
  destruct (qe_send y i d q p f (sh_oe s.1).1) as [o' Ho]. unfold on_oe, zoom. simpl. unfold record. rewrite Ho.
  eexists. split; [reflexivity|]. by split.
Qed.

Lemma run_oe_cancel i s : ∃ s', on_oe (T := T) (oe_cancel_order i) s = (Ret tt, s') ∧ asked [CancelOrder i] s s'.
Proof using QE.
  destruct (qe_cancel i (sh_oe s.1).1) as [o' Ho]. unfold on_oe, zoom. simpl. unfold record. rewrite Ho.
  eexists. split; [reflexivity|]. by split.
Qed.

Lemma run_oe_modify i d q p s :
  ∃ s', on_oe (T := T) (oe_modify_order i d q p) s = (Ret tt, s') ∧ asked [ModifyOrder i d q p] s s'.
Proof using QE.
  destruct (qe_modify i d q p (sh_oe s.1).1) as [o' Ho]. unfold on_oe, zoom. simpl. unfold record. rewrite Ho.
  eexists. split; [reflexivity|]. by split.
Qed.

Lemma run_nanotime (s : St) : ∃ ts s', nanotime s = (Ret ts, s') ∧ asked [] s s'.
Proof. eexists _, _. split; [reflexivity|]. split; simpl; rewrite ?app_nil_r; done. Qed.
End strategy.

(** ** The orders requests leave open *)

Definition side_ok (side : Z) : Prop := side = md.SIDE.BUY ∨ side = md.SIDE.SELL.

Record resting := mk_resting { rs_symbol : Z; rs_side : Z; rs_price : Z; rs_quantity : Z }.

Definition apply_op (m : gmap Z resting) (op : order_op) : gmap Z resting :=
  match op with
  | SendOrder y i d q p _ => <[i := mk_resting y d p q]> m
  | CancelOrder i => delete i m
  | ModifyOrder i d q p => alter (λ r, mk_resting (rs_symbol r) d p q) i m
  end.

Definition replay (ops : list order_op) : gmap Z resting := foldl apply_op ∅ ops.

Lemma replay_snoc ops op : replay (ops ++ [op]) = apply_op (replay ops) op.
Proof. unfold replay. by rewrite foldl_app. Qed.

(** The requests leave exactly these orders open. *)
Definition tracks (ops : list order_op) (l : list (Z * resting)) : Prop :=
  NoDup l.*1 ∧ replay ops = list_to_map l.

Lemma tracks_perm ops l l' : l ≡ₚ l' → tracks ops l → tracks ops l'.
Proof.
  intros Hp [Hn Hr]. split; [by rewrite <- Hp|]. rewrite Hr. apply list_to_map_proper; done.
Qed.

Lemma tracks_nil : tracks [] [].
Proof. split; [constructor|done]. Qed.

Lemma tracks_send ops l y i d q p f : tracks ops l → i ∉ l.*1 → tracks (ops ++ [SendOrder y i d q p f]) ((i, mk_resting y d p q) :: l).
Proof. intros [Hn Hr] Hi. split; [by constructor|]. by rewrite replay_snoc, Hr. Qed.

Lemma tracks_cancel ops i x l : tracks ops ((i, x) :: l) → tracks (ops ++ [CancelOrder i]) l.
Proof.
  intros [Hn Hr]. apply NoDup_cons in Hn as [Hi Hn]. split; [done|]. rewrite replay_snoc, Hr. simpl.
  apply delete_insert_id. by apply not_elem_of_list_to_map.
Qed.

Lemma tracks_modify ops i y d0 p0 q0 l d q p :
  tracks ops ((i, mk_resting y d0 p0 q0) :: l) → tracks (ops ++ [ModifyOrder i d q p]) ((i, mk_resting y d p q) :: l).
Proof.
  intros [Hn Hr]. split; [done|]. rewrite replay_snoc, Hr. simpl. apply map_eq. intros j.
  destruct (decide (i = j)) as [<-|Hj]; [by rewrite lookup_alter_eq, !lookup_insert_eq|].
  by rewrite lookup_alter_ne, !lookup_insert_ne.
Qed.
