(* ===== verification/StackTheorems.v ===== *)
(** * The properties of the stack manager

    Its two stacks are the orders its requests leave open, they never cross, and
    it asks for nothing that could trade at once. *)
From S2P Require Import Prelude Protocol SnapshotClient Validator ClientHandler BotBook OeClient OeClientTheorems Strategy OrderJournal StackManager.
Import StackManager.

(** ** The ordered sets *)

Definition other (side : Z) : Z := if side =? md.SIDE.BUY then md.SIDE.SELL else md.SIDE.BUY.

(** How aggressive a price is on its side. *)
Definition key (side p : Z) : Z := if side =? md.SIDE.BUY then p else - p.

Definition sorted (side : Z) (os : list open_order) : Prop :=
  StronglySorted (λ a b, key side (price a) < key side (price b)) os.

Lemma before_key side a b : before side a b = (key side (price a) <? key side (price b)).
Proof. unfold before, key. destruct (side =? md.SIDE.BUY); [done|]. rewrite Z.gtb_ltb. apply Bool.eq_iff_eq_true. rewrite !Z.ltb_lt. lia. Qed.

Lemma same_price side a b : same side a b = (price a =? price b).
Proof.
  unfold same. rewrite !before_key. unfold key. apply Bool.eq_iff_eq_true.
  rewrite andb_true_iff, !negb_true_iff, !Z.ltb_ge, Z.eqb_eq. destruct (side =? md.SIDE.BUY); lia.
Qed.

Lemma ahead_key side p o : side_ok side → ahead side p o = (key side p <? key side (price o)).
Proof.
  intros [-> | ->]; unfold ahead, key; rewrite Z.gtb_ltb; cbn -[Z.ltb Z.opp]; [by rewrite orb_false_r|].
  apply Bool.eq_iff_eq_true. rewrite !Z.ltb_lt. lia.
Qed.

Lemma key_inj side p q : key side p = key side q → p = q.
Proof. unfold key. destruct (side =? md.SIDE.BUY); lia. Qed.

Lemma insert_last side o os : Forall (λ x, key side (price x) < key side (price o)) os → insert side o os = os ++ [o].
Proof.
  induction 1 as [|x os Hx _ IH]; [done|]. simpl. rewrite !before_key, (proj2 (Z.ltb_ge _ _)), (proj2 (Z.ltb_lt _ _)) by lia.
  by rewrite IH.
Qed.

Lemma erase_all side o os : Forall (λ x, price x ≠ price o) os → erase side o os = os.
Proof.
  induction 1 as [|x os Hx _ IH]; [done|]. unfold erase in *. simpl. rewrite same_price, (proj2 (Z.eqb_neq _ _)) by done.
  simpl. by rewrite IH.
Qed.

Lemma erase_app side o k l : erase side o (k ++ l) = erase side o k ++ erase side o l.
Proof. apply List.filter_app. Qed.

Lemma sorted_app side k l :
  sorted side (k ++ l) ↔ sorted side k ∧ sorted side l ∧ ∀ a b, a ∈ k → b ∈ l → key side (price a) < key side (price b).
Proof.
  induction k as [|x k IH]; simpl.
  { split; [intros H; repeat split; [constructor|done|by intros ? ? ?%elem_of_nil]|by intros (_ & ? & _)]. }
  split.
  - intros H. inversion_clear H as [|? ? H1 H2]. apply IH in H1 as (Hk & Hl & Hkl). rewrite Forall_forall in H2.
    split; [constructor; [done|]; apply Forall_forall; intros b Hb; apply H2, elem_of_app; by left|]. split; [done|].
    intros a b [-> |Ha]%elem_of_cons Hb; [apply H2, elem_of_app; by right|by apply Hkl].
  - intros (Hk & Hl & Hkl). inversion_clear Hk as [|? ? H1 H2]. constructor.
    + apply IH. split_and!; [done|done|]. intros a b Ha Hb. apply Hkl; [by constructor|done].
    + apply Forall_app. split; [done|]. apply Forall_forall. intros b Hb. apply Hkl; [constructor|done].
Qed.

Lemma erase_middle side o k l : sorted side (k ++ o :: l) → erase side o (k ++ o :: l) = k ++ l.
Proof.
  intros Hs. apply sorted_app in Hs as (_ & Hs & Hk). rewrite erase_app. f_equal.
  - apply erase_all, Forall_forall. intros x Hx Hp. specialize (Hk x o Hx ltac:(constructor)). rewrite Hp in Hk. lia.
  - inversion_clear Hs as [|? ? _ Hl]. change (o :: l) with ([o] ++ l). rewrite erase_app.
    rewrite (erase_all side o l). { unfold erase. simpl. by rewrite same_price, Z.eqb_refl. }
    apply Forall_forall. rewrite Forall_forall in Hl. intros x Hx Hp. specialize (Hl x Hx). rewrite Hp in Hl. lia.
Qed.

Lemma find_none side p os : find side (mk_open 0 p 0) os = None → Forall (λ x, price x ≠ p) os.
Proof.
  intros Hf. apply Forall_forall. intros x Hx Hp. pose proof (List.find_none _ _ Hf x) as H.
  rewrite same_price in H. simpl in H. rewrite Hp, Z.eqb_refl in H. discriminate H. by apply list_elem_of_In.
Qed.

(** The orders as the exchange would have them. *)
Definition tag (y side : Z) (os : list open_order) : list (Z * resting) :=
  (λ o, (order_id o, mk_resting y side (price o) (quantity o))) <$> os.

Definition side_list (side : Z) (s : t) : list (Z * resting) := tag (sym_symbol (symbol s)) side (orders_of side s).
Definition all_orders (s : t) : list (Z * resting) := side_list md.SIDE.BUY s ++ side_list md.SIDE.SELL s.

Lemma all_orders_side side s : side_ok side → all_orders s ≡ₚ side_list side s ++ side_list (other side) s.
Proof. intros [-> | ->]; [done|]. apply Permutation_app_comm. Qed.

Lemma tag_app y side k l : tag y side (k ++ l) = tag y side k ++ tag y side l.
Proof. apply fmap_app. Qed.

Lemma tag_ids y side os : (tag y side os).*1 = order_id <$> os.
Proof. unfold tag. rewrite <- list_fmap_compose. done. Qed.

Lemma stack_orders_set side os s : orders_of side (set_orders side os s) = os.
Proof. unfold orders_of, set_orders. by destruct (side =? md.SIDE.BUY). Qed.

Lemma orders_set_other side os s : side_ok side → orders_of (other side) (set_orders side os s) = orders_of (other side) s.
Proof. by intros [-> | ->]. Qed.

(** What of a stack manager its constructor gives it. *)
Definition config (s : t) : symbol_definition * Z * Z * Z := (symbol s, width_in_ticks s, stack_quantity s, stack_depth s).

Lemma stack_config_set side os s : config (set_orders side os s) = config s.
Proof. unfold set_orders. by destruct (side =? md.SIDE.BUY). Qed.

(** ** Runs *)

Section runs.
Context `{BT : BotWorld} {O D : Type} `{OE : !OrderEntry O} `{QE : !QuietEntry O}.
Abbreviation St := (shared (O * list order_op) D * t)%type.

Definition sym (s : St) : Z := sym_symbol (symbol s.2).

(** The stacks are sorted, within their depth, and what the requests left open;
    new order ids are fresh. *)
Record inv (s : St) : Prop := {
  iv_sorted side : side_ok side → sorted side (orders_of side s.2);
  iv_size side : side_ok side → Z.of_nat (length (orders_of side s.2)) ≤ stack_depth s.2;
  iv_ids side : side_ok side → Forall (λ o, order_id o < sh_last_order_id s.1) (orders_of side s.2);
  iv_tracks : tracks (journal s) (all_orders s.2);
}.

(** A run that works on one side. *)
Record frame (side : Z) (ops : list order_op) (s s' : St) : Prop := {
  fr_config : config s'.2 = config s.2;
  fr_other : orders_of (other side) s'.2 = orders_of (other side) s.2;
  fr_journal : journal s' = journal s ++ ops;
  fr_md : sh_md s'.1 = sh_md s.1;
}.

Lemma stack_frame_trans side ops1 ops2 s1 s2 s3 : frame side ops1 s1 s2 → frame side ops2 s2 s3 → frame side (ops1 ++ ops2) s1 s3.
Proof. intros [A1 A2 A3 A4] [B1 B2 B3 B4]. split; try congruence. by rewrite B3, A3, app_assoc. Qed.

Lemma stack_asked_frame side ops s s' : asked ops s s' → frame side ops s s'.
Proof. intros [H1 H2 H3 H4]. split; rewrite ?H1; done. Qed.

Lemma stack_set_frame side os s : side_ok side → frame side [] s (s.1, set_orders side os s.2).
Proof. intros Hs. split; simpl; [apply stack_config_set|by apply orders_set_other|by rewrite app_nil_r|done]. Qed.

Lemma config_depth (s s' : t) : config s' = config s →
  symbol s' = symbol s ∧ width_in_ticks s' = width_in_ticks s ∧ stack_quantity s' = stack_quantity s ∧ stack_depth s' = stack_depth s.
Proof. unfold config. intros [= -> -> -> ->]. done. Qed.

Lemma all_orders_frame side ops s s' : side_ok side → frame side ops s s' →
  all_orders s'.2 ≡ₚ tag (sym s) side (orders_of side s'.2) ++ side_list (other side) s.2.
Proof.
  intros Hs [Hc Ho _ _]. apply config_depth in Hc as (Hy & _). rewrite (all_orders_side side) by done.
  unfold side_list, sym. by rewrite Ho, Hy.
Qed.

Lemma stack_inv_update side ops s s' : side_ok side → inv s → frame side ops s s' →
  sorted side (orders_of side s'.2) → Z.of_nat (length (orders_of side s'.2)) ≤ stack_depth s.2 →
  Forall (λ o, order_id o < sh_last_order_id s'.1) (orders_of side s'.2) → sh_last_order_id s.1 ≤ sh_last_order_id s'.1 →
  tracks (journal s') (tag (sym s) side (orders_of side s'.2) ++ side_list (other side) s.2) → inv s'.
Proof.
  intros Hs [I1 I2 I3 _] Hf H1 H2 H3 Hl H4. pose proof (fr_other _ _ _ _ Hf) as Ho.
  pose proof (config_depth _ _ (fr_config _ _ _ _ Hf)) as (_ & _ & _ & Hd).
  assert (∀ side', side_ok side' → side' = side ∨ side' = other side ∧ side_ok (other side)) as Hcase.
  { intros side' Hs'. unfold side_ok. destruct Hs as [-> | ->], Hs' as [-> | ->]; simpl; auto. }
  split.
  - intros side' [-> |[-> Hs']]%Hcase; [done|]. rewrite Ho. by apply I1.
  - intros side' [-> |[-> Hs']]%Hcase; rewrite Hd; [done|]. rewrite Ho. by apply I2.
  - intros side' [-> |[-> Hs']]%Hcase; [done|]. rewrite Ho. eapply Forall_impl; [by apply I3|]. simpl. lia.
  - eapply tracks_perm; [symmetry; by eapply all_orders_frame|done].
Qed.

Lemma inv_side side s : side_ok side → inv s → tracks (journal s) (tag (sym s) side (orders_of side s.2) ++ side_list (other side) s.2).
Proof. intros Hs Hi. eapply tracks_perm; [by apply all_orders_side|apply Hi]. Qed.

(** *** Cancelling the orders ahead *)

Definition behind (side p : Z) (os : list open_order) : list open_order := List.filter (λ o, negb (ahead side p o)) os.

Lemma behind_key side p os : side_ok side → Forall (λ o, key side (price o) ≤ key side p) (behind side p os).
Proof.
  intros Hs. apply Forall_forall. intros o Ho. apply list_elem_of_In, filter_In in Ho as [_ Ho].
  rewrite ahead_key in Ho by done. apply negb_true_iff, Z.ltb_ge in Ho. done.
Qed.

Lemma sorted_skip side k o l : sorted side (k ++ o :: l) → sorted side (k ++ l).
Proof.
  rewrite !sorted_app. intros (Hk & Hl & Hkl). inversion_clear Hl. split_and!; [done|done|].
  intros a b Ha Hb. apply Hkl; [done|by constructor].
Qed.

Definition is_cancel (op : order_op) : Prop := match op with CancelOrder _ => True | _ => False end.

Lemma run_cancel_loop side p : side_ok side → ∀ l k s, inv s → orders_of side s.2 = k ++ l →
  ∃ s' ops, for_each l (λ o, when (ahead side p o)
      (on_oe (oe_cancel_order (order_id o));; on_own (λ s, set_orders side (erase side o (orders_of side s)) s))) s = (Ret tt, s') ∧
    inv s' ∧ frame side ops s s' ∧ sh_last_order_id s'.1 = sh_last_order_id s.1 ∧ Forall is_cancel ops ∧
    orders_of side s'.2 = k ++ behind side p l.
Proof using QE.
  intros Hs l. induction l as [|o l IH]; intros k s Hi Ho.
  { exists s, []. split; [done|]. split; [done|]. split; [by apply stack_asked_frame, asked_nil|]. by repeat split. }
  unfold behind. simpl. destruct (ahead side p o) eqn:Ha; simpl.
  - destruct (run_oe_cancel (order_id o) s) as (s1 & Hrun & H1).
    set (s2 := (s1.1, set_orders side (erase side o (orders_of side s1.2)) s1.2) : St).
    assert (frame side [CancelOrder (order_id o)] s s2) as Hf2.
    { change [CancelOrder (order_id o)] with ([CancelOrder (order_id o)] ++ []). eapply stack_frame_trans; [by apply stack_asked_frame|by apply stack_set_frame]. }
    pose proof (iv_sorted s Hi side Hs) as Hso. rewrite Ho in Hso.
    assert (orders_of side s2.2 = k ++ l) as Ho2.
    { simpl. rewrite stack_orders_set, (as_own _ _ _ H1), Ho. by apply erase_middle. }
    assert (inv s2) as Hi2.
    { apply (stack_inv_update side [CancelOrder (order_id o)] s); rewrite ?Ho2; try done.
      - by eapply sorted_skip.
      - pose proof (iv_size s Hi side Hs) as Hz. rewrite Ho in Hz. rewrite length_app in *. simpl in Hz. lia.
      - simpl. rewrite (as_last _ _ _ H1). pose proof (iv_ids s Hi side Hs) as Hz. rewrite Ho in Hz.
        rewrite Forall_app, Forall_cons in *. tauto.
      - simpl. by rewrite (as_last _ _ _ H1).
      - rewrite (fr_journal _ _ _ _ Hf2). apply tracks_cancel with (x := mk_resting (sym s) side (price o) (quantity o)).
        eapply tracks_perm; [|by apply (inv_side side)]. rewrite Ho, !tag_app. simpl. by rewrite <- Permutation_middle. }
    destruct (IH k s2 Hi2 Ho2) as (s' & ops & Hrun' & Hi' & Hf' & Hl' & Hc' & Ho').
    exists s', (CancelOrder (order_id o) :: ops).
    split; [erewrite bind_ret; [exact Hrun'|]; erewrite bind_ret by exact Hrun; reflexivity|].
    split; [done|]. split; [change (CancelOrder (order_id o) :: ops) with ([CancelOrder (order_id o)] ++ ops); by eapply stack_frame_trans|].
    split; [rewrite Hl'; apply (as_last _ _ _ H1)|]. split; [by constructor|done].
  - destruct (IH (k ++ [o]) s Hi) as (s' & ops & Hrun' & Hi' & Hf' & Hl' & Hc' & Ho'); [by rewrite <- app_assoc|].
    exists s', ops. split; [by erewrite bind_ret by reflexivity|]. split_and!; try done. by rewrite Ho', <- app_assoc.
Qed.
(** *** Stacking a price *)

(** A request of [stack_side]. *)
Definition at_price (y side p q : Z) (op : order_op) : Prop :=
  match op with
  | SendOrder y' _ d q' p' f => y' = y ∧ d = side ∧ q' = q ∧ p' = p ∧ f = 0
  | CancelOrder _ => True
  | ModifyOrder _ d q' p' => d = side ∧ q' = q ∧ p' = p
  end.

Lemma cancel_at_price y side p q ops : Forall is_cancel ops → Forall (at_price y side p q) ops.
Proof. intros H. eapply Forall_impl; [exact H|by intros []]. Qed.

Lemma run_cancel_ahead side p s : side_ok side → inv s →
  ∃ s' ops, cancel_ahead side p s = (Ret tt, s') ∧ inv s' ∧ frame side ops s s' ∧
    sh_last_order_id s'.1 = sh_last_order_id s.1 ∧ Forall is_cancel ops ∧
    orders_of side s'.2 = behind side p (orders_of side s.2).
Proof using QE.
  intros Hs Hi. destruct (run_cancel_loop side p Hs (orders_of side s.2) [] s Hi eq_refl) as (s' & ops & Hrun & H).
  exists s', ops. split; [|exact H]. unfold cancel_ahead. by mstep.
Qed.

Lemma run_may_send (s : St) : ∃ b s', may_send s = (Ret b, s') ∧ asked [] s s'.
Proof.
  unfold may_send. mstep. unfold rested. destruct (_ =? 0); [by eexists _, s; split; [reflexivity|apply asked_nil]|].
  destruct (run_nanotime s) as (ts & s' & Hrun & H). eexists _, s'. split; [by erewrite bind_ret by exact Hrun|done].
Qed.

(** Only [last_order_send_ts] changes. *)
Record stamped (s s' : St) : Prop := {
  sp_config : config s'.2 = config s.2;
  sp_orders side : orders_of side s'.2 = orders_of side s.2;
  sp_journal : journal s' = journal s;
  sp_md : sh_md s'.1 = sh_md s.1;
  sp_last : sh_last_order_id s'.1 = sh_last_order_id s.1;
}.

Lemma run_stamp (s : St) : ∃ s', stamp s = (Ret tt, s') ∧ stamped s s'.
Proof. eexists. split; [reflexivity|]. by split. Qed.

Lemma stamped_frame side s s' : stamped s s' → frame side [] s s'.
Proof. intros [H1 H2 H3 H4 H5]. split; rewrite ?app_nil_r; auto. Qed.

Lemma sorted_snoc side os o :
  sorted side os → Forall (λ x, key side (price x) < key side (price o)) os → sorted side (os ++ [o]).
Proof.
  intros Hs Ho. apply sorted_app. split; [done|]. split; [by repeat constructor|].
  intros a b Ha ->%list_elem_of_singleton. rewrite Forall_forall in Ho. by apply Ho.
Qed.

(** A full stack: the last order of the set moves. *)
Lemma run_move side p s : side_ok side → inv s → Forall (λ x, key side (price x) < key side p) (orders_of side s.2) →
  ∀ os w, orders_of side s.2 = os ++ [w] →
  ∃ s', (on_oe (oe_modify_order (order_id w) side (stack_quantity s.2) p);;
     stamp;;
     on_own (λ s', set_orders side (insert side (mk_open (order_id w) p (stack_quantity s.2)) (removelast (orders_of side s'))) s')) s = (Ret tt, s') ∧
    inv s' ∧ frame side [ModifyOrder (order_id w) side (stack_quantity s.2) p] s s' ∧
    sh_last_order_id s'.1 = sh_last_order_id s.1 ∧
    orders_of side s'.2 = os ++ [mk_open (order_id w) p (stack_quantity s.2)].
Proof using QE.
  intros Hs Hi Hb os w Ho. set (op := ModifyOrder _ _ _ _). set (o := mk_open (order_id w) p (stack_quantity s.2)).
  destruct (run_oe_modify (order_id w) side (stack_quantity s.2) p s) as (s1 & Hrun1 & H1).
  destruct (run_stamp s1) as (s2 & Hrun2 & H2).
  set (s3 := (s2.1, set_orders side (insert side o (removelast (orders_of side s2.2))) s2.2) : St).
  rewrite Ho, Forall_app in Hb. destruct Hb as [Hb _].
  pose proof (iv_sorted s Hi side Hs) as Hso. rewrite Ho in Hso. apply sorted_app in Hso as (Hso & _ & _).
  pose proof (iv_ids s Hi side Hs) as Hids. rewrite Ho, Forall_app in Hids. destruct Hids as [Hid1 Hid2].
  assert (orders_of side s3.2 = os ++ [o]) as Ho3.
  { simpl. rewrite stack_orders_set, (sp_orders _ _ H2), (as_own _ _ _ H1), Ho, removelast_last. by apply insert_last. }
  assert (frame side [op] s s3) as Hf.
  { change [op] with ([op] ++ ([] ++ [])). eapply stack_frame_trans; [by apply stack_asked_frame|].
    eapply stack_frame_trans; [by apply stamped_frame|by apply stack_set_frame]. }
  assert (sh_last_order_id s3.1 = sh_last_order_id s.1) as Hl.
  { simpl. by rewrite (sp_last _ _ H2), (as_last _ _ _ H1). }
  exists s3. split.
  { erewrite bind_ret by exact Hrun1. erewrite bind_ret by exact Hrun2. reflexivity. }
  split; [|done]. apply (stack_inv_update side [op] s); rewrite ?Ho3; try done.
  - by apply sorted_snoc.
  - pose proof (iv_size s Hi side Hs) as Hz. rewrite Ho in Hz. rewrite length_app in *. simpl in *. lia.
  - rewrite Hl. apply Forall_app. split; [done|]. constructor; [|constructor]. by inversion_clear Hid2.
  - lia.
  - rewrite (fr_journal _ _ _ _ Hf), !tag_app. simpl.
    eapply tracks_perm; [|apply (tracks_modify _ _ (sym s) side (price w) (quantity w) (tag (sym s) side os ++ side_list (other side) s.2))].
    + rewrite <- app_assoc. apply Permutation_middle.
    + eapply tracks_perm; [|by apply (inv_side side)]. rewrite Ho, tag_app, <- app_assoc. symmetry. apply Permutation_middle.
Qed.

(** A new order goes to the end of the set. *)
Lemma run_new_order side p s : side_ok side → inv s → Forall (λ x, key side (price x) < key side p) (orders_of side s.2) →
  Z.of_nat (length (orders_of side s.2)) < stack_depth s.2 → 0 ≤ sh_last_order_id s.1 < 2^32 - 1 →
  ∃ s', (id ← next_order_id;
     on_own (λ s', set_orders side (insert side (mk_open id p (stack_quantity s.2)) (orders_of side s')) s');;
     on_oe (oe_send_order (sym s) id side (stack_quantity s.2) p 0);;
     stamp) s = (Ret tt, s') ∧
    inv s' ∧ frame side [SendOrder (sym s) (sh_last_order_id s.1) side (stack_quantity s.2) p 0] s s' ∧
    sh_last_order_id s'.1 = sh_last_order_id s.1 + 1 ∧
    orders_of side s'.2 = orders_of side s.2 ++ [mk_open (sh_last_order_id s.1) p (stack_quantity s.2)].
Proof using QE.
  intros Hs Hi Hb Hz Hn. set (id := sh_last_order_id s.1). set (op := SendOrder _ _ _ _ _ _).
  set (o := mk_open id p (stack_quantity s.2)).
  set (s1 := set_last_order_id (u32 (id + 1)) s).
  set (s2 := (s1.1, set_orders side (insert side o (orders_of side s1.2)) s1.2) : St).
  destruct (run_oe_send (sym s) id side (stack_quantity s.2) p 0 s2) as (s3 & Hrun3 & H3).
  destruct (run_stamp s3) as (s4 & Hrun4 & H4).
  assert (sh_last_order_id s4.1 = id + 1) as Hl.
  { rewrite (sp_last _ _ H4), (as_last _ _ _ H3). simpl. apply u32_id. unfold is_u32. lia. }
  assert (orders_of side s4.2 = orders_of side s.2 ++ [o]) as Ho.
  { rewrite (sp_orders _ _ H4), (as_own _ _ _ H3). simpl. rewrite stack_orders_set. by apply insert_last. }
  assert (frame side [op] s s4) as Hf.
  { change [op] with ([] ++ ([op] ++ [])). eapply stack_frame_trans with (s2 := s2).
    - destruct (stack_set_frame side (insert side o (orders_of side s1.2)) s Hs) as [F1 F2 F3 F4]. by split.
    - eapply stack_frame_trans; [by apply stack_asked_frame|by apply stamped_frame]. }
  exists s4. split.
  { erewrite bind_ret by reflexivity. cbn beta. erewrite bind_ret by reflexivity. cbn beta.
    by erewrite bind_ret by exact Hrun3. }
  split; [|done]. pose proof (iv_ids s Hi side Hs) as Hids.
  apply (stack_inv_update side [op] s); rewrite ?Ho, ?Hl; try done.
  - apply sorted_snoc; [by apply Hi|done].
  - rewrite length_app. simpl. lia.
  - apply Forall_app. split; [eapply Forall_impl; [exact Hids|simpl; unfold id; lia]|]. repeat constructor. simpl. lia.
  - unfold id. lia.
  - rewrite (fr_journal _ _ _ _ Hf), tag_app. simpl.
    eapply tracks_perm; [|apply tracks_send; [by apply (inv_side side)|]].
    + rewrite <- app_assoc. apply Permutation_middle.
    + intros Hin. rewrite fmap_app, elem_of_app in Hin. unfold side_list in Hin. rewrite !tag_ids in Hin.
      assert (side_ok (other side)) as Hs' by (unfold side_ok; destruct Hs as [-> | ->]; simpl; auto).
      pose proof (iv_ids s Hi (other side) Hs') as Hids'. rewrite !Forall_forall in *.
      destruct Hin as [(x & Hx & Hin)%list_elem_of_fmap|(x & Hx & Hin)%list_elem_of_fmap];
        [apply Hids in Hin|apply Hids' in Hin]; unfold id in *; lia.
Qed.
Record stacked (side p : Z) (ops : list order_op) (s s' : St) : Prop := {
  sk_inv : inv s';
  sk_frame : frame side ops s s';
  sk_last : sh_last_order_id s.1 ≤ sh_last_order_id s'.1 ≤ sh_last_order_id s.1 + 1;
  sk_ops : Forall (at_price (sym s) side p (stack_quantity s.2)) ops;
  sk_price : Forall (λ o, key side (price o) ≤ key side p) (orders_of side s'.2);
}.

Lemma last_full (os : list open_order) depth : 1 ≤ depth ≤ Z.of_nat (length os) → ∃ os' w, os = os' ++ [w].
Proof. intros H. destruct (last os) as [w|] eqn:Hl; [apply last_Some in Hl as [l ->]; eauto|]. apply last_None in Hl as ->. simpl in H. lia. Qed.

Lemma below_all side p os : side_ok side →
  Forall (λ x, price x ≠ p) (behind side p os) → Forall (λ x, key side (price x) < key side p) (behind side p os).
Proof.
  intros Hs Hn. pose proof (behind_key side p os Hs) as Hb. rewrite Forall_forall in *. intros x Hx.
  specialize (Hn x Hx). specialize (Hb x Hx). destruct (decide (key side (price x) = key side p)) as [He%key_inj|]; [done|lia].
Qed.

Lemma run_stack_side side p s : side_ok side → inv s → 1 ≤ stack_depth s.2 → 0 ≤ sh_last_order_id s.1 < 2^32 - 1 →
  ∃ s' ops, stack_side p side s = (Ret tt, s') ∧ stacked side p ops s s'.
Proof using QE.
  intros Hs Hi Hd Hn. destruct (run_cancel_ahead side p s Hs Hi) as (s1 & ops1 & Hrun1 & Hi1 & Hf1 & Hl1 & Hc1 & Ho1).
  pose proof (config_depth _ _ (fr_config _ _ _ _ Hf1)) as (Hy & _ & Hq & Hdep).
  pose proof (behind_key side p (orders_of side s.2) Hs) as Hbk. rewrite <- Ho1 in Hbk.
  assert (sym s1 = sym s) as Hsy by (unfold sym; by rewrite Hy).
  unfold stack_side. erewrite bind_ret by exact Hrun1. cbn beta. mstep. cbv zeta. unfold id.
  destruct (find side _ _) eqn:Hfind.
  { exists s1, ops1. split; [done|]. split; try done; [lia|by apply cancel_at_price]. }
  apply find_none in Hfind. rewrite Ho1 in Hfind. apply (below_all side p _ Hs) in Hfind. rewrite <- Ho1 in Hfind.
  destruct (Z.leb_spec (stack_depth s1.2) (Z.of_nat (length (orders_of side s1.2)))) as [Hfull|Hroom].
  - destruct (last_full (orders_of side s1.2) (stack_depth s1.2)) as (os & w & Hw); [lia|].
    destruct (run_move side p s1 Hs Hi1 Hfind os w Hw) as (s2 & Hrun2 & Hi2 & Hf2 & Hl2 & Ho2).
    rewrite Hw, last_snoc. eexists s2, _. split; [exact Hrun2|].
    split; [done|by eapply stack_frame_trans|lia| |].
    + apply Forall_app. split; [by apply cancel_at_price|]. constructor; [|constructor]. simpl. by rewrite Hq.
    + rewrite Ho2. rewrite Hw in Hbk. apply Forall_app in Hbk as [Hbk _]. apply Forall_app. split; [done|]. repeat constructor. simpl. lia.
  - destruct (run_may_send s1) as (b & s1' & Hrun & Ha). erewrite bind_ret by exact Hrun. cbn beta.
    pose proof (stack_asked_frame side _ _ _ Ha) as Hf'. pose proof Ha as [A1 A2 A3 A4]. rewrite app_nil_r in A2.
    assert (inv s1') as Hi1'. { destruct Hi1 as [I1 I2 I3 I4]. split; rewrite ?A1, ?A2, ?A4; done. }
    destruct b; simpl.
    + destruct (run_new_order side p s1' Hs Hi1') as (s2 & Hrun2 & Hi2 & Hf2 & Hl2 & Ho2); [by rewrite A1|by rewrite A1|lia|].
      unfold sym in Hrun2. rewrite A1 in Hrun2. eexists s2, _. split; [exact Hrun2|].
      split; [done|eapply stack_frame_trans; [exact Hf1|eapply stack_frame_trans; [exact Hf'|exact Hf2]]|lia| |].
      * apply Forall_app. split; [by apply cancel_at_price|]. constructor; [|constructor]. simpl. unfold sym. by rewrite A1, Hy, Hq.
      * rewrite Ho2, A1. apply Forall_app. split; [done|]. repeat constructor. simpl. lia.
    + exists s1', ops1. split; [done|]. split; [done| |lia|by apply cancel_at_price|by rewrite A1].
      rewrite <- (app_nil_r ops1). by eapply stack_frame_trans.
Qed.
(** *** [process] *)

Definition uncrossed (s : t) : Prop := ∀ b a, b ∈ bid_orders s → a ∈ ask_orders s → price b < price a.

(** The prices a call stacks, with the arithmetic of the code: the desired price is
    divided as an unsigned integer. *)
Definition tick_floor (sy : symbol_definition) (x : Z) : Z := s32 (u32 x / sym_tick_size sy * sym_tick_size sy).
Definition quote_bid (sy : symbol_definition) (w fv bid : Z) : Z :=
  Z.max (sym_min_price sy) (Z.min (tick_floor sy (s32 (fv - w))) bid).
Definition quote_ask (sy : symbol_definition) (w fv ask : Z) : Z :=
  Z.min (sym_max_price sy) (Z.max (tick_floor sy (s32 (fv + w) - 1)) ask).

(** One less than the fair value and the width is an [int32_t]. *)
Definition call_ok (width : Z) (c : Z * Z * Z) : Prop := let '(fv, _, _) := c in s32 (fv + width) ≠ - 2^31.

(** The call's bid is a price to stack. *)
Definition call_bids (sy : symbol_definition) (width : Z) (c : Z * Z * Z) : Prop :=
  let '(fv, bid, _) := c in 0 < quote_bid sy width fv bid.

Lemma tick_floor_range sy x : is_s32 (tick_floor sy x).
Proof. apply s32_range. Qed.

Lemma tick_floor_id sy x : 1 ≤ sym_tick_size sy → 0 ≤ x < 2^31 → tick_floor sy x = x / sym_tick_size sy * sym_tick_size sy.
Proof.
  intros Ht Hx. unfold tick_floor. rewrite u32_id by (unfold is_u32; lia).
  rewrite s32_id; [done|]. pose proof (Z.mul_div_le x (sym_tick_size sy) ltac:(lia)).
  pose proof (Z.div_pos x (sym_tick_size sy) ltac:(lia) ltac:(lia)). unfold is_s32. nia.
Qed.

(** A fair value more than a tick and the width above zero leaves a bid. *)
Lemma quote_bid_positive sy w fv bid : 1 ≤ sym_tick_size sy → sym_tick_size sy + w ≤ fv < 2^31 → 0 ≤ w → 0 < bid → 0 < quote_bid sy w fv bid.
Proof.
  intros Ht Hfv Hw Hb. unfold quote_bid. rewrite s32_id by (unfold is_s32; lia). rewrite tick_floor_id by lia.
  pose proof (Z.div_le_lower_bound (fv - w) (sym_tick_size sy) 1 ltac:(lia) ltac:(lia)). nia.
Qed.

Lemma run_round_down x s : 1 ≤ sym_tick_size (symbol s.2) →
  round_down (O := O * list order_op) (D := D) x s = (Ret (tick_floor (symbol s.2) x), s).
Proof.
  intros Ht. unfold round_down. mstep. unfold udiv. rewrite (proj2 (Z.eqb_neq _ _)) by lia. by erewrite bind_ret by reflexivity.
Qed.

(** The requests of a call. *)
Definition quoted (s : St) (b a : Z) (op : order_op) : Prop :=
  at_price (sym s) md.SIDE.BUY b (stack_quantity s.2) op ∨ at_price (sym s) md.SIDE.SELL a (stack_quantity s.2) op.

Record processed (b a : Z) (ops : list order_op) (s s' : St) : Prop := {
  pr_inv : inv s';
  pr_uncrossed : 0 < b → uncrossed s.2 → uncrossed s'.2;
  pr_config : config s'.2 = config s.2;
  pr_journal : journal s' = journal s ++ ops;
  pr_last : sh_last_order_id s.1 ≤ sh_last_order_id s'.1 ≤ sh_last_order_id s.1 + 2;
  pr_ops : Forall (quoted s b a) ops;
  pr_quotes : ops ≠ [] → b < a;
}.

Lemma processed_nothing b a s : inv s → processed b a [] s s.
Proof. intros Hi. split; try done; [by rewrite app_nil_r|lia]. Qed.

Lemma run_both b a s : inv s → 1 ≤ stack_depth s.2 → 0 ≤ sh_last_order_id s.1 < 2^32 - 2 → b < a →
  ∃ s' ops, (stack_side b md.SIDE.BUY;; stack_side a md.SIDE.SELL) s = (Ret tt, s') ∧ processed b a ops s s'.
Proof using QE.
  intros Hi Hd Hn Hab. assert (side_ok md.SIDE.BUY ∧ side_ok md.SIDE.SELL) as [Hs1 Hs2] by (split; [by left|by right]).
  destruct (run_stack_side _ b s Hs1 Hi Hd) as (s1 & ops1 & Hrun1 & [K1 K2 K3 K4 K5]); [lia|].
  pose proof (config_depth _ _ (fr_config _ _ _ _ K2)) as (Hy & Hw & Hq & Hdep).
  destruct (run_stack_side _ a s1 Hs2 K1) as (s2 & ops2 & Hrun2 & [L1 L2 L3 L4 L5]); [lia|lia|].
  exists s2, (ops1 ++ ops2). split; [by erewrite bind_ret by exact Hrun1|]. split; [done| | | |lia| |done].
  - intros _ _ x y Hx Hy'. pose proof (fr_other _ _ _ _ L2) as Ho. unfold orders_of in Ho, K5, L5. simpl in Ho, K5, L5.
    rewrite Ho in Hx. rewrite Forall_forall in K5, L5. specialize (K5 x Hx). specialize (L5 y Hy'). unfold key in *. simpl in *. lia.
  - by rewrite (fr_config _ _ _ _ L2), (fr_config _ _ _ _ K2).
  - by rewrite (fr_journal _ _ _ _ L2), (fr_journal _ _ _ _ K2), app_assoc.
  - apply Forall_app. split; [eapply Forall_impl; [exact K4|by left]|].
    eapply Forall_impl; [exact L4|]. intros op Hop. right. unfold sym in *. by rewrite Hy, Hq in Hop.
Qed.

(** No bid to stack. *)
Lemma run_ask_only b a s : inv s → 1 ≤ stack_depth s.2 → 0 ≤ sh_last_order_id s.1 < 2^32 - 2 → b ≤ 0 → b < a →
  ∃ s' ops, stack_side a md.SIDE.SELL s = (Ret tt, s') ∧ processed b a ops s s'.
Proof using QE.
  intros Hi Hd Hn Hb Hab. destruct (run_stack_side md.SIDE.SELL a s ltac:(by right) Hi Hd) as (s1 & ops & Hrun & [K1 K2 K3 K4 K5]); [lia|].
  exists s1, ops. split; [done|]. split; [done|lia|apply (fr_config _ _ _ _ K2)|apply (fr_journal _ _ _ _ K2)|lia| |done].
  eapply Forall_impl; [exact K4|by right].
Qed.

Lemma run_stack_process fv bp ap s :
  inv s → 1 ≤ stack_depth s.2 → 0 ≤ sh_last_order_id s.1 < 2^32 - 2 → 1 ≤ sym_tick_size (symbol s.2) →
  call_ok (width_in_ticks s.2) (fv, bp, ap) →
  ∃ s' ops, process fv bp ap s = (Ret tt, s') ∧
    processed (quote_bid (symbol s.2) (width_in_ticks s.2) fv bp) (quote_ask (symbol s.2) (width_in_ticks s.2) fv ap) ops s s'.
Proof using QE.
  intros Hi Hd Hn Ht Hc. unfold process. mstep. unfold id.
  erewrite bind_ret by (by apply run_round_down). cbn beta.
  pose proof (s32_range (fv + width_in_ticks s.2)) as Hr. unfold call_ok in Hc.
  erewrite bind_ret by (unfold int32; rewrite bool_decide_true by (unfold is_s32 in *; lia); reflexivity). cbn beta.
  erewrite bind_ret by (by apply run_round_down). cbn beta. cbv zeta.
  set (b0 := Z.min _ bp). set (a0 := Z.max _ ap). set (b := quote_bid _ _ _ _). set (a := quote_ask _ _ _ _).
  replace (if b0 <? _ then _ else b0) with b.
  2: { unfold b, quote_bid. fold b0. destruct (Z.ltb_spec b0 (sym_min_price (symbol s.2))); lia. }
  replace (if a0 >? _ then _ else a0) with a.
  2: { unfold a, quote_ask. fold a0. rewrite Z.gtb_ltb. destruct (Z.ltb_spec (sym_max_price (symbol s.2)) a0); lia. }
  destruct (Z.geb_spec b a) as [Hge|Hlt]; [exists s, []; split; [done|by apply processed_nothing]|].
  rewrite !Z.gtb_ltb. destruct (Z.ltb_spec 0 b) as [Hb|Hb].
  - rewrite (proj2 (Z.ltb_lt 0 a)) by lia. by apply run_both.
  - cbn [when]. erewrite bind_ret by reflexivity. cbn beta.
    destruct (Z.ltb_spec 0 a); [by apply run_ask_only|exists s, []; split; [done|by apply processed_nothing]].
Qed.
(** *** Runs from the start *)

Definition run_call (c : Z * Z * Z) : M St unit := let '(fv, bp, ap) := c in process fv bp ap.

(** A symbol and a depth a stack can work with. *)
Record stackable (sy : symbol_definition) (depth : Z) : Prop := {
  sb_tick : 1 ≤ sym_tick_size sy;
  sb_depth : 1 ≤ depth;
}.

Definition fresh (sy : symbol_definition) (width qty depth : Z) (o : O) (d : D) (n : Z) (calls : nat) : St :=
  (mk_shared (o, []) d n calls, initial sy width qty depth).

Lemma fresh_inv sy width qty depth o d n k : 1 ≤ depth → inv (fresh sy width qty depth o d n k).
Proof.
  intros Hd. split; try (intros side [-> | ->]; simpl; try constructor; lia). apply tracks_nil.
Qed.

Lemma run_calls sy width qty depth calls : stackable sy depth → ∀ s,
  inv s → config s.2 = (sy, width, qty, depth) →
  0 ≤ sh_last_order_id s.1 → sh_last_order_id s.1 + 2 * Z.of_nat (length calls) < 2^32 → Forall (call_ok width) calls →
  ∃ s', for_each calls run_call s = (Ret tt, s') ∧ inv s' ∧ config s'.2 = (sy, width, qty, depth) ∧
    0 ≤ sh_last_order_id s'.1 ≤ sh_last_order_id s.1 + 2 * Z.of_nat (length calls) ∧
    (Forall (call_bids sy width) calls → uncrossed s.2 → uncrossed s'.2).
Proof using QE.
  intros [Ht Hd]. induction calls as [|[[fv bp] ap] calls IH]; intros s Hi Hc Hn0 Hn Hok.
  { exists s. simpl length. split_and!; try done; lia. }
  inversion_clear Hok as [|? ? Hc1 Hok']. simpl length in *. pose proof Hc as Hcfg. unfold config in Hcfg. injection Hcfg as E1 E2 E3 E4.
  destruct (run_stack_process fv bp ap s Hi) as (s1 & ops & Hrun & [P1 P2 P3 P4 P5 P6 P7]); rewrite ?E1, ?E2, ?E4; try done; [lia|].
  destruct (IH s1 P1) as (s' & Hrun' & Hi' & Hc' & Hl' & Hu'); [by rewrite P3|lia|lia|done|].
  exists s'. split; [simpl; by erewrite bind_ret by exact Hrun|]. split_and!; try done; try lia.
  intros [Hb1 Hb]%Forall_cons Hu. apply Hu'; [done|]. apply P2; [|done]. by rewrite E1, E2.
Qed.
End runs.

(** The state calls from the start lead to. *)
Lemma reached_inv (BT : BotWorld) {O D} (OE : OrderEntry O) (QE : QuietEntry O) sy width qty depth (o : O) (d : D) n k calls s :
  stackable sy depth → 0 ≤ n → n + 2 * Z.of_nat (length calls) < 2^32 → Forall (call_ok width) calls →
  for_each calls run_call (fresh sy width qty depth o d n k) = (Ret tt, s) →
  inv s ∧ config s.2 = (sy, width, qty, depth) ∧ 0 ≤ sh_last_order_id s.1 ≤ n + 2 * Z.of_nat (length calls).
Proof.
  intros Hs Hn0 Hn Hc Hreach.
  destruct (run_calls sy width qty depth calls Hs (fresh sy width qty depth o d n k)) as (s1 & Hrun & Hi & Hcfg & Hl & _);
    [apply fresh_inv, Hs|done|done|done|done|].
  rewrite Hrun in Hreach. by injection Hreach as <-.
Qed.

(** No order is ahead: nothing is cancelled. *)
Lemma run_no_cancel `{BT : BotWorld} {O D} `{OE : !OrderEntry O} side p (s : shared O D * t) :
  side_ok side → Forall (λ x, key side (price x) < key side p) (orders_of side s.2) → cancel_ahead side p s = (Ret tt, s).
Proof.
  intros Hs. unfold cancel_ahead. mstep. generalize (orders_of side s.2) as os. intros os.
  induction 1 as [|x os Hx _ IH]; [done|]. simpl.
  rewrite (ahead_key side) by done. rewrite (proj2 (Z.ltb_ge _ _)) by lia. by erewrite bind_ret by reflexivity.
Qed.

Lemma find_fresh side p os : Forall (λ x, key side (price x) < key side p) os → find side (mk_open 0 p 0) os = None.
Proof.
  intros Ho. destruct (find side (mk_open 0 p 0) os) as [x|] eqn:Hf; [|done]. apply List.find_some in Hf as [Hx Hp].
  rewrite same_price in Hp. apply Z.eqb_eq in Hp. simpl in Hp. rewrite Forall_forall in Ho. apply list_elem_of_In, Ho in Hx. subst. lia.
Qed.

(** *** The market maker above the stack *)

#[local] Abbreviation PriceLevel := OrderBook.PriceLevel.
#[local] Abbreviation level_price := OrderBook.level_price.
#[local] Abbreviation level_quantity := OrderBook.level_quantity.

(** A market in which it quotes. *)
Definition two_sided (bid ask : PriceLevel) : Prop :=
  level_price bid ≠ 0 ∧ level_price ask ≠ 0 ∧ level_price bid < level_price ask ∧ level_quantity bid ≠ 0 ∧ level_quantity ask ≠ 0.

#[global] Instance two_sided_dec bid ask : Decision (two_sided bid ask).
Proof. unfold two_sided. apply _. Defined.

(** Its levels: within the prices of the symbol, and quantities whose sum is a
    32-bit integer. *)
Record within (sy : symbol_definition) (bid ask : PriceLevel) : Prop := {
  wt_bid : sym_min_price sy ≤ level_price bid;
  wt_ask : level_price ask ≤ sym_max_price sy;
  wt_quantities : 0 ≤ level_quantity bid ∧ 0 ≤ level_quantity ask;
  wt_sum : level_quantity bid + level_quantity ask < 2^32;
}.

(** The weighted mid price, in unsigned 32-bit integers, and its tick. *)
Definition mid_price (bid ask : PriceLevel) : Z :=
  u32 (level_price bid * level_quantity ask + level_price ask * level_quantity bid) / (level_quantity bid + level_quantity ask).
Definition mid_tick (sy : symbol_definition) (bid ask : PriceLevel) : Z := mid_price bid ask / sym_tick_size sy * sym_tick_size sy.

Lemma mid_price_range sy bid ask : two_sided bid ask → within sy bid ask → 0 ≤ mid_price bid ask < 2^31.
Proof.
  intros (_ & _ & _ & Hb & Ha) [_ _ [Hb0 Ha0] Hs]. unfold mid_price. pose proof (u32_range (level_price bid * level_quantity ask + level_price ask * level_quantity bid)) as Hu.
  unfold is_u32 in Hu. split; [apply Z.div_pos; lia|]. apply Z.div_lt_upper_bound; lia.
Qed.

(** Without overflow it lies between the prices. *)
Lemma weighted_mid bid ask :
  two_sided bid ask → 0 ≤ level_price bid → 0 ≤ level_quantity bid → 0 ≤ level_quantity ask →
  level_price bid * level_quantity ask + level_price ask * level_quantity bid < 2^32 →
  level_price bid ≤ mid_price bid ask ≤ level_price ask.
Proof.
  intros (_ & _ & Hp & Hb & Ha) H0 Hb0 Ha0 Hv. unfold mid_price. rewrite u32_id by (unfold is_u32; nia).
  split; [apply Z.div_le_lower_bound|apply Z.div_le_upper_bound]; nia.
Qed.

(** The greatest tick a fair value can be leaves room for the width. *)
Definition room (sy : symbol_definition) (width : Z) : Prop :=
  0 ≤ width ∧ (2^31 - 1) / sym_tick_size sy * sym_tick_size sy + width < 2^31.

Lemma mid_tick_ok sy width bid ask : 1 ≤ sym_tick_size sy → room sy width → two_sided bid ask → within sy bid ask →
  call_ok width (mid_tick sy bid ask, level_price bid, level_price ask) ∧ 0 ≤ mid_tick sy bid ask < 2^31.
Proof.
  intros Ht [Hw Hr] H2 H3. pose proof (mid_price_range sy bid ask H2 H3) as Hm. unfold call_ok, mid_tick.
  pose proof (Z.div_pos (mid_price bid ask) (sym_tick_size sy) ltac:(lia) ltac:(lia)).
  pose proof (Z.div_le_mono (mid_price bid ask) (2^31 - 1) (sym_tick_size sy) ltac:(lia) ltac:(lia)).
  assert (mid_price bid ask / sym_tick_size sy * sym_tick_size sy ≤ (2^31 - 1) / sym_tick_size sy * sym_tick_size sy) by nia.
  assert (0 ≤ mid_price bid ask / sym_tick_size sy * sym_tick_size sy) by nia.
  rewrite s32_id by (unfold is_s32; lia). lia.
Qed.

Section quoting.
Context `{BT : BotWorld} {O D : Type} `{OE : !OrderEntry O} `{MV : !MarketView D}.
Context (s : shared (O * list order_op) D * FairValueStackingMarketMaker.t).
Let sy := FairValueStackingMarketMaker.symbol s.2.
Let bid := mv_best_bid (sym_symbol sy) (sh_md s.1).
Let ask := mv_best_ask (sym_symbol sy) (sh_md s.1).

Lemma run_maker_idle : ¬ two_sided bid ask → FairValueStackingMarketMaker.process s = (Ret tt, s).
Proof.
  intros Hno. unfold FairValueStackingMarketMaker.process. mstep. mstep. mstep. cbv zeta. fold sy bid ask.
  destruct (Z.eqb_spec (level_price bid) 0), (Z.eqb_spec (level_price ask) 0); try done. cbn [orb].
  destruct (Z.geb_spec (level_price bid) (level_price ask)); [done|].
  destruct (Z.eqb_spec (level_quantity bid) 0), (Z.eqb_spec (level_quantity ask) 0); try done.
  destruct Hno. by split_and!.
Qed.

Lemma run_maker_quotes : 1 ≤ sym_tick_size sy → two_sided bid ask → within sy bid ask →
  FairValueStackingMarketMaker.process s =
  FairValueStackingMarketMaker.on_stack (process (mid_tick sy bid ask) (level_price bid) (level_price ask)) s.
Proof.
  intros Ht H2 H3. pose proof (mid_price_range sy bid ask H2 H3) as Hm. pose proof H2 as (N1 & N2 & N3 & N4 & N5). destruct H3 as [_ _ [Q1 Q2] Q3].
  unfold FairValueStackingMarketMaker.process. mstep. mstep. mstep. cbv zeta. fold sy bid ask.
  rewrite (proj2 (Z.eqb_neq (level_price bid) 0)), (proj2 (Z.eqb_neq (level_price ask) 0)),
    (proj2 (Z.eqb_neq (level_quantity bid) 0)), (proj2 (Z.eqb_neq (level_quantity ask) 0)) by done. cbn [orb].
  destruct (Z.geb_spec (level_price bid) (level_price ask)); [lia|].
  unfold udiv. rewrite (u32_id (level_quantity bid + level_quantity ask)) by (unfold is_u32; lia).
  rewrite (proj2 (Z.eqb_neq (level_quantity bid + level_quantity ask) 0)) by lia. erewrite bind_ret by reflexivity. cbn beta.
  fold (mid_price bid ask). rewrite (proj2 (Z.eqb_neq (sym_tick_size sy) 0)) by lia. rewrite (u32_id (mid_price bid ask)) by (unfold is_u32; lia).
  erewrite bind_ret by reflexivity. cbn beta. pose proof (Z.div_pos (mid_price bid ask) (sym_tick_size sy) ltac:(lia) ltac:(lia)).
  pose proof (Z.mul_div_le (mid_price bid ask) (sym_tick_size sy) ltac:(lia)).
  rewrite bool_decide_true by (unfold is_s32; nia). fold (mid_tick sy bid ask). rewrite s32_id by (unfold is_s32, mid_tick; nia). done.
Qed.
End quoting.

(** ** Properties *)

(** C35 ([stack_tracks_requests]): whatever the fair values and best prices it is
    called with, the stack manager never throws, and after any sequence of calls
    its two sets are exactly the orders its requests leave open (same ids, sides,
    prices and quantities), no more than the depth on a side; and when every call
    has a positive bid to stack, every bid is below every ask.  (The tick and the
    depth are positive; the fair value and the width do not add up to exactly
    -2^31, from which the code subtracts one; the ids stay within 32 bits.) *)
Theorem stack_tracks_requests (BT : BotWorld) {O D} (OE : OrderEntry O) (QE : QuietEntry O)
    sy width qty depth (o : O) (d : D) n k calls :
  stackable sy depth → 0 ≤ n → n + 2 * Z.of_nat (length calls) < 2^32 → Forall (call_ok width) calls →
  ∃ s', for_each calls run_call (fresh sy width qty depth o d n k) = (Ret tt, s') ∧
    (∀ i r, replay (journal s') !! i = Some r ↔ (i, r) ∈ all_orders s'.2) ∧ NoDup (all_orders s'.2).*1 ∧
    Z.of_nat (length (bid_orders s'.2)) ≤ depth ∧ Z.of_nat (length (ask_orders s'.2)) ≤ depth ∧
    (Forall (call_bids sy width) calls → uncrossed s'.2).
Proof.
  intros Hs Hn0 Hn Hc.
  destruct (run_calls sy width qty depth calls Hs (fresh sy width qty depth o d n k)) as (s' & Hrun & Hi & Hcfg & _ & Hu);
    [apply fresh_inv, Hs|done|done|done|done|].
  exists s'. split; [exact Hrun|]. destruct (iv_tracks s' Hi) as [Hnd Hr].
  split; [intros i r; rewrite Hr; by rewrite elem_of_list_to_map|]. split; [done|].
  injection Hcfg as _ _ _ <-. split; [apply (iv_size s' Hi md.SIDE.BUY); by left|].
  split; [apply (iv_size s' Hi md.SIDE.SELL); by right|]. intros Hb. apply Hu; [done|by intros ? ? ?%elem_of_nil].
Qed.

(** A request that cannot trade at once in this market. *)
Definition passive (bid ask : Z) (op : order_op) : Prop :=
  match op with
  | SendOrder _ _ d _ p _ | ModifyOrder _ d _ p => d = md.SIDE.BUY ∧ p ≤ bid ∨ d = md.SIDE.SELL ∧ ask ≤ p
  | CancelOrder _ => True
  end.

Lemma quoted_passive (BT : BotWorld) {O D} (OE : OrderEntry O) (s : shared (O * list order_op) D * t) sy w fv bid ask op :
  sym_min_price sy ≤ bid → ask ≤ sym_max_price sy →
  quoted s (quote_bid sy w fv bid) (quote_ask sy w fv ask) op → passive bid ask op.
Proof.
  unfold quoted, quote_bid, quote_ask. intros Hmin Hmax.
  destruct op as [y i d' q p f|i|i d' q p]; simpl; [|done|]; intros [H|H]; [left|right|left|right]; split; try tauto; destruct_and?; subst; lia.
Qed.

(** Called with the market's best bid and ask, within the
    symbol's prices, the stack manager only asks for bids at or below the best bid
    and asks at or above the best ask. *)
Theorem stack_never_takes (BT : BotWorld) {O D} (OE : OrderEntry O) (QE : QuietEntry O)
    sy width qty depth (o : O) (d : D) n k calls s fv bid ask :
  stackable sy depth → 0 ≤ n → n + 2 * Z.of_nat (length calls) + 2 < 2^32 → Forall (call_ok width) calls →
  for_each calls run_call (fresh sy width qty depth o d n k) = (Ret tt, s) →
  call_ok width (fv, bid, ask) → sym_min_price sy ≤ bid → ask ≤ sym_max_price sy →
  ∃ s' ops, process fv bid ask s = (Ret tt, s') ∧ journal s' = journal s ++ ops ∧ Forall (passive bid ask) ops.
Proof.
  intros Hs Hn0 Hn Hc Hreach Hok Hmin Hmax.
  destruct (reached_inv BT OE QE sy width qty depth o d n k calls s) as (Hi & Hcfg & Hl); try done; [lia|].
  unfold config in Hcfg. injection Hcfg as E1 E2 E3 E4. destruct Hs as [Ht Hd].
  destruct (run_stack_process fv bid ask s Hi) as (s' & ops & Hrun' & [P1 P2 P3 P4 P5 P6 P7]); rewrite ?E1, ?E2, ?E4; try done; [lia|].
  exists s', ops. split; [exact Hrun'|]. split; [exact P4|]. eapply Forall_impl; [exact P6|]. intros op. rewrite E1, E2. by eapply quoted_passive.
Qed.

(** C37 ([stacking_maker_passive]): in any market — two-sided or not — the stacking
    market maker never throws, and asks only for bids at or below the best bid and
    asks at or above the best ask; its stacks stay what its requests left open.
    When the market is two-sided all its requests are at the two prices that the
    stack manager takes from the weighted mid, whether or not the products of
    that wrap around in 32 bits; without overflow the mid lies between the best
    prices.  (The best prices are within the symbol's limits and the sum of the
    best quantities is a 32-bit integer; the width leaves room above the greatest
    tick; an id is left.) *)
Theorem stacking_maker_passive (BT : BotWorld) {O D} (OE : OrderEntry O) (QE : QuietEntry O) (MV : MarketView D)
    (s : shared (O * list order_op) D * FairValueStackingMarketMaker.t) :
  let m := FairValueStackingMarketMaker.stack_manager s.2 in
  let sy := FairValueStackingMarketMaker.symbol s.2 in
  let bid := mv_best_bid (sym_symbol sy) (sh_md s.1) in
  let ask := mv_best_ask (sym_symbol sy) (sh_md s.1) in
  symbol m = sy → stackable sy (stack_depth m) → room sy (width_in_ticks m) →
  inv (s.1, m) → 0 ≤ sh_last_order_id s.1 < 2^32 - 2 → (two_sided bid ask → within sy bid ask) →
  ∃ s' ops, FairValueStackingMarketMaker.process s = (Ret tt, s') ∧
    inv (s'.1, FairValueStackingMarketMaker.stack_manager s'.2) ∧
    journal s' = journal s ++ ops ∧ Forall (passive (level_price bid) (level_price ask)) ops ∧
    (ops ≠ [] → two_sided bid ask) ∧
    Forall (quoted (s.1, m) (quote_bid sy (width_in_ticks m) (mid_tick sy bid ask) (level_price bid))
                            (quote_ask sy (width_in_ticks m) (mid_tick sy bid ask) (level_price ask))) ops ∧
    (two_sided bid ask → 0 ≤ level_price bid →
     level_price bid * level_quantity ask + level_price ask * level_quantity bid < 2^32 →
     level_price bid ≤ mid_price bid ask ≤ level_price ask).
Proof.
  intros m sy bid ask Hsy [Ht Hd] Hroom Hi Hn Hw. pose proof (weighted_mid bid ask) as Hmid.
  destruct (decide (two_sided bid ask)) as [H2|H2].
  2: { exists s, []. split; [by apply run_maker_idle|]. split; [done|]. by rewrite app_nil_r. }
  destruct (mid_tick_ok sy (width_in_ticks m) bid ask Ht Hroom H2 (Hw H2)) as [Hc _].
  destruct (run_stack_process (mid_tick sy bid ask) (level_price bid) (level_price ask) (s.1, m) Hi) as (s1 & ops & Hrun & [P1 P2 P3 P4 P5 P6 P7]);
    cbn [fst snd]; rewrite ?Hsy; try done. cbn [fst snd] in *. rewrite Hsy in *.
  exists (s1.1, FairValueStackingMarketMaker.mk sy s1.2), ops. split.
  { rewrite run_maker_quotes; [|done|done|by apply Hw]. unfold FairValueStackingMarketMaker.on_stack, zoom.
    lazymatch goal with |- (let '(_, _) := ?t in _) = _ =>
      change t with (process (mid_tick sy bid ask) (level_price bid) (level_price ask) (s.1, m)) end. by rewrite Hrun. }
  split; [by destruct s1|]. split; [exact P4|]. destruct (Hw H2) as [W1 W2 [W3 W4] _].
  split; [eapply Forall_impl; [exact P6|intros op; by eapply quoted_passive]|]. split; [done|]. split; [exact P6|].
  intros. by apply Hmid.
Qed.

(** When a side is full and the new price is better than
    all of its orders, the one order that is modified is the best of the side, the
    one the comment calls the worst; the orders behind it stay where they are. *)
Theorem stack_modifies_best (BT : BotWorld) {O D} (OE : OrderEntry O) (QE : QuietEntry O)
    sy width qty depth (o : O) (d : D) n k calls s side p :
  stackable sy depth → 0 ≤ n → n + 2 * Z.of_nat (length calls) < 2^32 → Forall (call_ok width) calls →
  for_each calls run_call (fresh sy width qty depth o d n k) = (Ret tt, s) →
  side_ok side → Z.of_nat (length (orders_of side s.2)) = depth →
  Forall (λ x, key side (price x) < key side p) (orders_of side s.2) →
  ∃ os w s', orders_of side s.2 = os ++ [w] ∧ Forall (λ x, key side (price x) < key side (price w)) os ∧
    stack_side p side s = (Ret tt, s') ∧ journal s' = journal s ++ [ModifyOrder (order_id w) side qty p] ∧
    orders_of side s'.2 = os ++ [mk_open (order_id w) p qty].
Proof.
  intros Hs Hn0 Hn Hc Hreach Hside Hfull Hb.
  destruct (reached_inv BT OE QE sy width qty depth o d n k calls s) as (Hi & Hcfg & Hl); try done.
  unfold config in Hcfg. injection Hcfg as E1 E2 E3 E4. destruct Hs as [Ht Hd].
  destruct (last_full (orders_of side s.2) (stack_depth s.2)) as (os & w & Hw); [lia|].
  destruct (run_move side p s Hside Hi Hb os w Hw) as (s' & Hrun & Hi' & Hf' & Hl' & Ho').
  exists os, w, s'. split; [done|]. split.
  { pose proof (iv_sorted s Hi side Hside) as Hso. rewrite Hw in Hso. apply sorted_app in Hso as (_ & _ & Hso).
    apply Forall_forall. intros x Hx. apply Hso; [done|by constructor]. }
  split; [|rewrite E3 in *; split; [apply (fr_journal _ _ _ _ Hf')|done]].
  unfold stack_side. erewrite bind_ret by (by apply run_no_cancel). cbn beta. mstep. cbv zeta. unfold id.
  rewrite find_fresh by done. rewrite (proj2 (Z.leb_le _ _)) by lia. replace (last (orders_of side s.2)) with (Some w) by (by rewrite Hw, last_snoc). exact Hrun.
Qed.

(** ** Examples *)

(** The second listed symbol, of tick 5; the stackers of the program have width 1,
    quantity 2 and depth 10. *)
Definition silver : symbol_definition := Build_symbol_definition 2 5 1 1000 10000000 0.

Definition bot_world : BotWorld := {| bt_clock := λ n, 200000000 * Z.of_nat (S n); bt_rand := Z.of_nat; bt_draw := λ _ low _, low |}.

(** An order entry client that does nothing. *)
#[local] Instance mute : OrderEntry unit := {|
  oe_send_order := λ _ _ _ _ _ _, mret tt; oe_cancel_order := λ _, mret tt; oe_modify_order := λ _ _ _ _, mret tt;
  oe_get_position := λ _ _, 0;
|}.
#[local] Instance mute_quiet : QuietEntry unit.
Proof. split; intros; by eexists. Qed.

Definition market_moves : list (Z * Z * Z) := [(100, 95, 105); (110, 105, 115); (120, 115, 125); (90, 85, 95)].

Definition after_moves (depth : Z) (n : nat) : shared (unit * list order_op) unit * t :=
  (for_each (take n market_moves) (run_call (BT := bot_world)) (fresh silver 1 2 depth tt tt 7 0)).2.

Lemma moves_ok n : Forall (call_ok 1) (take n market_moves).
Proof. apply Forall_take. repeat constructor; by vm_compute. Qed.

Lemma silver_ok depth : 1 ≤ depth → stackable silver depth.
Proof. constructor; simpl; lia. Qed.

Lemma stack_tracks_requests_witness :
  price <$> bid_orders (after_moves 10 3).2 = [95; 105; 115] ∧ price <$> bid_orders (after_moves 10 4).2 = [85] ∧
  price <$> ask_orders (after_moves 10 4).2 = [125; 95] ∧
  (for_each market_moves (run_call (BT := bot_world)) (fresh silver 1 2 10 tt tt 7 0)).1 = Ret tt ∧ uncrossed (after_moves 10 4).2.
Proof.
  split; [vm_compute; reflexivity|]. split; [vm_compute; reflexivity|]. split; [vm_compute; reflexivity|].
  destruct (stack_tracks_requests bot_world mute mute_quiet silver 1 2 10 tt tt 7 0 market_moves)
    as (s' & Hrun & _ & _ & _ & _ & Hu); [by apply silver_ok|lia|simpl; lia|exact (moves_ok 4)|].
  rewrite Hrun. split; [reflexivity|]. unfold after_moves. change (take 4 market_moves) with market_moves. rewrite Hrun. apply Hu.
  repeat constructor; by vm_compute.
Defined.

Lemma stack_never_takes_witness :
  ∃ s' ops, process (BT := bot_world) 120 115 125 (after_moves 10 2) = (Ret tt, s') ∧
    journal s' = journal (after_moves 10 2) ++ ops ∧ Forall (passive 115 125) ops.
Proof.
  apply (stack_never_takes bot_world mute mute_quiet silver 1 2 10 tt tt 7 0 (take 2 market_moves));
    [by apply silver_ok|lia|simpl; lia|exact (moves_ok 2)|vm_compute; reflexivity|by vm_compute|simpl; lia|simpl; lia].
Defined.

Lemma stack_modifies_best_witness :
  price <$> bid_orders (after_moves 2 2).2 = [95; 105] ∧
  ∃ os w s', bid_orders (after_moves 2 2).2 = os ++ [w] ∧ Forall (λ x, price x < price w) os ∧
    stack_side (BT := bot_world) 115 md.SIDE.BUY (after_moves 2 2) = (Ret tt, s') ∧
    journal s' = journal (after_moves 2 2) ++ [ModifyOrder (order_id w) md.SIDE.BUY 2 115] ∧
    bid_orders s'.2 = os ++ [mk_open (order_id w) 115 2].
Proof.
  split; [vm_compute; reflexivity|].
  apply (stack_modifies_best bot_world mute mute_quiet silver 1 2 2 tt tt 7 0 (take 2 market_moves) (after_moves 2 2) md.SIDE.BUY 115);
    [by apply silver_ok|lia|simpl; lia|exact (moves_ok 2)|vm_compute; reflexivity|by left|vm_compute; reflexivity|].
  apply Forall_forall. intros x Hx. apply (bool_decide_unpack _). revert x Hx. apply Forall_forall.
  vm_compute. repeat constructor.
Defined.

Definition quoting : FairValueStackingMarketMaker.t := FairValueStackingMarketMaker.initial silver 1 2.

(** A market whose weighted mid overflows 32 bits. *)
Definition two_sided_market : quotes := mk_quotes (λ _, OrderBook.mkLevel 900 40) (λ _, OrderBook.mkLevel 920 120).
Definition deep_market : quotes := mk_quotes (λ _, OrderBook.mkLevel 900 4000000) (λ _, OrderBook.mkLevel 920 12000000).

Definition stacker_in (market : quotes) : shared (unit * list order_op) quotes * FairValueStackingMarketMaker.t :=
  (mk_shared (tt, []) market 7 0, quoting).

Lemma silver_room : room silver 1.
Proof. by vm_compute. Qed.

Lemma stacking_maker_passive_witness :
  journal (FairValueStackingMarketMaker.process (BT := bot_world) (stacker_in two_sided_market)).2 =
    [SendOrder 2 7 md.SIDE.BUY 2 900 0; SendOrder 2 8 md.SIDE.SELL 2 920 0] ∧
  journal (FairValueStackingMarketMaker.process (BT := bot_world) (stacker_in deep_market)).2 =
    [SendOrder 2 7 md.SIDE.BUY 2 90 0; SendOrder 2 8 md.SIDE.SELL 2 920 0] ∧
  ∃ s' ops, FairValueStackingMarketMaker.process (BT := bot_world) (stacker_in deep_market) = (Ret tt, s') ∧
    inv (s'.1, FairValueStackingMarketMaker.stack_manager s'.2) ∧ journal s' = [] ++ ops ∧ Forall (passive 900 920) ops.
Proof.
  split; [vm_compute; reflexivity|]. split; [vm_compute; reflexivity|].
  destruct (stacking_maker_passive bot_world mute mute_quiet quotes_view (stacker_in deep_market)) as (s' & ops & Hrun & Hi & Hj & Hp & _);
    [done|by apply silver_ok|exact silver_room|apply fresh_inv; lia|simpl; lia|constructor; simpl; lia|].
  by exists s', ops.
Defined.
