(* ===== verification/MarketMaker.v ===== *)
(** * [bots/fair_value_mm.cpp]: quoting around a fair value

    The market maker keeps one bid and one ask per symbol around its fair value,
    shifted by its position. *)
From S2P Require Import Prelude Protocol OeClient Strategy FairValue.

(** The vector of pointers to fair values, which the market makers of a program
    share like the market data client: [fv[i]->process(ts)]. *)
Class FairValues (D : Type) := fvs_process : nat → Z → M D Z.

#[global] Instance fair_values_list {MD F} `{FV : !FairValue F} : FairValues (MD * list F) := λ i ts s,
  match s.2 !! i with
  | None => (Throw (undefined_behaviour "fair value index"), s)
  | Some f => let '(r, f) := FV ts f in (r, (s.1, <[i := f]> s.2))
  end.

#[global] Instance market_view_pair {MD X} `{MV : !MarketView MD} : MarketView (MD * X) :=
  {| mv_best_bid y s := mv_best_bid y s.1; mv_best_ask y s := mv_best_ask y s.1 |}.

Module FairValueMarketMaker.

Record open_order := mk_open { order_id : Z; price : Z; quantity : Z }.

#[global] Instance open_order_eq_dec : EqDecision open_order.
Proof. solve_decision. Defined.

Record t := mk {
  variances : list Z;
  symbols : list symbol_definition;
  width_in_ticks : Z;
  mm_quantity : Z;
  last_order_send_ts : Z;
  bid_orders : gmap Z (list open_order);
  ask_orders : gmap Z (list open_order);
}.

Definition initial (variances : list Z) (symbols : list symbol_definition) (width_in_ticks quantity : Z) : t :=
  mk variances symbols width_in_ticks quantity 0 ∅ ∅.

Definition set_last_order_send_ts (ts : Z) (s : t) : t :=
  mk (variances s) (symbols s) (width_in_ticks s) (mm_quantity s) ts (bid_orders s) (ask_orders s).

Definition orders (side y : Z) (s : t) : list open_order :=
  default [] ((if side =? md.SIDE.BUY then bid_orders s else ask_orders s) !! y).
Definition set_orders (side y : Z) (os : list open_order) (s : t) : t :=
  if side =? md.SIDE.BUY
  then mk (variances s) (symbols s) (width_in_ticks s) (mm_quantity s) (last_order_send_ts s) (<[y := os]> (bid_orders s)) (ask_orders s)
  else mk (variances s) (symbols s) (width_in_ticks s) (mm_quantity s) (last_order_send_ts s) (bid_orders s) (<[y := os]> (ask_orders s)).

Section ops.
Context `{BT : BotWorld} {O D : Type} `{OE : !OrderEntry O} `{FVS : !FairValues D}.
Abbreviation SM := (M (shared O D * t)).

(** [price % tick_size] is unsigned. *)
Definition round_to_tick_size (price tick_size side : Z) : SM Z :=
  m ← umod price tick_size;
  mret (if side =? md.SIDE.BUY then s32 (price - m) else s32 (price + (tick_size - m))).

Definition fair_value_at (i : nat) (ts : Z) : SM Z :=
  zoom (λ s, sh_md s.1) (λ d s, (mk_shared (sh_oe s.1) d (sh_last_order_id s.1) (sh_calls s.1), s.2)) (fvs_process i ts).

(** The logger's message asks for the time as well. *)
Definition log_time : SM unit := _ ← nanotime; mret tt.

(** [last_order_send_ts + 30e9 < nanotime()], compared as doubles. *)
Definition expired : SM bool :=
  ts ← get_own last_order_send_ts;
  now ← nanotime;
  mret (to_double (to_double ts + 30000000000) <? to_double now).

(** One side of a symbol: an order at another price, or too old, is cancelled,
    and a missing one is sent. *)
Definition quote_side (y side p : Z) : SM unit :=
  os ← get_own (orders side y);
  match last os with
  | Some o =>
      move ← (if negb (price o =? p) then mret true else expired);
      when move
        (log_time;;
         on_oe (oe_cancel_order (order_id o));;
         on_own (λ s, set_orders side y (removelast (orders side y s)) s))
  | None =>
      log_time;;
      quantity ← get_own mm_quantity;
      id ← gets (λ s, sh_last_order_id s.1);
      on_oe (oe_send_order y id side quantity p 0);;
      id ← next_order_id;
      on_own (λ s, set_orders side y (orders side y s ++ [mk_open id p quantity]) s);;
      now ← nanotime;
      on_own (set_last_order_send_ts now)
  end.

Definition clamp_position (position : Z) : Z := if position >? 100 then 100 else if position <? -100 then -100 else position.

(** The fair value moved against the position, and kept off the minimum. *)
Definition skewed_value (sy : symbol_definition) (fair_value variance position : Z) : SM Z :=
  v ← int32 (fair_value + variance);
  v ← int32 (v - clamp_position position);
  mret (Z.max v (s32 (sym_min_price sy + 10 * sym_tick_size sy))).

(** The lists of the symbol are made when they are missing. *)
Definition touch_orders (side y : Z) (s : t) : t := set_orders side y (orders side y s) s.

Definition quote_symbol (i : nat) (sy : symbol_definition) : SM unit :=
  now ← nanotime;
  fair_value ← fair_value_at i now;
  s ← get_own id;
  variance ← match variances s !! i with None => throw (undefined_behaviour "variance index") | Some v => mret v end;
  position ← gets (λ s, oe_get_position (sym_symbol sy) (sh_oe s.1));
  v ← skewed_value sy fair_value variance position;
  bid_price ← round_to_tick_size (s32 (v - width_in_ticks s * sym_tick_size sy)) (sym_tick_size sy) md.SIDE.BUY;
  ask_price ← round_to_tick_size (s32 (v + width_in_ticks s * sym_tick_size sy)) (sym_tick_size sy) md.SIDE.SELL;
  on_own (touch_orders md.SIDE.BUY (sym_symbol sy));;
  on_own (touch_orders md.SIDE.SELL (sym_symbol sy));;
  quote_side (sym_symbol sy) md.SIDE.BUY bid_price;;
  quote_side (sym_symbol sy) md.SIDE.SELL ask_price.

Definition process : SM unit :=
  sys ← get_own symbols;
  for_each (imap pair sys) (λ '(i, sy), quote_symbol i sy).
End ops.
End FairValueMarketMaker.
