(* ===== verification/MarketMakerTheorems.v ===== *)
(** * The properties of the market maker

    Its lists are the orders its requests leave open, at most one a side and
    symbol, and after each call they stand around the fair value, exactly as far
    apart as its width says. *)
From S2P Require Import Prelude Protocol SnapshotClient Validator ClientHandler OeClient OeClientTheorems Strategy FairValue OrderJournal MarketMaker.
Import FairValueMarketMaker.

(** ** Fair values that stay in a range *)

(** What a market maker needs of the first [n] fair values: in states [ok] they
    answer within the range. *)
Class FairValuesLaw (D : Type) `{!FairValues D} (n : nat) (low high : Z) (ok : D → Prop) : Prop :=
  fvs_law i ts d : (i < n)%nat → ok d → ∃ v d', fvs_process i ts d = (Ret v, d') ∧ ok d' ∧ low ≤ v ≤ high.

(** Random walks of their symbols are such. *)
Section walks.
Context `{WW : WalkWorld} {MD : Type} (syms : list symbol_definition) (low high : Z).
Context (bounded : Forall (λ sy, walkable sy ∧ low ≤ walk_low sy ∧ walk_high sy ≤ high ∧
  ∀ rd n, Z.abs (ww_walk rd n) ≤ RandomWalkFairValue.calculate_dist (sym_tick_size sy)) syms).

Definition walks_ok (d : MD * list RandomWalkFairValue.t) : Prop :=
  Forall2 (λ sy w, walking sy (RandomWalkFairValue.seed w) w) syms d.2.

Lemma walks_law : FairValuesLaw (MD * list RandomWalkFairValue.t) (length syms) low high walks_ok.
Proof using bounded.
  intros i ts [m ws] Hi Hok. unfold walks_ok in *. simpl in Hok.
  destruct (lookup_lt_is_Some_2 syms i Hi) as [sy Hsy].
  destruct (Forall2_lookup_l _ _ _ _ _ Hok Hsy) as (w & Hw & Hwalk).
  pose proof (Forall_lookup_1 _ _ _ _ bounded Hsy) as (Hs & Hl & Hh & Hd).
  destruct (run_walk sy _ ts w Hs Hwalk (Hd _)) as (v & w' & Hrun & Hwalk' & Hv & _).
  exists v, (m, <[i := w']> ws). split; [|split].
  - unfold fvs_process, fair_values_list. simpl. by rewrite Hw, Hrun.
  - simpl. rewrite <- (list_insert_id syms i sy Hsy). apply Forall2_insert; [done|].
    pose proof Hwalk' as [_ _ _ _ Hseed]. by rewrite Hseed.
  - pose proof (wl_value _ _ _ Hwalk'). lia.
Qed.
End walks.

(** Constant values are such. *)
Section constants.
Context {MD : Type} (low high : Z) (vs : list Z) (bounded : Forall (λ v, low ≤ v ≤ high) vs).

Definition constants_ok (d : MD * list ConstantFairValue.t) : Prop := ConstantFairValue.fair_value <$> d.2 = vs.

Lemma constants_law : FairValuesLaw (MD * list ConstantFairValue.t) (length vs) low high constants_ok.
Proof using bounded.
  intros i ts [m cs] Hi Hok. unfold constants_ok in *. simpl in Hok.
  destruct (cs !! i) as [c|] eqn:Hc.
  2: { apply lookup_ge_None in Hc. rewrite <- Hok, length_fmap in Hi. lia. }
  exists (ConstantFairValue.fair_value c), (m, <[i := c]> cs). split; [|split].
  - unfold fvs_process, fair_values_list. simpl. by rewrite Hc.
  - simpl. by rewrite list_insert_id.
  - apply (Forall_lookup_1 _ _ i (ConstantFairValue.fair_value c) bounded). by rewrite <- Hok, list_lookup_fmap, Hc.
Qed.
End constants.

(** ** The two lists *)

Lemma maker_orders_set side y os s : orders side y (set_orders side y os s) = os.
Proof. unfold orders, set_orders. destruct (side =? md.SIDE.BUY) eqn:E; simpl; by rewrite ?E, lookup_insert_eq. Qed.

Lemma orders_set_ne side y os side' y' s : side_ok side → side_ok side' → (side', y') ≠ (side, y) →
  orders side' y' (set_orders side y os s) = orders side' y' s.
Proof.
  unfold orders, set_orders. intros [-> | ->] [-> | ->] Hne; simpl; try done; rewrite lookup_insert_ne; try done; intros ->; done.
Qed.

Definition config (s : t) : list Z * list symbol_definition * Z * Z := (variances s, symbols s, width_in_ticks s, mm_quantity s).

Lemma maker_config_set side y os s : config (set_orders side y os s) = config s.
Proof. unfold set_orders. by destruct (side =? md.SIDE.BUY). Qed.

(** ** Runs of [quote_side] *)

Section runs.
Context `{BT : BotWorld} {O D : Type} `{OE : !OrderEntry O} `{QE : !QuietEntry O} `{FVS : !FairValues D}.
Abbreviation St := (shared (O * list order_op) D * t)%type.

Record inv (s : St) : Prop := {
  mi_one side y : side_ok side → (length (orders side y s.2) ≤ 1)%nat;
  mi_ids side y : side_ok side → Forall (λ o, order_id o < sh_last_order_id s.1) (orders side y s.2);
  mi_tracks i r : replay (journal s) !! i = Some r ↔
    side_ok (rs_side r) ∧ mk_open i (rs_price r) (rs_quantity r) ∈ orders (rs_side r) (rs_symbol r) s.2;
}.

(** A run that works on one side of one symbol. *)
Record frame (side y : Z) (ops : list order_op) (s s' : St) : Prop := {
  mf_config : config s'.2 = config s.2;
  mf_other side' y' : side_ok side' → (side', y') ≠ (side, y) → orders side' y' s'.2 = orders side' y' s.2;
  mf_journal : journal s' = journal s ++ ops;
  mf_md : sh_md s'.1 = sh_md s.1;
}.

Lemma maker_frame_trans side y ops1 ops2 s1 s2 s3 :
  frame side y ops1 s1 s2 → frame side y ops2 s2 s3 → frame side y (ops1 ++ ops2) s1 s3.
Proof.
  intros [A1 A2 A3 A4] [B1 B2 B3 B4]. split; try congruence; [|by rewrite B3, A3, app_assoc].
  intros. by rewrite B2, A2.
Qed.

Lemma maker_asked_frame side y ops s s' : asked ops s s' → frame side y ops s s'.
Proof. intros [H1 H2 H3 H4]. split; rewrite ?H1; done. Qed.

Lemma maker_set_frame side y os s : side_ok side → frame side y [] s (s.1, set_orders side y os s.2).
Proof. intros Hs. split; simpl; [apply maker_config_set|intros; by apply orders_set_ne|by rewrite app_nil_r|done]. Qed.

(** A run without requests that moves neither orders nor ids. *)
Definition quiet (s s' : St) : Prop :=
  config s'.2 = config s.2 ∧ (∀ side y, orders side y s'.2 = orders side y s.2) ∧ journal s' = journal s ∧
  sh_md s'.1 = sh_md s.1 ∧ sh_last_order_id s'.1 = sh_last_order_id s.1.

Lemma quiet_frame side y s s' : quiet s s' → frame side y [] s s'.
Proof. intros (H1 & H2 & H3 & H4 & _). split; rewrite ?app_nil_r; auto. Qed.

Lemma quiet_inv s s' : quiet s s' → inv s → inv s'.
Proof.
  intros (H1 & H2 & H3 & H4 & H5) [I1 I2 I3]. split; intros; rewrite ?H2, ?H3, ?H5; auto.
Qed.

Lemma run_log_time s : ∃ s', log_time (O := O * list order_op) (D := D) s = (Ret tt, s') ∧ asked [] s s'.
Proof. eexists. split; [reflexivity|]. split; simpl; rewrite ?app_nil_r; done. Qed.

Lemma run_expired s : ∃ b s', expired (O := O * list order_op) (D := D) s = (Ret b, s') ∧ asked [] s s'.
Proof. eexists _, _. split; [reflexivity|]. split; simpl; rewrite ?app_nil_r; done. Qed.

Lemma asked_quiet s s' : asked [] s s' → quiet s s'.
Proof. intros [H1 H2 H3 H4]. rewrite app_nil_r in H2. unfold quiet. rewrite H1. done. Qed.
Lemma maker_inv_update side y ops s s' : side_ok side → inv s → frame side y ops s s' →
  sh_last_order_id s.1 ≤ sh_last_order_id s'.1 → (length (orders side y s'.2) ≤ 1)%nat →
  Forall (λ o, order_id o < sh_last_order_id s'.1) (orders side y s'.2) →
  (∀ i r, replay (journal s') !! i = Some r ↔
     if decide (rs_side r = side ∧ rs_symbol r = y) then mk_open i (rs_price r) (rs_quantity r) ∈ orders side y s'.2
     else replay (journal s) !! i = Some r) → inv s'.
Proof.
  intros Hs [I1 I2 I3] [F1 F2 F3 F4] Hl H1 H2 H3.
  assert (∀ side' y', side_ok side' → (side', y') = (side, y) ∨ orders side' y' s'.2 = orders side' y' s.2) as Hcase.
  { intros side' y' Hs'. destruct (decide ((side', y') = (side, y))); [by left|right; by apply F2]. }
  split.
  - intros side' y' Hs'. destruct (Hcase side' y' Hs') as [[= -> ->]| ->]; [done|by apply I1].
  - intros side' y' Hs'. destruct (Hcase side' y' Hs') as [[= -> ->]| ->]; [done|].
    eapply Forall_impl; [by apply I2|]. simpl. lia.
  - intros i r. rewrite H3. destruct (decide _) as [[E1 E2]|Hne]; [by rewrite E1, E2; split; [|intros [_ ?]]|].
    rewrite I3. split; intros [Hr Hin]; (split; [done|]);
      (destruct (Hcase (rs_side r) (rs_symbol r) Hr) as [[= E1 E2]|E]; [by destruct Hne|by rewrite ?E in *]).
Qed.

Lemma resting_eta r : r = mk_resting (rs_symbol r) (rs_side r) (rs_price r) (rs_quantity r).
Proof. by destruct r. Qed.

(** The orders of a side and symbol are in the replay. *)
Lemma inv_order side y o s : side_ok side → inv s → o ∈ orders side y s.2 →
  replay (journal s) !! order_id o = Some (mk_resting y side (price o) (quantity o)).
Proof. intros Hs Hi Ho. apply (mi_tracks s Hi). simpl. split; [done|]. by destruct o. Qed.

Lemma run_take_off side y o s : side_ok side → inv s → orders side y s.2 = [o] →
  ∃ s', (log_time;; on_oe (oe_cancel_order (order_id o));; on_own (λ s, set_orders side y (removelast (orders side y s)) s)) s = (Ret tt, s') ∧
    inv s' ∧ frame side y [CancelOrder (order_id o)] s s' ∧ sh_last_order_id s'.1 = sh_last_order_id s.1 ∧ orders side y s'.2 = [].
Proof using QE.
  intros Hs Hi Ho. destruct (run_log_time s) as (s1 & Hrun1 & H1).
  destruct (run_oe_cancel (order_id o) s1) as (s2 & Hrun2 & H2).
  set (s3 := (s2.1, set_orders side y (removelast (orders side y s2.2)) s2.2) : St).
  assert (frame side y [CancelOrder (order_id o)] s s3) as Hf.
  { change [CancelOrder (order_id o)] with ([] ++ ([CancelOrder (order_id o)] ++ [])).
    eapply maker_frame_trans; [by apply maker_asked_frame|]. eapply maker_frame_trans; [by apply maker_asked_frame|by apply maker_set_frame]. }
  assert (orders side y s3.2 = []) as Ho3.
  { simpl. rewrite maker_orders_set, (as_own _ _ _ H2), (as_own _ _ _ H1), Ho. done. }
  assert (sh_last_order_id s3.1 = sh_last_order_id s.1) as Hl.
  { simpl. by rewrite (as_last _ _ _ H2), (as_last _ _ _ H1). }
  exists s3. split; [erewrite bind_ret by exact Hrun1; by erewrite bind_ret by exact Hrun2|].
  split; [|done]. assert (o ∈ orders side y s.2) as Hin by (rewrite Ho; constructor).
  apply (maker_inv_update side y [CancelOrder (order_id o)] s); rewrite ?Ho3, ?Hl; try done; try (simpl; lia); try by constructor.
  intros i r. rewrite (mf_journal _ _ _ _ _ Hf), replay_snoc. simpl.
  destruct (decide (i = order_id o)) as [-> |Hne].
  - rewrite lookup_delete_eq. split; [done|]. destruct (decide _) as [_|Hr]; [by intros ?%elem_of_nil|].
    intros Hrep. rewrite (inv_order side y o s) in Hrep by done. injection Hrep as <-. by destruct Hr.
  - rewrite lookup_delete_ne by done. destruct (decide _) as [[E1 E2]|]; [|done]. split; [|by intros ?%elem_of_nil].
    intros Hrep. apply (mi_tracks s Hi) in Hrep as [_ Hrep]. rewrite E1, E2, Ho in Hrep.
    apply list_elem_of_singleton in Hrep. subst o. by destruct Hne.
Qed.

Lemma run_put_on side y p s : side_ok side → inv s → orders side y s.2 = [] → 0 ≤ sh_last_order_id s.1 < 2^32 - 1 →
  ∃ s', (log_time;;
      quantity ← get_own mm_quantity;
      id ← gets (λ s, sh_last_order_id s.1);
      on_oe (oe_send_order y id side quantity p 0);;
      id ← next_order_id;
      on_own (λ s, set_orders side y (orders side y s ++ [mk_open id p quantity]) s);;
      now ← nanotime;
      on_own (set_last_order_send_ts now)) s = (Ret tt, s') ∧
    inv s' ∧ frame side y [SendOrder y (sh_last_order_id s.1) side (mm_quantity s.2) p 0] s s' ∧
    sh_last_order_id s'.1 = sh_last_order_id s.1 + 1 ∧ orders side y s'.2 = [mk_open (sh_last_order_id s.1) p (mm_quantity s.2)].
Proof using QE.
  intros Hs Hi Ho Hn. set (id := sh_last_order_id s.1). set (o := mk_open id p (mm_quantity s.2)). set (op := SendOrder _ _ _ _ _ _).
  destruct (run_log_time s) as (s1 & Hrun1 & H1).
  assert (sh_last_order_id s1.1 = id) as E1 by apply H1. assert (mm_quantity s1.2 = mm_quantity s.2) as E2 by (by rewrite (as_own _ _ _ H1)).
  destruct (run_oe_send y id side (mm_quantity s.2) p 0 s1) as (s2 & Hrun2 & H2).
  set (s3 := set_last_order_id (u32 (id + 1)) s2).
  set (s4 := (s3.1, set_orders side y (orders side y s3.2 ++ [o]) s3.2) : St).
  assert (∃ s5, (now ← nanotime; on_own (set_last_order_send_ts now)) s4 = (Ret tt, s5) ∧ quiet s4 s5) as (s5 & Hrun5 & H5).
  { eexists. split; [reflexivity|]. by repeat split. }
  assert (sh_last_order_id s4.1 = id + 1) as Hl4 by (simpl; apply u32_id; unfold is_u32; unfold id; lia).
  assert (orders side y s4.2 = [o]) as Ho4.
  { simpl. rewrite maker_orders_set, (as_own _ _ _ H2), (as_own _ _ _ H1), Ho. done. }
  assert (frame side y [op] s s4) as Hf.
  { change [op] with ([] ++ ([op] ++ [])). eapply maker_frame_trans; [by apply maker_asked_frame|]. eapply maker_frame_trans; [by apply maker_asked_frame|].
    destruct (maker_set_frame side y (orders side y s3.2 ++ [o]) s2 Hs) as [F1 F2 F3 F4]. by split. }
  exists s5. split.
  { erewrite bind_ret by exact Hrun1. cbn beta. erewrite bind_ret by reflexivity. cbn beta. erewrite bind_ret by reflexivity. cbn beta.
    rewrite E1, E2. erewrite bind_ret by exact Hrun2. cbn beta.
    rewrite (bind_ret _ _ _ id s3) by (unfold next_order_id; mstep; rewrite (as_last _ _ _ H2), E1; reflexivity).
    cbn beta. erewrite bind_ret by reflexivity. cbn beta. exact Hrun5. }
  assert (frame side y [op] s s5) as Hf5.
  { change [op] with ([op] ++ []). eapply maker_frame_trans; [exact Hf|by apply quiet_frame]. }
  pose proof H5 as (Q1 & Q2 & Q3 & Q4 & Q5). rewrite Q5, Hl4, Q2, Ho4. split; [|done].
  apply (quiet_inv s4); [done|].
  apply (maker_inv_update side y [op] s); rewrite ?Ho4, ?Hl4; try done; try (unfold id; lia); try (by repeat constructor; simpl; lia).
  intros i r. rewrite (mf_journal _ _ _ _ _ Hf), replay_snoc. simpl.
  assert (∀ r, replay (journal s) !! id ≠ Some r) as Hfresh.
  { intros r0 Hr. apply (mi_tracks s Hi) in Hr as [Hr1 Hr2]. pose proof (mi_ids s Hi _ (rs_symbol r0) Hr1) as Hids.
    rewrite Forall_forall in Hids. apply Hids in Hr2. simpl in Hr2. unfold id in Hr2. lia. }
  destruct (decide (i = id)) as [-> |Hne].
  - rewrite lookup_insert_eq. destruct (decide _) as [[<- <-]|Hr].
    + split; [intros [= <-]; constructor|]. intros [= <- <-]%list_elem_of_singleton. by destruct r.
    + split; [intros [= <-]; by destruct Hr|]. by intros Hrep%Hfresh.
  - rewrite lookup_insert_ne by done. destruct (decide _) as [[E3 E4]|]; [|done]. split.
    + intros [_ Hrep]%(mi_tracks s Hi). rewrite E3, E4, Ho in Hrep. by apply elem_of_nil in Hrep.
    + intros [= -> _ _]%list_elem_of_singleton. done.
Qed.
Lemma run_quote_side y side p s : side_ok side → inv s → 0 ≤ sh_last_order_id s.1 < 2^32 - 1 →
  ∃ s' ops, quote_side y side p s = (Ret tt, s') ∧ inv s' ∧ frame side y ops s s' ∧
    sh_last_order_id s.1 ≤ sh_last_order_id s'.1 ≤ sh_last_order_id s.1 + 1 ∧ Forall (λ o, price o = p) (orders side y s'.2).
Proof using QE.
  intros Hs Hi Hn. unfold quote_side. mstep. pose proof (mi_one s Hi side y Hs) as Hone.
  destruct (orders side y s.2) as [|o [|? ?]] eqn:Ho; [| |simpl in Hone; lia].
  { destruct (run_put_on side y p s Hs Hi Ho Hn) as (s' & Hrun & Hi' & Hf & Hl & Ho').
    eexists s', _. split; [exact Hrun|]. split; [done|]. split; [exact Hf|]. split; [lia|]. rewrite Ho'. by repeat constructor. }
  change (last [o]) with (Some o). cbv iota. destruct (Z.eqb_spec (price o) p) as [Hp|Hp]; cbn [negb].
  - destruct (run_expired s) as (b & s1 & Hrun1 & H1). erewrite bind_ret by exact Hrun1. cbn beta.
    pose proof (asked_quiet _ _ H1) as Hq. pose proof (quiet_inv _ _ Hq Hi) as Hi1. pose proof Hq as (Q1 & Q2 & Q3 & Q4 & Q5).
    destruct b; simpl when.
    + destruct (run_take_off side y o s1 Hs Hi1) as (s' & Hrun & Hi' & Hf & Hl & Ho'); [by rewrite Q2|].
      eexists s', _. split; [exact Hrun|]. split; [done|]. split; [eapply maker_frame_trans; [by apply maker_asked_frame|exact Hf]|].
      split; [lia|]. rewrite Ho'. constructor.
    + exists s1, []. split; [done|]. split; [done|]. split; [by apply maker_asked_frame|]. split; [lia|].
      rewrite Q2, Ho. by repeat constructor.
  - erewrite bind_ret by reflexivity. cbn beta. simpl when.
    destruct (run_take_off side y o s Hs Hi Ho) as (s' & Hrun & Hi' & Hf & Hl & Ho').
    eexists s', _. split; [exact Hrun|]. split; [done|]. split; [exact Hf|]. split; [lia|]. rewrite Ho'. constructor.
Qed.

(** ** Runs of [quote_symbol] *)

Record quotable (low high w variance : Z) (sy : symbol_definition) : Prop := {
  qt_tick : 1 ≤ sym_tick_size sy;
  qt_min : 0 ≤ sym_min_price sy;
  qt_width : 0 ≤ w ≤ 10;
  qt_widest : w = 10 → sym_min_price sy mod sym_tick_size sy = 0;
  qt_low : - 2^31 + 100 ≤ low + variance;
  qt_high : high + variance + 100 + (w + 1) * sym_tick_size sy < 2^31;
  qt_floor : sym_min_price sy + (w + 11) * sym_tick_size sy < 2^31;
}.

(** The prices of a symbol around the fair value [v]. *)
Definition bid_at (sy : symbol_definition) (w v : Z) : Z := sym_tick_size sy * (v / sym_tick_size sy - w).
Definition ask_at (sy : symbol_definition) (w v : Z) : Z := sym_tick_size sy * (v / sym_tick_size sy + w + 1).

Definition well_quoted (sy : symbol_definition) (s : t) : Prop :=
  ∃ v, sym_min_price sy ≤ bid_at sy (width_in_ticks s) v ∧
    Forall (λ o, price o = bid_at sy (width_in_ticks s) v) (orders md.SIDE.BUY (sym_symbol sy) s) ∧
    Forall (λ o, price o = ask_at sy (width_in_ticks s) v) (orders md.SIDE.SELL (sym_symbol sy) s).

(** The value is at least ten ticks above the minimum, and so is its tick when the
    minimum is one. *)
Lemma bid_above_min low high w variance sy v : quotable low high w variance sy →
  sym_min_price sy + 10 * sym_tick_size sy ≤ v → sym_min_price sy ≤ bid_at sy w v.
Proof.
  intros [Ht Hm Hw H10 _ _ _] Hv. unfold bid_at. pose proof (Z.mul_succ_div_gt v (sym_tick_size sy) ltac:(lia)).
  destruct (decide (w = 10)) as [->|]; [|nia]. specialize (H10 eq_refl).
  pose proof (Z.div_mod (sym_min_price sy) (sym_tick_size sy) ltac:(lia)) as E. rewrite H10, Z.add_0_r in E.
  assert (sym_min_price sy / sym_tick_size sy + 10 ≤ v / sym_tick_size sy) by (apply Z.div_le_lower_bound; lia). nia.
Qed.

Lemma clamp_bounds p : -100 ≤ clamp_position p ≤ 100.
Proof. unfold clamp_position. rewrite Z.gtb_ltb. destruct (Z.ltb_spec 100 p); [lia|]. destruct (Z.ltb_spec p (-100)); lia. Qed.

Lemma run_skewed low high w variance sy fv p (s : St) : quotable low high w variance sy → low ≤ fv ≤ high →
  ∃ v, skewed_value sy fv variance p s = (Ret v, s) ∧ sym_min_price sy + 10 * sym_tick_size sy ≤ v ∧ v + (w + 1) * sym_tick_size sy < 2^31.
Proof.
  intros [H1 H2 H3 _ H4 H5 H6] Hf. pose proof (clamp_bounds p) as Hc. assert (0 ≤ (w + 1) * sym_tick_size sy) by nia.
  assert (∀ z, is_s32 z → int32 (O := O * list order_op) (D := D) z s = (Ret z, s)) as Hint.
  { intros z Hz. unfold int32. by rewrite bool_decide_true. }
  unfold skewed_value. erewrite bind_ret by (apply Hint; unfold is_s32; lia). cbn beta.
  erewrite bind_ret by (apply Hint; unfold is_s32; lia). cbn beta. rewrite s32_id by (unfold is_s32; nia).
  eexists. split; [reflexivity|]. split; nia.
Qed.

Lemma ret_eq {A} (a b : A) (s : St) : a = b → (mret a : M St A) s = (Ret b, s).
Proof. by intros ->. Qed.

Lemma run_round sy v side (s : St) (k : Z) : 1 ≤ sym_tick_size sy → 0 ≤ k * sym_tick_size sy + v →
  k * sym_tick_size sy + v + sym_tick_size sy < 2^31 → side_ok side →
  round_to_tick_size (s32 (v + k * sym_tick_size sy)) (sym_tick_size sy) side s =
    (Ret (if side =? md.SIDE.BUY then sym_tick_size sy * (v / sym_tick_size sy + k) else sym_tick_size sy * (v / sym_tick_size sy + k + 1)), s).
Proof.
  intros Ht Hlo Hhi Hs. rewrite s32_id by (unfold is_s32; lia). unfold round_to_tick_size, umod.
  rewrite (proj2 (Z.eqb_neq (sym_tick_size sy) 0)) by lia. erewrite bind_ret by reflexivity. cbn beta. rewrite u32_id by (unfold is_u32; lia).
  pose proof (Z.mod_pos_bound (v + k * sym_tick_size sy) (sym_tick_size sy) ltac:(lia)) as Hb. rewrite Z.mod_add in * by lia.
  pose proof (Z.div_mod v (sym_tick_size sy) ltac:(lia)) as Hdm.
  destruct Hs as [-> | ->].
  - change (md.SIDE.BUY =? md.SIDE.BUY) with true. cbv iota. rewrite s32_id by (unfold is_s32; lia). apply ret_eq. lia.
  - change (md.SIDE.SELL =? md.SIDE.BUY) with false. cbv iota. rewrite s32_id by (unfold is_s32; lia). apply ret_eq. lia.
Qed.
Context (low high : Z) (syms : list symbol_definition) (vars : list Z) (w q : Z) (ok : D → Prop).
Context `{FL : !FairValuesLaw D (length syms) low high ok}.

(** The state between symbols. *)
Record quoting (s : St) : Prop := {
  qs_inv : inv s;
  qs_ok : ok (sh_md s.1);
  qs_config : config s.2 = (vars, syms, w, q);
}.

Definition untouched (y : Z) (s s' : St) : Prop :=
  ∀ side y', side_ok side → y' ≠ y → orders side y' s'.2 = orders side y' s.2.

Lemma frame_untouched side y ops s s' : frame side y ops s s' → untouched y s s'.
Proof. intros Hf side' y' Hs Hne. apply (mf_other _ _ _ _ _ Hf); [done|]. by intros [= -> ->]. Qed.

Lemma touch_quiet side y (s : St) : side_ok side → quiet s (s.1, touch_orders side y s.2).
Proof.
  intros Hs. unfold quiet, touch_orders. simpl. split; [apply maker_config_set|]. split; [|done].
  intros side' y'. destruct (decide ((side', y') = (side, y))) as [[= -> ->]|Hne]; [apply maker_orders_set|].
  unfold orders, set_orders. destruct Hs as [-> | ->]; simpl; destruct (side' =? md.SIDE.BUY) eqn:E; simpl; try done;
    (destruct (decide (y' = y)) as [-> |]; [by rewrite lookup_insert_eq|by rewrite lookup_insert_ne]).
Qed.

Lemma run_fair_value i ts s : (i < length syms)%nat → quoting s →
  ∃ v s', fair_value_at i ts s = (Ret v, s') ∧ low ≤ v ≤ high ∧ quoting s' ∧ s'.2 = s.2 ∧ journal s' = journal s ∧
    sh_last_order_id s'.1 = sh_last_order_id s.1.
Proof using FL.
  intros Hi [Hinv Hok Hc]. destruct (fvs_law (FairValuesLaw := FL) i ts (sh_md s.1) Hi Hok) as (v & d' & Hrun & Hok' & Hv).
  eexists v, _. split; [unfold fair_value_at, zoom; rewrite Hrun; reflexivity|]. split; [done|].
  split; [|done]. split; [|done|done]. destruct Hinv as [I1 I2 I3]. by split.
Qed.
Context (quotables : Forall2 (quotable low high w) vars syms).

Lemma frame_quoting side y ops s s' : frame side y ops s s' → inv s' → quoting s → quoting s'.
Proof. intros Hf Hi [_ H2 H3]. split; [done|by rewrite (mf_md _ _ _ _ _ Hf)|by rewrite (mf_config _ _ _ _ _ Hf)]. Qed.

Lemma run_quote_symbol i sy s : syms !! i = Some sy → quoting s → 0 ≤ sh_last_order_id s.1 < 2^32 - 2 →
  ∃ s', quote_symbol i sy s = (Ret tt, s') ∧ quoting s' ∧ well_quoted sy s'.2 ∧ untouched (sym_symbol sy) s s' ∧
    sh_last_order_id s.1 ≤ sh_last_order_id s'.1 ≤ sh_last_order_id s.1 + 2.
Proof using QE FL quotables.
  intros Hsy Hq Hn. destruct (Forall2_lookup_r _ _ _ _ _ quotables Hsy) as (variance & Hvar & Hqt).
  set (y := sym_symbol sy). assert (side_ok md.SIDE.BUY ∧ side_ok md.SIDE.SELL) as [Hb Hs] by (split; [by left|by right]).
  destruct (run_nanotime s) as (now & s1 & Hrun1 & H1). pose proof (asked_quiet _ _ H1) as Hq1.
  pose proof (frame_quoting _ _ _ _ _ (maker_asked_frame md.SIDE.BUY y _ _ _ H1) (quiet_inv _ _ Hq1 (qs_inv _ Hq)) Hq) as Hqs1.
  destruct (run_fair_value i now s1 (lookup_lt_Some _ _ _ Hsy) Hqs1) as (fv & s2 & Hrun2 & Hfv & Hqs2 & E2 & J2 & L2).
  set (position := oe_get_position y (sh_oe s2.1)).
  destruct (run_skewed low high w variance sy fv position s2 Hqt Hfv) as (v & Hrun3 & Hv1 & Hv2).
  pose proof Hqs2 as [Hi2 Hok2 Hc2]. unfold config in Hc2. injection Hc2 as C1 C2 C3 C4.
  pose proof (touch_quiet md.SIDE.BUY y s2 Hb) as T3. set (s3 := (s2.1, touch_orders md.SIDE.BUY y s2.2) : St) in *.
  pose proof (touch_quiet md.SIDE.SELL y s3 Hs) as T4. set (s4 := (s3.1, touch_orders md.SIDE.SELL y s3.2) : St) in *.
  pose proof (quiet_inv _ _ T4 (quiet_inv _ _ T3 Hi2)) as Hi4.
  pose proof T3 as (T31 & T32 & T33 & T34 & T35). pose proof T4 as (T41 & T42 & T43 & T44 & T45).
  pose proof H1 as [A1 A2 A3 A4].
  destruct (run_quote_side y md.SIDE.BUY (bid_at sy w v) s4 Hb Hi4) as (s5 & ops5 & Hrun5 & Hi5 & Hf5 & Hl5 & Hp5); [lia|].
  destruct (run_quote_side y md.SIDE.SELL (ask_at sy w v) s5 Hs Hi5) as (s6 & ops6 & Hrun6 & Hi6 & Hf6 & Hl6 & Hp6); [lia|].
  pose proof Hqt as [Q1 Q2 Q3 _ Q4 Q5 Q6]. exists s6. split.
  { unfold quote_symbol. erewrite bind_ret by exact Hrun1. cbn beta. erewrite bind_ret by exact Hrun2. cbn beta. mstep. unfold id.
    rewrite C1, Hvar. erewrite bind_ret by reflexivity. cbn beta. mstep. fold y position.
    erewrite bind_ret by exact Hrun3. cbn beta. rewrite C3.
    replace (v - w * sym_tick_size sy) with (v + (- w) * sym_tick_size sy) by lia.
    erewrite bind_ret by (apply run_round; [done|nia|nia|done]). cbn beta.
    erewrite bind_ret by (apply run_round; [done|nia|nia|done]). cbn beta.
    erewrite bind_ret by reflexivity. cbn beta. erewrite bind_ret by reflexivity. cbn beta. fold s3. fold s4.
    change (md.SIDE.BUY =? md.SIDE.BUY) with true. change (md.SIDE.SELL =? md.SIDE.BUY) with false. cbv iota.
    replace (v / sym_tick_size sy + - w) with (v / sym_tick_size sy - w) by lia.
    erewrite bind_ret by exact Hrun5. cbn beta. exact Hrun6. }
  assert (config s6.2 = config s2.2) as Hc6.
  { by rewrite (mf_config _ _ _ _ _ Hf6), (mf_config _ _ _ _ _ Hf5), T41, T31. }
  split; [|split; [|split]].
  - split; [done| |by rewrite Hc6; unfold config; congruence].
    by rewrite (mf_md _ _ _ _ _ Hf6), (mf_md _ _ _ _ _ Hf5), T44, T34.
  - exists v. unfold config in Hc6. injection Hc6 as _ _ -> _. rewrite C3. split; [|split; [|done]].
    + by eapply bid_above_min.
    + rewrite (mf_other _ _ _ _ _ Hf6) by done. exact Hp5.
  - intros side' y' Hs' Hne. rewrite (frame_untouched _ _ _ _ _ Hf6), (frame_untouched _ _ _ _ _ Hf5) by done.
    by rewrite T42, T32, E2, A1.
  - lia.
Qed.
(** ** Runs of [process] *)

Lemma run_symbols rest : ∀ (f : nat → symbol_definition → nat * symbol_definition) j s,
  (∀ n sy, f n sy = ((j + n)%nat, sy)) → (∀ n sy, rest !! n = Some sy → syms !! (j + n)%nat = Some sy) →
  NoDup (sym_symbol <$> rest) → quoting s → 0 ≤ sh_last_order_id s.1 → sh_last_order_id s.1 + 2 * Z.of_nat (length rest) < 2^32 →
  ∃ s', for_each (imap f rest) (λ '(i, sy), quote_symbol i sy) s = (Ret tt, s') ∧ quoting s' ∧
    Forall (λ sy, well_quoted sy s'.2) rest ∧
    (∀ side y, side_ok side → y ∉ sym_symbol <$> rest → orders side y s'.2 = orders side y s.2) ∧
    sh_last_order_id s.1 ≤ sh_last_order_id s'.1 ≤ sh_last_order_id s.1 + 2 * Z.of_nat (length rest).
Proof using QE FL quotables.
  induction rest as [|sy rest IH]; intros f j s Hf Hl Hnd Hq Hn0 Hn.
  { exists s. split; [done|]. split; [done|]. split; [constructor|]. split; [done|]. simpl. lia. }
  apply NoDup_cons in Hnd as [Hny Hnd]. simpl length in *.
  assert (syms !! j = Some sy) as Hsy by (rewrite <- (Nat.add_0_r j); by apply Hl).
  destruct (run_quote_symbol j sy s Hsy Hq) as (s1 & Hrun1 & Hq1 & Hw1 & Hu1 & Hl1); [lia|].
  destruct (IH (λ n, f (S n)) (S j) s1) as (s' & Hrun & Hq' & Hw & Hu & Hl'); [| |done|done|lia|lia|].
  { intros n sy'. by rewrite Hf, Nat.add_succ_comm. }
  { intros n sy' Hn'. rewrite Nat.add_succ_comm. by apply Hl. }
  assert (side_ok md.SIDE.BUY ∧ side_ok md.SIDE.SELL) as [Hb Hs] by (split; [by left|by right]).
  exists s'. split.
  { simpl. rewrite Hf, Nat.add_0_r. by erewrite bind_ret by exact Hrun1. }
  split; [done|]. split; [|split; [|lia]].
  - constructor; [|done]. destruct Hw1 as (v & V1 & V2 & V3). exists v.
    pose proof (qs_config _ Hq1) as C1. pose proof (qs_config _ Hq') as C2. rewrite <- C2 in C1. injection C1 as _ _ Ew _.
    rewrite <- Ew, !Hu by done. done.
  - intros side y Hside [Hne Hin]%not_elem_of_cons. rewrite Hu by done. by apply Hu1.
Qed.

Lemma run_maker_process s : NoDup (sym_symbol <$> syms) → quoting s →
  0 ≤ sh_last_order_id s.1 → sh_last_order_id s.1 + 2 * Z.of_nat (length syms) < 2^32 →
  ∃ s', process s = (Ret tt, s') ∧ quoting s' ∧ Forall (λ sy, well_quoted sy s'.2) syms ∧
    sh_last_order_id s.1 ≤ sh_last_order_id s'.1 ≤ sh_last_order_id s.1 + 2 * Z.of_nat (length syms).
Proof using QE FL quotables.
  intros Hnd Hq Hn0 Hn. pose proof (qs_config _ Hq) as Hc. injection Hc as _ C2 _ _.
  destruct (run_symbols syms pair 0 s) as (s' & Hrun & Hq' & Hw & _ & Hl); try done.
  exists s'. split; [|done]. unfold process. mstep. by rewrite C2.
Qed.

Lemma run_maker_processes n : ∀ s, NoDup (sym_symbol <$> syms) → quoting s → Forall (λ sy, well_quoted sy s.2) syms →
  0 ≤ sh_last_order_id s.1 → sh_last_order_id s.1 + 2 * Z.of_nat (length syms) * Z.of_nat n < 2^32 →
  ∃ s', for_each (replicate n tt) (λ _, process) s = (Ret tt, s') ∧ quoting s' ∧ Forall (λ sy, well_quoted sy s'.2) syms.
Proof using QE FL quotables.
  induction n as [|n IH]; intros s Hnd Hq Hw Hn0 Hn; [by exists s|].
  destruct (run_maker_process s Hnd Hq Hn0) as (s1 & Hrun1 & Hq1 & Hw1 & Hl1); [nia|].
  destruct (IH s1 Hnd Hq1 Hw1) as (s' & Hrun & H'); [lia|nia|].
  exists s'. split; [simpl; by erewrite bind_ret by exact Hrun1|done].
Qed.
End runs.

(** ** Properties *)

(** C36 ([maker_two_sided_quotes]): however often the market maker runs with fair
    values in a range, it never throws; it has at most one open bid and one open
    ask per symbol, its lists are exactly the orders its requests leave open, and
    the prices of a symbol are the ticks at the width around one fair value, the
    bid no lower than the symbol's minimum and the ask exactly twice the width
    plus one tick above it.  (The minimum price is not negative; the width is at
    most ten ticks, and with ten the minimum is a whole number of ticks; the range,
    the variances and the width stay within 32 bits, and so do the order ids.) *)
Theorem maker_two_sided_quotes (BT : BotWorld) {O D} (OE : OrderEntry O) (QE : QuietEntry O) (FVS : FairValues D)
    syms vars w q low high ok (FL : FairValuesLaw D (length syms) low high ok) (o : O) (d : D) n k calls :
  Forall2 (quotable low high w) vars syms → NoDup (sym_symbol <$> syms) → ok d →
  0 ≤ n → n + 2 * Z.of_nat (length syms) * Z.of_nat calls < 2^32 →
  ∃ s', for_each (replicate calls tt) (λ _, process) (mk_shared (o, []) d n k, initial vars syms w q) = (Ret tt, s') ∧
    (∀ i r, replay (journal s') !! i = Some r ↔
       side_ok (rs_side r) ∧ mk_open i (rs_price r) (rs_quantity r) ∈ orders (rs_side r) (rs_symbol r) s'.2) ∧
    (∀ side y, side_ok side → (length (orders side y s'.2) ≤ 1)%nat) ∧
    (∀ sy b a, sy ∈ syms → b ∈ orders md.SIDE.BUY (sym_symbol sy) s'.2 → a ∈ orders md.SIDE.SELL (sym_symbol sy) s'.2 →
       price b mod sym_tick_size sy = 0 ∧ sym_min_price sy ≤ price b ∧ price a = price b + (2 * w + 1) * sym_tick_size sy).
Proof.
  intros Hqt Hnd Hok Hn0 Hn.
  destruct (run_maker_processes low high syms vars w q ok Hqt calls (mk_shared (o, []) d n k, initial vars syms w q))
    as (s' & Hrun & [[I1 I2 I3] Hok' Hc] & Hw); [done| | |done|done|].
  { split; [|done|done]. split; [intros side y [-> | ->]; simpl; unfold orders; simpl; rewrite lookup_empty; simpl; lia
      |intros side y [-> | ->]; simpl; unfold orders; simpl; rewrite lookup_empty; constructor|].
    intros i r. unfold journal, replay. simpl. rewrite lookup_empty. split; [done|]. intros [[E|E] Hin]; rewrite E in Hin;
      unfold orders in Hin; simpl in Hin; rewrite lookup_empty in Hin; by apply elem_of_nil in Hin. }
  { apply Forall_forall. intros sy Hsy. apply list_elem_of_lookup in Hsy as [i Hsy].
    destruct (Forall2_lookup_r _ _ _ _ _ Hqt Hsy) as (variance & _ & Hqs).
    exists (sym_min_price sy + 10 * sym_tick_size sy). unfold orders. simpl. rewrite lookup_empty. split; [|split; constructor].
    by eapply bid_above_min. }
  exists s'. split; [exact Hrun|]. split; [exact I3|]. split; [exact I1|]. intros sy b a Hsy Hb Ha.
  rewrite Forall_forall in Hw. destruct (Hw sy Hsy) as (v & V1 & V2 & V3). injection Hc as _ _ Ew _.
  rewrite Forall_forall in V2, V3. rewrite (V2 b Hb), (V3 a Ha), Ew in *. unfold bid_at, ask_at in *.
  split; [rewrite Z.mul_comm; apply Z_mod_mult|]. split; [done|lia].
Qed.

(** ** Examples *)

(** Two of the listed symbols, of ticks 10 and 5. *)
Definition two_symbols : list symbol_definition := [listed 1 10; listed 2 5].

(** Walks that step down by one; a clock that ticks; an order entry client that
    does nothing. *)
Definition sinking_world : WalkWorld := {| ww_walk := λ _ _, -1; ww_time := λ _ _, 1 |}.
Definition ticking_world : BotWorld := {| bt_clock := λ n, 10 * Z.of_nat (S n); bt_rand := Z.of_nat; bt_draw := λ _ low _, low |}.

#[local] Instance idle : OrderEntry unit := {|
  oe_send_order := λ _ _ _ _ _ _, mret tt; oe_cancel_order := λ _, mret tt; oe_modify_order := λ _ _ _ _, mret tt;
  oe_get_position := λ _ _, 7;
|}.
#[local] Instance idle_quiet : QuietEntry unit.
Proof. split; intros; by eexists. Qed.

Definition walks : quotes * list RandomWalkFairValue.t :=
  (mk_quotes (λ _, BotBook.OrderBook.mkLevel 0 0) (λ _, BotBook.OrderBook.mkLevel 0 0),
   [RandomWalkFairValue.initial 1200 (listed 1 10) 0; RandomWalkFairValue.initial 900 (listed 2 5) 1]).

Definition walking_fvs : FairValues (quotes * list RandomWalkFairValue.t) :=
  fair_values_list (FV := RandomWalkFairValue.process (WW := sinking_world)).

Lemma two_bounded : Forall (λ sy, walkable sy ∧ 25 ≤ walk_low sy ∧ walk_high sy ≤ 9999975 ∧
  ∀ rd n, Z.abs (@ww_walk sinking_world rd n) ≤ RandomWalkFairValue.calculate_dist (sym_tick_size sy)) two_symbols.
Proof.
  repeat constructor; unfold walk_low, walk_high, is_s32, RandomWalkFairValue.calculate_dist; simpl; try lia; vm_compute; by discriminate.
Qed.

Definition seven_calls : outcome unit * (shared (unit * list order_op) (quotes * list RandomWalkFairValue.t) * t) :=
  for_each (replicate 7 tt) (λ _, process (BT := ticking_world) (FVS := walking_fvs)) (mk_shared (tt, []) walks 7 0, initial [1; 1] two_symbols 2 90).

(** The other program's market maker: width 10 around constant values. *)
Definition steady_fvs : FairValues (quotes * list ConstantFairValue.t) := fair_values_list (FV := ConstantFairValue.process).
Definition steady_values : quotes * list ConstantFairValue.t := (walks.1, [ConstantFairValue.mk 1200; ConstantFairValue.mk 400]).
Definition widest_call : outcome unit * (shared (unit * list order_op) (quotes * list ConstantFairValue.t) * t) :=
  process (BT := ticking_world) (FVS := steady_fvs) (mk_shared (tt, []) steady_values 7 0, initial [0; 0] two_symbols 10 400).

Lemma two_quotable : Forall2 (quotable 25 9999975 2) [1; 1] two_symbols.
Proof. repeat constructor; simpl; lia. Qed.

Lemma widest_quotable : Forall2 (quotable 400 1200 10) [0; 0] two_symbols.
Proof. repeat constructor; simpl; lia. Qed.

Lemma maker_two_sided_quotes_witness :
  journal seven_calls.2 =
    [SendOrder 1 7 md.SIDE.BUY 90 1170 0; SendOrder 1 8 md.SIDE.SELL 90 1220 0;
     SendOrder 2 9 md.SIDE.BUY 90 880 0; SendOrder 2 10 md.SIDE.SELL 90 905 0;
     CancelOrder 7; CancelOrder 8; CancelOrder 9; CancelOrder 10;
     SendOrder 1 11 md.SIDE.BUY 90 1160 0; SendOrder 1 12 md.SIDE.SELL 90 1210 0;
     SendOrder 2 13 md.SIDE.BUY 90 875 0; SendOrder 2 14 md.SIDE.SELL 90 900 0] ∧
  seven_calls.1 = Ret tt ∧
  (∀ b a, b ∈ orders md.SIDE.BUY 2 seven_calls.2.2 → a ∈ orders md.SIDE.SELL 2 seven_calls.2.2 → price a = price b + 25) ∧
  journal widest_call.2 =
    [SendOrder 1 7 md.SIDE.BUY 400 1090 0; SendOrder 1 8 md.SIDE.SELL 400 1300 0;
     SendOrder 2 9 md.SIDE.BUY 400 340 0; SendOrder 2 10 md.SIDE.SELL 400 445 0] ∧
  ∀ b a, b ∈ orders md.SIDE.BUY 2 widest_call.2.2 → a ∈ orders md.SIDE.SELL 2 widest_call.2.2 → price a = price b + 105.
Proof.
  split; [vm_compute; reflexivity|].
  destruct (maker_two_sided_quotes ticking_world idle idle_quiet walking_fvs two_symbols [1; 1] 2 90 25 9999975 (walks_ok two_symbols)
    (walks_law (WW := sinking_world) two_symbols 25 9999975 two_bounded) tt walks 7 0 7) as (s' & Hrun & _ & _ & Hp);
    [exact two_quotable|by_decide| |lia|simpl; lia|].
  { repeat constructor; unfold walk_low, walk_high; simpl; lia. }
  destruct (maker_two_sided_quotes ticking_world idle idle_quiet steady_fvs two_symbols [0; 0] 10 400 400 1200 (constants_ok [1200; 400])
    (constants_law 400 1200 [1200; 400] ltac:(by_decide)) tt steady_values 7 0 1) as (s2 & Hrun2 & _ & _ & Hp2);
    [exact widest_quotable|by_decide|reflexivity|lia|simpl; lia|].
  split; [unfold seven_calls; by rewrite Hrun|]. split.
  { unfold seven_calls. rewrite Hrun. intros b a Hb Ha. destruct (Hp (listed 2 5) b a) as (_ & _ & H); [right; left|exact Hb|exact Ha|exact H]. }
  split; [vm_compute; reflexivity|].
  assert (widest_call = (Ret tt, s2)) as ->.
  { rewrite <- Hrun2. cbn [replicate for_each]. unfold mbind, M_bind. fold widest_call. by destruct widest_call as [[[]|e] s3]. }
  intros b a Hb Ha. destruct (Hp2 (listed 2 5) b a) as (_ & _ & H); [right; left|exact Hb|exact Ha|exact H].
Defined.
