(* ===== verification/Takers.v ===== *)
(** * The bots that take liquidity or leave orders behind

    [bots/imbalance_taker.cpp], [random_taker.cpp], [pressure_taker.cpp] and
    [resting_orders.cpp].  [rand] and the distributions' draws are parameters of
    [BotWorld]. *)
From S2P Require Import Prelude Protocol BotBook OeClient Strategy.

Section draws.
Context `{BT : BotWorld} {O D T : Type}.

(** [rand()], a non-negative [int], and a draw between two bounds. *)
Definition rand : M (shared O D * T) Z := ask bt_rand.
Definition draw (low high : Z) : M (shared O D * T) Z := ask (λ n, bt_draw n low high).
End draws.

Module ImbalanceTaker.

Record t := mk {
  symbols : list symbol_definition;
  quantity : Z;
  imbalance_thresholds : list Z;
  imbalance_quantities : gmap Z Z;
  last_order_send_ts : Z;
}.

Definition initial (symbols : list symbol_definition) (quantity : Z) (thresholds : list Z) : t :=
  mk symbols quantity thresholds (list_to_map ((λ sy, (sym_symbol sy, 0)) <$> symbols)) 0.

Definition set_imbalance (y z : Z) (s : t) : t :=
  mk (symbols s) (quantity s) (imbalance_thresholds s) (<[y := z]> (imbalance_quantities s)) (last_order_send_ts s).
Definition set_last_order_send_ts (ts : Z) (s : t) : t :=
  mk (symbols s) (quantity s) (imbalance_thresholds s) (imbalance_quantities s) ts.

(** [imbalance_quantities[symbol] += quantity]: an [int32_t] and a [uint32_t]. *)
Definition on_trade_summary (y quantity price aggressor_side : Z) (s : t) : t :=
  let q := default 0 (imbalance_quantities s !! y) in
  if aggressor_side =? md.SIDE.BUY then set_imbalance y (s32 (q + quantity)) s
  else if aggressor_side =? md.SIDE.SELL then set_imbalance y (s32 (q - quantity)) s
  else s.

Section ops.
Context `{BT : BotWorld} {O D : Type} `{OE : !OrderEntry O}.
Abbreviation SM := (M (shared O D * t)).

Definition take_side (sy : symbol_definition) (side price : Z) : SM unit :=
  id ← next_order_id;
  q ← get_own quantity;
  on_oe (oe_send_order (sym_symbol sy) id side q price 1);;
  now ← nanotime;
  on_own (set_last_order_send_ts now);;
  on_own (set_imbalance (sym_symbol sy) 0).

(** [imbalance_thresholds[symbol.symbol - 1]]: the index is unsigned, an index
    past the end undefined. *)
Definition take_symbol (sy : symbol_definition) : SM unit :=
  s ← get_own id;
  match imbalance_quantities s !! sym_symbol sy with
  | None => mret tt
  | Some imbalance_quantity =>
      match imbalance_thresholds s !! Z.to_nat (u32 (sym_symbol sy - 1)) with
      | None => throw (undefined_behaviour "threshold index")
      | Some threshold =>
          if imbalance_quantity >? threshold then take_side sy md.SIDE.BUY (sym_max_price sy)
          else
            low ← int32 (- threshold);
            when (imbalance_quantity <? low) (take_side sy md.SIDE.SELL (sym_min_price sy))
      end
  end.

Definition process : SM unit :=
  s ← get_own id;
  send ← rested (last_order_send_ts s);
  when send (for_each (symbols s) take_symbol).
End ops.
End ImbalanceTaker.

Module RandomTaker.

Record t := mk { symbols : list symbol_definition; quantity : Z; low : Z; high : Z; last_ts : Z }.

Definition initial (symbols : list symbol_definition) (quantity time_scale : Z) : t :=
  mk symbols quantity (u64 (10000000 * time_scale)) (u64 (500000000 * time_scale)) 0.

Definition set_last_ts (ts : Z) (s : t) : t := mk (symbols s) (quantity s) (low s) (high s) ts.

Section ops.
Context `{BT : BotWorld} {O D : Type} `{OE : !OrderEntry O} `{MV : !MarketView D}.
Abbreviation SM := (M (shared O D * t)).

(** [send_order(symbol, last_order_id, ...); last_order_id++]. *)
Definition send_next (y side quantity price flags : Z) : SM unit :=
  id ← gets (λ s, sh_last_order_id s.1);
  on_oe (oe_send_order y id side quantity price flags);;
  _ ← next_order_id;
  mret tt.

Definition take_symbol (sy : symbol_definition) : SM unit :=
  r ← rand;
  q ← get_own quantity;
  if Z.rem r 2 =? 0 then
    ask ← get_md (mv_best_ask (sym_symbol sy));
    send_next (sym_symbol sy) md.SIDE.BUY q (OrderBook.level_price ask) oe.ORDER_FLAGS.IOC
  else
    bid ← get_md (mv_best_bid (sym_symbol sy));
    send_next (sym_symbol sy) md.SIDE.SELL q (OrderBook.level_price bid) oe.ORDER_FLAGS.IOC.

Definition process : SM unit :=
  ts ← nanotime;
  s ← get_own id;
  if ts <? last_ts s then mret tt
  else
    for_each (symbols s) take_symbol;;
    d ← draw (low s) (high s);
    on_own (set_last_ts (u64 (ts + d))).
End ops.
End RandomTaker.

Module PressureTaker.

Record t := mk {
  symbols : list symbol_definition;
  quantity : Z;
  last_ts : Z;
  pressure_quantity : Z;
  pressure_side : Z;
}.

Definition initial (symbols : list symbol_definition) (quantity : Z) : t := mk symbols quantity 0 0 md.SIDE.BUY.

Definition set_last_ts (ts : Z) (s : t) : t := mk (symbols s) (quantity s) ts (pressure_quantity s) (pressure_side s).
Definition set_pressure (q side : Z) (s : t) : t := mk (symbols s) (quantity s) (last_ts s) q side.

Section ops.
Context `{BT : BotWorld} {O D : Type} `{OE : !OrderEntry O} `{MV : !MarketView D}.
Abbreviation SM := (M (shared O D * t)).

(** [pressure_quantity -= quantity] is computed in [uint32_t]. *)
Definition press_symbol (sy : symbol_definition) : SM unit :=
  s ← get_own id;
  level ← get_md ((if pressure_side s =? md.SIDE.BUY then mv_best_ask else mv_best_bid) (sym_symbol sy));
  id ← gets (λ s, sh_last_order_id s.1);
  on_oe (oe_send_order (sym_symbol sy) id (pressure_side s) (quantity s) (OrderBook.level_price level) oe.ORDER_FLAGS.IOC);;
  on_own (λ s, set_pressure (s32 (pressure_quantity s - quantity s)) (pressure_side s) s);;
  _ ← next_order_id;
  mret tt.

(** [symbols[0]] is read for the log. *)
Definition reload : SM unit :=
  r ← rand;
  r' ← rand;
  on_own (set_pressure (Z.rem r 100 + 1) (if Z.rem r' 2 =? 0 then md.SIDE.BUY else md.SIDE.SELL));;
  sys ← get_own symbols;
  match sys with [] => throw (undefined_behaviour "symbols[0]") | _ => mret tt end.

Definition process : SM unit :=
  ts ← nanotime;
  s ← get_own id;
  if ts <? last_ts s then mret tt
  else
    when (pressure_quantity s <=? s32 (quantity s)) reload;;
    for_each (symbols s) press_symbol;;
    now ← nanotime;
    d ← draw 200000000 10000000000;
    on_own (set_last_ts (u64 (now + d))).
End ops.
End PressureTaker.

Module RestingOrders.

Record t := mk { symbols : list symbol_definition; quantity : Z; last_ts : Z }.

Definition initial (symbols : list symbol_definition) (quantity : Z) : t := mk symbols quantity 0.

Definition set_last_ts (ts : Z) (s : t) : t := mk (symbols s) (quantity s) ts.

Section ops.
Context `{BT : BotWorld} {O D : Type} `{OE : !OrderEntry O} `{MV : !MarketView D}.
Abbreviation SM := (M (shared O D * t)).

(** [price - 3 * tick_size] is unsigned, and passed on as an [int32_t]. *)
Definition rest_symbol (side : Z) (sy : symbol_definition) : SM unit :=
  bid ← get_md (mv_best_bid (sym_symbol sy));
  ask ← get_md (mv_best_ask (sym_symbol sy));
  q ← get_own quantity;
  id ← gets (λ s, sh_last_order_id s.1);
  on_oe (oe_send_order (sym_symbol sy) id side q
    (if side =? md.SIDE.BUY then s32 (OrderBook.level_price bid - 3 * sym_tick_size sy)
     else s32 (OrderBook.level_price ask + 3 * sym_tick_size sy)) 0);;
  _ ← next_order_id;
  mret tt.

Definition process : SM unit :=
  ts ← nanotime;
  s ← get_own id;
  if ts <? last_ts s then mret tt
  else
    r ← rand;
    for_each (symbols s) (rest_symbol (if Z.rem r 2 =? 0 then md.SIDE.BUY else md.SIDE.SELL));;
    now ← nanotime;
    d ← draw 500000000 10000000000;
    on_own (set_last_ts (u64 (now + d))).
End ops.
End RestingOrders.
