(* ===== verification/TakerTheorems.v ===== *)
(** * The properties of the imbalance taker

    It follows the aggressors: it buys a symbol whose buyers outweigh its sellers
    by more than the threshold, and sells in the opposite case. *)
From S2P Require Import Prelude Protocol SnapshotClient Validator ClientHandler OeClient OeClientTheorems Strategy FairValue OrderJournal Takers.
Import ImbalanceTaker.

(** ** The trades it hears of *)

Record trade := mk_trade { tr_symbol : Z; tr_quantity : Z; tr_price : Z; tr_side : Z }.

Definition hear (s : t) (x : trade) : t := on_trade_summary (tr_symbol x) (tr_quantity x) (tr_price x) (tr_side x) s.

(** What aggressors bought of the symbol, less what they sold. *)
Fixpoint net_flow (y : Z) (xs : list trade) : Z :=
  match xs with
  | [] => 0
  | x :: xs =>
      (if tr_symbol x =? y then
         if tr_side x =? md.SIDE.BUY then tr_quantity x else if tr_side x =? md.SIDE.SELL then - tr_quantity x else 0
       else 0) + net_flow y xs
  end.

Lemma hear_flow y x s q : is_s32 q → imbalance_quantities s !! y = Some q →
  imbalance_quantities (hear s x) !! y = Some (s32 (q + net_flow y [x])).
Proof.
  intros Hq Hy. unfold hear, on_trade_summary, set_imbalance. simpl. rewrite Z.add_0_r.
  destruct (Z.eqb_spec (tr_symbol x) y) as [-> |Hne].
  - destruct (_ =? md.SIDE.BUY); simpl; [by rewrite Hy, lookup_insert_eq|].
    destruct (_ =? md.SIDE.SELL); simpl; [by rewrite Hy, lookup_insert_eq, Z.add_opp_r|]. by rewrite Z.add_0_r, (s32_id q).
  - rewrite Z.add_0_r, (s32_id q) by done.
    destruct (_ =? md.SIDE.BUY); simpl; [by rewrite lookup_insert_ne|].
    destruct (_ =? md.SIDE.SELL); simpl; [by rewrite lookup_insert_ne|done].
Qed.

Lemma hears_flow y xs : ∀ s q, is_s32 q → imbalance_quantities s !! y = Some q →
  imbalance_quantities (foldl hear s xs) !! y = Some (s32 (q + net_flow y xs)).
Proof.
  induction xs as [|x xs IH]; intros s q Hq Hy; simpl; [by rewrite Z.add_0_r, s32_id|].
  rewrite (IH _ (s32 (q + net_flow y [x]))); [|apply s32_range|by apply hear_flow].
  rewrite s32_add. f_equal. f_equal. simpl. lia.
Qed.

Definition settings (s : t) : list symbol_definition * Z * list Z := (symbols s, quantity s, imbalance_thresholds s).

Lemma hears_settings xs : ∀ s, settings (foldl hear s xs) = settings s ∧
  last_order_send_ts (foldl hear s xs) = last_order_send_ts s.
Proof.
  induction xs as [|x xs IH]; intros s; [done|]. simpl. destruct (IH (hear s x)) as [-> ->].
  unfold hear, on_trade_summary. by repeat case_match.
Qed.

(** ** The orders it sends *)

(** The side to take, from the imbalance and the threshold. *)
Definition decision (q threshold : Z) : option Z :=
  if q >? threshold then Some md.SIDE.BUY else if q <? - threshold then Some md.SIDE.SELL else None.

(** One order at the limit of its prices for each symbol that is due, with
    consecutive ids. *)
Fixpoint due_orders (qty : Z) (flow threshold : symbol_definition → Z) (n : Z) (sys : list symbol_definition) : list order_op :=
  match sys with
  | [] => []
  | sy :: sys =>
      match decision (flow sy) (threshold sy) with
      | None => due_orders qty flow threshold n sys
      | Some side =>
          SendOrder (sym_symbol sy) n side qty (if side =? md.SIDE.BUY then sym_max_price sy else sym_min_price sy) oe.ORDER_FLAGS.IOC
            :: due_orders qty flow threshold (n + 1) sys
      end
  end.

Section runs.
Context `{BT : BotWorld} {O D : Type} `{OE : !OrderEntry O} `{QE : !QuietEntry O}.
Abbreviation St := (shared (O * list order_op) D * t)%type.

Lemma run_take_side sy side p (s : St) : 0 ≤ sh_last_order_id s.1 < 2^32 - 1 →
  ∃ s', take_side sy side p s = (Ret tt, s') ∧ settings s'.2 = settings s.2 ∧
    journal s' = journal s ++ [SendOrder (sym_symbol sy) (sh_last_order_id s.1) side (quantity s.2) p 1] ∧
    sh_last_order_id s'.1 = sh_last_order_id s.1 + 1 ∧
    imbalance_quantities s'.2 = <[sym_symbol sy := 0]> (imbalance_quantities s.2).
Proof using QE.
  intros Hn. set (s1 := set_last_order_id (u32 (sh_last_order_id s.1 + 1)) s).
  destruct (run_oe_send (sym_symbol sy) (sh_last_order_id s.1) side (quantity s.2) p 1 s1) as (s2 & Hrun2 & [A1 A2 A3 A4]).
  eexists. split.
  { unfold take_side. erewrite (bind_ret next_order_id) by reflexivity. cbn beta. erewrite bind_ret by reflexivity. cbn beta.
    erewrite bind_ret by exact Hrun2. cbn beta. reflexivity. }
  simpl. rewrite A1, A4. split; [done|]. split; [exact A2|]. split; [|done]. simpl. apply u32_id. unfold is_u32. lia.
Qed.

Context (flow threshold : symbol_definition → Z).

(** The taker knows the symbol's imbalance and threshold. *)
Definition known (s : t) (sy : symbol_definition) : Prop :=
  imbalance_quantities s !! sym_symbol sy = Some (flow sy) ∧
  imbalance_thresholds s !! Z.to_nat (u32 (sym_symbol sy - 1)) = Some (threshold sy) ∧ 0 ≤ threshold sy < 2^31.

Definition left_over (sy : symbol_definition) : Z := match decision (flow sy) (threshold sy) with Some _ => 0 | None => flow sy end.

Lemma run_take_symbol sy (s : St) : known s.2 sy → 0 ≤ sh_last_order_id s.1 < 2^32 - 1 →
  ∃ s', take_symbol sy s = (Ret tt, s') ∧ settings s'.2 = settings s.2 ∧
    journal s' = journal s ++ due_orders (quantity s.2) flow threshold (sh_last_order_id s.1) [sy] ∧
    sh_last_order_id s'.1 = sh_last_order_id s.1 + match decision (flow sy) (threshold sy) with Some _ => 1 | None => 0 end ∧
    imbalance_quantities s'.2 = <[sym_symbol sy := left_over sy]> (imbalance_quantities s.2).
Proof using QE.
  intros (H1 & H2 & H3) Hn. unfold take_symbol. mstep. unfold id. rewrite H1, H2. unfold left_over. simpl. unfold decision.
  rewrite Z.gtb_ltb. destruct (Z.ltb_spec (threshold sy) (flow sy)).
  { destruct (run_take_side sy md.SIDE.BUY (sym_max_price sy) s Hn) as (s' & Hrun & R1 & R2 & R3 & R4). by exists s'. }
  erewrite bind_ret by (unfold int32; rewrite bool_decide_true by (unfold is_s32; lia); reflexivity). cbn beta.
  destruct (Z.ltb_spec (flow sy) (- threshold sy)); simpl.
  { destruct (run_take_side sy md.SIDE.SELL (sym_min_price sy) s Hn) as (s' & Hrun & R1 & R2 & R3 & R4). by exists s'. }
  exists s. split; [done|]. split; [done|]. split; [by rewrite app_nil_r|]. split; [lia|]. by rewrite insert_id.
Qed.

Lemma run_take_symbols sys : ∀ s : St, NoDup (sym_symbol <$> sys) → Forall (known s.2) sys →
  0 ≤ sh_last_order_id s.1 → sh_last_order_id s.1 + Z.of_nat (length sys) < 2^32 →
  ∃ s', for_each sys take_symbol s = (Ret tt, s') ∧
    journal s' = journal s ++ due_orders (quantity s.2) flow threshold (sh_last_order_id s.1) sys ∧
    (∀ sy, sy ∈ sys → imbalance_quantities s'.2 !! sym_symbol sy = Some (left_over sy)) ∧
    (∀ y, y ∉ sym_symbol <$> sys → imbalance_quantities s'.2 !! y = imbalance_quantities s.2 !! y).
Proof using QE.
  induction sys as [|sy sys IH]; intros s Hnd Hk Hn0 Hn.
  { exists s. split; [done|]. split; [by rewrite app_nil_r|]. split; [by intros ? ?%elem_of_nil|done]. }
  apply NoDup_cons in Hnd as [Hny Hnd]. inversion_clear Hk as [|? ? Hk1 Hk2]. simpl length in Hn.
  destruct (run_take_symbol sy s Hk1) as (s1 & Hrun1 & S1 & J1 & L1 & I1); [lia|].
  pose proof S1 as Hset. injection Hset as E1 E2 E3.
  assert (Forall (known s1.2) sys) as Hk'.
  { apply Forall_forall. intros sy' Hin. rewrite Forall_forall in Hk2. destruct (Hk2 sy' Hin) as (K1 & K2 & K3).
    unfold known. rewrite I1, E3, lookup_insert_ne; [done|]. intros E. apply Hny. rewrite E. by apply list_elem_of_fmap_2. }
  destruct (IH s1 Hnd Hk') as (s' & Hrun & J & I & U); [destruct (decision _ _); lia|destruct (decision _ _); lia|].
  exists s'. split; [simpl; by erewrite bind_ret by exact Hrun1|]. split; [|split].
  - rewrite J, J1, L1, E2, <- app_assoc. f_equal. simpl. destruct (decision _ _); [done|]. by rewrite Z.add_0_r.
  - intros sy' [-> |Hin]%elem_of_cons; [|by apply I]. rewrite U by done. by rewrite I1, lookup_insert_eq.
  - intros y [Hne Hni]%not_elem_of_cons. rewrite U by done. by rewrite I1, lookup_insert_ne.
Qed.
End runs.

(** ** Properties *)

(** The pause after an order is over, or there was none. *)
Definition pause_over `{BT : BotWorld} {O D} (s : shared O D * t) : Prop :=
  last_order_send_ts s.2 = 0 ∨ u64 (clock_nanotime (bt_clock (sh_calls s.1)) - last_order_send_ts s.2) > 100000000.

Definition hears {O D} (xs : list trade) (s : shared O D * t) : shared O D * t := (s.1, foldl hear s.2 xs).

(** C38 ([imbalance_taker_orders]): after any trades, the imbalance taker whose pause is
    over sends exactly one immediate-or-cancel order for each symbol in which the
    aggressors' net flow since its last order exceeds the threshold, to buy at the
    maximal price after net buying and to sell at the minimal price after net
    selling, with consecutive ids; these symbols start again from zero and the
    others keep their flow. *)
Theorem imbalance_taker_orders (BT : BotWorld) {O D} (OE : OrderEntry O) (QE : QuietEntry O)
    (s : shared (O * list order_op) D * t) (before threshold : symbol_definition → Z) xs :
  let sys := symbols s.2 in
  let flow sy := s32 (before sy + net_flow (sym_symbol sy) xs) in
  NoDup (sym_symbol <$> sys) → Forall (λ sy, is_s32 (before sy)) sys → Forall (known before threshold s.2) sys →
  0 ≤ sh_last_order_id s.1 → sh_last_order_id s.1 + Z.of_nat (length sys) < 2^32 → pause_over s →
  ∃ s', process (hears xs s) = (Ret tt, s') ∧
    journal s' = journal s ++ due_orders (quantity s.2) flow threshold (sh_last_order_id s.1) sys ∧
    ∀ sy, sy ∈ sys → imbalance_quantities s'.2 !! sym_symbol sy = Some (left_over flow threshold sy).
Proof.
  intros sys flow Hnd Hb Hk Hn0 Hn Hp. destruct (hears_settings xs s.2) as [Hset Hts]. pose proof Hset as Hset'. injection Hset' as E1 E2 E3.
  assert (Forall (known flow threshold (foldl hear s.2 xs)) sys) as Hk'.
  { rewrite Forall_forall in *. intros sy Hin. destruct (Hk sy Hin) as (K1 & K2 & K3). split; [|by rewrite E3].
    apply hears_flow; [by apply Hb|done]. }
  assert (∃ s1, rested (last_order_send_ts s.2) (hears xs s) = (Ret true, s1) ∧ asked [] (hears xs s) s1)
    as (s1 & Hrun1 & [A1 A2 A3 A4]).
  { unfold rested. destruct (Z.eqb_spec (last_order_send_ts s.2) 0) as [_|Hne].
    - eexists. split; [reflexivity|]. apply asked_nil.
    - destruct Hp as [|Hp]; [done|]. eexists. split.
      + erewrite bind_ret by reflexivity. cbn beta. rewrite (proj2 (Z.gtb_lt _ _)) by (simpl; lia). reflexivity.
      + split; simpl; rewrite ?app_nil_r; done. }
  rewrite app_nil_r in A2.
  destruct (run_take_symbols flow threshold sys s1 Hnd) as (s' & Hrun & J & I & _); rewrite ?A1, ?A4; [done|done|done|].
  exists s'. split; [|split; [|done]].
  - unfold process. mstep. unfold id. simpl. rewrite Hts, E1. erewrite bind_ret by exact Hrun1. exact Hrun.
  - rewrite J, A1, A2, A4. simpl. by rewrite E2.
Qed.

(** ** Examples *)

Definition tin : symbol_definition := Build_symbol_definition 2 1 1 1000 1000 1.

Definition morning_world : BotWorld := {| bt_clock := λ n, 10 * Z.of_nat (S n); bt_rand := Z.of_nat; bt_draw := λ _ low _, low |}.

#[local] Instance silent : OrderEntry unit := {|
  oe_send_order := λ _ _ _ _ _ _, mret tt; oe_cancel_order := λ _, mret tt; oe_modify_order := λ _ _ _ _, mret tt;
  oe_get_position := λ _ _, 0;
|}.
#[local] Instance silent_quiet : QuietEntry unit.
Proof. split; intros; by eexists. Qed.

Definition taker : shared (unit * list order_op) unit * t := (mk_shared (tt, []) tt 7 0, initial [gold; tin] 3 [5; 5]).

Definition buying : list trade := [mk_trade 1 4 1000 md.SIDE.BUY; mk_trade 2 4 300 md.SIDE.SELL; mk_trade 1 2 1010 md.SIDE.BUY].

Lemma imbalance_taker_orders_witness :
  ∃ s', process (BT := morning_world) (hears buying taker) = (Ret tt, s') ∧
    journal s' = [SendOrder 1 7 md.SIDE.BUY 3 10000 1] ∧ imbalance_quantities s'.2 !! 2 = Some (-4).
Proof.
  destruct (imbalance_taker_orders morning_world silent silent_quiet taker (λ _, 0) (λ _, 5) buying) as (s' & Hrun & J & I).
  - apply (bool_decide_unpack _). vm_compute. exact I.
  - repeat constructor; unfold is_s32; simpl; lia.
  - repeat constructor; simpl; lia.
  - simpl. lia.
  - simpl. lia.
  - by left.
  - exists s'. split; [exact Hrun|]. split; [exact J|]. refine (eq_trans (I tin _) _); [right; left|reflexivity].
Defined.
