(* ===== verification/BotPrograms.v ===== *)
(** * The bots' programs: [bots/bot_runner.cpp], [stable_bot_runner.cpp],
    [smarter_bots.cpp] and [reject_bot.cpp]

    A program logs in, waits for a snapshot, makes its strategies, which share the
    two clients and the counter of order ids, and polls the clients and runs the
    strategies in turn for ever. *)
From Stdlib Require Import Init.Byte Strings.String.
From S2P Require Import Prelude Protocol SnapshotClient Validator ClientHandler BotBook MdClient OeClient Strategy FairValue StackManager MarketMaker Takers.

(** [client.process()] *)
Class Polled (A : Type) := poll : M A unit.

#[global] Instance oe_client_polled `{CW : ClientWorld} : Polled OEClient.t := OEClient.process.
#[global] Instance md_client_polled `{FW : FeedWorld} : Polled MDClient.t := MDClient.process.

(** A client and what goes with it. *)
#[global] Instance pair_polled {A B} `{PA : !Polled A} : Polled (A * B) := zoom fst (λ a s, (a, s.2)) poll.

(** The trade summaries a market data client has told its listener of. *)
Class Summaries (D : Type) := told : D → list MDClient.trade_summary.

#[global] Instance md_client_summaries : Summaries MDClient.t := MDClient.summaries.
#[global] Instance pair_summaries {A B} `{SA : !Summaries A} : Summaries (A * B) := λ s, told s.1.

(** ** Setting up *)

(** [login()] and [wait_for_snapshot()]: [None] is [return 1]; nothing catches an
    exception. *)
Definition connect `{CW : ClientWorld} `{FW : FeedWorld} (user : user_info) : M (OEClient.t * MDClient.t) (option unit) :=
  ok ← zoom fst (λ o s, (o, s.2)) (OEClient.login user);
  if negb ok then mret None
  else zoom snd (λ d s, (s.1, d)) (MDClient.wait_for_snapshot fw_fuel);; mret (Some tt).

(** [for (auto& x : xs) x.process();] over strategies that share the clients. *)
Section all.
Context {Sh T : Type} (process : M (Sh * T) unit).

Fixpoint process_all (ts : list T) (sh : Sh) : outcome unit * (Sh * list T) :=
  match ts with
  | [] => (Ret tt, (sh, []))
  | t :: ts =>
      let '(r, (sh, t)) := process (sh, t) in
      match r with
      | Throw e => (Throw e, (sh, t :: ts))
      | Ret _ => let '(r, (sh, ts)) := process_all ts sh in (r, (sh, t :: ts))
      end
  end.
End all.

(** The two symbols of the smaller programs. *)
Definition two_symbols : list symbol_definition := [
  Build_symbol_definition 1 10 1 1000 10000000 0;
  Build_symbol_definition 2 5 1 1000 10000000 0].

Module BotRunner.

(** A program of market makers, takers and stackers. *)
Record t (O D : Type) := mk {
  common : shared O D;
  market_makers : list FairValueMarketMaker.t;
  takers : list RandomTaker.t;
  stackers : list FairValueStackingMarketMaker.t;
}.
Arguments mk {O D} _ _ _ _.
Arguments common {O D} _.
Arguments market_makers {O D} _.
Arguments takers {O D} _.
Arguments stackers {O D} _.

Definition user : user_info := mk_user "test" "testuser" 99.

(** The program lists the symbols again. *)
Definition symbols : list symbol_definition := [
  Build_symbol_definition 1 10 1 1000 10000000 0;
  Build_symbol_definition 2 5 1 1000 10000000 0;
  Build_symbol_definition 3 5 1 1000 10000000 0;
  Build_symbol_definition 4 5 1 1000 10000000 0;
  Build_symbol_definition 5 5 1 1000 10000000 0;
  Build_symbol_definition 6 5 1 1000 10000000 0;
  Build_symbol_definition 7 5 1 1000 10000000 0;
  Build_symbol_definition 8 5 1 1000 10000000 0;
  Build_symbol_definition 9 5 1 1000 10000000 0;
  Build_symbol_definition 10 5 1 1000 10000000 0;
  Build_symbol_definition 11 5 1 1000 10000000 0;
  Build_symbol_definition 12 5 1 1000 10000000 0;
  Build_symbol_definition 13 10 1 1000 10000000 0].

Definition start_prices : list Z := [1200; 900; 550; 520; 580; 510; 600; 530; 540; 560; 570; 590; 5550].

(** The generators of the walks are seeded one after the other. *)
Definition fair_values : list RandomWalkFairValue.t :=
  imap (λ i '(price, symbol), RandomWalkFairValue.initial price symbol i) (zip start_prices symbols).

Definition variances : list (list Z) := [
  [0; 0; 0; 0; 0; 0; 0; 0; 0; 0; 0; 0; 0];
  [1; 1; 1; 1; 1; 1; 1; 1; 1; 1; 1; 1; 10];
  [-1; -1; -1; -1; -1; -1; -1; -1; -1; -1; -1; -1; -10];
  [1; 0; 2; 0; 1; 0; 2; 0; 1; 0; 2; 0; 5];
  [2; 0; 0; 2; 0; 2; 0; 2; 0; 2; 0; 2; 10];
  [0; 2; 1; 1; 1; 1; 1; 1; 1; 1; 1; 1; 5];
  [3; 0; -1; 1; -1; 1; -1; 1; -1; 1; -1; 1; 0]].

Section start.
Context {O MD : Type}.

Definition initial (oe : O) (md_client : MD) : t O (MD * list RandomWalkFairValue.t) :=
  mk (mk_shared oe (md_client, fair_values) 1 0)
    (imap (λ i v, FairValueMarketMaker.initial v symbols (if (i <? 3)%nat then 2 else 3) (100 - 10 * Z.of_nat i)) variances)
    ((λ i, RandomTaker.initial symbols (i + 1) (6 + i)) <$> [0; 1; 2; 3])
    ((λ symbol, FairValueStackingMarketMaker.initial symbol 1 2) <$> symbols).
End start.

Section ops.
Context `{BT : BotWorld} {O D : Type} `{OE : !OrderEntry O} `{MV : !MarketView D} `{FVS : !FairValues D} `{PO : !Polled O} `{PD : !Polled D}.
Abbreviation BM := (M (t O D)).

Definition on_common (f : shared O D → outcome unit * shared O D) : BM unit := λ s,
  let '(r, sh) := f (common s) in (r, mk sh (market_makers s) (takers s) (stackers s)).

Definition poll_oe : BM unit := on_common (λ sh,
  let '(r, o) := poll (sh_oe sh) in (r, mk_shared o (sh_md sh) (sh_last_order_id sh) (sh_calls sh))).
Definition poll_md : BM unit := on_common (λ sh,
  let '(r, d) := poll (sh_md sh) in (r, mk_shared (sh_oe sh) d (sh_last_order_id sh) (sh_calls sh))).

Definition run_market_makers : BM unit := λ s,
  let '(r, (sh, l)) := process_all FairValueMarketMaker.process (market_makers s) (common s) in (r, mk sh l (takers s) (stackers s)).
Definition run_takers : BM unit := λ s,
  let '(r, (sh, l)) := process_all RandomTaker.process (takers s) (common s) in (r, mk sh (market_makers s) l (stackers s)).
Definition run_stackers : BM unit := λ s,
  let '(r, (sh, l)) := process_all FairValueStackingMarketMaker.process (stackers s) (common s) in (r, mk sh (market_makers s) (takers s) l).

(** One round of the loop. *)
Definition round : BM unit :=
  poll_oe;;
  poll_md;;
  run_market_makers;;
  run_takers;;
  run_stackers.

Definition run (rounds : nat) : BM unit := for_each (replicate rounds tt) (λ _, round).
End ops.
End BotRunner.

Module StableBotRunner.

(** The program has no stackers. *)
Section start.
Context {O MD : Type}.

Definition fair_values : list ConstantFairValue.t := [ConstantFairValue.mk 1200; ConstantFairValue.mk 400].

Definition initial (oe : O) (md_client : MD) : BotRunner.t O (MD * list ConstantFairValue.t) :=
  BotRunner.mk (mk_shared oe (md_client, fair_values) 1 0)
    [FairValueMarketMaker.initial [0; 0] two_symbols 10 400]
    [RandomTaker.initial two_symbols 1 10]
    [].
End start.

Section ops.
Context `{BT : BotWorld} {O D : Type} `{OE : !OrderEntry O} `{MV : !MarketView D} `{FVS : !FairValues D} `{PO : !Polled O} `{PD : !Polled D}.

Definition round : M (BotRunner.t O D) unit :=
  BotRunner.poll_oe;;
  BotRunner.poll_md;;
  BotRunner.run_market_makers;;
  BotRunner.run_takers.

Definition run (rounds : nat) : M (BotRunner.t O D) unit := for_each (replicate rounds tt) (λ _, round).
End ops.
End StableBotRunner.

Module SmarterBots.

Record t (O D : Type) := mk {
  common : shared O D;
  imbalance_taker : ImbalanceTaker.t;
  pressure_taker : PressureTaker.t;
  resting_orders : RestingOrders.t;
}.
Arguments mk {O D} _ _ _ _.
Arguments common {O D} _.
Arguments imbalance_taker {O D} _.
Arguments pressure_taker {O D} _.
Arguments resting_orders {O D} _.

Definition user : user_info := mk_user "test2" "testuser" 98.

(** The imbalance taker registers itself as the listener. *)
Definition initial {O} (oe : O) (md_client : MDClient.t) : t O MDClient.t :=
  mk (mk_shared oe (MDClient.register_trade_summary_listener md_client) 1 0)
    (ImbalanceTaker.initial two_symbols 40 [200; 400])
    (PressureTaker.initial two_symbols 5)
    (RestingOrders.initial two_symbols 25).

Section ops.
Context `{BT : BotWorld} {O D : Type} `{OE : !OrderEntry O} `{MV : !MarketView D} `{SU : !Summaries D} `{PO : !Polled O} `{PD : !Polled D}.
Abbreviation BM := (M (t O D)).

Definition poll_oe : BM unit := λ s, let sh := common s in
  let '(r, o) := poll (sh_oe sh) in
  (r, mk (mk_shared o (sh_md sh) (sh_last_order_id sh) (sh_calls sh)) (imbalance_taker s) (pressure_taker s) (resting_orders s)).

(** The market data client calls the taker with every summary it reads; the taker
    only counts. *)
Definition hear (x : MDClient.trade_summary) : ImbalanceTaker.t → ImbalanceTaker.t :=
  ImbalanceTaker.on_trade_summary (MDClient.sm_symbol x) (MDClient.sm_quantity x) (MDClient.sm_price x) (MDClient.sm_aggressor_side x).

Definition poll_md : BM unit := λ s, let sh := common s in
  let '(r, d) := poll (sh_md sh) in
  (r, mk (mk_shared (sh_oe sh) d (sh_last_order_id sh) (sh_calls sh))
        (foldl (λ i x, hear x i) (imbalance_taker s) (drop (length (told (sh_md sh))) (told d)))
        (pressure_taker s) (resting_orders s)).

Definition run_imbalance_taker : BM unit := λ s,
  let '(r, (sh, x)) := ImbalanceTaker.process (common s, imbalance_taker s) in (r, mk sh x (pressure_taker s) (resting_orders s)).
Definition run_pressure_taker : BM unit := λ s,
  let '(r, (sh, x)) := PressureTaker.process (common s, pressure_taker s) in (r, mk sh (imbalance_taker s) x (resting_orders s)).
Definition run_resting_orders : BM unit := λ s,
  let '(r, (sh, x)) := RestingOrders.process (common s, resting_orders s) in (r, mk sh (imbalance_taker s) (pressure_taker s) x).

Definition round : BM unit :=
  poll_oe;;
  poll_md;;
  run_imbalance_taker;;
  run_pressure_taker;;
  run_resting_orders.

Definition run (rounds : nat) : BM unit := for_each (replicate rounds tt) (λ _, round).
End ops.
End SmarterBots.

Module RejectBot.

Section ops.
Context {O D : Type} `{OE : !OrderEntry O} `{PO : !Polled O} `{PD : !Polled D}.

(** Five thousand bids, as fast as the socket takes them. *)
Definition send_orders : M (O * D) unit :=
  for_each (seqZ 0 5000) (λ i, zoom fst (λ o s, (o, s.2)) (oe_send_order 1 (i + 1) md.SIDE.BUY 10 10 0)).

Definition round : M (O * D) unit :=
  zoom snd (λ d s, (s.1, d)) poll;;
  zoom fst (λ o s, (o, s.2)) poll.

Definition run (rounds : nat) : M (O * D) unit := send_orders;; for_each (replicate rounds tt) (λ _, round).
End ops.
End RejectBot.
