(* ===== verification/BotTypes.v ===== *)
(** * The bots ask only for what their messages can carry

    The model's integers have no width of their own.  Here every strategy is
    checked against the types of the code: whatever the market and the clock say,
    the arguments of its requests fit the fields of the messages. *)
From Stdlib Require Import Init.Byte.
From S2P Require Import Prelude Protocol SnapshotClient Validator ClientHandler BotBook MdClient OeClient OeClientTheorems Strategy FairValue StackManager OrderJournal MarketMaker Takers BotPrograms.

(** ** Results with their types *)

Section gives.
Context {St : Type} (I : St → Prop).

(** [m] keeps [I], also when it throws, and its result is as [R] says. *)
Definition gives {A} (R : A → Prop) (m : M St A) : Prop := ∀ s, I s → wp I m (λ a s', I s' ∧ R a) s.

Lemma gives_bind {A B} (R : A → Prop) (R' : B → Prop) m k :
  gives R m → (∀ a, R a → gives R' (k a)) → gives R' (mbind k m).
Proof.
  intros Hm Hk s Hs. apply wp_bind. eapply wp_mono; [by apply Hm|]. intros a s1 [H1 HR]. by apply Hk.
Qed.
Lemma gives_ret {A} (R : A → Prop) a : R a → gives R (mret a).
Proof. intros Ha s Hs. by split. Qed.
Lemma gives_gets {A} (R : A → Prop) f : (∀ s, I s → R (f s)) → gives R (gets f).
Proof. intros Hf s Hs. split; [done|by apply Hf]. Qed.
Lemma gives_modify f : (∀ s, I s → I (f s)) → gives (λ _, True) (modify f).
Proof. intros Hf s Hs. split; [by apply Hf|done]. Qed.
Lemma gives_throw {A} (R : A → Prop) e : gives R (throw e : M St A).
Proof. by intros s Hs. Qed.
Lemma gives_when b m : (b = true → gives (λ _, True) m) → gives (λ _, True) (when b m).
Proof. intros Hm. destruct b; [by apply Hm|by apply gives_ret]. Qed.
Lemma gives_for_each {A} (f : A → M St unit) xs : (∀ x, x ∈ xs → gives (λ _, True) (f x)) → gives (λ _, True) (for_each xs f).
Proof.
  intros Hf. induction xs as [|x xs IH]; simpl; [by apply gives_ret|].
  eapply gives_bind; [apply Hf; constructor|intros _ _; apply IH; intros y Hy; apply Hf; by constructor].
Qed.
Lemma gives_mono {A} (R R' : A → Prop) m : (∀ a, R a → R' a) → gives R m → gives R' m.
Proof. intros HR Hm s Hs. eapply wp_mono; [by apply Hm|]. intros a s' [H1 H2]. auto. Qed.
End gives.

(** ** The state the strategies share *)

Record sym_typed (d : symbol_definition) : Prop := {
  sy_symbol : is_u32 (sym_symbol d);
  sy_max_price : is_s32 (sym_max_price d);
  sy_min_price : is_s32 (sym_min_price d);
}.

#[global] Instance sym_typed_dec d : Decision (sym_typed d).
Proof.
  refine (cast_if (decide (is_u32 (sym_symbol d) ∧ is_s32 (sym_max_price d) ∧ is_s32 (sym_min_price d)))).
  - abstract (destruct a as (? & ? & ?); by split).
  - abstract (intros []; tauto).
Defined.

(** A market view whose prices are [int32_t] in the states that are [ok]. *)
Class TypedView (D : Type) `{!MarketView D} (ok : D → Prop) : Prop := {
  tv_bid y d : ok d → is_s32 (OrderBook.level_price (mv_best_bid y d));
  tv_ask y d : ok d → is_s32 (OrderBook.level_price (mv_best_ask y d));
}.

(** An order entry client that keeps [ok] when it is asked for what fits. *)
Class TypedEntry (O : Type) `{!OrderEntry O} (ok : O → Prop) : Prop := {
  te_send y i d q p f : op_fits (SendOrder y i d q p f) → gives ok (λ _, True) (oe_send_order y i d q p f);
  te_cancel i : op_fits (CancelOrder i) → gives ok (λ _, True) (oe_cancel_order i);
  te_modify i d q p : op_fits (ModifyOrder i d q p) → gives ok (λ _, True) (oe_modify_order i d q p);
}.

Section typed.
Context `{BT : BotWorld} {O D T : Type} `{OE : !OrderEntry O} `{MV : !MarketView D}.
Context (ok_oe : O → Prop) (ok_md : D → Prop) `{TE : !TypedEntry O ok_oe} `{TV : !TypedView D ok_md}.

Record typed (ok : T → Prop) (s : shared O D * T) : Prop := {
  ty_oe : ok_oe (sh_oe s.1);
  ty_md : ok_md (sh_md s.1);
  ty_last : is_u32 (sh_last_order_id s.1);
  ty_own : ok s.2;
}.

Context (ok : T → Prop).
Abbreviation typing R m := (gives (typed ok) R m).
Abbreviation any := (λ _, True).

Lemma typing_get_own {A} (f : T → A) : typing (λ a, ∃ t, ok t ∧ a = f t) (get_own f).
Proof. apply gives_gets. intros s Hs. eexists. split; [apply Hs|done]. Qed.
Lemma typing_on_own f : (∀ t, ok t → ok (f t)) → typing any (on_own f).
Proof. intros Hf. apply gives_modify. intros s [H1 H2 H3 H4]. split; simpl; auto. Qed.
Lemma typing_best_bid y : typing (λ l, is_s32 (OrderBook.level_price l)) (get_md (mv_best_bid y)).
Proof using TV. apply gives_gets. intros s Hs. apply tv_bid, Hs. Qed.
Lemma typing_best_ask y : typing (λ l, is_s32 (OrderBook.level_price l)) (get_md (mv_best_ask y)).
Proof using TV. apply gives_gets. intros s Hs. apply tv_ask, Hs. Qed.
Lemma typing_on_oe m : gives ok_oe any m → typing any (on_oe m).
Proof.
  intros Hm s [H1 H2 H3 H4]. specialize (Hm _ H1). unfold on_oe, zoom, wp in *. destruct (m (sh_oe s.1)) as [[a|e] o]; [|by split].
  destruct Hm as [Hm _]. by split.
Qed.
Lemma typing_ask {A} (f : nat → A) : typing any (ask f).
Proof. intros s [H1 H2 H3 H4]. split; [by split|done]. Qed.
Lemma typing_next_order_id : typing is_u32 next_order_id.
Proof. intros s [H1 H2 H3 H4]. split; [split; simpl; auto using u32_range|done]. Qed.
Lemma typing_last : typing is_u32 (gets (λ s, sh_last_order_id s.1)).
Proof. apply gives_gets. intros s Hs. apply Hs. Qed.
Lemma typing_int32 z : typing is_s32 (int32 z).
Proof. unfold int32. case_bool_decide; [by apply gives_ret|apply gives_throw]. Qed.
Lemma typing_udiv z w : typing any (udiv z w).
Proof. unfold udiv. case_match; [apply gives_throw|by apply gives_ret]. Qed.
Lemma typing_umod z w : typing any (umod z w).
Proof. unfold umod. case_match; [apply gives_throw|by apply gives_ret]. Qed.
Lemma typing_rested ts : typing any (rested ts).
Proof. unfold rested. case_match; [by apply gives_ret|]. eapply gives_bind; [apply typing_ask|intros; by apply gives_ret]. Qed.

Lemma typing_send y i d q p f : is_u32 y → is_u32 i → is_u8 d → is_u32 q → is_s32 p → is_u8 f →
  typing any (on_oe (oe_send_order y i d q p f)).
Proof using TE. intros. apply typing_on_oe, te_send. unfold op_fits, is_u64, is_u32 in *. split_and!; try done; lia. Qed.
Lemma typing_cancel i : is_u32 i → typing any (on_oe (oe_cancel_order i)).
Proof using TE. intros. apply typing_on_oe, te_cancel. unfold op_fits, is_u64, is_u32 in *. lia. Qed.
Lemma typing_modify i d q p : is_u32 i → is_u8 d → is_u32 q → is_s32 p → typing any (on_oe (oe_modify_order i d q p)).
Proof using TE. intros. apply typing_on_oe, te_modify. unfold op_fits, is_u64, is_u32 in *. split_and!; try done; lia. Qed.
End typed.

Ltac typing_leaf :=
  lazymatch goal with
  | |- gives _ _ (get_own _) => apply typing_get_own
  | |- gives _ _ (on_own _) => apply typing_on_own
  | |- gives _ _ (get_md (mv_best_bid _)) => apply typing_best_bid
  | |- gives _ _ (get_md (mv_best_ask _)) => apply typing_best_ask
  | |- gives _ _ (get_md ((if ?b then mv_best_ask else mv_best_bid) _)) => destruct b; [apply typing_best_ask|apply typing_best_bid]
  | |- gives _ _ (ask _) => apply typing_ask
  | |- gives _ _ nanotime => apply typing_ask
  | |- gives _ _ rand => apply typing_ask
  | |- gives _ _ (draw _ _) => apply typing_ask
  | |- gives _ _ next_order_id => apply typing_next_order_id
  | |- gives _ _ (gets (λ s, sh_last_order_id (fst s))) => apply typing_last
  | |- gives _ _ (int32 _) => apply typing_int32
  | |- gives _ _ (udiv _ _) => apply typing_udiv
  | |- gives _ _ (umod _ _) => apply typing_umod
  | |- gives _ _ (rested _) => apply typing_rested
  | |- gives _ _ (throw _) => apply gives_throw
  | |- gives _ _ (on_oe (oe_send_order _ _ _ _ _ _)) => eapply typing_send
  | |- gives _ _ (on_oe (oe_cancel_order _)) => eapply typing_cancel
  | |- gives _ _ (on_oe (oe_modify_order _ _ _ _)) => eapply typing_modify
  end.

(** The own members a value was read from. *)
Ltac own_facts := cbn beta in *; repeat match goal with H : ∃ t, _ ∧ _ = _ |- _ => destruct H as (? & ? & ->) end; cbn [id] in *.

Ltac typing_step :=
  lazymatch goal with
  | |- gives _ _ (mret _) => apply gives_ret; try exact I
  | |- gives _ _ (mbind _ _) =>
      first [eapply gives_bind; [typing_leaf|intros ? ?; own_facts] | apply (gives_bind _ (λ _, True)); [|intros ? _]]
  | |- gives _ _ (when _ _) => apply gives_when; intros ?
  | |- gives _ _ (for_each _ _) => apply gives_for_each; intros ? ?
  | |- gives _ _ (if ?b then _ else _) => destruct b eqn:?
  | |- gives _ _ (match ?x with _ => _ end) => destruct x eqn:?
  | |- gives _ _ _ => typing_leaf
  end.
Ltac typing := repeat typing_step.

Lemma buy_u8 : is_u8 md.SIDE.BUY.
Proof. by_decide. Qed.
Lemma sell_u8 : is_u8 md.SIDE.SELL.
Proof. by_decide. Qed.
Lemma no_flags_u8 : is_u8 0.
Proof. by_decide. Qed.
Lemma ioc_u8 : is_u8 oe.ORDER_FLAGS.IOC.
Proof. by_decide. Qed.
Create HintDb typing.
#[export] Hint Resolve buy_u8 sell_u8 no_flags_u8 ioc_u8 s32_range u32_range sy_symbol sy_max_price sy_min_price : typing.

(** ** The takers *)

Section takers.
Context `{BT : BotWorld} {O D : Type} `{OE : !OrderEntry O} `{MV : !MarketView D}.
Context (ok_oe : O → Prop) (ok_md : D → Prop) `{TE : !TypedEntry O ok_oe} `{TV : !TypedView D ok_md}.
Abbreviation any := (λ _, True).

Definition imbalance_typed (t : ImbalanceTaker.t) : Prop := Forall sym_typed (ImbalanceTaker.symbols t) ∧ is_u32 (ImbalanceTaker.quantity t).
Definition random_typed (t : RandomTaker.t) : Prop := Forall sym_typed (RandomTaker.symbols t) ∧ is_u32 (RandomTaker.quantity t).
Definition pressure_typed (t : PressureTaker.t) : Prop :=
  Forall sym_typed (PressureTaker.symbols t) ∧ is_u32 (PressureTaker.quantity t) ∧ is_u8 (PressureTaker.pressure_side t).
Definition resting_typed (t : RestingOrders.t) : Prop := Forall sym_typed (RestingOrders.symbols t) ∧ is_u32 (RestingOrders.quantity t).

(** The symbol of a round of the loop, and the class instances. *)
Ltac typed_goal :=
  repeat match goal with
  | Hl : Forall sym_typed ?l, Hx : ?x ∈ ?l |- _ => lazymatch goal with
      | _ : sym_typed x |- _ => fail
      | _ => pose proof (proj1 (Forall_forall sym_typed l) Hl x Hx)
      end
  end;
  try solve [apply _ | eauto with typing | done | case_match; eauto with typing].

Lemma typing_imbalance_taker : gives (typed ok_oe ok_md imbalance_typed) any (ImbalanceTaker.process : M (shared O D * _) unit).
Proof using TE TV.
  unfold ImbalanceTaker.process, ImbalanceTaker.take_symbol, ImbalanceTaker.take_side. typing;
    repeat match goal with H : imbalance_typed _ |- _ => destruct H end; typed_goal.
Qed.

Lemma typing_random_taker : gives (typed ok_oe ok_md random_typed) any (RandomTaker.process : M (shared O D * _) unit).
Proof using TE TV.
  unfold RandomTaker.process, RandomTaker.take_symbol, RandomTaker.send_next. typing;
    repeat match goal with H : random_typed _ |- _ => destruct H end; typed_goal.
Qed.

Lemma typing_pressure_taker : gives (typed ok_oe ok_md pressure_typed) any (PressureTaker.process : M (shared O D * _) unit).
Proof using TE TV.
  unfold PressureTaker.process, PressureTaker.press_symbol, PressureTaker.reload. typing;
    repeat match goal with H : pressure_typed _ |- _ => destruct H as (? & ? & ?) end; typed_goal.
  intros t (H1' & H2' & H3'). split_and!; [done..|]. simpl. case_match; auto with typing.
Qed.

Lemma typing_resting_orders : gives (typed ok_oe ok_md resting_typed) any (RestingOrders.process : M (shared O D * _) unit).
Proof using TE TV.
  unfold RestingOrders.process, RestingOrders.rest_symbol. typing;
    repeat match goal with H : resting_typed _ |- _ => destruct H as (? & ?) end; typed_goal.
Qed.
End takers.

(** ** The market makers *)

Section stacks.
Import StackManager.

Definition ids_typed (os : list open_order) : Prop := Forall (λ o, is_u32 (order_id o)) os.

Record stack_typed (s : t) : Prop := {
  sk_symbol : sym_typed (symbol s);
  sk_quantity : is_u32 (stack_quantity s);
  sk_bids : ids_typed (bid_orders s);
  sk_asks : ids_typed (ask_orders s);
}.

Lemma ids_insert side o os : is_u32 (order_id o) → ids_typed os → ids_typed (insert side o os).
Proof.
  intros Ho. induction os as [|x os IH]; intros Hos; simpl; [by constructor|]. inversion_clear Hos.
  repeat case_match; [|apply Forall_cons; split; [done|by apply IH]|by apply Forall_cons]. by apply Forall_cons; split; [|apply Forall_cons].
Qed.
Lemma ids_erase side o os : ids_typed os → ids_typed (erase side o os).
Proof.
  unfold ids_typed. rewrite !Forall_forall. intros H x Hx. apply H. apply list_elem_of_In. apply list_elem_of_In in Hx.
  by apply List.filter_In in Hx as [Hx _].
Qed.
Lemma ids_removelast os : ids_typed os → ids_typed (removelast os).
Proof.
  induction os as [|x os IH]; intros Hos; [done|]. inversion_clear Hos. simpl. destruct os; [constructor|]. constructor; [done|by apply IH].
Qed.
Lemma ids_elem os o : ids_typed os → o ∈ os → is_u32 (order_id o).
Proof. unfold ids_typed. rewrite Forall_forall. auto. Qed.
Lemma ids_last os o : ids_typed os → last os = Some o → is_u32 (order_id o).
Proof. intros Hos Hl. apply last_Some_elem_of in Hl. by eapply ids_elem. Qed.
Lemma ids_of side s : stack_typed s → ids_typed (orders_of side s).
Proof. intros []. unfold orders_of. by case_match. Qed.
Lemma stack_set_orders side os s : ids_typed os → stack_typed s → stack_typed (set_orders side os s).
Proof. intros Hos []. unfold set_orders. case_match; by split. Qed.
Lemma stack_set_ts ts s : stack_typed s → stack_typed (set_last_order_send_ts ts s).
Proof. intros []. by split. Qed.

Context `{BT : BotWorld} {O D : Type} `{OE : !OrderEntry O} `{MV : !MarketView D}.
Context (ok_oe : O → Prop) (ok_md : D → Prop) `{TE : !TypedEntry O ok_oe} `{TV : !TypedView D ok_md}.
Abbreviation any := (λ _, True).
Abbreviation typing_stack R m := (gives (typed ok_oe ok_md stack_typed) R m).

Lemma typing_stack_side p side : is_s32 p → is_u8 side → typing_stack any (stack_side p side : M (shared O D * t) unit).
Proof using TE.
  intros Hp Hd. unfold stack_side, cancel_ahead, stamp, may_send. typing; try (apply _).
  - eapply ids_elem; [by apply ids_of|done].
  - intros s Hs. apply stack_set_orders; [|done]. by apply ids_erase, ids_of.
  - eapply ids_last; [|eassumption]; by apply ids_of.
  - done.
  - by apply sk_quantity.
  - done.
  - apply stack_set_ts.
  - intros s Hs. apply stack_set_orders; [|done]. apply ids_insert; [exact (ids_last _ _ (ids_of side x H) Heqo0)|].
    by apply ids_removelast, ids_of.
  - intros s Hs. apply stack_set_orders; [|done]. apply ids_insert; [done|by apply ids_of].
  - apply sy_symbol. by apply sk_symbol.
  - done.
  - done.
  - by apply sk_quantity.
  - done.
  - apply no_flags_u8.
  - apply stack_set_ts.
Qed.

Lemma typing_round_down x : typing_stack is_s32 (round_down x : M (shared O D * t) Z).
Proof. unfold round_down. typing. apply s32_range. Qed.

Lemma typing_stack_manager v bid ask : is_s32 bid → is_s32 ask → typing_stack any (process v bid ask : M (shared O D * t) unit).
Proof using TE.
  intros Hb Ha. unfold process. typing_step. eapply gives_bind; [apply typing_round_down|intros db Hdb].
  typing_step. eapply gives_bind; [apply typing_round_down|intros da Hda]. typing_step; [by apply gives_ret|].
  assert (is_s32 (Z.min db bid) ∧ is_s32 (Z.max da ask)) as [H1 H2] by (unfold is_s32 in *; lia).
  destruct (sk_symbol _ H) as [_ Hmax Hmin]. apply (gives_bind _ any).
  - typing_step. apply typing_stack_side; [case_match; done|by apply buy_u8].
  - intros _ _. typing_step. apply typing_stack_side; [case_match; done|by apply sell_u8].
Qed.

Definition stacker_typed (s : FairValueStackingMarketMaker.t) : Prop := stack_typed (FairValueStackingMarketMaker.stack_manager s).

Lemma typing_on_stack (m : M (shared O D * t) unit) :
  typing_stack any m → gives (typed ok_oe ok_md stacker_typed) any (FairValueStackingMarketMaker.on_stack m).
Proof.
  intros Hm s [H1 H2 H3 H4]. specialize (Hm (s.1, FairValueStackingMarketMaker.stack_manager s.2) ltac:(by split)).
  unfold FairValueStackingMarketMaker.on_stack, zoom, wp in *.
  destruct (m _) as [[[]|e] [sh st]]; [destruct Hm as [[] _]; by split|destruct Hm; by split].
Qed.

Lemma typing_stacker : gives (typed ok_oe ok_md stacker_typed) any (FairValueStackingMarketMaker.process : M (shared O D * _) unit).
Proof using TE TV.
  unfold FairValueStackingMarketMaker.process. typing; try apply _. by apply typing_on_stack, typing_stack_manager.
Qed.
End stacks.

Section makers.
Import FairValueMarketMaker.

Definition maker_ids (m : gmap Z (list open_order)) : Prop := map_Forall (λ _, Forall (λ o, is_u32 (order_id o))) m.

Record maker_typed (s : t) : Prop := {
  mk_symbols : Forall sym_typed (symbols s);
  mk_quantity : is_u32 (mm_quantity s);
  mk_bids : maker_ids (bid_orders s);
  mk_asks : maker_ids (ask_orders s);
}.

Lemma maker_orders side y s : maker_typed s → Forall (λ o, is_u32 (order_id o)) (orders side y s).
Proof.
  intros [_ _ Hb Ha]. unfold orders. case_match; [destruct (bid_orders s !! y) eqn:E|destruct (ask_orders s !! y) eqn:E]; simpl;
    [by apply (Hb y)|constructor|by apply (Ha y)|constructor].
Qed.
Lemma maker_set_orders side y os s : Forall (λ o, is_u32 (order_id o)) os → maker_typed s → maker_typed (set_orders side y os s).
Proof. intros Hos []. unfold set_orders. case_match; split; simpl; try done; by apply map_Forall_insert_2. Qed.
Lemma maker_set_ts ts s : maker_typed s → maker_typed (set_last_order_send_ts ts s).
Proof. intros []. by split. Qed.

Lemma Forall_removelast {A} (P : A → Prop) l : Forall P l → Forall P (removelast l).
Proof. induction 1 as [|x l Hx Hl IH]; simpl; [constructor|]. destruct l; [constructor|by constructor]. Qed.

Context `{BT : BotWorld} {O D : Type} `{OE : !OrderEntry O} `{FVS : !FairValues D}.
Context (ok_oe : O → Prop) (ok_md : D → Prop) `{TE : !TypedEntry O ok_oe}.
Context (fvs_ok : ∀ i ts, gives ok_md (λ _, True) (fvs_process i ts)).
Abbreviation any := (λ _, True).
Abbreviation typing_maker R m := (gives (typed ok_oe ok_md maker_typed) R m).

Lemma typing_fair_value i ts : typing_maker any (fair_value_at i ts : M (shared O D * t) Z).
Proof using fvs_ok.
  intros s [H1 H2 H3 H4]. specialize (fvs_ok i ts _ H2). unfold fair_value_at, zoom, wp in *.
  destruct (fvs_process i ts (sh_md s.1)) as [[v|e] d]; [destruct fvs_ok; split; [by split|done]|by split].
Qed.

Lemma typing_quote_side y side p : is_u32 y → is_u8 side → is_s32 p → typing_maker any (quote_side y side p : M (shared O D * t) unit).
Proof using TE.
  intros Hy Hd Hp. unfold quote_side, log_time, expired. typing; try apply _; try done; try (by apply no_flags_u8).
  - eapply (proj1 (Forall_forall (λ o, is_u32 (order_id o)) _) (maker_orders side y _ H)), last_Some_elem_of. eassumption.
  - intros s Hs. apply maker_set_orders; [|done]. by apply Forall_removelast, maker_orders.
  - by apply mk_quantity.
  - intros s Hs. apply maker_set_orders; [|done]. apply Forall_app. split; [by apply maker_orders|apply Forall_cons; split; [done|constructor]].
  - apply maker_set_ts.
Qed.

Lemma typing_quote_symbol i sy : sym_typed sy → typing_maker any (quote_symbol i sy : M (shared O D * t) unit).
Proof using TE fvs_ok.
  intros Hsy. unfold quote_symbol. typing_step. eapply gives_bind; [apply typing_fair_value|intros v _]. typing_step.
  apply (gives_bind _ any); [destruct (variances _ !! i); [by apply gives_ret|apply gives_throw]|intros variance _].
  apply (gives_bind _ any); [by apply gives_gets|intros position _].
  apply (gives_bind _ any); [unfold skewed_value; typing|intros w _].
  eapply (gives_bind _ is_s32); [unfold round_to_tick_size; typing; case_match; apply s32_range|intros bid Hbid].
  eapply (gives_bind _ is_s32); [unfold round_to_tick_size; typing; case_match; apply s32_range|intros ask Hask].
  assert (∀ side s, maker_typed s → maker_typed (touch_orders side (sym_symbol sy) s)) as Htouch.
  { intros side s Hs. apply maker_set_orders; [by apply maker_orders|done]. }
  do 2 (eapply gives_bind; [apply typing_on_own, Htouch|intros _ _]).
  eapply gives_bind; [apply typing_quote_side; [apply Hsy|apply buy_u8|done]|intros _ _].
  apply typing_quote_side; [apply Hsy|apply sell_u8|done].
Qed.

Lemma typing_market_maker : typing_maker any (process : M (shared O D * t) unit).
Proof using TE fvs_ok.
  unfold process. typing_step. apply gives_for_each. intros [i sy] Hin. apply typing_quote_symbol.
  apply elem_of_lookup_imap in Hin as (j & sy' & [= -> ->] & Hj). exact (Forall_lookup_1 _ _ _ _ (mk_symbols _ H) Hj).
Qed.
End makers.
