(* ===== verification/ClientTypes.v ===== *)
(** * The clients keep their types

    The market data client's books hold [int32_t] prices whatever it receives;
    the order entry client's socket has taken exactly the requests it was asked
    for. *)
From Stdlib Require Import Init.Byte.
From S2P Require Import Prelude Protocol SnapshotClient MdStream OrderLadder Validator ClientHandler BotBook MdClient OeClient StreamParser StreamTheorems OeClientTheorems Strategy FairValue OrderJournal MarketMaker BotPrograms BotTypes.

(** ** The order books of the bots *)

Section book.
Import OrderBook.

Definition keys_typed (m : gmap Z Z) : Prop := map_Forall (λ p _, is_s32 p) m.

Record book_typed (b : t) : Prop := {
  bt_orders : map_Forall (λ _ o, is_s32 (price o)) (orders b);
  bt_levels buy : keys_typed (levels buy b);
}.

Lemma book_typed_initial : book_typed initial.
Proof. split; [done|]. by intros []. Qed.

Lemma keys_insert p q m : is_s32 p → keys_typed m → keys_typed (<[p := q]> m).
Proof. intros Hp Hm. by apply map_Forall_insert_2. Qed.
Lemma keys_delete p m : keys_typed m → keys_typed (delete p m).
Proof. intros Hm. by apply map_Forall_delete. Qed.
Lemma keys_erase_if_zero p m : keys_typed m → keys_typed (erase_if_zero p m).
Proof. intros Hm. unfold erase_if_zero. case_match; [by apply keys_delete|done]. Qed.

Lemma book_on_levels buy f b : (keys_typed (levels buy b) → keys_typed (f (levels buy b))) → book_typed b → book_typed (on_levels buy f b).
Proof. intros Hf [H1 H2]. pose proof (H2 true). pose proof (H2 false). destruct buy; split; try done; intros []; simpl; auto. Qed.
Lemma book_on_orders f b : map_Forall (λ _ o, is_s32 (price o)) (f (orders b)) → book_typed b → book_typed (on_orders f b).
Proof. intros Hf [H1 H2]. split; [done|]. intros []; [apply (H2 true)|apply (H2 false)]. Qed.

Lemma book_new_order i d q p f b : is_s32 p → book_typed b → book_typed (new_order i d q p f b).
Proof.
  intros Hp Hb. apply book_on_levels; [by apply keys_insert|]. apply book_on_orders; [|done].
  case_match; [by apply bt_orders|]. apply map_Forall_insert_2; [done|by apply bt_orders].
Qed.

Lemma book_order i o b : book_typed b → orders b !! i = Some o → is_s32 (price o).
Proof. intros [H1 _] Hi. exact (H1 i o Hi). Qed.

Lemma book_delete_from_levels i buy b : book_typed b → book_typed (delete_order_from_levels i buy b).
Proof.
  intros Hb. unfold delete_order_from_levels. destruct (orders b !! i) as [o|] eqn:Hi; [|done].
  repeat case_match; try done; (apply book_on_levels; [|done]); [apply keys_delete|]. apply keys_insert. by eapply book_order.
Qed.

Lemma book_delete_order i b : book_typed b → book_typed (delete_order i b).
Proof.
  intros Hb. unfold delete_order. destruct (orders b !! i) as [o|]; [|done].
  assert (∀ b, book_typed b → book_typed (on_orders (delete i) b)) as Hdel.
  { intros b' Hb'. apply book_on_orders; [|done]. by apply map_Forall_delete, bt_orders. }
  case_match; [by apply Hdel|by apply Hdel, book_delete_from_levels].
Qed.

Lemma book_modify_order i d q p b : is_s32 p → book_typed b → book_typed (modify_order i d q p b).
Proof.
  intros Hp Hb. unfold modify_order. destruct (orders b !! i) as [o|]; [|done].
  set (b1 := on_levels _ _ _). assert (book_typed b1) as Hb1.
  { apply book_on_levels; [by apply keys_insert|by apply book_delete_from_levels]. }
  apply book_on_orders; [|done]. apply map_Forall_insert_2; [done|by apply bt_orders].
Qed.

Lemma book_order_trade freed i q p b :
  (∀ o, is_s32 (price o) → is_s32 (price (freed o))) → book_typed b → book_typed (order_trade freed i q p b).
Proof.
  intros Hf Hb. unfold order_trade. destruct (orders b !! i) as [o|] eqn:Hi; [|done].
  pose proof (book_order i o b Hb Hi) as Ho. case_match; [done|]. case_match.
  - apply book_on_levels; [intros Hk; apply keys_erase_if_zero, keys_insert; auto|]. apply book_on_orders; [|done].
    by apply map_Forall_delete, bt_orders.
  - apply book_on_levels; [by apply keys_insert|]. apply book_on_orders; [|done]. apply map_Forall_insert_2; [done|by apply bt_orders].
Qed.

Lemma book_best buy b : book_typed b → is_s32 (level_price (best buy b)).
Proof.
  intros [_ Hk]. unfold best. destruct (begin _ _) as [[p q]|] eqn:E; [|by_decide]. simpl.
  unfold begin in E. apply bind_Some in E as (p' & _ & E). apply bind_Some in E as (q' & Hq & [= -> ->]). exact (Hk buy p q Hq).
Qed.
End book.

(** ** The market data client *)

Section md.
Import MDClient.
Context `{FW : FeedWorld}.
Context (freed_typed : ∀ o, is_s32 (OrderBook.price o) → is_s32 (OrderBook.price (fw_freed o))).

Record md_typed (s : t) : Prop := {
  mt_books : map_Forall (λ _, book_typed) (symbol_to_order_book s);
  mt_snapshot : map_Forall (λ _, Forall (λ o, is_s32 (md.no_price o))) (snapshot_buffer s);
}.

Abbreviation any := (λ _, True).
Abbreviation typing R m := (gives md_typed R m).

Lemma md_typed_initial : md_typed initial.
Proof. by split. Qed.

Lemma typed_same s s' : symbol_to_order_book s' = symbol_to_order_book s → snapshot_buffer s' = snapshot_buffer s → md_typed s → md_typed s'.
Proof. intros H1 H2 []. split; by rewrite ?H1, ?H2. Qed.

Lemma typing_same f : (∀ s, symbol_to_order_book (f s) = symbol_to_order_book s ∧ snapshot_buffer (f s) = snapshot_buffer s) → typing any (modify f).
Proof. intros Hf. apply gives_modify. intros s. apply typed_same; apply Hf. Qed.

Lemma typing_read {A} (c : codec A) `{!CodecOk c} data off : typing (c_ok c) (read c data off).
Proof.
  unfold read. case_bool_decide as Hl; [|apply gives_throw]. apply gives_ret, dec_ok. rewrite length_drop. lia.
Qed.

Lemma typed_add_order o s : is_s32 (md.no_price o) → md_typed s → md_typed (add_order o s).
Proof.
  intros Ho [H1 H2]. split; [|done]. simpl. apply map_Forall_insert_2; [|done]. apply book_new_order; [done|].
  destruct (symbol_to_order_book s !! md.no_symbol o) as [b|] eqn:Hb; [exact (H1 _ b Hb)|apply book_typed_initial].
Qed.

Lemma new_order_price m : c_ok md.c_new_order m → is_s32 (md.no_price m).
Proof. destruct m. cbn. unfold is_s32. intros. destruct_and?. lia. Qed.
Lemma modify_order_price m : c_ok md.c_modify_order m → is_s32 (md.mo_price m).
Proof. destruct m. cbn. unfold is_s32. intros. destruct_and?. lia. Qed.

Lemma typing_with_book y f : (∀ b, book_typed b → book_typed (f b)) → typing any (with_book y f).
Proof.
  intros Hf. unfold with_book. eapply (gives_bind _ (map_Forall (λ _, book_typed))); [apply gives_gets; by intros s []|].
  intros m Hm. destruct (m !! y) as [b|] eqn:Hb; [|by apply gives_ret]. eapply gives_bind; [|intros; by apply gives_ret].
  apply gives_modify. intros s []. split; [|done]. simpl. apply map_Forall_insert_2; [apply Hf; exact (Hm y b Hb)|done].
Qed.

Lemma typing_symbol_of i : typing any (symbol_of i).
Proof.
  unfold symbol_of. eapply (gives_bind _ any); [by apply gives_gets|intros m _]. destruct (m !! i); [by apply gives_ret|].
  eapply gives_bind; [by apply typing_same|intros; by apply gives_ret].
Qed.

Ltac md_step :=
  lazymatch goal with
  | |- gives _ _ (mret _) => apply gives_ret; try exact I
  | |- gives _ _ (mbind _ (gets _)) => apply (gives_bind _ any); [by apply gives_gets|intros ? _]
  | |- gives _ _ (mbind _ (read _ _ _)) => eapply gives_bind; [apply typing_read; apply _|intros ? ?]
  | |- gives _ _ (mbind _ _) => apply (gives_bind _ any); [|intros ? _]
  | |- gives _ _ (when _ _) => apply gives_when; intros _
  | |- gives _ _ (throw _) => apply gives_throw
  | |- gives _ _ (gets _) => by apply gives_gets
  | |- gives _ _ (symbol_of _) => apply typing_symbol_of
  | |- gives _ _ (with_book _ _) => apply typing_with_book; intros ? ?
  | |- gives _ _ (match ?x with _ => _ end) => destruct x eqn:?
  | |- gives _ _ (if ?b then _ else _) => destruct b eqn:?
  end.
Ltac md_typing := repeat md_step.

Lemma typing_apply_message data off len ty : typing any (apply_message data off len ty).
Proof using freed_typed.
  unfold apply_message. md_typing; try (by apply typing_same).
  - apply gives_modify. intros s. apply typed_add_order. by apply new_order_price.
  - by apply book_delete_order.
  - apply book_modify_order; [by apply modify_order_price|done].
  - by apply book_order_trade.
Qed.

Lemma typing_process_message recover fuel : typing any recover → ∀ data off len, typing any (process_message recover fuel data off len).
Proof using freed_typed.
  intros Hrec. induction fuel as [|fuel IH]; intros data off len; cbn [process_message]; md_typing; try apply IH; try exact Hrec;
    try (by apply typing_same); [|apply typing_apply_message].
  apply gives_modify. intros s Hs. by split.
Qed.

Lemma typing_receive r error : typing any (receive r error).
Proof. unfold receive. md_typing. by apply typing_same. Qed.

Lemma typing_receives : typing any receive_live ∧ typing any receive_snapshot.
Proof. split; unfold receive_live, receive_snapshot; md_typing; (by apply typing_same) || apply typing_receive. Qed.

Lemma typing_snapshot_loop fuel : ∀ off len c, typing any (snapshot_loop fuel off len c).
Proof.
  induction fuel as [|fuel IH]; intros off len c; cbn [snapshot_loop]; unfold get_first_live_seq_num; md_typing; try apply IH;
    try (by apply typing_same).
  - apply gives_modify. intros s []. split; [done|]. simpl. by apply map_Forall_insert_2.
  - apply typing_same. intros s. unfold complete_if_done. by case_match.
  - apply gives_modify. intros s [H1 H2]. split; [done|]. simpl. apply map_Forall_insert_2; [|done].
    apply Forall_app. split; [|apply Forall_cons; split; [by apply new_order_price|constructor]].
    destruct (snapshot_buffer s !! _) as [os|] eqn:E; [exact (H2 _ os E)|constructor].
  - apply typing_same. intros s. unfold complete_if_done. by case_match.
Qed.

Lemma typing_receive_loop fuel : ∀ c, typing any (receive_loop fuel c).
Proof.
  destruct typing_receives as [H1 H2]. induction fuel as [|fuel IH]; intros c; cbn [receive_loop]; md_typing; try apply IH;
    try exact H1; try exact H2; try (by apply typing_same). apply typing_snapshot_loop.
Qed.

Lemma typing_live_loop recover fuel : typing any recover → typing any (live_loop recover fuel).
Proof using freed_typed.
  intros Hrec. induction fuel as [|fuel IH]; cbn [live_loop]; unfold erase_live; md_typing; try exact IH; try (by apply typing_same).
  by apply typing_process_message.
Qed.

Lemma typing_apply_snapshot y : typing any (apply_snapshot y).
Proof.
  unfold apply_snapshot. eapply (gives_bind _ (map_Forall (λ _, Forall (λ o, is_s32 (md.no_price o))))); [apply gives_gets; by intros s []|].
  intros m Hm. apply gives_for_each. intros o Ho. apply gives_modify. intros s. apply typed_add_order.
  destruct (m !! y) as [os|] eqn:E; [|by apply elem_of_nil in Ho]. exact (proj1 (Forall_forall _ _) (Hm y os E) o Ho).
Qed.

Lemma typing_wait_for_snapshot depth : typing any (wait_for_snapshot depth).
Proof using freed_typed.
  induction depth as [|depth IH]; cbn [wait_for_snapshot]; unfold leave_group; md_typing; try (by apply typing_same);
    [apply typing_receive_loop|apply typing_apply_snapshot|apply typing_apply_snapshot|by apply typing_live_loop].
Qed.

Lemma typing_md_process : typing any process.
Proof using freed_typed.
  unfold process. destruct typing_receives as [H1 _]. md_typing; [exact H1|]. apply typing_process_message, typing_wait_for_snapshot.
Qed.

#[export] Instance md_client_typed_view : TypedView t md_typed.
Proof.
  split; intros y s [H1 _]; simpl; unfold MDClient.get_best_bid, MDClient.get_best_ask;
    (destruct (symbol_to_order_book s !! y) as [b|] eqn:Hb; [|by_decide]); apply book_best; exact (H1 y b Hb).
Qed.
End md.

(** Fair values beside the client leave it alone. *)
Lemma fair_values_typed {F} `{FV : !FairValue F} i ts :
  gives (λ d : MDClient.t * list F, md_typed d.1) (λ _, True) (fvs_process i ts).
Proof.
  intros d Hd. unfold wp, fvs_process, fair_values_list. destruct (d.2 !! i) as [f|]; [|done].
  by destruct (FV ts f) as [[v|e] f'].
Qed.

#[export] Instance pair_typed_view {MD X} `{MV : !MarketView MD} ok `{TV : !TypedView MD ok} :
  TypedView (MD * X) (λ d, ok d.1).
Proof. split; intros y d Hd; [exact (tv_bid (ok := ok) y d.1 Hd)|exact (tv_ask (ok := ok) y d.1 Hd)]. Qed.

(** ** The order entry client *)

Section oe.
Import OEClient.
Context `{CW : ClientWorld} (user : user_info) (w0 : list byte) (n0 : nat) (seq sess : Z).

(** After [w0], and [n0] writes, the socket was asked to take these requests, with
    consecutive sequence numbers from [seq], each of which fits its message. *)
Record wired (s : t * list order_op) : Prop := {
  wi_written : written s.1 = w0 ++ taken_all n0 (requests_of user seq sess s.2);
  wi_writes : writes s.1 = (n0 + length s.2)%nat;
  wi_seq : client_seq s.1 = u32 (seq + Z.of_nat (length s.2));
  wi_session : session_id s.1 = sess;
  wi_fits : Forall op_fits s.2;
}.

Lemma requests_of_snoc ops op : ∀ n, requests_of user (u32 n) sess (ops ++ [op]) =
  requests_of user (u32 n) sess ops ++ [request_of user (u32 (n + Z.of_nat (length ops))) sess op].
Proof.
  induction ops as [|o ops IH]; intros n; simpl; [by rewrite Z.add_0_r|]. rewrite u32_add_l, IH.
  by replace (n + 1 + Z.of_nat (length ops)) with (n + Z.of_nat (S (length ops))) by lia.
Qed.

Lemma requests_of_length ops : ∀ n, length (requests_of user n sess ops) = length ops.
Proof. induction ops as [|o ops IH]; intros n; simpl; [done|by rewrite IH]. Qed.

Context (seq_u32 : is_u32 seq).

Lemma typing_recorded op : op_fits op → gives wired (λ _, True) (record op (run_order_op user op)).
Proof using seq_u32.
  intros Hop s [H1 Hn H2 H3 H4]. destruct (run_request user op s.1) as (o' & Hrun & Hw & Hk & Hc & Hs).
  unfold wp, record. rewrite Hrun. split; [|done]. split; simpl.
  - rewrite <- (u32_id seq) by done. rewrite requests_of_snoc, u32_id by done. rewrite taken_all_snoc, requests_of_length, app_assoc.
    by rewrite <- H1, Hw, H2, H3, Hn.
  - rewrite Hk, Hn, length_app. simpl. lia.
  - rewrite Hc, H2, u32_add_l, length_app. f_equal. simpl. lia.
  - congruence.
  - apply Forall_app. by split; [|apply Forall_cons; split].
Qed.

Lemma oe_client_typed : TypedEntry (t * list order_op) wired (OrderEntry0 := recorder (OE := order_entry user)).
Proof using seq_u32.
  split; intros.
  - by apply (typing_recorded (SendOrder y i d q p f)).
  - by apply (typing_recorded (CancelOrder i)).
  - by apply (typing_recorded (ModifyOrder i d q p)).
Qed.

(** Reading responses writes nothing. *)
Definition sent_as (o o' : t) : Prop := written o' = written o ∧ writes o' = writes o ∧ client_seq o' = client_seq o ∧ session_id o' = session_id o.

Lemma typing_response o b header : gives (sent_as o) (λ _, True) (apply_response b header).
Proof.
  unfold apply_response.
  do 5 (case_match; [case_match; [by apply gives_ret|];
    apply (gives_bind _ (λ _, True)); [try by apply gives_ret; try by apply gives_modify|intros; by apply gives_ret]|]); [|apply gives_throw].
  apply (gives_bind _ (λ _, True)); [|intros; apply gives_throw]. unfold error_text. case_match; [by apply gives_ret|apply gives_throw].
Qed.

Lemma typing_oe_process o : gives (sent_as o) (λ _, True) (process).
Proof.
  assert (∀ fuel, gives (sent_as o) (λ _, True) (process_loop fuel)) as Hloop.
  { induction fuel as [|fuel IH]; cbn [process_loop]; [apply gives_throw|]. apply (gives_bind _ (λ _, True)); [by apply gives_gets|intros b _].
    case_match; [|by apply gives_ret]. apply (gives_bind _ (λ _, True)); [apply typing_response|intros r _].
    case_match; [|by apply gives_ret]. case_match; [apply gives_throw|].
    apply (gives_bind _ (λ _, True)); [by apply gives_modify|intros _ _; apply IH]. }
  unfold process, read. apply (gives_bind _ (λ _, True)).
  - apply (gives_bind _ (λ _, True)); [by apply gives_gets|intros n _]. apply (gives_bind _ (λ _, True)); [by apply gives_modify|].
    intros; by apply gives_ret.
  - intros r _. case_match; try by apply gives_ret. apply (gives_bind _ (λ _, True)); [by apply gives_gets|intros b _].
    apply (gives_bind _ (λ _, True)); [by apply gives_modify|intros _ _; apply Hloop].
Qed.

Lemma typing_poll_oe : gives wired (λ _, True) (poll : M (t * list order_op) unit).
Proof.
  intros [o ops] [H1 Hn H2 H3 H4]. pose proof (typing_oe_process o o ltac:(by split)) as Hp.
  unfold wp, poll, pair_polled, zoom, poll, oe_client_polled in *. simpl.
  destruct (process o) as [[[]|e] o']; [destruct Hp as [(E1 & E2 & E3 & E4) _]; split; [|done]|destruct Hp as (E1 & E2 & E3 & E4)];
    split; simpl in *; congruence.
Qed.
End oe.
