(* ===== verification/ProgramMakers.v ===== *)
(** * The market makers as the programs make them

    Every market maker and stacker of [bot_runner.cpp] and [stable_bot_runner.cpp]
    meets the conditions of the theorems about market makers and stacks. *)
From S2P Require Import Prelude Protocol Validator ClientHandler OeClient Strategy FairValue StackManager OrderJournal StackTheorems MarketMaker MarketMakerTheorems Takers BotPrograms.

(** Its quotes for fair values in this range. *)
Definition quotes_between (low high : Z) (m : FairValueMarketMaker.t) : Prop :=
  Forall2 (quotable low high (FairValueMarketMaker.width_in_ticks m)) (FairValueMarketMaker.variances m) (FairValueMarketMaker.symbols m) ∧
  NoDup (sym_symbol <$> FairValueMarketMaker.symbols m).

(** Its stack stands on a symbol and has room for its width. *)
Definition stacks (s : FairValueStackingMarketMaker.t) : Prop :=
  let m := FairValueStackingMarketMaker.stack_manager s in
  let sy := FairValueStackingMarketMaker.symbol s in
  StackManager.symbol m = sy ∧ stackable sy (StackManager.stack_depth m) ∧ room sy (StackManager.width_in_ticks m).

Section programs.
Context {O MD : Type} (o : O) (d : MD).

Lemma bot_runner_quotes : Forall (quotes_between 0 10000000) (BotRunner.market_makers (BotRunner.initial o d)).
Proof.
  assert (∀ w v l, 0 ≤ w ≤ 3 → Forall (λ v, -100 ≤ v ≤ 100) v → Forall (λ y, 1 ≤ sym_tick_size y ≤ 10 ∧ sym_min_price y = 0) l →
    length v = length l → Forall2 (quotable 0 10000000 w) v l) as H.
  { intros w v l Hw Hv Hl Hn. apply Forall2_same_length_lookup. split; [done|]. intros i x y Hx Hy.
    pose proof (Forall_lookup_1 _ _ _ _ Hv Hx) as Hb. destruct (Forall_lookup_1 _ _ _ _ Hl Hy) as [Ht Hm].
    cbn beta in *. split; rewrite ?Hm; intros; try lia; nia. }
  repeat (apply Forall_cons; split; [split; [apply H; [by_decide|by_decide|by_decide|reflexivity]|by_decide]|]). constructor.
Qed.

Lemma bot_runner_stacks : Forall stacks (BotRunner.stackers (BotRunner.initial o d)).
Proof. repeat (apply Forall_cons; split; [split; [reflexivity|split; [by vm_compute|by vm_compute]]|]). constructor. Qed.

Lemma stable_bot_runner_quotes : Forall (quotes_between 400 1200) (BotRunner.market_makers (StableBotRunner.initial o d)).
Proof. apply Forall_cons. split; [|constructor]. split; [repeat constructor; simpl; lia|by_decide]. Qed.
End programs.

(** The fair values the first program starts with are walks of its symbols. *)
Lemma bot_runner_walks : Forall2 (λ sy w, walking sy (RandomWalkFairValue.seed w) w) BotRunner.symbols BotRunner.fair_values ∧
  Forall (λ sy, walkable sy ∧ 0 ≤ walk_low sy ∧ walk_high sy ≤ 10000000) BotRunner.symbols.
Proof. split; repeat constructor; unfold walk_low, walk_high, is_s32; simpl; try lia; by vm_compute. Qed.
