(* ===== verification/BotProgramsTheorems.v ===== *)
(** * The properties of the bots' programs *)
From Stdlib Require Import Init.Byte Strings.String.
From S2P Require Import Prelude Protocol SnapshotClient Validator ClientHandler BotBook SnapshotWriter MdClient MdRecovery OeClient StreamParser StreamTheorems OeClientTheorems Strategy FairValue StackManager OrderJournal MarketMaker Takers BotPrograms BotTypes ClientTypes.
#[local] Open Scope Z_scope.

(** ** The order ids of a program *)

Definition send_ids (ops : list order_op) : list Z :=
  omap (λ o, match o with SendOrder _ i _ _ _ _ => Some i | _ => None end) ops.

Lemma send_ids_app ops ops' : send_ids (ops ++ ops') = send_ids ops ++ send_ids ops'.
Proof. apply omap_app. Qed.

(** The [k]-th order of a program. *)
Definition nth_id (k : nat) : Z := u32 (1 + Z.of_nat k).

(** [n] orders have been sent, and the counter stands at [m]. *)
Definition ids_at (n m : nat) {O D} (sh : shared (O * list order_op) D) : Prop :=
  send_ids (sh_oe sh).2 = nth_id <$> seq 0 n ∧ sh_last_order_id sh = nth_id m.

(** Every id up to the counter has been used once. *)
Definition ids_ok {O D} (sh : shared (O * list order_op) D) : Prop := ∃ n, ids_at n n sh.

Section ids.
Context `{BT : BotWorld} {O D T : Type} `{OE : !OrderEntry O} `{QE : !QuietEntry O}.
Abbreviation St := (shared (O * list order_op) D * T)%type.

(** Whatever a strategy does, also when an exception ends it. *)
Definition counts (m : M St unit) : Prop := keeps (λ s, ids_ok s.1) (λ s, ids_ok s.1) (λ _ _, True) m.

Abbreviation counting m := (keeps (λ s : St, ids_ok s.1) (λ s, ids_ok s.1) (λ _ _, True) m).

#[local] Instance true_preorder {A} : PreOrder (λ _ _ : A, True).
Proof. by split. Qed.

(** What sends nothing and leaves the counter alone. *)
Definition idle {A} (m : M St A) : Prop := ∀ s, let '(_, s') := m s in
  send_ids (sh_oe s'.1).2 = send_ids (sh_oe s.1).2 ∧ sh_last_order_id s'.1 = sh_last_order_id s.1.

Lemma counting_idle {A} (m : M St A) : idle m → counting m.
Proof.
  intros Hm s (n & H1 & H2). specialize (Hm s). unfold wp. destruct (m s) as [[a|e] s']; destruct Hm as [H3 H4]; [split; [|done]|];
    exists n; by split; congruence.
Qed.

(** The strategy's own members, between the two steps that send an order. *)
Lemma wp_own {A} n i (f : T → A) (k : A → M St unit) (P : St → Prop) Q s :
  ids_at n i s.1 → wp P (k (f s.2)) Q s → wp P (mbind k (get_own f)) Q s.
Proof. done. Qed.
Lemma wp_on_own n i f (k : unit → M St unit) (P : St → Prop) Q s :
  ids_at n i s.1 → (∀ s', ids_at n i s'.1 → wp P (k tt) Q s') → wp P (mbind k (on_own f)) Q s.
Proof. intros Hn Hk. apply wp_modify. by apply Hk. Qed.

Lemma idle_bind {A B} (m : M St A) (k : A → M St B) : idle m → (∀ a, idle (k a)) → idle (mbind k m).
Proof.
  intros Hm Hk s. specialize (Hm s). unfold mbind, M_bind. destruct (m s) as [[a|e] s1]; [|done]. destruct Hm as [H1 H2].
  specialize (Hk a s1). destruct (k a s1) as [r s2]. destruct Hk as [H3 H4]. split; congruence.
Qed.
Lemma idle_gets {A} (f : St → A) : idle (gets f).
Proof. intros s. by split. Qed.
Lemma idle_ret {A} (a : A) : idle (mret a : M St A).
Proof. intros s. by split. Qed.
Lemma idle_get_own {A} (f : T → A) : idle (get_own f).
Proof. intros s. by split. Qed.
Lemma idle_get_md {A} (f : D → A) : idle (get_md f).
Proof. intros s. by split. Qed.
Lemma idle_on_own f : idle (on_own f).
Proof. intros s. by split. Qed.
Lemma idle_ask {A} (f : nat → A) : idle (ask f).
Proof. intros s. by split. Qed.
Lemma idle_throw {A} e : idle (throw e : M St A).
Proof. intros s. by split. Qed.
Lemma idle_int32 z : idle (int32 z).
Proof. unfold int32. case_match; [apply idle_ret|apply idle_throw]. Qed.
Lemma idle_udiv z w : idle (udiv z w).
Proof. unfold udiv. case_match; [apply idle_throw|apply idle_ret]. Qed.
Lemma idle_umod z w : idle (umod z w).
Proof. unfold umod. case_match; [apply idle_throw|apply idle_ret]. Qed.
Lemma idle_rested ts : idle (rested ts).
Proof. unfold rested. case_match; [apply idle_ret|]. apply idle_bind; [apply idle_ask|intros; apply idle_ret]. Qed.
Lemma idle_recorded op (m : M O unit) : (∀ y i d q p f, op ≠ SendOrder y i d q p f) → idle (on_oe (T := T) (record op m)).
Proof.
  intros Hop s. unfold on_oe, zoom, record. destruct (m (sh_oe s.1).1) as [r o]. simpl. split; [|done].
  rewrite send_ids_app. destruct op; [by destruct (Hop sym order_id sd quantity price flags)|..]; simpl; by rewrite app_nil_r.
Qed.
Lemma idle_cancel i : idle (on_oe (T := T) (oe_cancel_order i)).
Proof. by apply idle_recorded. Qed.
Lemma idle_modify i d q p : idle (on_oe (T := T) (oe_modify_order i d q p)).
Proof. by apply idle_recorded. Qed.

(** *** The two ways to send an order *)

(** The counter goes on first, as the takers of imbalances and the stack manager
    do it. *)
Lemma wp_next_then Q n (k : Z → M St unit) s (P : St → Prop) :
  ids_at n n s.1 → (∀ s', ids_at n (S n) s'.1 → wp P (k (nth_id n)) Q s') → wp P (mbind k next_order_id) Q s.
Proof.
  intros [H1 H2] Hk. unfold next_order_id. apply wp_bind. apply wp_gets. apply wp_modify. unfold wp at 1. simpl. rewrite H2. apply Hk.
  split; [done|]. simpl. unfold nth_id. rewrite u32_add_l. f_equal. lia.
Qed.

(** An order goes out. *)
Lemma wp_send n i y d q p f (k : unit → M St unit) Q s (P : St → Prop) :
  ids_at n i s.1 → (∀ s', ids_at (S n) i s'.1 → wp P (k tt) Q s') →
  wp P (mbind k (on_oe (T := T) (oe_send_order y (nth_id n) d q p f))) Q s.
Proof using QE.
  intros [H1 H2] Hk. destruct (run_oe_send y (nth_id n) d q p f s) as (s' & Hrun & [_ Hj _ Hl]).
  unfold wp. erewrite bind_ret by exact Hrun. apply Hk. unfold journal in Hj. split; [|congruence].
  rewrite Hj, send_ids_app, H1, seq_S, fmap_app. done.
Qed.

(** The counter goes on afterwards, as the other strategies do it. *)
Lemma wp_next_after {A} n (k : Z → M St A) (P : St → Prop) Q s :
  ids_at (S n) n s.1 → (∀ s', ids_ok s'.1 → wp P (k (nth_id n)) Q s') → wp P (mbind k next_order_id) Q s.
Proof.
  intros [H1 H2] Hk. unfold next_order_id. apply wp_bind. apply wp_gets. apply wp_modify. unfold wp at 1. simpl. rewrite H2. apply Hk.
  exists (S n). split; [done|]. simpl. unfold nth_id. rewrite u32_add_l. f_equal. lia.
Qed.

(** The rest of a program. *)
Lemma wp_counting {A} (m : M St A) s : counting m → ids_ok s.1 →
  wp (λ s, ids_ok s.1) m (λ _ s', ids_ok s'.1 ∧ True) s.
Proof. intros Hm. apply Hm. Qed.

Lemma wp_read_last {A} n (k : Z → M St A) (P : St → Prop) Q s :
  ids_at n n s.1 → wp P (k (nth_id n)) Q s → wp P (mbind k (gets (λ s, sh_last_order_id s.1))) Q s.
Proof. intros [_ H]. apply wp_gets || idtac. rewrite <-H. done. Qed.
End ids.

(** What leaves the counter and the orders alone, and the pieces of a program. *)
Create HintDb idle.
#[export] Hint Resolve idle_gets idle_ret idle_get_own idle_get_md idle_on_own idle_ask idle_throw idle_int32 idle_udiv idle_umod
  idle_rested idle_cancel idle_modify : idle.

Ltac counting_step :=
  lazymatch goal with
  | |- keeps _ _ _ (mbind _ (gets (λ s, sh_last_order_id (fst s)))) => fail
  | |- keeps _ _ _ (mbind _ next_order_id) => fail
  | |- keeps _ _ _ (mbind _ _) => apply keeps_bind; [by split| |intros ?]
  | |- keeps _ _ _ (when _ _) => apply keeps_when; [by split|]
  | |- keeps _ _ _ (for_each _ _) => apply keeps_for_each; [by split|intros ? _]
  | |- keeps _ _ _ (match ?x with _ => _ end) => destruct x
  | |- keeps _ _ _ (if ?b then _ else _) => destruct b
  | |- keeps _ _ _ nanotime => unfold nanotime
  | |- keeps _ _ _ rand => unfold rand
  | |- keeps _ _ _ (draw _ _) => unfold draw
  | |- keeps _ _ _ _ => apply counting_idle; solve [eauto with idle]
  end.
Ltac counting := repeat counting_step.

(** ** The strategies *)

Section strategies.
Context `{BT : BotWorld} {O D : Type} `{OE : !OrderEntry O} `{QE : !QuietEntry O} `{MV : !MarketView D} `{FVS : !FairValues D}.
Abbreviation counting m := (keeps (λ s, ids_ok s.1) (λ s, ids_ok s.1) (λ _ _, True) m).
Abbreviation Sh := (shared (O * list order_op) D).

Lemma idle_fair_value i ts : idle (FairValueMarketMaker.fair_value_at i ts : M (Sh * _) Z).
Proof. intros s. unfold FairValueMarketMaker.fair_value_at, zoom. by destruct (fvs_process i ts (sh_md s.1)) as [r d]. Qed.
#[local] Hint Resolve idle_fair_value : idle.

Lemma counts_imbalance_taker : counting (ImbalanceTaker.process : M (Sh * _) unit).
Proof using QE.
  unfold ImbalanceTaker.process, ImbalanceTaker.take_symbol. counting; unfold ImbalanceTaker.take_side;
    (intros s [n Hn]; apply (wp_next_then _ n _ _ _ Hn); intros s1 H1;
     eapply wp_own; [exact H1|]; eapply wp_send; [exact H1|]; intros s2 H2; apply wp_counting; [counting|by exists (S n)]).
Qed.

Lemma counts_random_taker : counting (RandomTaker.process : M (Sh * _) unit).
Proof using QE.
  unfold RandomTaker.process, RandomTaker.take_symbol. counting; unfold RandomTaker.send_next;
    (intros s [n Hn]; eapply wp_read_last; [exact Hn|]; eapply wp_send; [exact Hn|]; intros s1 H1;
     eapply wp_next_after; [exact H1|]; intros s2 H2; apply wp_counting; [counting|done]).
Qed.

Lemma counts_pressure_taker : counting (PressureTaker.process : M (Sh * _) unit).
Proof using QE.
  unfold PressureTaker.process, PressureTaker.press_symbol, PressureTaker.reload. counting.
  intros s [n Hn]. eapply wp_read_last; [exact Hn|]. eapply wp_send; [exact Hn|]. intros s1 H1.
  eapply wp_on_own; [exact H1|]. intros s2 H2. eapply wp_next_after; [exact H2|]. intros s3 H3. apply wp_counting; [counting|done].
Qed.

Lemma counts_resting_orders : counting (RestingOrders.process : M (Sh * _) unit).
Proof using QE.
  unfold RestingOrders.process, RestingOrders.rest_symbol. counting;
    (intros st [N HN]; eapply wp_read_last; [exact HN|]; eapply wp_send; [exact HN|]; intros s1 H1;
     eapply wp_next_after; [exact H1|]; intros s2 H2; apply wp_counting; [counting|done]).
Qed.

Lemma counts_market_maker : counting (FairValueMarketMaker.process : M (Sh * _) unit).
Proof using QE.
  unfold FairValueMarketMaker.process, FairValueMarketMaker.quote_symbol, FairValueMarketMaker.skewed_value,
    FairValueMarketMaker.round_to_tick_size, FairValueMarketMaker.quote_side, FairValueMarketMaker.log_time, FairValueMarketMaker.expired.
  counting.
  all: intros st [N HN]; eapply wp_read_last; [exact HN|]; eapply wp_send; [exact HN|]; intros s1 H1;
     eapply wp_next_after; [exact H1|]; intros s2 H2; apply wp_counting; [counting|done].
Qed.

Lemma counts_stack_side p side : counting (StackManager.stack_side p side : M (Sh * _) unit).
Proof using QE.
  unfold StackManager.stack_side, StackManager.cancel_ahead, StackManager.stamp, StackManager.may_send. counting.
  intros st [N HN]; apply (wp_next_then _ N _ _ _ HN); intros s1 H1. eapply wp_on_own; [exact H1|]. intros s2 H2.
  eapply wp_send; [exact H2|]; intros s3 H3; apply wp_counting; [counting|by exists (S N)].
Qed.

Lemma counts_stack_manager v bp ap : counting (StackManager.process v bp ap : M (Sh * _) unit).
Proof using QE.
  unfold StackManager.process, StackManager.round_down. counting; apply counts_stack_side.
Qed.

Lemma counts_stacker : counting (FairValueStackingMarketMaker.process : M (Sh * _) unit).
Proof using QE.
  unfold FairValueStackingMarketMaker.process. counting. intros s Hs.
  pose proof (counts_stack_manager (s32 (a3 * sym_tick_size a)) (OrderBook.level_price a0) (OrderBook.level_price a1)
    (s.1, FairValueStackingMarketMaker.stack_manager s.2) Hs) as H.
  unfold FairValueStackingMarketMaker.on_stack, zoom, wp in *. by destruct (StackManager.process _ _ _ _) as [[[]|e] [sh t]].
Qed.

(** Every strategy of a list. *)
Lemma counts_all {T} (m : M (Sh * T) unit) ts : counting m → ∀ sh, ids_ok sh → ids_ok (process_all m ts sh).2.1.
Proof.
  intros Hm. induction ts as [|t ts IH]; intros sh Hs; [done|]. simpl. specialize (Hm (sh, t) Hs). unfold wp in Hm.
  destruct (m (sh, t)) as [[[]|e] [sh1 t1]]; [|done]. destruct Hm as [Hm _]. specialize (IH sh1 Hm).
  by destruct (process_all m ts sh1) as [r [sh2 ts2]].
Qed.
End strategies.

(** ** The programs *)

Section rounds.
Context `{BT : BotWorld} {O D : Type} `{OE : !OrderEntry O} `{QE : !QuietEntry O} `{MV : !MarketView D} `{FVS : !FairValues D}.
Context `{PO : !Polled O} `{PD : !Polled D} `{SU : !Summaries D}.
Abbreviation P := (BotRunner.t (O * list order_op) D).
Abbreviation counting m := (keeps (λ s : P, ids_ok (BotRunner.common s)) (λ s, ids_ok (BotRunner.common s)) (λ _ _, True) m).

#[local] Instance all_preorder {A} : PreOrder (λ _ _ : A, True).
Proof. by split. Qed.

(** Polling asks for nothing. *)
Lemma ids_poll_oe (sh : shared (O * list order_op) D) : ids_ok sh →
  let '(r, o) := poll (sh_oe sh) in ids_ok (mk_shared o (sh_md sh) (sh_last_order_id sh) (sh_calls sh)).
Proof.
  intros (n & H1 & H2). unfold poll, pair_polled, zoom. destruct (poll (sh_oe sh).1) as [[[]|e] o]; exists n; by split.
Qed.
Lemma ids_poll_md (sh : shared (O * list order_op) D) : ids_ok sh →
  let '(r, d) := poll (sh_md sh) in ids_ok (mk_shared (sh_oe sh) d (sh_last_order_id sh) (sh_calls sh)).
Proof. intros (n & H1 & H2). destruct (poll (sh_md sh)) as [r d]. exists n. by split. Qed.

Lemma counts_polls : counting (BotRunner.poll_oe : M P unit) ∧ counting (BotRunner.poll_md : M P unit).
Proof.
  split; intros s Hs; unfold wp, BotRunner.poll_oe, BotRunner.poll_md, BotRunner.on_common.
  - pose proof (ids_poll_oe _ Hs) as H. destruct (poll (sh_oe _)) as [[[]|e] o]; by try split.
  - pose proof (ids_poll_md _ Hs) as H. destruct (poll (sh_md _)) as [[[]|e] o]; by try split.
Qed.

Lemma counts_strategies :
  counting (BotRunner.run_market_makers : M P unit) ∧ counting (BotRunner.run_takers : M P unit) ∧
  counting (BotRunner.run_stackers : M P unit).
Proof using QE.
  split_and!; intros s Hs; unfold wp, BotRunner.run_market_makers, BotRunner.run_takers, BotRunner.run_stackers.
  - pose proof (counts_all _ (BotRunner.market_makers s) counts_market_maker _ Hs) as H.
    destruct (process_all _ _ _) as [[[]|e] [sh l]]; by try split.
  - pose proof (counts_all _ (BotRunner.takers s) counts_random_taker _ Hs) as H.
    destruct (process_all _ _ _) as [[[]|e] [sh l]]; by try split.
  - pose proof (counts_all _ (BotRunner.stackers s) counts_stacker _ Hs) as H.
    destruct (process_all _ _ _) as [[[]|e] [sh l]]; by try split.
Qed.

Lemma counts_run n : counting (BotRunner.run n : M P unit) ∧ counting (StableBotRunner.run n : M P unit).
Proof using QE.
  destruct counts_polls as [H1 H2]. destruct counts_strategies as (H3 & H4 & H5).
  split; apply keeps_for_each; try apply _; intros _ _; unfold BotRunner.round, StableBotRunner.round;
    repeat (apply keeps_bind; [apply _|done|intros _]); done.
Qed.

Abbreviation P' := (SmarterBots.t (O * list order_op) D).

Lemma counts_run_smarter n :
  keeps (λ s : P', ids_ok (SmarterBots.common s)) (λ s, ids_ok (SmarterBots.common s)) (λ _ _, True) (SmarterBots.run n : M P' unit).
Proof using QE.
  apply keeps_for_each; [apply _|]. intros _ _. unfold SmarterBots.round. repeat (apply keeps_bind; [apply _| |intros _]); intros s Hs; unfold wp.
  - unfold SmarterBots.poll_oe. pose proof (ids_poll_oe _ Hs) as H. destruct (poll (sh_oe _)) as [[[]|e] o]; by try split.
  - unfold SmarterBots.poll_md. pose proof (ids_poll_md _ Hs) as H. destruct (poll (sh_md _)) as [[[]|e] o]; by try split.
  - unfold SmarterBots.run_imbalance_taker. pose proof (counts_imbalance_taker (SmarterBots.common s, SmarterBots.imbalance_taker s) Hs) as H.
    unfold wp in H. destruct (ImbalanceTaker.process _) as [[[]|e] [sh x]]; [by destruct H|done].
  - unfold SmarterBots.run_pressure_taker. pose proof (counts_pressure_taker (SmarterBots.common s, SmarterBots.pressure_taker s) Hs) as H.
    unfold wp in H. destruct (PressureTaker.process _) as [[[]|e] [sh x]]; [by destruct H|done].
  - unfold SmarterBots.run_resting_orders. pose proof (counts_resting_orders (SmarterBots.common s, SmarterBots.resting_orders s) Hs) as H.
    unfold wp in H. destruct (RestingOrders.process _) as [[[]|e] [sh x]]; [by destruct H|done].
Qed.
End rounds.

(** The requests a program has made. *)
Definition asked_for {O D} (sh : shared (O * list order_op) D) : list order_op := (sh_oe sh).2.

(** Its orders are numbered from 1, and no two of them alike while 32 bits can
    number them. *)
Definition numbered (ops : list order_op) : Prop :=
  send_ids ops = nth_id <$> seq 0 (length (send_ids ops)) ∧ (Z.of_nat (length (send_ids ops)) ≤ 2^32 → NoDup (send_ids ops)).

Lemma nth_id_inj i j : Z.of_nat i < 2^32 → Z.of_nat j < 2^32 → nth_id i = nth_id j → i = j.
Proof.
  unfold nth_id, u32. intros Hi Hj H. enough (Z.of_nat i = Z.of_nat j) by lia.
  change (2^32) with 4294967296 in *. Z.div_mod_to_equations. lia.
Qed.

Lemma ids_numbered {O D} (sh : shared (O * list order_op) D) : ids_ok sh → numbered (asked_for sh).
Proof.
  intros (n & H & _). unfold numbered, asked_for. rewrite H, length_fmap, length_seq. split; [done|]. intros Hn.
  rewrite <- H. apply NoDup_alt. rewrite H. intros i j x Hi Hj. apply list_lookup_fmap_Some in Hi as (i' & -> & Hi). apply list_lookup_fmap_Some in Hj as (j' & Heq & Hj).
  apply lookup_seq in Hi as [-> Hi]. apply lookup_seq in Hj as [-> Hj]. simpl in Heq. symmetry in Heq.
  apply nth_id_inj in Heq; [done|lia..].
Qed.

Lemma ids_initial {O D} (o : O) (d : D) : ids_ok (mk_shared (o, []) d 1 0).
Proof. by exists 0%nat. Qed.

Lemma wp_state {St A} (E : St → Prop) (Q : A → St → Prop) (m : M St A) s : (∀ a s', Q a s' → E s') → wp E m Q s → E (m s).2.
Proof. unfold wp. destruct (m s) as [[a|e] s']; [|done]. simpl. eauto. Qed.

(** C24 ([order_ids_unique]): all the strategies of a program number their orders from
    one counter, some before and some after they send: whatever the exchange
    and the feed deliver, whichever strategies run, and even when an exception
    ends the program in the middle of one, the orders that it has sent carry
    the ids 1, 2, 3 and so on, without a gap, and without a repetition until the
    32-bit counter has gone round. *)
Theorem order_ids_unique (BT : BotWorld) (CW : ClientWorld) (FW : FeedWorld) (WW : WalkWorld) (oe : OEClient.t) (md_client : MDClient.t) rounds :
  let client user := recorder (OE := OEClient.order_entry user) in
  numbered (asked_for (BotRunner.common (BotRunner.run (OE := client BotRunner.user) rounds (BotRunner.initial (oe, []) md_client)).2)) ∧
  numbered (asked_for (BotRunner.common (StableBotRunner.run (OE := client BotRunner.user) rounds (StableBotRunner.initial (oe, []) md_client)).2)) ∧
  numbered (asked_for (SmarterBots.common (SmarterBots.run (OE := client SmarterBots.user) rounds (SmarterBots.initial (oe, []) md_client)).2)).
Proof.
  intros client. split_and!; apply ids_numbered.
  - eapply (wp_state (λ s, ids_ok (BotRunner.common s))); [|apply counts_run, ids_initial]; cbn; tauto.
  - eapply (wp_state (λ s, ids_ok (BotRunner.common s))); [|apply counts_run, ids_initial]; cbn; tauto.
  - eapply (wp_state (λ s, ids_ok (SmarterBots.common s))); [|apply counts_run_smarter, ids_initial]; cbn; tauto.
Qed.

(** ** The types of a program's requests *)

Section typing.
Context `{BT : BotWorld} {O D : Type} `{OE : !OrderEntry O} `{MV : !MarketView D} `{FVS : !FairValues D}.
Context `{PO : !Polled O} `{PD : !Polled D}.
Context (ok_oe : O → Prop) (ok_md : D → Prop) `{TE : !TypedEntry O ok_oe} `{TV : !TypedView D ok_md}.
Abbreviation any := (λ _, True).
Context (poll_oe_ok : gives ok_oe any poll) (poll_md_ok : gives ok_md any poll).

Record shared_typed (sh : shared O D) : Prop := {
  st_oe : ok_oe (sh_oe sh);
  st_md : ok_md (sh_md sh);
  st_last : is_u32 (sh_last_order_id sh);
}.

Lemma typed_split {T} (ok : T → Prop) s : typed ok_oe ok_md ok s ↔ shared_typed s.1 ∧ ok s.2.
Proof. split; [intros []; split; [by split|done]|intros [[] ?]; by split]. Qed.

Lemma typed_all {T} (ok : T → Prop) (m : M (shared O D * T) unit) ts : gives (typed ok_oe ok_md ok) any m →
  ∀ sh, shared_typed sh → Forall ok ts → shared_typed (process_all m ts sh).2.1 ∧ Forall ok (process_all m ts sh).2.2.
Proof.
  intros Hm. induction ts as [|t ts IH]; intros sh Hs Ht; [done|]. simpl. inversion_clear Ht as [|? ? H1 H2].
  specialize (Hm (sh, t) ltac:(by apply typed_split)). unfold wp in Hm.
  destruct (m (sh, t)) as [[[]|e] [sh1 t1]]; [destruct Hm as [Hm _]|]; apply typed_split in Hm as [H3 H4]; simpl in *;
    [|split; [done|by constructor]].
  specialize (IH sh1 H3 H2). destruct (process_all m ts sh1) as [r [sh2 ts2]]. simpl in *. destruct IH. split; [done|by constructor].
Qed.

Record program_typed (s : BotRunner.t O D) : Prop := {
  pt_common : shared_typed (BotRunner.common s);
  pt_makers : Forall maker_typed (BotRunner.market_makers s);
  pt_takers : Forall random_typed (BotRunner.takers s);
  pt_stackers : Forall stacker_typed (BotRunner.stackers s);
}.

(** What the program's pieces do to the shared state they do to the program. *)
Lemma typed_polls : gives program_typed any BotRunner.poll_oe ∧ gives program_typed any BotRunner.poll_md.
Proof using poll_oe_ok poll_md_ok.
  split; intros s [[H1 H2 H3] H4 H5 H6]; unfold wp, BotRunner.poll_oe, BotRunner.poll_md, BotRunner.on_common.
  - specialize (poll_oe_ok _ H1). unfold wp in poll_oe_ok. destruct (poll _) as [[[]|e] o]; [destruct poll_oe_ok; split; [|done]|]; by split.
  - specialize (poll_md_ok _ H2). unfold wp in poll_md_ok. destruct (poll _) as [[[]|e] o]; [destruct poll_md_ok; split; [|done]|]; by split.
Qed.

Context (fvs_ok : ∀ i ts, gives ok_md any (fvs_process i ts)).

Lemma typed_strategies :
  gives program_typed any BotRunner.run_market_makers ∧ gives program_typed any BotRunner.run_takers ∧
  gives program_typed any BotRunner.run_stackers.
Proof using TE TV fvs_ok.
  split_and!; intros s [H1 H2 H3 H4]; unfold wp, BotRunner.run_market_makers, BotRunner.run_takers, BotRunner.run_stackers.
  - destruct (typed_all maker_typed _ (BotRunner.market_makers s) (typing_market_maker _ _ fvs_ok) _ H1 H2) as [H5 H6].
    destruct (process_all _ _ _) as [[[]|e] [sh l]]; [split; [|done]|]; by split.
  - destruct (typed_all random_typed _ (BotRunner.takers s) (typing_random_taker _ _) _ H1 H3) as [H5 H6].
    destruct (process_all _ _ _) as [[[]|e] [sh l]]; [split; [|done]|]; by split.
  - destruct (typed_all stacker_typed _ (BotRunner.stackers s) (typing_stacker _ _) _ H1 H4) as [H5 H6].
    destruct (process_all _ _ _) as [[[]|e] [sh l]]; [split; [|done]|]; by split.
Qed.

Lemma typed_run n : gives program_typed any (BotRunner.run n).
Proof using TE TV poll_oe_ok poll_md_ok fvs_ok.
  destruct typed_polls as [H1 H2]. destruct typed_strategies as (H3 & H4 & H5).
  apply gives_for_each. intros _ _. unfold BotRunner.round.
  repeat (apply (gives_bind _ any); [done|intros _ _]). done.
Qed.

Lemma typed_run_stable n : gives program_typed any (StableBotRunner.run n).
Proof using TE TV poll_oe_ok poll_md_ok fvs_ok.
  destruct typed_polls as [H1 H2]. destruct typed_strategies as (H3 & H4 & H5).
  apply gives_for_each. intros _ _. unfold StableBotRunner.round.
  repeat (apply (gives_bind _ any); [done|intros _ _]). done.
Qed.
End typing.

Section smarter.
Context `{BT : BotWorld} {O D : Type} `{OE : !OrderEntry O} `{MV : !MarketView D} `{SU : !Summaries D}.
Context `{PO : !Polled O} `{PD : !Polled D}.
Context (ok_oe : O → Prop) (ok_md : D → Prop) `{TE : !TypedEntry O ok_oe} `{TV : !TypedView D ok_md}.
Abbreviation any := (λ _, True).
Context (poll_oe_ok : gives ok_oe any poll) (poll_md_ok : gives ok_md any poll).

Record smarter_typed (s : SmarterBots.t O D) : Prop := {
  ps_common : shared_typed ok_oe ok_md (SmarterBots.common s);
  ps_imbalance : imbalance_typed (SmarterBots.imbalance_taker s);
  ps_pressure : pressure_typed (SmarterBots.pressure_taker s);
  ps_resting : resting_typed (SmarterBots.resting_orders s);
}.

Lemma hear_typed xs : ∀ i, imbalance_typed i → imbalance_typed (foldl (λ i x, SmarterBots.hear x i) i xs).
Proof. induction xs as [|x xs IH]; intros i Hi; [done|].
  apply IH. unfold SmarterBots.hear, ImbalanceTaker.on_trade_summary. destruct Hi. by repeat case_match.
Qed.

Lemma typed_polls_smarter : gives smarter_typed any SmarterBots.poll_oe ∧ gives smarter_typed any SmarterBots.poll_md.
Proof using poll_oe_ok poll_md_ok.
  split; intros s [[H1 H2 H3] H4 H5 H6]; unfold wp, SmarterBots.poll_oe, SmarterBots.poll_md; cbv zeta.
  - specialize (poll_oe_ok _ H1). unfold wp in poll_oe_ok. destruct (poll _) as [[[]|e] o]; [destruct poll_oe_ok; split; [|done]|]; by split.
  - specialize (poll_md_ok _ H2). unfold wp in poll_md_ok. pose proof (λ xs, hear_typed xs _ H4).
    destruct (poll _) as [[[]|e] d]; [destruct poll_md_ok; split; [|done]|]; split; simpl; try done; auto; by split.
Qed.

(** One strategy's turn. *)
Lemma typed_turn {T} (ok : T → Prop) (m : M (shared O D * T) unit) sh t :
  gives (typed ok_oe ok_md ok) any m → shared_typed ok_oe ok_md sh → ok t →
  shared_typed ok_oe ok_md (m (sh, t)).2.1 ∧ ok (m (sh, t)).2.2.
Proof.
  intros Hm Hs Ht. specialize (Hm (sh, t) ltac:(by apply typed_split)). unfold wp in Hm.
  destruct (m (sh, t)) as [[[]|e] [sh1 t1]]; [destruct Hm as [Hm _]|]; by apply typed_split in Hm.
Qed.

Lemma typed_takers_smarter :
  gives smarter_typed any SmarterBots.run_imbalance_taker ∧ gives smarter_typed any SmarterBots.run_pressure_taker ∧
  gives smarter_typed any SmarterBots.run_resting_orders.
Proof using TE TV.
  split_and!; intros s [H1 H2 H3 H4];
    unfold wp, SmarterBots.run_imbalance_taker, SmarterBots.run_pressure_taker, SmarterBots.run_resting_orders.
  - destruct (typed_turn imbalance_typed _ _ _ (typing_imbalance_taker _ _) H1 H2) as [H5 H6].
    destruct (ImbalanceTaker.process _) as [[[]|e] [sh x]]; [split; [|done]|]; by split.
  - destruct (typed_turn pressure_typed _ _ _ (typing_pressure_taker _ _) H1 H3) as [H5 H6].
    destruct (PressureTaker.process _) as [[[]|e] [sh x]]; [split; [|done]|]; by split.
  - destruct (typed_turn resting_typed _ _ _ (typing_resting_orders _ _) H1 H4) as [H5 H6].
    destruct (RestingOrders.process _) as [[[]|e] [sh x]]; [split; [|done]|]; by split.
Qed.

Lemma typed_run_smarter n : gives smarter_typed any (SmarterBots.run n).
Proof using TE TV poll_oe_ok poll_md_ok.
  destruct typed_polls_smarter as [H1 H2]. destruct typed_takers_smarter as (H3 & H4 & H5).
  apply gives_for_each. intros _ _. unfold SmarterBots.round.
  repeat (apply (gives_bind _ any); [done|intros _ _]). done.
Qed.
End smarter.

(** The bots trade what the exchange lists. *)
Lemma symbols_listed : BotRunner.symbols = exchange_symbols ∧ two_symbols = take 2 exchange_symbols.
Proof. by split. Qed.

(** The strategies as the program makes them. *)
Lemma symbols_typed : Forall sym_typed BotRunner.symbols.
Proof. by_decide. Qed.

Lemma initial_makers_typed : Forall maker_typed
  (imap (λ i v, FairValueMarketMaker.initial v BotRunner.symbols (if (i <? 3)%nat then 2 else 3) (100 - 10 * Z.of_nat i)) BotRunner.variances).
Proof.
  apply Forall_forall. intros m Hm. apply elem_of_lookup_imap in Hm as (i & v & -> & Hi).
  assert (i < 7)%nat as Hlt by exact (lookup_lt_Some _ _ _ Hi).
  split; [apply symbols_typed| |done..]. simpl. unfold is_u32. lia.
Qed.

Lemma initial_takers_typed : Forall random_typed ((λ i, RandomTaker.initial BotRunner.symbols (i + 1) (6 + i)) <$> [0; 1; 2; 3]).
Proof. repeat (apply Forall_cons; split; [split; [apply symbols_typed|by_decide]|]). constructor. Qed.

Lemma initial_stackers_typed : Forall stacker_typed ((λ symbol, FairValueStackingMarketMaker.initial symbol 1 2) <$> BotRunner.symbols).
Proof.
  apply Forall_fmap, Forall_forall. intros y Hy. pose proof (proj1 (Forall_forall _ _) symbols_typed y Hy) as Ht.
  split; [exact Ht|by_decide|by constructor..].
Qed.

(** Logging in leaves the client its session and its next sequence number. *)
Lemma login_typed `{CW : ClientWorld} user :
  gives (λ o, is_u32 (OEClient.client_seq o) ∧ is_u64 (OEClient.session_id o)) (λ _, True) (OEClient.login user).
Proof.
  unfold OEClient.login, OEClient.next_seq, OEClient.write. assert (∀ bs, is_u64 (oe.lr_session_id (c_dec oe.c_login_response bs))) as Hid.
  { intros bs. pose proof (le_combine_bound (take 8 (drop 16 bs))) as H. unfold is_u64.
    pose proof (Z.pow_le_mono_r 2 (8 * Z.of_nat (length (take 8 (drop 16 bs)))) 64 ltac:(lia) ltac:(rewrite length_take; lia)).
    change (oe.lr_session_id (c_dec oe.c_login_response bs)) with (le_combine (take 8 (drop 16 bs))). lia. }
  apply (gives_bind _ (λ _, True)); [apply gives_modify; done|intros _ _].
  do 4 (case_match; [by apply gives_ret|]).
  apply (gives_bind _ (λ _, True)); [|intros n _].
  { apply (gives_bind _ (λ _, True)); [by apply gives_gets|intros n _].
    apply (gives_bind _ (λ _, True)); [|intros; by apply gives_ret]. apply gives_modify. intros s [_ H']. split; [apply u32_range|done]. }
  apply (gives_bind _ (λ _, True)); [|intros len _].
  { apply (gives_bind _ (λ _, True)); [by apply gives_gets|intros k _].
    apply (gives_bind _ (λ _, True)); [by apply gives_modify|intros; by apply gives_ret]. }
  case_match; [by apply gives_ret|]. apply (gives_bind _ (λ _, True)); [|intros r _].
  { generalize cw_fuel as fuel. induction fuel as [|fuel IH]; cbn [OEClient.await_response]; [apply gives_throw|].
    apply (gives_bind _ (λ _, True)); [|intros r _; by case_match; [apply IH|apply gives_ret|apply gives_ret]].
    unfold OEClient.read. apply (gives_bind _ (λ _, True)); [by apply gives_gets|intros k _].
    apply (gives_bind _ (λ _, True)); [by apply gives_modify|intros; by apply gives_ret]. }
  case_match; [|by apply gives_ret]. case_match; [by apply gives_ret|].
  apply (gives_bind _ (λ _, True)); [|intros; by apply gives_ret]. apply gives_modify. intros s [Hs _]. split; [done|].
  apply Hid.
Qed.

Lemma two_symbols_typed : Forall sym_typed two_symbols.
Proof. by_decide. Qed.

(** A program after its set-up, with the types of the code. *)
Section run_typed.
Context `{BT : BotWorld} `{CW : ClientWorld} `{FW : FeedWorld} (user : user_info) (o : OEClient.t) (d : MDClient.t).
Context (freed_typed : ∀ o, is_s32 (OrderBook.price o) → is_s32 (OrderBook.price (fw_freed o))).
Context (seq_typed : is_u32 (OEClient.client_seq o)) (md_ok : md_typed d).
Abbreviation client := (recorder (OE := OEClient.order_entry user)).

Definition ok_oe : OEClient.t * list order_op → Prop :=
  wired user (OEClient.written o) (OEClient.writes o) (OEClient.client_seq o) (OEClient.session_id o).

Lemma oe_typed : TypedEntry (OrderEntry0 := client) _ ok_oe.
Proof using seq_typed. by apply oe_client_typed. Qed.

Lemma oe_start : ok_oe (o, []).
Proof using seq_typed. split; simpl; [by rewrite app_nil_r|by rewrite Nat.add_0_r|by rewrite Z.add_0_r, u32_id|done|constructor]. Qed.

Lemma md_polled : gives md_typed (λ _, True) (poll : M MDClient.t unit).
Proof using freed_typed. exact (typing_md_process freed_typed). Qed.

Lemma md_polled_pair {F} : gives (λ d : MDClient.t * list F, md_typed d.1) (λ _, True) (poll : M (MDClient.t * list F) unit).
Proof using freed_typed.
  intros d' Hd'. unfold wp, poll, pair_polled, zoom. pose proof (md_polled d'.1 Hd') as Hp.
  unfold wp in *. by destruct (poll d'.1) as [[[]|e] m]; [destruct Hp|].
Qed.

Lemma bot_runner_typed `{WW : WalkWorld} n :
  ok_oe (sh_oe (BotRunner.common (BotRunner.run (OE := client) n (BotRunner.initial (o, []) d)).2)).
Proof using freed_typed seq_typed md_ok.
  pose proof oe_typed as TE. set (ok_md := λ d : MDClient.t * list RandomWalkFairValue.t, md_typed d.1).
  assert (program_typed ok_oe ok_md (BotRunner.initial (o, []) d)) as Hinit.
  { split; [|apply initial_makers_typed|apply initial_takers_typed|apply initial_stackers_typed].
    split; [apply oe_start|exact md_ok|by_decide]. }
  pose proof (typed_run (OE := client) ok_oe ok_md (typing_poll_oe _ _ _ _ _) md_polled_pair fair_values_typed n _ Hinit) as H.
  apply (wp_state (program_typed ok_oe ok_md)) in H; [|cbn; tauto]. apply H.
Qed.

Lemma stable_bot_runner_typed n :
  ok_oe (sh_oe (BotRunner.common (StableBotRunner.run (OE := client) n (StableBotRunner.initial (o, []) d)).2)).
Proof using freed_typed seq_typed md_ok.
  pose proof oe_typed as TE. set (ok_md := λ d : MDClient.t * list ConstantFairValue.t, md_typed d.1).
  assert (program_typed ok_oe ok_md (StableBotRunner.initial (o, []) d)) as Hinit.
  { split; [split; [apply oe_start|exact md_ok|by_decide]| | |constructor].
    - repeat constructor; by_decide.
    - repeat constructor; by_decide. }
  pose proof (typed_run_stable (OE := client) ok_oe ok_md (typing_poll_oe _ _ _ _ _) md_polled_pair fair_values_typed n _ Hinit) as H.
  apply (wp_state (program_typed ok_oe ok_md)) in H; [|cbn; tauto]. apply H.
Qed.

Lemma smarter_bots_typed n :
  ok_oe (sh_oe (SmarterBots.common (SmarterBots.run (OE := client) n (SmarterBots.initial (o, []) d)).2)).
Proof using freed_typed seq_typed md_ok.
  pose proof oe_typed as TE.
  assert (smarter_typed ok_oe md_typed (SmarterBots.initial (o, []) d)) as Hinit.
  { split; [|by split; [apply two_symbols_typed|by_decide]..].
    split; [apply oe_start|by destruct md_ok|by_decide]. }
  pose proof (typed_run_smarter (OE := client) ok_oe md_typed (typing_poll_oe _ _ _ _ _) md_polled n _ Hinit) as H.
  apply (wp_state (smarter_typed ok_oe md_typed)) in H; [|cbn; tauto]. apply H.
Qed.
End run_typed.

(** A connected program's clients. *)
Lemma connect_typed `{CW : ClientWorld} `{FW : FeedWorld} user o d :
  (∀ o, is_s32 (OrderBook.price o) → is_s32 (OrderBook.price (fw_freed o))) →
  connect user (OEClient.initial, MDClient.initial) = (Ret (Some tt), (o, d)) →
  is_u32 (OEClient.client_seq o) ∧ is_u64 (OEClient.session_id o) ∧ md_typed d.
Proof.
  intros Hfreed Hconn. apply (f_equal snd) in Hconn. revert Hconn. unfold connect, mbind, M_bind, zoom. simpl.
  pose proof (login_typed user OEClient.initial ltac:(by_decide)) as Ho.
  pose proof (typing_wait_for_snapshot Hfreed fw_fuel MDClient.initial md_typed_initial) as Hm. unfold wp in *.
  destruct (OEClient.login _ _) as [[[]|e] o1]; simpl.
  - destruct Ho as [[? ?] _]. destruct (MDClient.wait_for_snapshot _ _) as [[[]|e] d1]; simpl; intros [= <- <-];
      split_and!; try done. by destruct Hm.
  - destruct Ho as [[? ?] _]. intros [= <- <-]. split_and!; [done|done|apply md_typed_initial].
  - destruct Ho. intros [= <- <-]. split_and!; [done|done|apply md_typed_initial].
Qed.

(** What a program connected as [o] has asked for fits the messages, and has
    arrived as far as the socket has taken it. *)
Definition asks_well `{CW : ClientWorld} (user : user_info) (o : OEClient.t) (x : OEClient.t * list order_op) : Prop :=
  Forall op_fits x.2 ∧
  ∃ bytes, OEClient.written x.1 = OEClient.written o ++ bytes ∧
    arrive_of CW (OEClient.writes o) bytes (requests_of user (OEClient.client_seq o) (OEClient.session_id o) x.2).

Lemma ok_asks_well `{CW : ClientWorld} user o x :
  is_u32 (ui_client_id user) → is_u32 (OEClient.client_seq o) → is_u64 (OEClient.session_id o) → ok_oe user o x → asks_well user o x.
Proof.
  intros Hu Hseq Hsess [H1 Hn H2 H3 H4]. split; [exact H4|]. eexists. split; [exact H1|]. by apply taken_arrive, requests_well_formed.
Qed.

(** C23 ([bots_well_typed]): the bots of the three trading programs ask only for what
    their messages can carry, and it arrives as they asked: from a successful
    login and snapshot, whatever the exchange and the feed send and the clock and
    the draws are, and even when an exception ends the program, the arguments of
    every request fit the fields of its message, and the requests — with the
    program's client id and session and consecutive sequence numbers — arrive at
    the exchange's stream parser in order as far as the socket takes them (see
    [requests_arrive]; the parser reads at most 1000 within a second).  Memory
    read as an [int32_t] after it was freed is taken to be one. *)
Theorem bots_well_typed (BT : BotWorld) (CW : ClientWorld) (FW : FeedWorld) (WW : WalkWorld) rounds :
  (∀ o, is_s32 (OrderBook.price o) → is_s32 (OrderBook.price (fw_freed o))) →
  let client user := recorder (OE := OEClient.order_entry user) in
  (∀ o d, connect BotRunner.user (OEClient.initial, MDClient.initial) = (Ret (Some tt), (o, d)) →
    asks_well BotRunner.user o
      (sh_oe (BotRunner.common (BotRunner.run (OE := client BotRunner.user) rounds (BotRunner.initial (o, []) d)).2)) ∧
    asks_well BotRunner.user o
      (sh_oe (BotRunner.common (StableBotRunner.run (OE := client BotRunner.user) rounds (StableBotRunner.initial (o, []) d)).2))) ∧
  (∀ o d, connect SmarterBots.user (OEClient.initial, MDClient.initial) = (Ret (Some tt), (o, d)) →
    asks_well SmarterBots.user o
      (sh_oe (SmarterBots.common (SmarterBots.run (OE := client SmarterBots.user) rounds (SmarterBots.initial (o, []) d)).2))).
Proof.
  intros Hfreed client. split; intros o d (Hseq & Hsess & Hd)%connect_typed; try done; [split|];
    (apply ok_asks_well; [by_decide|done|done|]).
  - by apply bot_runner_typed.
  - by apply stable_bot_runner_typed.
  - by apply smarter_bots_typed.
Qed.

(** The program that means to be rejected sends its five thousand bids, whatever the
    socket takes of them. *)
Lemma reject_bot_orders {O D} `{OE : !OrderEntry O} `{QE : !QuietEntry O} (o : O) (d : D) : ∃ s,
  RejectBot.send_orders ((o, []), d) = (Ret tt, s) ∧ s.1.2 = (λ i, SendOrder 1 (i + 1) md.SIDE.BUY 10 10 0) <$> seqZ 0 5000.
Proof.
  unfold RejectBot.send_orders. generalize (seqZ 0 5000) as l. intros l.
  assert (∀ ops (o : O), ∃ s, for_each l (λ i, zoom fst (λ o s, (o, s.2)) (oe_send_order 1 (i + 1) md.SIDE.BUY 10 10 0)) ((o, ops), d) = (Ret tt, s) ∧
    s.1.2 = ops ++ ((λ i, SendOrder 1 (i + 1) md.SIDE.BUY 10 10 0) <$> l)) as H; [|exact (H [] o)].
  induction l as [|i l IH]; intros ops o0; [by exists ((o0, ops), d); rewrite app_nil_r|]. cbn [for_each].
  destruct (qe_send 1 (i + 1) md.SIDE.BUY 10 10 0 o0) as [o1 Ho]. destruct (IH (ops ++ [SendOrder 1 (i + 1) md.SIDE.BUY 10 10 0]) o1) as (s & Hrun & Hs).
  exists s. split; [|by rewrite Hs, <- app_assoc]. erewrite bind_ret; [exact Hrun|]. unfold zoom. simpl. unfold record. cbn [fst snd]. by rewrite Ho.
Qed.

(** *** A round of the program *)

(** The exchange accepts the login; the feed is the one of the snapshot client's
    example; the fair values stay. *)
Definition login_answer : list byte := c_enc oe.c_login_response
  (oe.Build_login_response (oe.Build_oe_response_header 25 oe.MSG_TYPE.LOGIN_RESPONSE 0 0 0 99) 77 oe.LOGIN_STATUS.SUCCESS).
Definition welcoming_world : ClientWorld := calm_client_world [login_answer].
Definition steady_feed : FeedWorld := join_world live_4_to_7 (drop 2 (SnapshotWriter.packets writer_6)).
Definition steady_walk : WalkWorld := {| ww_walk := λ _ _, 0; ww_time := λ _ _, 5 |}.
Definition steady_bots : BotWorld := {| bt_clock := λ n, 10 * Z.of_nat (S n); bt_rand := Z.of_nat; bt_draw := λ _ low _, low |}.

#[local] Existing Instances welcoming_world steady_feed steady_walk steady_bots calm_parser_world recording_handler.

Definition connected : outcome (option unit) * (OEClient.t * MDClient.t) := connect BotRunner.user (OEClient.initial, MDClient.initial).

Definition one_round : outcome unit * BotRunner.t (OEClient.t * list order_op) (MDClient.t * list RandomWalkFairValue.t) :=
  BotRunner.run (OE := recorder (OE := OEClient.order_entry BotRunner.user)) 1 (BotRunner.initial (connected.2.1, []) connected.2.2).

Lemma bots_well_typed_witness :
  connected.1 = Ret (Some tt) ∧ one_round.1 = Ret tt ∧ length (asked_for (BotRunner.common one_round.2)) = 234%nat ∧
  asks_well BotRunner.user connected.2.1 (sh_oe (BotRunner.common one_round.2)).
Proof.
  assert (connected.1 = Ret (Some tt)) as Hc by (vm_compute; reflexivity).
  split; [exact Hc|]. split; [vm_compute; reflexivity|]. split; [vm_compute; reflexivity|].
  destruct (bots_well_typed steady_bots welcoming_world steady_feed steady_walk 1) as [Hb _]; [done|].
  destruct (Hb connected.2.1 connected.2.2) as [H _]; [|exact H].
  change (connect BotRunner.user (OEClient.initial, MDClient.initial)) with connected.
  rewrite (surjective_pairing connected), Hc. by destruct connected.2.
Defined.
