(* ===== verification/Server.v ===== *)
(** * [order_entry/oe_server.cpp]: the epoll loop

    The server accepts connections, reads their bytes into the stream parser,
    tells it of closed connections, and lets the client handler answer after
    every batch of events. *)
From Stdlib Require Import Init.Byte Strings.String.
From S2P Require Import Prelude Protocol SnapshotClient Validator ClientHandler StreamParser.

Record epoll_event := mk_event { ev_fd : Z; ev_events : Z }.

Definition EPOLLHUP : Z := 16.
Definition EPOLLRDHUP : Z := 8192.

(** The kernel's answers, call by call: [epoll_wait] (at most 32 events, or a
    failure), [accept], the two [fcntl], [setsockopt], [epoll_ctl], and [read]
    from an open connection.  [sv_fuel] bounds how often an event's connection is
    read. *)
Class ServerWorld := {
  sv_wait : nat → option (list epoll_event);
  sv_accept : nat → Z;
  sv_getfl : nat → Z;
  sv_setfl : nat → Z;
  sv_keepalive : nat → Z;
  sv_epoll_ctl : nat → Z;
  sv_read : nat → Z → received;
  sv_fuel : nat;
}.

Module EpollServer.

(** [descriptors] is the kernel's table of the open connections. *)
Record t := mk { listen_fd : Z; descriptors : gset Z; calls : nat }.

Definition initial (listen_fd : Z) : t := mk listen_fd ∅ 0.

Definition set_descriptors (d : gset Z) (s : t) : t := mk (listen_fd s) d (calls s).
Definition count_call (s : t) : t := mk (listen_fd s) (descriptors s) (S (calls s)).

(** The descriptors a log closes. *)
Definition closed_in (es : list io_event) : gset Z :=
  list_to_set (omap (λ e, match e with Closed fd => Some fd | _ => None end) es).

Section ops.
Context `{SW : ServerWorld} `{PW : ParserWorld} `{HW : HandlerWorld} `{HC : HandlerConfig}.
Abbreviation inner := (StreamParser.t * ClientHandler.t)%type.
Abbreviation SM := (M (t * inner)).

Definition get_server {A} (f : t → A) : SM A := gets (λ s, f s.1).
Definition on_server (f : t → t) : SM unit := modify (λ s, (f s.1, s.2)).

Definition ask {A} (f : nat → A) : SM A :=
  n ← get_server calls;
  on_server count_call;;
  mret (f n).

(** What the parser and the handler closed since. *)
Definition closed_since (x x' : inner) : gset Z :=
  closed_in (drop (length (StreamParser.io x.1)) (StreamParser.io x'.1)) ∪
  closed_in (drop (length (ClientHandler.io x.2)) (ClientHandler.io x'.2)).

(** A call of the parser or the handler: what it closes leaves the table. *)
Definition call (m : M inner unit) : SM unit := λ s,
  let '(r, x) := m s.2 in (r, (set_descriptors (descriptors s.1 ∖ closed_since s.2 x) s.1, x)).

Definition close (fd : Z) : SM unit := on_server (λ s, set_descriptors (descriptors s ∖ {[fd]}) s).

Definition BUF_SIZE : nat := Z.to_nat 1500.

(** A closed descriptor answers [EBADF]. *)
Definition read (fd : Z) : SM received :=
  open ← get_server descriptors;
  if bool_decide (fd ∈ open) then
    r ← ask (λ n, sv_read n fd);
    mret (match r with RecvPacket bs => RecvPacket (take BUF_SIZE bs) | r => r end)
  else mret RecvError.

Definition failing (rc : Z) (text : string) : SM unit := when (rc =? -1) (throw (runtime_error text)).

Definition accept : SM unit :=
  conn_fd ← ask sv_accept;
  failing conn_fd "Failed to accept connection";;
  on_server (λ s, set_descriptors ({[conn_fd]} ∪ descriptors s) s);;
  call (StreamParser.new_socket conn_fd);;
  rc ← ask sv_getfl; failing rc "Failed to get socket flags";;
  rc ← ask sv_setfl; failing rc "Failed to set socket non-blocking flag";;
  rc ← ask sv_keepalive; failing rc "Failed to set socket keepalive";;
  rc ← ask sv_epoll_ctl; failing rc "Failed to add connection to epoll".

(** [while (true)]: read until there is nothing more. *)
Fixpoint read_loop (fuel : nat) (fd : Z) : SM unit :=
  match fuel with
  | O => throw out_of_fuel
  | S fuel =>
      r ← read fd;
      match r with
      | RecvWouldBlock => mret tt
      | RecvError => call (StreamParser.socket_closed fd);; close fd
      | RecvPacket [] => close fd;; call (StreamParser.socket_closed fd)
      | RecvPacket buf => call (StreamParser.parse fd buf);; read_loop fuel fd
      end
  end.

(** The body of the [for]: [false] is its [break]. *)
Definition handle_event (e : epoll_event) : SM bool :=
  listen ← get_server listen_fd;
  if ev_fd e =? listen then accept;; mret true
  else if negb (Z.land (ev_events e) EPOLLRDHUP =? 0) || negb (Z.land (ev_events e) EPOLLHUP =? 0) then
    close (ev_fd e);; call (StreamParser.socket_closed (ev_fd e));; mret false
  else read_loop sv_fuel (ev_fd e);; mret true.

Fixpoint handle_events (es : list epoll_event) : SM unit :=
  match es with
  | [] => mret tt
  | e :: es => more ← handle_event e; when more (handle_events es)
  end.

(** One round of [run]. *)
Definition round : SM unit :=
  events ← ask sv_wait;
  match events with
  | None => throw (runtime_error "Failed to wait on epoll")
  | Some es => handle_events (take 32 es);; call (zoom snd (λ h x, (x.1, h)) ClientHandler.process)
  end.

Definition run (rounds : nat) : SM unit := for_each (replicate rounds tt) (λ _, round).
End ops.

#[global] Arguments BUF_SIZE : simpl never.
End EpollServer.
