(* ===== verification/ServerTheorems.v ===== *)
(** * The properties of the server

    Whatever connections come and go, no session outlives its connection, and a
    connection's bytes reach the handler as the requests they encode. *)
From Stdlib Require Import Init.Byte Strings.String.
From S2P Require Import Prelude Protocol SnapshotClient Validator ClientHandler HandlerInv HandlerTheorems StreamParser StreamTheorems Server.

Lemma closed_pair fd fd' : Closed fd' ∈ [Shutdown fd; Closed fd] → fd' = fd.
Proof. intros Hin. apply elem_of_cons in Hin as [|Hin]; [discriminate|]. by apply list_elem_of_singleton in Hin as [= ->]. Qed.

(** ** Which sessions appear and which descriptors are closed *)

Section tidy.
Context `{HW : HandlerWorld} `{HC : HandlerConfig} (P : Z → Prop).
Import ClientHandler.

(** Only the sockets [P] may get a session, and any other that is closed has
    none. *)
Definition tidy (h h' : t) : Prop :=
  ∃ es, io h' = io h ++ es ∧
    (∀ fd, is_Some (sock_to_session_info h' !! fd) → is_Some (sock_to_session_info h !! fd) ∨ P fd) ∧
    (∀ fd, Closed fd ∈ es → P fd ∨ sock_to_session_info h' !! fd = None).

#[local] Instance tidy_preorder : PreOrder tidy.
Proof.
  split.
  - intros h. exists []. rewrite app_nil_r. split; [done|]. split; [by left|]. by intros fd ?%elem_of_nil.
  - intros h1 h2 h3 (es1 & A1 & A2 & A3) (es2 & B1 & B2 & B3). exists (es1 ++ es2).
    split; [by rewrite B1, A1, app_assoc|]. split.
    + intros fd [Hs|Hp]%B2; [by apply A2|by right].
    + intros fd [Hin|Hin]%elem_of_app; [|by apply B3]. destruct (A3 fd Hin) as [Hp|Hn]; [by left|].
      destruct (sock_to_session_info h3 !! fd) as [x|] eqn:E; [|by right].
      destruct (B2 fd) as [[y Hy]|Hp]; [by eexists| |by left]. congruence.
Qed.

Abbreviation tidies m := (keeps (λ _, True) (λ _, True) tidy m).

Lemma tidy_same h h' : io h' = io h → sock_to_session_info h' = sock_to_session_info h → tidy h h'.
Proof. intros H1 H2. exists []. rewrite app_nil_r, H1, H2. split; [done|]. split; [by left|]. by intros fd ?%elem_of_nil. Qed.

Lemma tidies_same f : (∀ h, io (f h) = io h ∧ sock_to_session_info (f h) = sock_to_session_info h) → tidies (modify f).
Proof. intros Hf. apply keeps_modify. intros h _. split; [done|]. by apply tidy_same; apply Hf. Qed.

Lemma tidies_alter g fd : tidies (modify (on_sessions (alter g fd))).
Proof.
  apply keeps_modify. intros h _. split; [done|]. exists []. simpl. rewrite app_nil_r. split; [done|].
  split; [|by intros ? ?%elem_of_nil]. intros fd'. rewrite lookup_alter. case_decide; [|by left].
  intros Hs%fmap_is_Some. left. by subst.
Qed.

Lemma tidies_wrote fd bs : tidies (modify (add_io [Wrote fd bs])).
Proof.
  apply keeps_modify. intros h _. split; [done|]. exists [Wrote fd bs]. split; [done|]. split; [by left|].
  intros fd' Hin. apply list_elem_of_singleton in Hin. discriminate.
Qed.

Lemma tidies_close fd : P fd → tidies (shutdown_close fd).
Proof.
  intros Hp. apply keeps_modify. intros h _. split; [done|]. exists [Shutdown fd; Closed fd]. split; [done|]. split; [by left|].
  intros fd' ->%closed_pair. by left.
Qed.

Ltac tidy_step :=
  lazymatch goal with
  | |- keeps _ _ _ (mbind _ _) => apply keeps_bind; [apply _| |intros ?]
  | |- keeps _ _ _ (mret _) => apply keeps_ret, _
  | |- keeps _ _ _ (gets _) => apply keeps_gets, _
  | |- keeps _ _ _ (when _ _) => apply keeps_when; [apply _|]
  | |- keeps _ _ _ (ask _) => unfold ask
  | |- keeps _ _ _ nanotime => unfold nanotime
  | |- keeps _ _ _ (emplace _) => unfold emplace
  | |- keeps _ _ _ (modify (add_io [Wrote _ _])) => apply tidies_wrote
  | |- keeps _ _ _ (modify (on_sessions (alter _ _))) => apply tidies_alter
  | |- keeps _ _ _ (modify _) => apply tidies_same; by intros []
  | |- keeps _ _ _ (throw _) => apply keeps_throw; [done]
  | |- keeps _ _ _ (for_each _ _) => apply keeps_for_each; [apply _|intros [] _]
  | |- keeps _ _ _ (match ?x with _ => _ end) => destruct x
  | |- keeps _ _ _ (if ?b then _ else _) => destruct b
  end.
Ltac tidying := repeat tidy_step.

Lemma tidies_send fd b : tidies (send fd b).
Proof. unfold send, record_io. tidying. Qed.

Lemma tidies_write fd b : tidies (write fd b).
Proof. unfold write, record_io. tidying. Qed.

Lemma tidies_send_loop fuel fd bs start n : tidies (send_loop fuel fd bs start n).
Proof.
  revert n. induction fuel as [|fuel IH]; intros n; cbn [send_loop]; [tidying|].
  tidying; auto using tidies_send, tidies_write.
Qed.

Lemma tidies_write_msg {Msg} (c : codec Msg) mk ty fd : tidies (write_msg c mk ty fd).
Proof. unfold write_msg. tidying. apply tidies_send_loop. Qed.

Lemma tidies_cancel_all c : tidies (cancel_all_client_orders c).
Proof. unfold cancel_all_client_orders. tidying. Qed.

Lemma tidies_on_socket_closed fd : tidies (on_socket_closed fd).
Proof.
  unfold on_socket_closed. tidying; [apply tidies_cancel_all|].
  apply keeps_modify. intros h _. split; [done|]. exists []. simpl. rewrite app_nil_r. split; [done|].
  split; [|by intros ? ?%elem_of_nil]. intros fd'. rewrite lookup_delete. case_decide; [by intros []|by left].
Qed.

(** A socket that is closed has lost its session. *)
Lemma on_socket_closed_gone fd s : wp (λ _, True) (on_socket_closed fd) (λ _ s', sock_to_session_info s' !! fd = None) s.
Proof.
  unfold on_socket_closed. apply wp_gets. destruct (_ !! fd) as [x|] eqn:E; [|exact E].
  apply wp_bind. eapply wp_mono; [apply cancel_all_sessions|]. intros [] s1 Hs1. simpl. apply wp_modify.
  simpl. apply lookup_delete_eq.
Qed.

Lemma tidies_drop fd : tidies (on_socket_closed fd;; shutdown_close fd).
Proof.
  intros s Hs. apply wp_bind. pose proof (tidies_on_socket_closed fd s Hs) as Ht. pose proof (on_socket_closed_gone fd s) as Hg.
  unfold wp in *. destruct (on_socket_closed fd s) as [[[]|e] s1]; [|done]. destruct Ht as [_ Ht]. split; [done|].
  etrans; [exact Ht|]. exists [Shutdown fd; Closed fd]. split; [done|]. split; [by left|].
  intros fd' ->%closed_pair. by right.
Qed.

Ltac tidy_more :=
  repeat lazymatch goal with
  | |- keeps _ _ _ (mbind _ (on_socket_closed _)) => apply tidies_drop
  | |- keeps _ _ _ (write_msg _ _ _ _) => apply tidies_write_msg
  | |- keeps _ _ _ (write _ _) => apply tidies_write
  | |- keeps _ _ _ (shutdown_close _) => apply tidies_close; [done]
  | _ => tidy_step
  end.

Lemma tidies_write_msg_to_client {Msg} (c : codec Msg) mk ty client seq : tidies (write_msg_to_client c mk ty client seq).
Proof. unfold write_msg_to_client, get_sock_fd, update_last_seq_num. tidy_more. Qed.

Lemma tidies_refuse_login fd msg status : P fd → tidies (refuse_login fd msg status).
Proof. intros Hp. unfold refuse_login. tidy_more. Qed.

Lemma tidies_on_login fd msg : P fd → tidies (on_login fd msg).
Proof.
  intros Hp. unfold on_login, duplicate_login. tidy_more; try by apply tidies_refuse_login.
  apply keeps_modify. intros h _. split; [done|]. exists []. simpl. rewrite app_nil_r. split; [done|].
  split; [|by intros ? ?%elem_of_nil]. intros fd'. rewrite lookup_insert. case_decide; [subst; by right|by left].
Qed.

Lemma tidies_requests fd :
  (∀ m, tidies (on_new_order fd m)) ∧ (∀ m, tidies (on_delete_order fd m)) ∧ (∀ m, tidies (on_modify_order fd m)).
Proof.
  split_and!; intros m; unfold on_new_order, on_delete_order, on_modify_order, send_order_reject, validate_session; tidy_more;
    intros s _; unfold wp, validate; destruct (validate_new_order _ _ _ _ _ _ _) as [r|e]; (done || (split; [done|by apply tidy_same])).
Qed.

Lemma tidies_handle_response p : tidies (handle_response p).
Proof.
  unfold handle_response, get_sock_fd, erase_order. tidy_more; apply tidies_write_msg_to_client.
Qed.

Lemma tidies_process : tidies process.
Proof.
  unfold process. tidy_more. match goal with |- context [process_responses ?q] => induction q as [|p q IH] end; simpl; tidy_more;
    [apply tidies_handle_response|exact IH].
Qed.
End tidy.

(** ** Calls of the parser *)

Section parser.
Context `{PW : ParserWorld} `{HW : HandlerWorld} `{HC : HandlerConfig} (P : Z → Prop).
Import StreamParser.
Abbreviation inner := (StreamParser.t * ClientHandler.t)%type.

Definition neat (x x' : inner) : Prop :=
  (∃ es, io x'.1 = io x.1 ++ es ∧ ∀ fd, Closed fd ∈ es → P fd) ∧ tidy P x.2 x'.2.

#[local] Instance neat_preorder : PreOrder neat.
Proof.
  pose proof (tidy_preorder P) as Hpre. split.
  - intros x. split; [|reflexivity]. exists []. rewrite app_nil_r. split; [done|]. by intros fd ?%elem_of_nil.
  - intros x1 x2 x3 [(es1 & A1 & A2) A3] [(es2 & B1 & B2) B3]. split; [|by etrans].
    exists (es1 ++ es2). split; [by rewrite B1, A1, app_assoc|]. intros fd [Hin|Hin]%elem_of_app; auto.
Qed.

Abbreviation neatly m := (keeps (λ _, True) (λ _, True) neat m).

Lemma neatly_modp f : (∀ p, io (f p) = io p) → neatly (modp f).
Proof.
  pose proof (tidy_preorder P) as Hpre. intros Hf. apply keeps_modify. intros x _. split; [done|]. split; [|reflexivity].
  exists []. simpl. rewrite app_nil_r. split; [apply Hf|]. by intros fd ?%elem_of_nil.
Qed.

Lemma neatly_io es : (∀ fd, Closed fd ∈ es → P fd) → neatly (modp (add_io es)).
Proof.
  pose proof (tidy_preorder P) as Hpre. intros Hes. apply keeps_modify. intros x _. split; [done|]. split; [|reflexivity]. by exists es.
Qed.

Lemma neatly_callh {A} (m : M ClientHandler.t A) : keeps (λ _, True) (λ _, True) (tidy P) m → neatly (zoom snd (λ h x, (x.1, h)) m).
Proof.
  intros Hm x _. pose proof (Hm x.2 I) as H. unfold wp, zoom in *. destruct (m x.2) as [[a|e] h]; [|done].
  destruct H as [_ H]. split; [done|]. split; [|exact H]. exists []. rewrite app_nil_r. split; [done|]. by intros fd ?%elem_of_nil.
Qed.

Ltac neat_step :=
  lazymatch goal with
  | |- keeps _ _ _ (mbind _ _) => apply keeps_bind; [apply neat_preorder| |intros ?]
  | |- keeps _ _ _ (mret _) => apply keeps_ret, neat_preorder
  | |- keeps _ _ _ (getp _) => apply keeps_gets, neat_preorder
  | |- keeps _ _ _ (throw _) => apply keeps_throw; [done]
  | |- keeps _ _ _ (modp (add_io _)) => apply neatly_io
  | |- keeps _ _ _ (modp _) => apply neatly_modp; by intros []
  | |- keeps _ _ _ (callh _) => apply neatly_callh
  | |- keeps _ _ _ (match ?x with _ => _ end) => destruct x
  | |- keeps _ _ _ (if ?b then _ else _) => destruct b
  end.

Lemma neatly_send_error_msg fd seq c r text : P fd → neatly (send_error_msg fd seq c r text).
Proof.
  intros Hp. unfold send_error_msg. repeat neat_step.
  - intros fd' Hin. by apply list_elem_of_singleton in Hin.
  - by intros fd' ->%closed_pair.
Qed.

Lemma neatly_dispatch fd ty b : P fd → neatly (dispatch fd ty b).
Proof.
  intros Hp. destruct (tidies_requests P fd) as (H1 & H2 & H3).
  unfold dispatch, read. repeat neat_step; [apply H1|apply H2|apply H3|by apply tidies_on_login].
Qed.

Lemma neatly_parse_loop fuel fd now : P fd → neatly (parse_loop fuel fd now).
Proof.
  intros Hp. induction fuel as [|fuel IH]; cbn [parse_loop]; repeat neat_step;
    first [by apply neatly_send_error_msg|by apply neatly_dispatch|exact IH].
Qed.

Lemma neatly_parse fd buf : P fd → neatly (parse fd buf).
Proof.
  intros Hp. unfold parse, nanotime. repeat neat_step; [by apply neatly_send_error_msg|by apply neatly_parse_loop].
Qed.

Lemma neatly_socket_closed fd : neatly (socket_closed fd).
Proof. unfold socket_closed. repeat neat_step. apply tidies_on_socket_closed. Qed.

Lemma neatly_new_socket fd : neatly (new_socket fd).
Proof. unfold new_socket. repeat neat_step. Qed.

Lemma socket_closed_gone fd x :
  wp (λ _, True) (socket_closed fd) (λ _ x', ClientHandler.sock_to_session_info x'.2 !! fd = None) x.
Proof.
  unfold socket_closed. apply wp_modify. unfold callh, zoom, wp. simpl.
  pose proof (on_socket_closed_gone fd x.2) as Hg. unfold wp in Hg. destruct (ClientHandler.on_socket_closed fd x.2) as [[[]|e] h]; done.
Qed.
End parser.

(** ** Runs of the server *)

Section server.
Context `{SW : ServerWorld} `{PW : ParserWorld} `{HW : HandlerWorld} `{HC : HandlerConfig}.
Import EpollServer.
Abbreviation St := (EpollServer.t * (StreamParser.t * ClientHandler.t))%type.

Definition sessions (s : St) : gmap Z session_info := ClientHandler.sock_to_session_info s.2.2.

(** Every session is on an open descriptor, but for those of [P]. *)
Definition owned_but (P : Z → Prop) (s : St) : Prop := ∀ fd, is_Some (sessions s !! fd) → P fd ∨ fd ∈ descriptors s.1.
Definition owned (s : St) : Prop := ∀ fd, is_Some (sessions s !! fd) → fd ∈ descriptors s.1.

Lemma owned_weaken P s : owned s → owned_but P s.
Proof. intros H fd Hs. right. by apply H. Qed.

Lemma elem_of_closed_in fd es : fd ∈ closed_in es ↔ Closed fd ∈ es.
Proof.
  unfold closed_in. rewrite elem_of_list_to_set, list_elem_of_omap. split.
  - by intros (e & He & Hfd); destruct e; simplify_eq.
  - intros H. by exists (Closed fd).
Qed.

Abbreviation total m Q := (∀ s, wp (λ _ : St, True) m Q s).

Lemma wp_call P (m : M (StreamParser.t * ClientHandler.t) unit) s :
  keeps (λ _, True) (λ _, True) (neat P) m → owned_but P s → wp (λ _, True) (call m) (λ _ s', owned_but P s') s.
Proof.
  intros Hm Ho. pose proof (Hm s.2 I) as H. unfold wp, call in *. destruct (m s.2) as [[[]|e] x]; [|done].
  destruct H as [_ [(es & E1 & E2) (es' & F1 & F2 & F3)]]. intros fd Hs. unfold sessions in Hs. simpl in Hs.
  destruct (F2 fd Hs) as [Hold|Hp]; [|by left]. destruct (Ho fd Hold) as [Hp|Hin]; [by left|].
  simpl. unfold closed_since. rewrite E1, F1, !drop_app_length.
  destruct (decide (fd ∈ closed_in es ∪ closed_in es')) as [Hc|Hc]; [|right; set_solver].
  rewrite elem_of_union, !elem_of_closed_in in Hc. destruct Hc as [Hc|Hc]; [left; by apply E2|].
  destruct (F3 fd Hc) as [Hp|Hn]; [by left|]. rewrite Hn in Hs. by destruct Hs.
Qed.

(** A connection that is gone. *)
Lemma wp_call_closed fd s : owned_but (λ x, x = fd) s →
  wp (λ _, True) (call (StreamParser.socket_closed fd)) (λ _ s', owned_but (λ x, x = fd) s' ∧ sessions s' !! fd = None) s.
Proof.
  intros Ho. pose proof (wp_call (λ x, x = fd) _ s (neatly_socket_closed (λ x, x = fd) fd) Ho) as H1.
  pose proof (socket_closed_gone fd s.2) as H2. unfold wp, call, sessions in *.
  destruct (StreamParser.socket_closed fd s.2) as [[[]|e] x]; [|done]. done.
Qed.

Lemma owned_gone fd s : owned_but (λ x, x = fd) s → sessions s !! fd = None → owned s.
Proof. intros Ho Hn fd' Hs. destruct (Ho fd' Hs) as [-> |]; [|done]. rewrite Hn in Hs. by destruct Hs. Qed.

Lemma wp_close fd Q s : Q tt (set_descriptors (descriptors s.1 ∖ {[fd]}) s.1, s.2) → wp (λ _ : St, True) (close fd) Q s.
Proof. done. Qed.

Lemma owned_but_close fd s : owned_but (λ x, x = fd) s →
  owned_but (λ x, x = fd) (set_descriptors (descriptors s.1 ∖ {[fd]}) s.1, s.2).
Proof. intros Ho fd' Hs. destruct (Ho fd' Hs) as [-> |Hin]; [by left|]. destruct (decide (fd' = fd)); [by left|right; simpl; set_solver]. Qed.

Lemma wp_closed_then_close fd s : owned_but (λ x, x = fd) s →
  wp (λ _, True) (call (StreamParser.socket_closed fd);; close fd) (λ _ s', owned s') s.
Proof.
  intros Ho. apply wp_bind. eapply wp_mono; [by apply wp_call_closed|]. intros [] s1 [H1 H2]. apply wp_close.
  apply (owned_gone fd); [by apply owned_but_close|done].
Qed.

Lemma wp_close_then_closed fd s : owned_but (λ x, x = fd) s →
  wp (λ _, True) (close fd;; call (StreamParser.socket_closed fd)) (λ _ s', owned s') s.
Proof.
  intros Ho. apply wp_bind, wp_close. eapply wp_mono; [apply wp_call_closed; by apply owned_but_close|].
  intros [] s1 [H1 H2]. by apply (owned_gone fd).
Qed.

(** A read from a descriptor that is not open fails. *)
Lemma wp_read fd s (Q : received → St → Prop) :
  Q RecvError s → (∀ r s', fd ∈ descriptors s.1 → descriptors s'.1 = descriptors s.1 → s'.2 = s.2 → Q r s') →
  wp (λ _, True) (read fd) Q s.
Proof.
  intros H1 H2. unfold read. apply wp_bind. simpl. change (wp ?E (get_server ?f) ?Q s) with (Q (f s.1) s). cbn beta.
  destruct (bool_decide _) eqn:Hd; [|exact H1]. apply bool_decide_eq_true in Hd. by apply H2.
Qed.

Lemma wp_read_loop fuel fd : ∀ s, owned_but (λ x, x = fd) s → wp (λ _, True) (read_loop fuel fd) (λ _ s', owned s') s.
Proof.
  induction fuel as [|fuel IH]; intros s Ho; [done|]. cbn [read_loop]. apply wp_bind. apply wp_read.
  { by apply wp_closed_then_close. }
  intros r s' Hin Hd Hx. assert (owned_but (λ x, x = fd) s') as Ho'.
  { intros fd' Hs. rewrite Hd. apply Ho. unfold sessions in *. by rewrite <- Hx. }
  destruct r as [| |[|b buf]].
  - intros fd' Hs. rewrite Hd. destruct (Ho' fd' Hs) as [-> |H]; [done|by rewrite Hd in H].
  - by apply wp_closed_then_close.
  - by apply wp_close_then_closed.
  - apply wp_bind. eapply wp_mono; [apply (wp_call (λ x, x = fd)); [by apply (neatly_parse (λ x, x = fd))|exact Ho']|]. intros [] s1 H1. by apply IH.
Qed.

Lemma wp_failing rc text s (Q : unit → St → Prop) : Q tt s → wp (λ _, True) (failing rc text) Q s.
Proof. intros H. unfold failing, when. by destruct (rc =? -1). Qed.

Lemma wp_ask {A} (f : nat → A) s (Q : A → St → Prop) : Q (f (calls s.1)) (count_call s.1, s.2) → wp (λ _, True) (ask f) Q s.
Proof. done. Qed.

Lemma wp_accept s : owned s → wp (λ _, True) accept (λ _ s', owned s') s.
Proof.
  intros Ho. unfold accept. apply wp_bind, wp_ask. set (fd := sv_accept _). apply wp_bind, wp_failing. apply wp_modify. apply wp_bind.
  eapply wp_mono; [apply (wp_call (λ _, False)); [apply neatly_new_socket|]|].
  { intros fd' Hs. right. simpl. apply elem_of_union_r. apply (Ho fd' Hs). }
  intros [] s1 H1. assert (owned s1) as H1' by (intros fd' Hs; by destruct (H1 fd' Hs)).
  do 3 (apply wp_bind, wp_ask; apply wp_bind, wp_failing). apply wp_bind, wp_ask. by apply wp_failing.
Qed.

Lemma wp_handle_event e s : owned s → wp (λ _, True) (handle_event e) (λ _ s', owned s') s.
Proof.
  intros Ho. unfold handle_event. apply wp_bind. simpl. change (wp ?E (get_server ?f) ?Q s) with (Q (f s.1) s). cbn beta.
  destruct (_ =? _); [apply wp_bind; eapply wp_mono; [by apply wp_accept|done]|].
  destruct (_ || _).
  - apply wp_bind, wp_close, wp_bind. eapply wp_mono; [apply wp_call_closed; by apply owned_but_close, owned_weaken|].
    intros [] s1 [H1 H2]. by apply (owned_gone (ev_fd e)).
  - apply wp_bind. eapply wp_mono; [apply wp_read_loop; by apply owned_weaken|done].
Qed.

Lemma wp_handle_events es : ∀ s, owned s → wp (λ _, True) (handle_events es) (λ _ s', owned s') s.
Proof.
  induction es as [|e es IH]; intros s Ho; [done|]. simpl. apply wp_bind. eapply wp_mono; [by apply wp_handle_event|].
  intros [] s1 H1; [by apply IH|done].
Qed.

Lemma wp_round s : owned s → wp (λ _, True) round (λ _ s', owned s') s.
Proof.
  intros Ho. unfold round. apply wp_bind, wp_ask. destruct (sv_wait _) as [es|]; [|done]. apply wp_bind.
  eapply wp_mono; [by apply wp_handle_events|]. intros [] s1 H1.
  eapply wp_mono; [apply (wp_call (λ _, False)); [apply neatly_callh, tidies_process|by apply owned_weaken]|].
  intros [] s2 H2 fd Hs. by destruct (H2 fd Hs).
Qed.

(** Responses of the matching engine arrive between the rounds. *)
Definition arrive (q : list oe.oe_payload) : M St unit :=
  modify (λ s, (s.1, (s.2.1, ClientHandler.set_from_engine (ClientHandler.from_matching_engine s.2.2 ++ q) s.2.2))).

Lemma wp_rounds qs : ∀ s, owned s → wp (λ _, True) (for_each qs (λ q, arrive q;; round)) (λ _ s', owned s') s.
Proof.
  induction qs as [|q qs IH]; intros s Ho; [done|]. simpl. apply wp_bind. apply wp_modify.
  eapply wp_mono; [by apply wp_round|]. intros [] s1. by apply IH.
Qed.
(** *** A connection's bytes *)

Lemma neat_run {A} (m : M (StreamParser.t * ClientHandler.t) A) x a x' :
  keeps (λ _, True) (λ _, True) (neat (λ _, True)) m → m x = (Ret a, x') → neat (λ _, True) x x'.
Proof. intros Hm Hrun. pose proof (Hm x I) as H. unfold wp in H. rewrite Hrun in H. apply H. Qed.

Lemma neatly_parses fd chunks :
  keeps (λ _, True) (λ _, True) (neat (λ _, True)) (for_each chunks (StreamParser.parse fd)).
Proof. apply keeps_for_each; [apply neat_preorder|]. intros c _. by apply neatly_parse. Qed.

Lemma closed_since_trans x1 x2 x3 : neat (λ _, True) x1 x2 → neat (λ _, True) x2 x3 →
  closed_since x1 x3 = closed_since x1 x2 ∪ closed_since x2 x3.
Proof.
  intros [(es1 & A1 & _) (fs1 & B1 & _)] [(es2 & A2 & _) (fs2 & B2 & _)]. unfold closed_since.
  rewrite A2, B2, !drop_app_length, A1, B1, <- !app_assoc, !drop_app_length.
  apply set_eq. intros fd. rewrite !elem_of_union, !elem_of_closed_in, !elem_of_app. tauto.
Qed.

Lemma run_server_read fd bs (s : St) : fd ∈ descriptors s.1 → sv_read (calls s.1) fd = RecvPacket bs → (length bs ≤ BUF_SIZE)%nat →
  read fd s = (Ret (RecvPacket bs), (count_call s.1, s.2)).
Proof.
  intros Hin Hr Hl. unfold read. erewrite bind_ret by reflexivity. cbn beta. rewrite bool_decide_true by done.
  erewrite bind_ret by reflexivity. cbn beta. rewrite Hr. by rewrite firstn_all2.
Qed.

Lemma run_read_nothing fd (s : St) : fd ∈ descriptors s.1 → sv_read (calls s.1) fd = RecvWouldBlock →
  read fd s = (Ret RecvWouldBlock, (count_call s.1, s.2)).
Proof.
  intros Hin Hr. unfold read. erewrite bind_ret by reflexivity. cbn beta. rewrite bool_decide_true by done.
  erewrite bind_ret by reflexivity. cbn beta. by rewrite Hr.
Qed.

(** The reads of one event answer these pieces and then nothing more. *)
Record reads_pieces (fd : Z) (chunks : list (list byte)) (n : nat) : Prop := {
  rp_pieces k c : chunks !! k = Some c → sv_read (n + k) fd = RecvPacket c;
  rp_end : sv_read (n + length chunks) fd = RecvWouldBlock;
  rp_sizes : Forall (λ c, c ≠ [] ∧ (length c ≤ BUF_SIZE)%nat) chunks;
}.

Lemma reads_pieces_tail fd c chunks n : reads_pieces fd (c :: chunks) n → reads_pieces fd chunks (S n).
Proof.
  intros [H1 H2 H3]. split.
  - intros k c' Hk. rewrite Nat.add_succ_comm. by apply (H1 (S k)).
  - rewrite Nat.add_succ_comm. exact H2.
  - by inversion_clear H3.
Qed.

Lemma run_read_loop fd chunks : ∀ fuel s x', fd ∈ descriptors s.1 → reads_pieces fd chunks (calls s.1) →
  (length chunks < fuel)%nat → for_each chunks (StreamParser.parse fd) s.2 = (Ret tt, x') → fd ∉ closed_since s.2 x' →
  ∃ s', read_loop fuel fd s = (Ret tt, s') ∧ s'.2 = x' ∧ descriptors s'.1 = descriptors s.1 ∖ closed_since s.2 x' ∧
    listen_fd s'.1 = listen_fd s.1 ∧ calls s'.1 = (calls s.1 + S (length chunks))%nat.
Proof.
  induction chunks as [|c chunks IH]; intros [|fuel] s x' Hin Hr Hf Hp Hc; simpl in Hf; try lia; cbn [read_loop].
  { injection Hp as <-. pose proof (rp_end _ _ _ Hr) as He. rewrite Nat.add_0_r in He. simpl in He.
    erewrite bind_ret by (by apply run_read_nothing). eexists. split; [done|]. split; [done|]. simpl.
    split; [|split; [done|lia]]. unfold closed_since. rewrite !drop_all. set_solver. }
  pose proof (rp_sizes _ _ _ Hr) as Hs. inversion_clear Hs as [|? ? [Hne Hl] _].
  pose proof (rp_pieces _ _ _ Hr 0%nat c eq_refl) as H0. rewrite Nat.add_0_r in H0.
  erewrite bind_ret by (by apply run_server_read). cbn beta. destruct c as [|b c]; [done|].
  cbn [for_each] in Hp. apply bind_inv in Hp as ([] & x1 & Hp1 & Hp2).
  assert (neat (λ _, True) s.2 x1) as N1 by (by eapply neat_run; [apply neatly_parse|]).
  assert (neat (λ _, True) x1 x') as N2 by (by eapply neat_run; [apply neatly_parses|]).
  rewrite (closed_since_trans _ _ _ N1 N2) in Hc. apply not_elem_of_union in Hc as [Hc1 Hc2].
  set (s1 := (set_descriptors (descriptors s.1 ∖ closed_since s.2 x1) (count_call s.1), x1) : St).
  destruct (IH fuel s1 x') as (s' & Hrun & E & Hd & Hli & Hca); [simpl; set_solver|by eapply reads_pieces_tail|lia|exact Hp2|exact Hc2|].
  exists s'. split; [erewrite bind_ret; [exact Hrun|]; unfold call; simpl; by rewrite Hp1|]. split; [done|].
  split; [|split; [done|simpl in Hca |- *; lia]]. rewrite Hd, (closed_since_trans _ _ _ N1 N2). simpl. set_solver.
Qed.

(** *** A batch of events *)

(** What a batch brings on one connection: its event, the pieces its reads
    return, the requests they complete, and the part of a next one. *)
Record arrival := mk_arrival {
  ar_fd : Z;
  ar_events : Z;
  ar_chunks : list (list byte);
  ar_requests : list request;
  ar_tail : list byte;
  ar_next : list request;
}.

Definition ar_event (a : arrival) : epoll_event := mk_event (ar_fd a) (ar_events a).
Definition served (a : arrival) : M ClientHandler.t unit := for_each (ar_requests a) (deliver (ar_fd a)).

(** The connection is readable, and what its client sent before left a partial
    message. *)
Record arrives (sv : EpollServer.t) (p : StreamParser.t) (a : arrival) : Prop := {
  av_conn : ar_fd a ≠ listen_fd sv;
  av_open : ar_fd a ∈ descriptors sv;
  av_readable : Z.land (ar_events a) EPOLLRDHUP = 0 ∧ Z.land (ar_events a) EPOLLHUP = 0;
  av_fuel : (length (ar_chunks a) < sv_fuel)%nat;
  av_requests : Forall well_formed (ar_requests a);
  av_ending : ending (ar_tail a) (ar_next a);
  av_bytes : StreamParser.partial (ar_fd a) p ++ concat (ar_chunks a) = encoded (ar_requests a) ++ ar_tail a;
  av_partial : incomplete (StreamParser.partial (ar_fd a) p) (ar_requests a ++ ar_next a);
  av_rate : (length (StreamParser.stamps (ar_fd a) p) + length (ar_requests a) ≤ 1000)%nat;
}.

(** The reads of the batch, from the [n]th call of the kernel. *)
Fixpoint batch_reads (n : nat) (arrivals : list arrival) : Prop :=
  match arrivals with
  | [] => True
  | a :: arrivals => reads_pieces (ar_fd a) (ar_chunks a) n ∧ batch_reads (n + S (length (ar_chunks a))) arrivals
  end.

Lemma tidies_deliver fd r : keeps (λ _, True) (λ _, True) (tidy (λ _, True)) (deliver fd r).
Proof. destruct (tidies_requests (λ _, True) fd) as (H1 & H2 & H3). destruct r; simpl; [apply H1|apply H2|apply H3|by apply tidies_on_login]. Qed.

Lemma served_io arrivals h h' : for_each arrivals served h = (Ret tt, h') → ∃ es, ClientHandler.io h' = ClientHandler.io h ++ es.
Proof.
  intros Hrun. assert (keeps (λ _, True) (λ _, True) (tidy (λ _, True)) (for_each arrivals served)) as Hk.
  { apply keeps_for_each; [apply tidy_preorder|]. intros a _. apply keeps_for_each; [apply tidy_preorder|]. intros r _. apply tidies_deliver. }
  pose proof (Hk h I) as H. unfold wp in H. rewrite Hrun in H. destruct H as [_ (es & H & _)]. by exists es.
Qed.

(** One readable connection. *)
Lemma run_arrival a sv p h h1 : arrives sv p a → reads_pieces (ar_fd a) (ar_chunks a) (calls sv) →
  served a h = (Ret tt, h1) → Closed (ar_fd a) ∉ drop (length (ClientHandler.io h)) (ClientHandler.io h1) →
  ∃ sv' p', handle_event (ar_event a) (sv, (p, h)) = (Ret true, (sv', (p', h1))) ∧
    StreamParser.partial (ar_fd a) p' = ar_tail a ∧
    (∀ fd, fd ≠ ar_fd a → StreamParser.partial fd p' = StreamParser.partial fd p ∧ StreamParser.stamps fd p' = StreamParser.stamps fd p) ∧
    descriptors sv' = descriptors sv ∖ closed_in (drop (length (ClientHandler.io h)) (ClientHandler.io h1)) ∧
    listen_fd sv' = listen_fd sv ∧ calls sv' = (calls sv + S (length (ar_chunks a)))%nat.
Proof.
  intros [A1 A2 [A3 A4] A5 A6 A7 A8 A9 A10] Hr Hd Hc.
  destruct (run_pieces (ar_fd a) (ar_next a) (ar_tail a) (ar_chunks a) (ar_requests a) (StreamParser.partial (ar_fd a) p) p h h1) as (p' & Hrun & Hp' & Hio & Hother); try done.
  assert (closed_since (p, h) (p', h1) = closed_in (drop (length (ClientHandler.io h)) (ClientHandler.io h1))) as Hcl.
  { unfold closed_since. cbn [fst snd]. rewrite Hio, drop_all. set_solver. }
  destruct (run_read_loop (ar_fd a) (ar_chunks a) sv_fuel (sv, (p, h)) (p', h1)) as ([sv' x'] & Hloop & E & Hde & Hli & Hca); try done.
  { cbn [snd]. by rewrite Hcl, elem_of_closed_in. }
  simpl in E. subst x'. exists sv', p'. split; [|cbn [fst snd] in *; rewrite Hcl in Hde; by split_and!].
  unfold handle_event. erewrite bind_ret by reflexivity. cbn beta. cbn [ar_event ev_fd ev_events].
  rewrite (proj2 (Z.eqb_neq _ _)), A3, A4 by done. cbn [negb orb Z.eqb]. by erewrite bind_ret by exact Hloop.
Qed.

Lemma run_batch arrivals : ∀ sv p h h',
  Forall (arrives sv p) arrivals → NoDup (ar_fd <$> arrivals) → batch_reads (calls sv) arrivals →
  for_each arrivals served h = (Ret tt, h') →
  (∀ a, a ∈ arrivals → Closed (ar_fd a) ∉ drop (length (ClientHandler.io h)) (ClientHandler.io h')) →
  ∃ sv' p', handle_events (ar_event <$> arrivals) (sv, (p, h)) = (Ret tt, (sv', (p', h'))) ∧
    (∀ a, a ∈ arrivals → StreamParser.partial (ar_fd a) p' = ar_tail a) ∧
    ∀ fd, fd ∉ ar_fd <$> arrivals → StreamParser.partial fd p' = StreamParser.partial fd p.
Proof.
  induction arrivals as [|a arrivals IH]; intros sv p h h' Ha Hnd Hr Hd Hc.
  { injection Hd as <-. exists sv, p. split; [done|]. split; [by intros a ?%elem_of_nil|done]. }
  apply Forall_cons in Ha as [Ha1 Ha]. rewrite fmap_cons in *. apply NoDup_cons in Hnd as [Hnd1 Hnd]. destruct Hr as [Hr1 Hr].
  cbn [for_each] in Hd. apply bind_inv in Hd as ([] & h1 & Hd1 & Hd2).
  assert (∃ es, ClientHandler.io h1 = ClientHandler.io h ++ es) as [es1 E1].
  { apply (served_io [a] h). simpl. by erewrite bind_ret by exact Hd1. }
  destruct (served_io arrivals h1 h' Hd2) as [es2 E2].
  assert (∀ b, b ∈ a :: arrivals → Closed (ar_fd b) ∉ es1 ++ es2) as Hc'.
  { intros b Hb. specialize (Hc b Hb). by rewrite E2, E1, <- app_assoc, drop_app_length in Hc. }
  destruct (run_arrival a sv p h h1 Ha1 Hr1 Hd1) as (sv1 & p1 & Hrun1 & Hp1 & Ho1 & Hde1 & Hli1 & Hca1).
  { rewrite E1, drop_app_length. pose proof (Hc' a ltac:(left)) as H. by apply not_elem_of_app in H as [? _]. }
  rewrite E1, drop_app_length in Hde1.
  assert (∀ b, b ∈ arrivals → ar_fd b ≠ ar_fd a) as Hne.
  { intros b Hb E. apply Hnd1. rewrite <- E. by apply list_elem_of_fmap_2. }
  destruct (IH sv1 p1 h1 h') as (sv' & p' & Hrun & Hp' & Ho'); [|done|by rewrite Hca1|done| |].
  { apply Forall_forall. intros b Hb. rewrite Forall_forall in Ha. destruct (Ha b Hb) as [B1 B2 B3 B4 B5 B6 B7 B8 B9].
    destruct (Ho1 (ar_fd b) (Hne b Hb)) as [Hpa Hst]. constructor; rewrite ?Hpa, ?Hst, ?Hli1; try done.
    rewrite Hde1. apply elem_of_difference. split; [done|]. rewrite elem_of_closed_in.
    pose proof (Hc' b ltac:(by right)) as H. by apply not_elem_of_app in H as [? _]. }
  { intros b Hb. rewrite E2, drop_app_length. pose proof (Hc' b ltac:(by right)) as H. by apply not_elem_of_app in H as [_ ?]. }
  exists sv', p'. split; [|split].
  - cbn [handle_events]. by erewrite bind_ret by exact Hrun1.
  - intros b [->|Hb]%elem_of_cons; [by rewrite Ho'|by apply Hp'].
  - intros fd [Hfd1 Hfd]%not_elem_of_cons. rewrite Ho' by done. by apply Ho1.
Qed.
End server.

(** ** Properties *)

(** C21 ([server_sessions_open]): in any run of the server, whatever the clients, the
    kernel and the engine do, a descriptor that is not an open connection has no
    session: a new connection never inherits the session of an old one, though
    refused logins and protocol errors close the connection behind the server's
    back. *)
Theorem server_sessions_open (SW : ServerWorld) (PW : ParserWorld) (HW : HandlerWorld) (HC : HandlerConfig) listen qs s :
  for_each qs (λ q, arrive q;; EpollServer.round) (EpollServer.initial listen, (StreamParser.initial, ClientHandler.initial)) = (Ret tt, s) →
  ∀ fd, fd ∉ EpollServer.descriptors s.1 → ClientHandler.sock_to_session_info s.2.2 !! fd = None.
Proof.
  intros Hrun fd Hfd. assert (owned s) as Ho.
  { pose proof (wp_rounds qs (EpollServer.initial listen, (StreamParser.initial, ClientHandler.initial))) as H.
    unfold wp in H. rewrite Hrun in H. apply H. intros fd' [x Hx]. discriminate. }
  destruct (ClientHandler.sock_to_session_info s.2.2 !! fd) as [x|] eqn:E; [|done]. destruct Hfd. apply Ho. by exists x.
Qed.

(** C22 ([server_delivers_requests]): a batch of events, each saying that an open
    connection can be read (no new connection, no hangup), where the bytes of a
    connection — what was left of an unfinished message and then the pieces that
    arrive, however the socket hands them out — are whole requests followed by
    the beginning of another: one round of the server reads all of them, calls
    the handler with exactly the whole requests, connection by connection and in
    order, keeps the beginnings, and then lets the handler send the pending
    responses.  (At most 32 events, at most 1000 requests of a connection within
    a second, and the handler serves the requests without closing one of these
    connections.) *)
Theorem server_delivers_requests (SW : ServerWorld) (PW : ParserWorld) (HW : HandlerWorld) (HC : HandlerConfig)
    (sv : EpollServer.t) (p : StreamParser.t) (h h' : ClientHandler.t) arrivals :
  let n := EpollServer.calls sv in
  sv_wait n = Some (ar_event <$> arrivals) → (length arrivals ≤ 32)%nat → NoDup (ar_fd <$> arrivals) →
  Forall (arrives sv p) arrivals → batch_reads (S n) arrivals →
  for_each arrivals served h = (Ret tt, h') →
  (∀ a, a ∈ arrivals → Closed (ar_fd a) ∉ drop (length (ClientHandler.io h)) (ClientHandler.io h')) →
  let '(r, h'') := ClientHandler.process h' in
  ∃ sv' p', EpollServer.round (sv, (p, h)) = (r, (sv', (p', h''))) ∧
    ∀ a, a ∈ arrivals → StreamParser.partial (ar_fd a) p' = ar_tail a.
Proof.
  intros n Hw Hle Hnd Ha Hr Hd Hc. subst n.
  destruct (run_batch arrivals (EpollServer.count_call sv) p h h') as (sv' & p' & Hrun & Hp' & _); try done.
  { eapply Forall_impl; [exact Ha|]. intros a []. by constructor. }
  destruct (ClientHandler.process h') as [r h''] eqn:Hproc. eexists _, p'. split; [|exact Hp'].
  unfold EpollServer.round. erewrite bind_ret by reflexivity. cbn beta. cbn [fst]. rewrite Hw, firstn_all2 by by rewrite length_fmap.
  erewrite bind_ret by exact Hrun. unfold EpollServer.call, zoom. cbn [fst snd]. by rewrite Hproc.
Qed.

(** After a hangup the rest of the batch is dropped: with edge triggering its
    connections are not reported again until more arrives. *)
Lemma hangup_drops_batch (SW : ServerWorld) (PW : ParserWorld) (HW : HandlerWorld) (HC : HandlerConfig) fd es s :
  fd ≠ EpollServer.listen_fd s.1 →
  EpollServer.handle_events (mk_event fd EPOLLRDHUP :: es) s = EpollServer.handle_events [mk_event fd EPOLLRDHUP] s.
Proof.
  intros Hne. simpl. unfold EpollServer.handle_event. unfold mbind, M_bind, EpollServer.get_server, gets. simpl.
  rewrite (proj2 (Z.eqb_neq _ _)) by done. simpl. unfold EpollServer.call. by destruct (StreamParser.socket_closed _ _) as [[[]|e] x].
Qed.

(** ** Examples *)

Definition good_login : request := RLogin (demo_login "alice" "secret" 10).
Definition bad_login : request := RLogin (demo_login "alice" "wrong" 10).

(** A connection is accepted as descriptor 5, logs in with its bytes cut in two,
    and then sends a login that is refused. *)
Definition server_world : ServerWorld := {|
  sv_wait := λ n, Some match n with 0%nat => [mk_event 3 1] | 6%nat | 10%nat => [mk_event 5 1] | _ => [] end;
  sv_accept := λ _, 5; sv_getfl := λ _, 0; sv_setfl := λ _, 0; sv_keepalive := λ _, 0; sv_epoll_ctl := λ _, 0;
  sv_read := λ n _, match n with
    | 7%nat => RecvPacket (take 20 (req_bytes good_login))
    | 8%nat => RecvPacket (drop 20 (req_bytes good_login))
    | 11%nat => RecvPacket (req_bytes bad_login)
    | _ => RecvWouldBlock
    end;
  sv_fuel := 10;
|}.

Definition server_after (rounds : nat) :=
  for_each (replicate rounds []) (λ q, arrive q;;
    EpollServer.round (SW := server_world) (PW := calm_parser_world) (HW := calm_handler_world) (HC := demo_config))
    (EpollServer.initial 3, (StreamParser.initial, ClientHandler.initial)).

Lemma returned {A S} (x : outcome A * S) (a : A) : x.1 = Ret a → x = (Ret a, x.2).
Proof. destruct x as [r s]. by intros [= ->]. Qed.

Lemma server_sessions_open_witness :
  (EpollServer.descriptors (server_after 2).2.1 = {[5]} ∧
     is_Some (ClientHandler.sock_to_session_info (server_after 2).2.2.2 !! 5)) ∧
  ClientHandler.io (server_after 3).2.2.2 ≠ ClientHandler.io (server_after 2).2.2.2 ∧
  ClientHandler.sock_to_session_info (server_after 3).2.2.2 !! 5 = None.
Proof.
  split; [split; [vm_compute; reflexivity|vm_compute; by eexists]|]. split; [vm_compute; by discriminate|].
  apply (server_sessions_open server_world calm_parser_world calm_handler_world demo_config 3 (replicate 3 []) (server_after 3).2).
  - apply (returned (server_after 3)). vm_compute. reflexivity.
  - by_decide.
Defined.

(** Two connections in one batch: the rest of Alice's login, of which twenty bytes
    had arrived, with the beginning of an order, and Bob's whole login. *)
Definition alice_order : request := RNew (demo_new_order 10 0 77 1 md.SIDE.BUY 100 50).
Definition bob_login : request := RLogin (demo_login "bob" "hunter2" 20).
Definition demo_arrivals : list arrival := [
  mk_arrival 5 1 [drop 20 (req_bytes good_login); take 7 (req_bytes alice_order)] [good_login] (take 7 (req_bytes alice_order)) [alice_order];
  mk_arrival 6 1 [req_bytes bob_login] [bob_login] [] []].
Definition batch_server : EpollServer.t := EpollServer.mk 3 {[5; 6]} 0.
Definition batch_parser : StreamParser.t := StreamParser.set_partial 5 (take 20 (req_bytes good_login)) StreamParser.initial.

Definition batch_world : ServerWorld := {|
  sv_wait := λ _, Some (ar_event <$> demo_arrivals);
  sv_accept := λ _, 7; sv_getfl := λ _, 0; sv_setfl := λ _, 0; sv_keepalive := λ _, 0; sv_epoll_ctl := λ _, 0;
  sv_read := λ n _, match n with
    | 1%nat => RecvPacket (drop 20 (req_bytes good_login))
    | 2%nat => RecvPacket (take 7 (req_bytes alice_order))
    | 4%nat => RecvPacket (req_bytes bob_login)
    | _ => RecvWouldBlock
    end;
  sv_fuel := 10;
|}.

Definition batch_handler : ClientHandler.t :=
  (for_each demo_arrivals (served (HW := calm_handler_world) (HC := demo_config)) ClientHandler.initial).2.

Ltac well_formed_done := constructor; [vm_compute; repeat split; try done; intros [=]|reflexivity..].

Lemma demo_arrives : Forall (arrives (SW := batch_world) batch_server batch_parser) demo_arrivals.
Proof.
  repeat constructor; try (vm_compute; reflexivity); try (vm_compute; by discriminate); try by_decide;
    try (apply Nat.leb_le; vm_compute; reflexivity); try well_formed_done; try (vm_compute; repeat split; try done; intros [=]).
Qed.

Lemma demo_batch_reads : batch_reads (SW := batch_world) 1 demo_arrivals.
Proof.
  split; [|split; [|done]]; split; try (vm_compute; reflexivity); try by_decide.
  - intros [|[|k]] c [= <-]; vm_compute; reflexivity.
  - intros [|k] c [= <-]; vm_compute; reflexivity.
Qed.

Lemma server_delivers_requests_witness :
  ClientHandler.client_to_sock_fd batch_handler = {[10 := 5; 20 := 6]} ∧
  ∃ sv' p', EpollServer.round (SW := batch_world) (PW := calm_parser_world) (HW := calm_handler_world) (HC := demo_config)
      (batch_server, (batch_parser, ClientHandler.initial)) = (Ret tt, (sv', (p', batch_handler))) ∧
    StreamParser.partial 5 p' = take 7 (req_bytes alice_order) ∧ StreamParser.partial 6 p' = [].
Proof.
  split; [by_decide|].
  pose proof (server_delivers_requests batch_world calm_parser_world calm_handler_world demo_config batch_server batch_parser
    ClientHandler.initial batch_handler demo_arrivals) as H.
  assert (ClientHandler.process (HW := calm_handler_world) batch_handler = (Ret tt, batch_handler)) as E by (vm_compute; reflexivity).
  rewrite E in H. destruct H as (sv' & p' & Hround & Htails).
  - reflexivity.
  - apply Nat.leb_le. reflexivity.
  - by_decide.
  - apply demo_arrives.
  - apply demo_batch_reads.
  - vm_compute. reflexivity.
  - intros a Ha. repeat (apply elem_of_cons in Ha as [->|Ha]); [by_decide|by_decide|by apply elem_of_nil in Ha].
  - assert (Forall (λ a, StreamParser.partial (ar_fd a) p' = ar_tail a) demo_arrivals) as [H5 [H6 _]%Forall_cons]%Forall_cons
      by by apply Forall_forall.
    exists sv', p'. split; [exact Hround|]. split; [exact H5|exact H6].
Defined.
