(* ===== verification/MatchingEngine.v ===== *)
(** * [matching_engine/matching_engine.cpp]: the exchange's program

    [main] reads the users, connects the components and starts two threads: the
    main thread runs the server, a second one the broker.  A schedule says which
    thread takes its next turn and when what one thread queued is seen by the
    other. *)
From Stdlib Require Import Init.Byte Strings.String.
From S2P Require Import Prelude Protocol OrderLadder Broker Validator ClientHandler StreamParser Server.

(** ** The users' file *)

(** [std::isspace] in the C locale. *)
Definition isspace (c : Ascii.ascii) : bool :=
  let n := Ascii.N_of_ascii c in ((9 <=? n) && (n <=? 13) || (n =? 32))%N.

Definition newline : Ascii.ascii := Ascii.ascii_of_nat 10.

(** [while (std::getline(file, line))]: [line] is what was read of the current
    line; a last line without an end is a line when it is not empty. *)
Fixpoint getlines (line s : string) : list string :=
  match s with
  | EmptyString => if decide (line = EmptyString) then [] else [line]
  | String c s =>
      if decide (c = newline) then line :: getlines EmptyString s else getlines (line +:+ String c EmptyString) s
  end.

(** [ss >> word]: the word and what follows it; nothing when there is none. *)
Fixpoint skip_spaces (s : string) : string :=
  match s with
  | EmptyString => EmptyString
  | String c s' => if isspace c then skip_spaces s' else s
  end.
Fixpoint take_word (s : string) : string * string :=
  match s with
  | EmptyString => (EmptyString, EmptyString)
  | String c s' => if isspace c then (EmptyString, s) else let '(w, r) := take_word s' in (String c w, r)
  end.
Definition extract (s : string) : string * string := take_word (skip_spaces s).

(** [std::stoi]: spaces, a sign ([-] is 45, [+] is 43) and at least one digit, whatever follows; the
    value has to fit an [int]. *)
Inductive stoi_error := invalid_argument | out_of_range.

Definition digit (c : Ascii.ascii) : option Z :=
  let n := Z.of_N (Ascii.N_of_ascii c) in if (48 <=? n) && (n <=? 57) then Some (n - 48) else None.

Fixpoint digits (acc : Z) (s : string) : Z :=
  match s with
  | EmptyString => acc
  | String c s => match digit c with Some d => digits (10 * acc + d) s | None => acc end
  end.

Definition signed (s : string) : bool * string :=
  match s with
  | String c s' => if decide (c = Ascii.ascii_of_nat 45) then (true, s') else if decide (c = Ascii.ascii_of_nat 43) then (false, s') else (false, s)
  | EmptyString => (false, s)
  end.

Definition stoi (s : string) : stoi_error + Z :=
  let '(negative, s) := signed (skip_spaces s) in
  match s with
  | String c _ =>
      if decide (digit c = None) then inl invalid_argument
      else
        let n := (if negative then -1 else 1) * digits 0 s in
        if bool_decide (is_s32 n) then inr n else inl out_of_range
  | EmptyString => inl invalid_argument
  end.

(** One round of the loop: three words, of which the first is the client's id. *)
Definition read_user (line : string) (users : gmap string user_info) : stoi_error + gmap string user_info :=
  let '(client_id, line) := extract line in
  let '(username, line) := extract line in
  let '(password, _) := extract line in
  match stoi client_id with
  | inl e => inl e
  | inr n => inr (<[username := mk_user username password (u32 n)]> users)
  end.

Fixpoint read_lines (lines : list string) (users : gmap string user_info) : stoi_error + gmap string user_info :=
  match lines with
  | [] => inr users
  | line :: lines =>
      match read_user line users with
      | inl e => inl e
      | inr users => read_lines lines users
      end
  end.

Definition read_users (file : string) : stoi_error + gmap string user_info := read_lines (getlines EmptyString file) ∅.

(** ** The two threads *)

Module MatchingEngine.

(** The main thread serves until the server throws; then it waits for the other
    thread and returns 1.  [Stopped]: the matching thread has ended, by itself or
    by an exception. *)
Inductive main_thread := Serving | Joining (e : exn) | Returned (rc : Z).
Inductive matching_thread := Matching | Stopped (e : option exn).

Record t := mk {
  oe_server : EpollServer.t;
  parser : StreamParser.t;
  client_handler : ClientHandler.t;
  broker : MatchingEngineBroker.t;
  running : bool;
  main : main_thread;
  matching : matching_thread;
}.

(** A thread takes its next turn, or what is queued becomes visible. *)
Inductive action := MainTurn | MatchingTurn | Requests | Responses.

Definition symbols_config (users : gmap string user_info) : HandlerConfig :=
  {| hc_symbols := symbol_map exchange_symbols; hc_users := users |}.

Definition initial (listen_fd : Z) : t :=
  mk (EpollServer.initial listen_fd) StreamParser.initial ClientHandler.initial
    (for_each exchange_symbols (λ d, MatchingEngineBroker.add_symbol (sym_symbol d)) MatchingEngineBroker.initial).2
    true Serving Matching.

(** [main] up to the start of the threads: it returns early, is ended by an
    exception of [std::stoi], or runs with these users. *)
Inductive startup :=
  | Exit (rc : Z)
  | Terminate (e : stoi_error)
  | Run (config : HandlerConfig) (p : t).

Definition start (argc : nat) (users_txt : option string) (listen_fd : Z) : startup :=
  if negb (argc =? 4)%nat then Exit 1
  else match users_txt with
       | None => Exit 1
       | Some file =>
           match read_users file with
           | inl e => Terminate e
           | inr users => Run (symbols_config users) (initial listen_fd)
           end
       end.

Section ops.
Context `{SW : ServerWorld} `{PW : ParserWorld} `{HW : HandlerWorld} `{BW : BrokerWorld} (HC : HandlerConfig).

(** A round of [oe_server.run()], which has no end but an exception. *)
Definition main_turn (p : t) : t :=
  match main p with
  | Serving =>
      let '(r, (sv, (ps, h))) := EpollServer.round (oe_server p, (parser p, client_handler p)) in
      match r with
      | Ret _ => mk sv ps h (broker p) (running p) Serving (matching p)
      | Throw e => mk sv ps h (broker p) false (Joining e) (matching p)
      end
  | Joining e =>
      match matching p with
      | Stopped _ => mk (oe_server p) (parser p) (client_handler p) (broker p) (running p) (Returned 1) (matching p)
      | Matching => p
      end
  | Returned _ => p
  end.

(** A round of [while (running)] in the second thread. *)
Definition matching_turn (p : t) : t :=
  match matching p with
  | Matching =>
      if running p then
        let '(r, b) := MatchingEngineBroker.process (broker p) in
        match r with
        | Ret _ => mk (oe_server p) (parser p) (client_handler p) b (running p) (main p) Matching
        | Throw e => mk (oe_server p) (parser p) (client_handler p) b false (main p) (Stopped (Some e))
        end
      else mk (oe_server p) (parser p) (client_handler p) (broker p) (running p) (main p) (Stopped None)
  | Stopped _ => p
  end.

(** What was queued, handed over: [from_client] and [to_client]. *)
Definition take_requests (h : ClientHandler.t) : ClientHandler.t :=
  ClientHandler.mk (ClientHandler.sock_to_session_info h) (ClientHandler.client_to_sock_fd h)
    (ClientHandler.client_to_open_orders h) (ClientHandler.exch_to_client_orders h) []
    (ClientHandler.from_matching_engine h) (ClientHandler.calls h) (ClientHandler.io h).

Definition requests (p : t) : t :=
  mk (oe_server p) (parser p) (take_requests (client_handler p))
    (MatchingEngineBroker.set_from_client
      (MatchingEngineBroker.from_client (broker p) ++ ClientHandler.to_matching_engine (client_handler p)) (broker p))
    (running p) (main p) (matching p).

Definition responses (p : t) : t :=
  mk (oe_server p) (parser p)
    (ClientHandler.set_from_engine
      (ClientHandler.from_matching_engine (client_handler p) ++ MatchingEngineBroker.to_client (broker p)) (client_handler p))
    (MatchingEngineBroker.set_to_client [] (broker p)) (running p) (main p) (matching p).

Definition act (a : action) : t → t :=
  match a with MainTurn => main_turn | MatchingTurn => matching_turn | Requests => requests | Responses => responses end.

Definition run (acts : list action) (p : t) : t := foldl (λ p a, act a p) p acts.
End ops.
End MatchingEngine.
