(* ===== verification/MatchingEngineTheorems.v ===== *)
(** * The properties of the exchange's program *)
From Stdlib Require Import Init.Byte Strings.String.
From S2P Require Import Prelude Protocol SnapshotClient MdMcast MdStream Clearing OrderLadder LadderSpec LadderRep LadderProps Broker BrokerRefine Validator ClientHandler HandlerInv HandlerTheorems Exchange StreamParser StreamTheorems Server ServerTheorems MatchingEngine.
From stdpp Require Import relations.
#[local] Open Scope Z_scope.

(** ** The users' file *)

(** A word: at least one character, and none is a space. *)
Fixpoint no_space (s : string) : bool :=
  match s with EmptyString => true | String c s => negb (isspace c) && no_space s end.
Definition word (s : string) : Prop := s ≠ EmptyString ∧ no_space s = true.

#[global] Instance word_dec s : Decision (word s) := and_dec _ _.




Lemma no_space_app a b : no_space (a +:+ b) = no_space a && no_space b.
Proof. induction a as [|x a IH]; [done|]. rewrite append_cons. simpl. by rewrite IH, andb_assoc. Qed.



















Definition demo_users : list user_info := [mk_user "alice" "secret" 10; mk_user "bob" "hunter2" 20].


(** A blank line ends the program with an exception that nothing catches. *)
Lemma blank_line_terminates file listen_fd :
  EmptyString ∈ getlines EmptyString file → ∃ e, MatchingEngine.start 4 (Some file) listen_fd = MatchingEngine.Terminate e.
Proof.
  intros Hin. unfold MatchingEngine.start, read_users. cbn [Nat.eqb negb].
  assert (∀ m, read_user EmptyString m = inl invalid_argument) as He by done.
  assert (∀ m, ∃ e, read_lines (getlines EmptyString file) m = inl e) as H.
  { induction (getlines EmptyString file) as [|l ls IH]; intros m; [by apply elem_of_nil in Hin|]. cbn [read_lines].
    apply elem_of_cons in Hin as [<-|Hin]; [rewrite He; by eexists|]. destruct (read_user l m); [by eexists|by apply IH]. }
  destruct (H ∅) as [e ->]. by eexists.
Qed.

(** ** A round of the server is a sequence of the handler's events *)

Section events.
Context `{SW : ServerWorld} `{PW : ParserWorld} `{HW : HandlerWorld} `{HC : HandlerConfig}.

Definition handler_step (h h' : ClientHandler.t) : Prop := ∃ e, event_ok e ∧ run_event e h = (Ret tt, h').

(** Everything a program does to the handler are events of it. *)
Definition by_events {St} (handler : St → ClientHandler.t) (s s' : St) : Prop := rtc handler_step (handler s) (handler s').

#[local] Instance by_events_preorder {St} (handler : St → ClientHandler.t) : PreOrder (by_events handler).
Proof. unfold by_events. split; [by intros s|intros s1 s2 s3 H1 H2; by etrans]. Qed.

Abbreviation eventful handler m := (keeps (λ _, True) (λ _, True) (by_events handler) m).

Lemma eventful_same {St} (handler : St → ClientHandler.t) f : (∀ s, handler (f s) = handler s) → eventful handler (modify f).
Proof. intros Hf. apply keeps_modify. intros s _. split; [done|]. unfold by_events. by rewrite Hf. Qed.

Ltac eventful_step :=
  lazymatch goal with
  | |- keeps _ _ _ (mbind _ _) => apply keeps_bind; [apply _| |intros ?]
  | |- keeps _ _ _ (mret _) => apply keeps_ret, _
  | |- keeps _ _ _ (gets _) => apply keeps_gets, _
  | |- keeps _ _ _ (throw _) => apply keeps_throw; [done]
  | |- keeps _ _ _ (when _ _) => apply keeps_when; [apply _|]
  | |- keeps _ _ _ (modify _) => apply eventful_same; by intros []
  | |- keeps _ _ _ (StreamParser.getp _) => unfold StreamParser.getp
  | |- keeps _ _ _ (StreamParser.modp _) => unfold StreamParser.modp
  | |- keeps _ _ _ (EpollServer.get_server _) => unfold EpollServer.get_server
  | |- keeps _ _ _ (EpollServer.on_server _) => unfold EpollServer.on_server
  | |- keeps _ _ _ (EpollServer.ask _) => unfold EpollServer.ask
  | |- keeps _ _ _ (EpollServer.failing _ _) => unfold EpollServer.failing
  | |- keeps _ _ _ (EpollServer.close _) => unfold EpollServer.close
  | |- keeps _ _ _ (match ?x with _ => _ end) => destruct x
  | |- keeps _ _ _ (if ?b then _ else _) => destruct b
  end.
Ltac eventfully := repeat eventful_step.

(** *** The parser *)

Abbreviation parsing m := (eventful (snd : StreamParser.t * ClientHandler.t → ClientHandler.t) m).

Lemma parsing_event (m : M ClientHandler.t unit) e : event_ok e → m = run_event e → parsing (StreamParser.callh m).
Proof.
  intros He -> x _. unfold wp, StreamParser.callh, zoom. destruct (run_event e x.2) as [[[]|ex] h] eqn:E; [|done].
  split; [done|]. apply rtc_once. by exists e.
Qed.

Lemma parsing_send_error_msg fd seq c r text : parsing (StreamParser.send_error_msg fd seq c r text).
Proof. unfold StreamParser.send_error_msg. eventfully. Qed.

(** A message read from the buffer has its fields in range. *)
Lemma parsing_read {A} (c : codec A) `{!CodecOk c} b (k : A → M (StreamParser.t * ClientHandler.t) bool) :
  (∀ a, c_ok c a → parsing (k a)) → parsing (m ← StreamParser.read c b; k m).
Proof.
  intros Hk. unfold StreamParser.read. destruct (bool_decide _) eqn:E.
  - apply bool_decide_eq_true in E. intros x Hx. apply wp_bind. apply Hk; [by apply dec_ok|done].
  - by intros x _.
Qed.

Lemma new_order_quantity m : c_ok oe.c_new_order m → event_ok (NewOrder 0 m).
Proof. destruct m. unfold event_ok, is_u32. cbn. intros. destruct_and?. lia. Qed.
Lemma modify_order_quantity m : c_ok oe.c_modify_order m → event_ok (ModifyOrder 0 m).
Proof. destruct m. unfold event_ok, is_u32. cbn. intros. destruct_and?. lia. Qed.

Lemma parsing_dispatch fd ty b : parsing (StreamParser.dispatch fd ty b).
Proof.
  unfold StreamParser.dispatch.
  repeat lazymatch goal with
  | |- keeps _ _ _ (mbind _ (StreamParser.read _ _)) => apply parsing_read; [apply _|intros m Hm]
  | _ => eventful_step
  end.
  - by apply (parsing_event _ (NewOrder fd m)); [apply new_order_quantity|].
  - by apply (parsing_event _ (DeleteOrder fd m)).
  - by apply (parsing_event _ (ModifyOrder fd m)); [apply modify_order_quantity|].
  - by apply (parsing_event _ (Login fd m)).
Qed.

Lemma parsing_parse_loop fuel fd now : parsing (StreamParser.parse_loop fuel fd now).
Proof.
  induction fuel as [|fuel IH]; cbn [StreamParser.parse_loop]; eventfully;
    first [apply parsing_send_error_msg|apply parsing_dispatch|exact IH].
Qed.

Lemma parsing_parse fd buf : parsing (StreamParser.parse fd buf).
Proof. unfold StreamParser.parse, StreamParser.nanotime. eventfully; [apply parsing_send_error_msg|apply parsing_parse_loop]. Qed.

Lemma parsing_socket_closed fd : parsing (StreamParser.socket_closed fd).
Proof. unfold StreamParser.socket_closed. eventfully. by apply (parsing_event _ (SocketClosed fd)). Qed.

Lemma parsing_new_socket fd : parsing (StreamParser.new_socket fd).
Proof. unfold StreamParser.new_socket. eventfully. Qed.

(** *** The server *)

Abbreviation serving m :=
  (eventful (λ s : EpollServer.t * (StreamParser.t * ClientHandler.t), s.2.2) m).

Lemma serving_call m : parsing m → serving (EpollServer.call m).
Proof.
  intros Hm s _. pose proof (Hm s.2 I) as H. unfold wp, EpollServer.call in *. destruct (m s.2) as [[[]|e] x]; [|done].
  split; [done|]. apply H.
Qed.

Lemma serving_read_loop fuel fd : serving (EpollServer.read_loop fuel fd).
Proof.
  induction fuel as [|fuel IH]; cbn [EpollServer.read_loop]; unfold EpollServer.read; eventfully;
    try (apply serving_call; first [apply parsing_socket_closed|apply parsing_parse]). exact IH.
Qed.

Lemma serving_handle_event e : serving (EpollServer.handle_event e).
Proof.
  unfold EpollServer.handle_event, EpollServer.accept. eventfully;
    first [apply serving_read_loop|apply serving_call; first [apply parsing_new_socket|apply parsing_socket_closed]].
Qed.

Lemma serving_handle_events es : serving (EpollServer.handle_events es).
Proof. induction es as [|e es IH]; cbn [EpollServer.handle_events]; eventfully; [apply serving_handle_event|exact IH]. Qed.

Lemma serving_round : serving EpollServer.round.
Proof.
  unfold EpollServer.round. eventfully; [apply serving_handle_events|]. apply serving_call. by apply (parsing_event _ Process).
Qed.

Lemma round_events sv ps h sv' ps' h' :
  EpollServer.round (sv, (ps, h)) = (Ret tt, (sv', (ps', h'))) → rtc handler_step h h'.
Proof. intros Hrun. pose proof (serving_round (sv, (ps, h)) I) as H. unfold wp in H. rewrite Hrun in H. apply H. Qed.
End events.

(** ** The program's threads *)

Import MatchingEngine.

Section program.
Context `{SW : ServerWorld} `{PW : ParserWorld} `{HW : HandlerWorld} `{BW : BrokerWorld} `{HC : HandlerConfig}.

Definition exchange_of (p : MatchingEngine.t) : exchange := mk_exchange (client_handler p) (broker p).

(** Both threads are at work. *)
Definition alive (p : MatchingEngine.t) : Prop := main p = Serving ∧ matching p = Matching ∧ running p = true.

Lemma events_steps h h' b : rtc handler_step h h' → rtc Exchange.step (mk_exchange h b) (mk_exchange h' b).
Proof.
  induction 1 as [h|h h1 h' (e & He & Hrun) _ IH]; [done|]. eapply rtc_l; [by eapply step_event|done].
Qed.

(** A turn of the main thread that does not end it. *)
Lemma main_turn_serving p : main (main_turn HC p) = Serving →
  main p = Serving ∧ ∃ sv ps h, EpollServer.round (oe_server p, (parser p, client_handler p)) = (Ret tt, (sv, (ps, h))) ∧
    main_turn HC p = mk sv ps h (broker p) (running p) Serving (matching p).
Proof.
  intros Hm. unfold main_turn in *. destruct (main p) as [|e|rc] eqn:E; [|destruct (matching p); simpl in Hm; congruence|congruence].
  destruct (EpollServer.round _) as [[[]|e] (sv & ps & h)]; [|discriminate Hm]. split; [done|]. by exists sv, ps, h.
Qed.

Lemma act_serving a p : main (act HC a p) = Serving → main p = Serving.
Proof.
  destruct a; simpl; [apply main_turn_serving| |done|done]. unfold matching_turn.
  destruct (matching p); [|done]. destruct (running p); [|done]. by destruct (MatchingEngineBroker.process _) as [[[]|e] b].
Qed.

(** A turn that leaves both threads at work is a sequence of the exchange's
    steps. *)
Lemma act_refines a p : alive p → main (act HC a p) = Serving → matching (act HC a p) = Matching →
  alive (act HC a p) ∧ rtc Exchange.step (exchange_of p) (exchange_of (act HC a p)).
Proof.
  intros (H1 & H2 & H3) Hm Ht. destruct a; simpl in *.
  - apply main_turn_serving in Hm as (_ & sv & ps & h & Hrun & E). rewrite E. split; [by split_and!|].
    by eapply events_steps, round_events.
  - unfold matching_turn in *. rewrite H2, H3 in *. destruct (MatchingEngineBroker.process _) as [[[]|e] b] eqn:Hrun; [|discriminate Ht].
    split; [by split_and!|]. by apply rtc_once, step_engine.
  - split; [by split_and!|]. apply rtc_once, step_requests.
  - split; [by split_and!|]. apply rtc_once, step_responses.
Qed.

Lemma act_stopped a p e : matching p = Stopped e → matching (act HC a p) = Stopped e.
Proof.
  intros Hs. destruct a; simpl; unfold main_turn, matching_turn; rewrite ?Hs; try done.
  destruct (main p); [|done..]. by destruct (EpollServer.round _) as [[[]|ex] (sv & ps & h)].
Qed.

Lemma run_snoc acts a p : run HC (acts ++ [a]) p = act HC a (run HC acts p).
Proof. unfold run. by rewrite foldl_app. Qed.

Lemma run_refines acts p : alive p → main (run HC acts p) = Serving → matching (run HC acts p) = Matching →
  alive (run HC acts p) ∧ rtc Exchange.step (exchange_of p) (exchange_of (run HC acts p)).
Proof.
  intros Hp. induction acts as [|a acts IH] using rev_ind; [done|]. rewrite run_snoc. intros Hm Ht.
  destruct IH as [Ha Hr]; [by eapply act_serving| |].
  { destruct (matching (run HC acts p)) as [|e] eqn:E; [done|]. rewrite (act_stopped a _ e E) in Ht. done. }
  destruct (act_refines a _ Ha Hm Ht) as [Ha' Hr']. split; [done|]. by etrans.
Qed.

(** What the other thread hears of a broker that has ended. *)
Definition silent (b b' : MatchingEngineBroker.t) : Prop :=
  MatchingEngineBroker.publisher b' = MatchingEngineBroker.publisher b ∧
  MatchingEngineBroker.clearing_publisher b' = MatchingEngineBroker.clearing_publisher b ∧
  MatchingEngineBroker.symbol_to_matching_engine b' = MatchingEngineBroker.symbol_to_matching_engine b ∧
  MatchingEngineBroker.from_client b `prefix_of` MatchingEngineBroker.from_client b' ∧
  MatchingEngineBroker.to_client b' `prefix_of` MatchingEngineBroker.to_client b.

#[local] Instance silent_preorder : PreOrder silent.
Proof.
  split; [by intros b|]. intros b1 b2 b3 (A1 & A2 & A3 & A4 & A5) (B1 & B2 & B3 & B4 & B5).
  split_and!; [congruence|congruence|congruence|by etrans|by etrans].
Qed.

Lemma act_silent a p e : matching p = Stopped e → silent (broker p) (broker (act HC a p)).
Proof.
  intros Hs. destruct a; simpl.
  - unfold main_turn. destruct (main p); [|by destruct (matching p)|done].
    by destruct (EpollServer.round _) as [[[]|ex] (sv & ps & h)].
  - unfold matching_turn. by rewrite Hs.
  - split_and!; try done. by eexists.
  - split_and!; try done. apply prefix_nil.
Qed.

Lemma run_silent acts p e : matching p = Stopped e →
  matching (run HC acts p) = Stopped e ∧ silent (broker p) (broker (run HC acts p)).
Proof.
  intros Hs. induction acts as [|a acts [IH1 IH2]] using rev_ind; [done|]. rewrite run_snoc.
  split; [by apply act_stopped|]. etrans; [done|]. by eapply act_silent.
Qed.
End program.

(** C3 ([program_refines_exchange]): whatever bytes the clients send and however the
    two threads are scheduled, as long as neither thread has ended the program's
    handler and broker are in a state of the exchange's step relation: a round of
    the epoll server is a sequence of the handler's events, a turn of the matching
    thread one of the broker's. *)
Theorem program_refines_exchange (SW : ServerWorld) (PW : ParserWorld) (HW : HandlerWorld) (BW : BrokerWorld) users listen_fd acts :
  let p := run (symbols_config users) acts (initial listen_fd) in
  main p = Serving → matching p = Matching →
  rtc (Exchange.step (HC := symbols_config users)) (Exchange.start exchange_symbols) (exchange_of p).
Proof. intros p Hm Ht. by apply (run_refines (HC := symbols_config users) acts (initial listen_fd)). Qed.

(** The run up to a turn of the matching thread whose queue holds, with the
    requests served before it, two new orders of one exchange order id: orders
    accepted at two calls of [nanotime] that returned the same value. *)
Definition tied_turn `{SW : ServerWorld} `{PW : ParserWorld} `{HW : HandlerWorld} `{BW : BrokerWorld} (HC : HandlerConfig) listen_fd acts : Prop :=
  ∃ acts1 acts2 ps rs, acts = acts1 ++ MatchingTurn :: acts2 ∧
    let q := run HC acts1 (initial listen_fd) in
    history exchange_symbols ps rs (exchange_of q) ∧ id_tie (client_handler q) (ps ++ MatchingEngineBroker.from_client (broker q)).

(** C4 ([engine_runs_or_network]): whatever bytes the clients send and however the
    two threads are scheduled, while the server is up the matching thread is at
    work, or the network refused one of its packets, or — the one other way to
    stop it — two orders of the requests it had been given carry the same
    exchange order id, because the handler's clock read the same twice. *)
Theorem engine_runs_or_network (SW : ServerWorld) (PW : ParserWorld) (HW : HandlerWorld) (BW : BrokerWorld) users listen_fd acts :
  let HC := symbols_config users in
  let p := run HC acts (initial listen_fd) in
  main p = Serving →
  matching p = Matching ∨ matching p = Stopped (Some send_failed) ∨
  matching p = Stopped (Some order_exists) ∧ tied_turn HC listen_fd acts.
Proof.
  intros HC. induction acts as [|a acts IH] using rev_ind; [by left|]. rewrite run_snoc. cbv zeta in *. set (p := run _ acts _) in *.
  intros Hm. pose proof (act_serving a p Hm) as Hm0.
  destruct IH as [Ht|[Ht|[Ht (acts1 & acts2 & ps & rs & -> & Hq)]]]; [done| |by right; left; apply act_stopped|].
  2: { right; right. split; [by apply act_stopped|]. exists acts1, (acts2 ++ [a]), ps, rs. by rewrite <- app_assoc. }
  destruct (run_refines (HC := HC) acts (initial listen_fd)) as [(_ & _ & Hrun) Hreach]; [done..|].
  fold p in Hrun, Hreach. destruct a; simpl; [|unfold matching_turn; rewrite Ht, Hrun|by left|by left].
  - left. apply main_turn_serving in Hm as (_ & sv & qs & h & _ & ->). exact Ht.
  - apply history_of_run in Hreach as (ps & rs & Hist).
    pose proof (history_process exchange_symbols ps rs (exchange_of p) exchange_symbols_ok eq_refl Hist) as H. cbn [ex_engine exchange_of] in H.
    destruct (MatchingEngineBroker.process _) as [[[]|e] b]; [by left|right].
    destruct H as [[[=] _]|[[= ->]|[[= ->] Htie]]]; [by left|right]. split; [done|]. by exists acts, [], ps, rs.
Qed.

(** When the matching thread has ended, the
    server, which never looks at [running], goes on taking requests: they queue
    up, none is served, and nothing more is published. *)
Theorem engine_failure_strands_clients (SW : ServerWorld) (PW : ParserWorld) (HW : HandlerWorld) (BW : BrokerWorld)
    (HC : HandlerConfig) acts p e :
  matching p = Stopped e →
  let p' := run HC acts p in
  matching p' = Stopped e ∧ silent (broker p) (broker p').
Proof. intros Hs. by apply run_silent. Qed.

(** After an exception of the server both threads end, and the program returns 1. *)
Lemma server_failure_ends_program (SW : ServerWorld) (PW : ParserWorld) (HW : HandlerWorld) (BW : BrokerWorld) (HC : HandlerConfig) p e :
  main p = Joining e → running p = false → main (run HC [MatchingTurn; MainTurn] p) = Returned 1.
Proof.
  intros Hm Hr. unfold run. simpl. unfold matching_turn. rewrite Hr.
  destruct (matching p) eqn:E; unfold main_turn; simpl; [by rewrite Hm|by rewrite Hm, E].
Qed.

(** ** Examples *)

(** A client connects, logs in and sends two orders, one in each round. *)
Definition program_server_world : ServerWorld := {|
  sv_wait := λ n, Some match n with 0%nat => [mk_event 3 1] | 6%nat | 9%nat | 12%nat => [mk_event 5 1] | _ => [] end;
  sv_accept := λ _, 5; sv_getfl := λ _, 0; sv_setfl := λ _, 0; sv_keepalive := λ _, 0; sv_epoll_ctl := λ _, 0;
  sv_read := λ n _, match n with
    | 7%nat => RecvPacket (req_bytes good_login)
    | 10%nat => RecvPacket (req_bytes (RNew (demo_new_order 10 0 77 1 md.SIDE.BUY 100 50)))
    | 13%nat => RecvPacket (req_bytes (RNew (demo_new_order 10 0 78 1 md.SIDE.BUY 100 50)))
    | _ => RecvWouldBlock
    end;
  sv_fuel := 10;
|}.

(** A network that refuses the engine's packets. *)
Definition dead_broker_world : BrokerWorld :=
  {| bw_clock := Z.of_nat; bw_md := {| nanotime_at := Z.of_nat; sendto_rc := λ _ _, -1 |}; bw_clearing := calm_world |}.

Definition users_of (us : list user_info) : gmap string user_info := foldl (λ m u, <[ui_username u := u]> m) ∅ us.

Section examples.
#[local] Existing Instance program_server_world.
#[local] Existing Instance calm_parser_world.
#[local] Existing Instance calm_handler_world.

Definition demo_run (BW : BrokerWorld) (acts : list action) : MatchingEngine.t :=
  run (symbols_config (users_of demo_users)) acts (initial 3).

Definition first_order : list action := [MainTurn; MainTurn; MainTurn; Requests; MatchingTurn].
Definition second_order : list action := [Responses; MainTurn; Requests; MatchingTurn].

(** The bytes of the order become the engine's acknowledgement on the socket:
    the login response and the ack. *)
Example first_order_acked :
  ClientHandler.io (client_handler (demo_run calm_broker_world (first_order ++ second_order))) =
  [Wrote 5 (c_enc oe.c_login_response (oe.Build_login_response (oe.Build_oe_response_header 25 oe.MSG_TYPE.LOGIN_RESPONSE 1 0 1 10) 0 0));
   Wrote 5 (c_enc oe.c_order_ack (oe.Build_order_ack (oe.Build_oe_response_header 40 oe.MSG_TYPE.ACK 1 1 2 10) 77 4 100 50))].
Proof. vm_compute. reflexivity. Qed.

Lemma program_refines_exchange_witness :
  rtc (Exchange.step (HW := calm_handler_world) (HC := symbols_config (users_of demo_users)) (BW := calm_broker_world))
    (Exchange.start exchange_symbols) (exchange_of (demo_run calm_broker_world (first_order ++ second_order))).
Proof.
  refine (program_refines_exchange program_server_world calm_parser_world calm_handler_world calm_broker_world
    (users_of demo_users) 3 (first_order ++ second_order) _ _); vm_compute; reflexivity.
Defined.

Lemma engine_runs_or_network_witness :
  matching (demo_run dead_broker_world first_order) = Stopped (Some send_failed) ∧
  (matching (demo_run dead_broker_world first_order) = Matching ∨
   matching (demo_run dead_broker_world first_order) = Stopped (Some send_failed) ∨
   matching (demo_run dead_broker_world first_order) = Stopped (Some order_exists) ∧
   tied_turn (BW := dead_broker_world) (symbols_config (users_of demo_users)) 3 first_order).
Proof.
  split; [vm_compute; reflexivity|].
  refine (engine_runs_or_network program_server_world calm_parser_world calm_handler_world dead_broker_world
    (users_of demo_users) 3 first_order _). vm_compute. reflexivity.
Defined.

(** A clock whose readings are the same: the second order is given the first
    one's id, and the book refuses it with an exception that ends the thread. *)
#[refine] Definition still_clock_world : HandlerWorld := {|
  hw_clock := λ _, 7; hw_random := @hw_random calm_handler_world; hw_send := @hw_send calm_handler_world;
  hw_write := @hw_write calm_handler_world; hw_walk := λ _ m, map_to_list m; hw_fuel := 60;
|}.
Proof. done. Defined.

Lemma tied_ids_stop_engine :
  let HC := symbols_config (users_of demo_users) in
  let p := run (HW := still_clock_world) (BW := calm_broker_world) HC [MainTurn; MainTurn; MainTurn; MainTurn; Requests; MatchingTurn] (initial 3) in
  main p = Serving ∧ matching p = Stopped (Some order_exists).
Proof. split; vm_compute; reflexivity. Qed.

(** The second order is taken though nothing will ever answer it. *)
Lemma engine_failure_strands_clients_witness :
  let p := demo_run dead_broker_world first_order in
  let p' := run (BW := dead_broker_world) (symbols_config (users_of demo_users)) second_order p in
  main p' = Serving ∧ length (MatchingEngineBroker.from_client (broker p')) = 2%nat ∧
  matching p' = Stopped (Some send_failed) ∧ silent (broker p) (broker p').
Proof.
  intros p p'. split; [vm_compute; reflexivity|]. split; [vm_compute; reflexivity|].
  apply (engine_failure_strands_clients program_server_world calm_parser_world calm_handler_world dead_broker_world
    (symbols_config (users_of demo_users)) second_order p). vm_compute. reflexivity.
Defined.
End examples.
