(* ===== verification/EngineAnswers.v ===== *)
(** * Every request is answered

    Whatever a request does to the book, the engine's turn that serves it ends
    with a response that carries the request's order, sequence number and
    client. *)
From Stdlib Require Import Init.Byte.
From stdpp Require Import relations.
From S2P Require Import Prelude Protocol MdMcast MdStream Clearing OrderLadder LadderSpec LadderRep LadderProps Broker BrokerRefine BrokerAnswers Validator ClientHandler HandlerInv HandlerTheorems Exchange StreamParser Server ServerTheorems MatchingEngine MatchingEngineTheorems.

(** ** Property *)

Import MatchingEngine.

(** C5 ([every_request_answered]): while both threads are at work, once the waiting
    requests are handed over, the matching thread has its turn and its responses
    are handed back, every request that was waiting has been answered, in order,
    with its order, sequence number and client, and none is left — unless the
    turn ended the thread: because the network refused a packet, or because two
    orders of the requests it had been given carry the same exchange order id,
    the handler's clock having read the same twice. *)
Theorem every_request_answered (SW : ServerWorld) (PW : ParserWorld) (HW : HandlerWorld) (BW : BrokerWorld) users listen_fd acts :
  let HC := symbols_config users in
  let p := run HC acts (initial listen_fd) in
  main p = Serving → matching p = Matching →
  let p' := run HC [Requests; MatchingTurn; Responses] p in
  (ClientHandler.to_matching_engine (client_handler p') = [] ∧ MatchingEngineBroker.from_client (broker p') = [] ∧
   ∃ rs, ClientHandler.from_matching_engine (client_handler p') = ClientHandler.from_matching_engine (client_handler p) ++ rs ∧
     answered (MatchingEngineBroker.from_client (broker p) ++ ClientHandler.to_matching_engine (client_handler p)) rs) ∨
  matching p' = Stopped (Some send_failed) ∨
  matching p' = Stopped (Some order_exists) ∧ tied_turn HC listen_fd (acts ++ [Requests; MatchingTurn]).
Proof.
  intros HC p Hm Ht p'.
  destruct (run_refines (HC := HC) acts (initial listen_fd)) as [(_ & _ & Hrun) Hreach]; [done..|].
  fold p in Hrun, Hreach.
  destruct (history_of_run (HC := HC) exchange_symbols (exchange_of (requests p))) as (ps & qs & Hist); [by eapply rtc_r, step_requests|].
  pose proof (history_process (HC := HC) exchange_symbols ps qs (exchange_of (requests p)) exchange_symbols_ok eq_refl Hist) as Hp.
  change p' with (responses (matching_turn (requests p))). clear p'. unfold matching_turn. cbn [requests matching running broker] in *. rewrite Ht, Hrun.
  cbn [ex_engine exchange_of requests broker] in *.
  set (b := MatchingEngineBroker.set_from_client _ _) in *.
  destruct (MatchingEngineBroker.process b) as [[[]|e] b'] eqn:Hproc; [left|right].
  - destruct Hp as [(_ & Hq & rs & Hto & Ha)|[[=]|[[=] _]]]. split; [done|]. split; [exact Hq|].
    exists (MatchingEngineBroker.to_client (broker p) ++ rs). split; [simpl; by rewrite Hto|].
    destruct Ha as (as' & H1 & H2). exists as'. split; [done|]. by apply sublist_inserts_l.
  - destruct Hp as [[[=] _]|[[= ->]|[[= ->] Htie]]]; [by left|right]. split; [done|].
    exists (acts ++ [Requests]), [], ps, qs. split; [by rewrite <- app_assoc|]. rewrite run_snoc. by split.
Qed.

Lemma every_request_answered_witness :
  let p := demo_run calm_broker_world [MainTurn; MainTurn; MainTurn] in
  length (ClientHandler.to_matching_engine (client_handler p)) = 1%nat ∧
  ∃ rs, answered (MatchingEngineBroker.from_client (broker p) ++ ClientHandler.to_matching_engine (client_handler p)) rs.
Proof.
  intros p. split; [vm_compute; reflexivity|].
  destruct (every_request_answered program_server_world calm_parser_world calm_handler_world calm_broker_world
    (users_of demo_users) 3 [MainTurn; MainTurn; MainTurn]) as [(_ & _ & rs & _ & H)|[H|[H _]]].
  - vm_compute. reflexivity.
  - vm_compute. reflexivity.
  - by exists rs.
  - vm_compute in H. discriminate H.
  - vm_compute in H. discriminate H.
Defined.
